(** * team-cli: the GraphQL subscription client of [internal/gql/gql.go]

    A shallow embedding of the realtime part of package [gql]:
    - [GenerateWSAddr], the derivation of the websocket address;
    - the sub-protocol string that [Subscribe] offers when it dials;
    - the three read loops [initConnection], [start] and [process] and
      [Subscribe], which sequences them around the two callbacks;
    and of what surrounds it:
    - [Execute], the request over HTTP, and its callers [Request] and
      [FetchAccounts] of package [team], with the loop that builds the
      accounts from the policies;
    - the prompts of the command line.

    Go strings are byte strings and are modelled by [string] (a list of
    8-bit [ascii]).  The websocket connection is modelled by the list of
    outcomes of its successive reads and writes, and every observable
    action of the code (a frame sent or read, a log line, a callback
    invocation, a close) is recorded as an event of a trace. *)

From Stdlib Require Import Bool Arith ZArith Lia List Ascii String.

Import ListNotations.

Local Open Scope string_scope.
Local Open Scope Z_scope.

(* ====================================================================== *)
(** * Part I: the program *)

(** ** Package [strings] *)

Module strings.

(** [strings.HasPrefix s p]. *)
Definition HasPrefix (s p : string) : bool := String.prefix p s.

(** [strings.Contains s substr]. *)
Fixpoint Contains (s substr : string) : bool :=
  match s with
  | EmptyString => HasPrefix s substr
  | String _ s' => HasPrefix s substr || Contains s' substr
  end.

(** The loop of [strings.Replace] for a non-empty [old]: [skip] counts the
    bytes of a match that are still to be stepped over, [n] the
    replacements left (a negative [n] means no limit). *)
Fixpoint replace_from (old new : string) (skip : nat) (n : Z) (s : string)
  : string :=
  match s with
  | EmptyString => EmptyString
  | String c s' =>
      match skip with
      | S k => replace_from old new k n s'
      | O =>
          if (n =? 0) then String c (replace_from old new O n s')
          else if HasPrefix s old
               then new ++ replace_from old new (String.length old - 1) (n - 1) s'
               else String c (replace_from old new O n s')
      end
  end.

(** [strings.Replace s old new n], for a non-empty [old]. *)
Definition Replace (s old new : string) (n : Z) : string :=
  if String.eqb old new || (n =? 0) then s
  else replace_from old new O n s.

(** [strings.ReplaceAll s old new]. *)
Definition ReplaceAll (s old new : string) : string := Replace s old new (-1).

(** [strings.ToLower] on ASCII letters. *)
Definition lower_ascii (c : ascii) : ascii :=
  let n := nat_of_ascii c in
  if ((65 <=? n) && (n <=? 90))%nat then ascii_of_nat (n + 32) else c.

Fixpoint ToLower (s : string) : string :=
  match s with
  | EmptyString => EmptyString
  | String c s' => String (lower_ascii c) (ToLower s')
  end.

(** [strings.Cut s sep] for a one-byte separator: the text before the first
    [sep], the text after it, and whether [sep] was found. *)
Fixpoint Cut (s : string) (sep : ascii) : string * string * bool :=
  match s with
  | EmptyString => (EmptyString, EmptyString, false)
  | String c s' =>
      if Ascii.eqb c sep then (EmptyString, s', true)
      else let '(b, a, f) := Cut s' sep in (String c b, a, f)
  end.

(** [strings.Count s sep] for a one-byte separator. *)
Fixpoint Count (s : string) (sep : ascii) : nat :=
  match s with
  | EmptyString => O
  | String c s' => ((if Ascii.eqb c sep then 1 else 0) + Count s' sep)%nat
  end.

(** [strings.HasSuffix s suffix] for a one-byte suffix. *)
Fixpoint HasSuffix1 (s : string) (c : ascii) : bool :=
  match s with
  | EmptyString => false
  | String a EmptyString => Ascii.eqb a c
  | String _ s' => HasSuffix1 s' c
  end.

(** [s[:len(s)-1]]. *)
Fixpoint dropLast (s : string) : string :=
  match s with
  | EmptyString => EmptyString
  | String _ EmptyString => EmptyString
  | String a s' => String a (dropLast s')
  end.

End strings.

(** ** Package [net/url]: the part that [GenerateWSAddr] and [Subscribe] use *)

Module url.

(** [url.URL].  The fields [User], [RawPath] and [RawFragment] are left out:
    they are nil or empty in every URL considered here (no userinfo and no
    percent-escapes). *)
Record URL : Type := mkURL {
  Scheme : string;
  Opaque : string;
  Host : string;
  Path : string;
  OmitHost : bool;
  ForceQuery : bool;
  RawQuery : string;
  Fragment : string
}.

Definition set_Scheme (s : string) (u : URL) : URL :=
  mkURL s (Opaque u) (Host u) (Path u) (OmitHost u) (ForceQuery u)
        (RawQuery u) (Fragment u).

Definition set_Host (h : string) (u : URL) : URL :=
  mkURL (Scheme u) (Opaque u) h (Path u) (OmitHost u) (ForceQuery u)
        (RawQuery u) (Fragment u).

Definition set_Path (p : string) (u : URL) : URL :=
  mkURL (Scheme u) (Opaque u) (Host u) p (OmitHost u) (ForceQuery u)
        (RawQuery u) (Fragment u).

Inductive encoding := encodePath | encodeHost | encodeFragment.

Definition is_alnum (c : ascii) : bool :=
  let n := nat_of_ascii c in
  (((97 <=? n) && (n <=? 122)) || ((65 <=? n) && (n <=? 90))
   || ((48 <=? n) && (n <=? 57)))%nat.

Definition mem_ascii (c : ascii) (s : string) : bool :=
  negb (Nat.eqb (strings.Count s c) 0).

(** [shouldEscape c mode] of net/url, for the three modes used by
    [URL.String]. *)
Definition shouldEscape (c : ascii) (mode : encoding) : bool :=
  if is_alnum c then false
  else if (match mode with encodeHost => true | _ => false end)
          && (mem_ascii c "!$&'()*+,;=:[]<>" || Ascii.eqb c "034")
  then false
  else if mem_ascii c "-_.~" then false
  else if mem_ascii c "$&+,/:;=?@" then
    match mode with
    | encodePath => Ascii.eqb c "?"
    | encodeFragment => false
    | encodeHost => true
    end
  else if (match mode with encodeFragment => true | _ => false end)
          && mem_ascii c "!()*"
  then false
  else true.

Definition upperhex (n : nat) : ascii :=
  match String.get n "0123456789ABCDEF" with
  | Some c => c
  | None => "0"%char
  end.

(** [escape s mode]: percent-encoding of the bytes that [shouldEscape]. *)
Fixpoint escape (s : string) (mode : encoding) : string :=
  match s with
  | EmptyString => EmptyString
  | String c s' =>
      if shouldEscape c mode
      then String "%" (String (upperhex (nat_of_ascii c / 16))
                        (String (upperhex (nat_of_ascii c mod 16))
                           (escape s' mode)))
      else String c (escape s' mode)
  end.

(** [u.EscapedPath()] with an empty [RawPath]. *)
Definition EscapedPath (u : URL) : string :=
  if String.eqb (Path u) "*" then "*" else escape (Path u) encodePath.

Definition nonempty (s : string) : bool := negb (String.eqb s "").

Definition first_byte_is (s : string) (c : ascii) : bool :=
  match s with
  | String a _ => Ascii.eqb a c
  | EmptyString => false
  end.

(** [u.String()] with a nil [User]. *)
Definition String_ (u : URL) : string :=
  let scheme := if nonempty (Scheme u) then Scheme u ++ ":" else "" in
  let body :=
    if nonempty (Opaque u) then scheme ++ Opaque u
    else
      let authority :=
        if nonempty (Scheme u) || nonempty (Host u) then
          if OmitHost u && negb (nonempty (Host u)) then ""
          else (if nonempty (Host u) || nonempty (Path u) then "//" else "")
               ++ (if nonempty (Host u) then escape (Host u) encodeHost else "")
        else "" in
      let path := EscapedPath u in
      let slash :=
        if nonempty path && negb (first_byte_is path "/") && nonempty (Host u)
        then "/" else "" in
      let buf := scheme ++ authority ++ slash in
      let dot :=
        if negb (nonempty buf)
           && strings.Contains (fst (fst (strings.Cut path "/"))) ":"
        then "./" else "" in
      buf ++ dot ++ path in
  body
  ++ (if ForceQuery u || nonempty (RawQuery u) then "?" ++ RawQuery u else "")
  ++ (if nonempty (Fragment u) then "#" ++ escape (Fragment u) encodeFragment
      else "").

Definition is_digit (c : ascii) : bool :=
  let n := nat_of_ascii c in ((48 <=? n) && (n <=? 57))%nat.

Fixpoint all_digits (s : string) : bool :=
  match s with
  | EmptyString => true
  | String c s' => is_digit c && all_digits s'
  end.

(** The text before and the text after the last [sep] of [s]. *)
Fixpoint cut_last (s : string) (sep : ascii) : option (string * string) :=
  match s with
  | EmptyString => None
  | String c s' =>
      match cut_last s' sep with
      | Some (b, a) => Some (String c b, a)
      | None => if Ascii.eqb c sep then Some (EmptyString, s') else None
      end
  end.

(** [validOptionalPort] applied to the text from the last colon on: the text
    after the colon is made of digits. *)
Definition valid_port (host : string) : bool :=
  match cut_last host ":" with
  | None => true
  | Some (_, p) => all_digits p
  end.

(** [u.Hostname()]: the host without a valid port and without the brackets
    of an IPv6 literal. *)
Definition Hostname (u : URL) : string :=
  let host :=
    match cut_last (Host u) ":" with
    | Some (h, p) => if all_digits p then h else Host u
    | None => Host u
    end in
  if first_byte_is host "[" && strings.HasSuffix1 host "]"
  then match host with
       | String _ r => strings.dropLast r
       | EmptyString => EmptyString
       end
  else host.

End url.

(** [url.Parse] on the URLs that need none of the fields left out of [URL]:
    no userinfo, no percent-escape, no IPv6 literal, and a path and a fragment
    that [escape] leaves as they are.  [None] stands for an error of
    [url.Parse] or for a URL outside this fragment. *)
Module url_parse.

Import url.

(** [stringContainsCTLByte]. *)
Fixpoint stringContainsCTLByte (s : string) : bool :=
  match s with
  | EmptyString => false
  | String c s' =>
      ((nat_of_ascii c <? 32) || (nat_of_ascii c =? 127))%nat
      || stringContainsCTLByte s'
  end.

Definition is_alpha (c : ascii) : bool :=
  let n := nat_of_ascii c in
  (((97 <=? n) && (n <=? 122)) || ((65 <=? n) && (n <=? 90)))%nat.

(** The loop of [getScheme]: [i] is the index of the first byte of [s] in
    [rawURL], [acc] the bytes before it.  The result is the
    scheme and the rest, or [None] for the error [missing protocol scheme]. *)
Fixpoint getScheme_from (rawURL : string) (i : nat) (acc : string) (s : string)
  : option (string * string) :=
  match s with
  | EmptyString => Some (EmptyString, rawURL)
  | String c s' =>
      if is_alpha c then getScheme_from rawURL (S i) (acc ++ String c "") s'
      else if is_digit c || mem_ascii c "+-." then
        if (i =? 0)%nat then Some (EmptyString, rawURL)
        else getScheme_from rawURL (S i) (acc ++ String c "") s'
      else if Ascii.eqb c ":" then
        if (i =? 0)%nat then None else Some (acc, s')
      else Some (EmptyString, rawURL)
  end.

Definition getScheme (rawURL : string) : option (string * string) :=
  getScheme_from rawURL O EmptyString rawURL.

(** No byte of the host is one that [unescape] refuses or decodes. *)
Fixpoint host_bytes_ok (s : string) : bool :=
  match s with
  | EmptyString => true
  | String c s' =>
      negb (Ascii.eqb c "%")
      && ((128 <=? nat_of_ascii c)%nat || negb (shouldEscape c encodeHost))
      && host_bytes_ok s'
  end.

(** [parseAuthority] without userinfo and without IPv6 literal. *)
Definition parseAuthority (authority : string) : option string :=
  if mem_ascii "@" authority || first_byte_is authority "["
     || negb (valid_port authority) || negb (host_bytes_ok authority)
  then None else Some authority.

(** [parse rawURL false]. *)
Definition parse (rawURL : string) : option URL :=
  if stringContainsCTLByte rawURL then None
  else if String.eqb rawURL "*"
  then Some (mkURL "" "" "" "*" false false "" "")
  else
    match getScheme rawURL with
    | None => None
    | Some (scheme0, rest0) =>
        let scheme := strings.ToLower scheme0 in
        let '(rest, rawQuery, forceQuery) :=
          if strings.HasSuffix1 rest0 "?" && (strings.Count rest0 "?" =? 1)%nat
          then (strings.dropLast rest0, EmptyString, true)
          else let '(b, a, _) := strings.Cut rest0 "?" in (b, a, false) in
        if negb (first_byte_is rest "/") && nonempty scheme
        then Some (mkURL scheme rest "" "" false forceQuery rawQuery "")
        else if negb (first_byte_is rest "/")
                && strings.Contains (fst (fst (strings.Cut rest "/"))) ":"
        then None
        else
          let with_path (host : string) (omit : bool) (p : string) :=
            if mem_ascii "%" p || negb (String.eqb (escape p encodePath) p)
            then None
            else Some (mkURL scheme "" host p omit forceQuery rawQuery "") in
          if (nonempty scheme || negb (strings.HasPrefix rest "///"))
             && strings.HasPrefix rest "//"
          then
            let '(authority, tail, found) :=
              strings.Cut (String.substring 2 (String.length rest) rest) "/" in
            match parseAuthority authority with
            | None => None
            | Some host =>
                with_path host false (if found then String "/" tail else "")
            end
          else with_path "" (nonempty scheme && first_byte_is rest "/") rest
    end.

(** [url.Parse rawURL]. *)
Definition Parse (rawURL : string) : option URL :=
  let '(u, frag, _) := strings.Cut rawURL "#" in
  match parse u with
  | None => None
  | Some url =>
      if String.eqb frag "" then Some url
      else if mem_ascii "%" frag
              || negb (String.eqb (escape frag encodeFragment) frag)
      then None
      else Some (mkURL (Scheme url) (Opaque url) (Host url) (Path url)
                       (OmitHost url) (ForceQuery url) (RawQuery url) frag)
  end.

End url_parse.

(** ** [GenerateWSAddr] *)

(** The test on the host. *)
Definition isAppSync (host : string) : bool :=
  strings.Contains host ".appsync-api." && strings.Contains host ".amazonaws.".

(** The function receives a pointer and assigns to the fields of the URL it
    points to; the model returns the string together with the URL as the
    call leaves it. *)
Definition GenerateWSAddr (u : url.URL) : string * url.URL :=
  let u1 :=
    if isAppSync (url.Host u)
    then url.set_Host
           (strings.Replace (url.Host u) ".appsync-api." ".appsync-realtime-api." 1) u
    else url.set_Path (url.Path u ++ "/realtime") u in
  let u2 :=
    if String.eqb (url.Scheme u1) "https"
    then url.set_Scheme "wss" u1
    else url.set_Scheme "ws" u1 in
  (url.String_ u2, u2).

(** The two endpoints of the specification, as [url.Parse] returns them. *)
Definition svc_url : url.URL :=
  url.mkURL "https" "" "svc.example.com" "" false false "" "".

Definition appsync_url : url.URL :=
  url.mkURL "https" "" "x.appsync-api.us-east-1.amazonaws.com" "/graphql"
        false false "" "".

(** ** Bytes *)

(** The value of a byte, and the byte of a value below 256. *)
Definition byte (c : ascii) : Z := Z.of_N (N_of_ascii c).

Definition chr (z : Z) : ascii := ascii_of_N (Z.to_N z).

(** [s[i]], read inside the bounds of [s]. *)
Definition at_ (s : string) (i : nat) : Z :=
  match String.get i s with
  | Some c => byte c
  | None => 0
  end.

(** [s[:n]] and [s[n:]], cut at the end of [s]. *)
Fixpoint take (n : nat) (s : string) : string :=
  match n, s with
  | S k, String c t => String c (take k t)
  | _, _ => EmptyString
  end.

Fixpoint drop (n : nat) (s : string) : string :=
  match n, s with
  | S k, String _ t => drop k t
  | _, _ => s
  end.

(** ** Package [unicode/utf8] *)

Module utf8.

Definition RuneError : Z := 0xFFFD.

Definition RuneSelf : Z := 0x80.

Definition UTFMax : nat := 4.

Definition maskx : Z := 0x3F.

Definition mask2 : Z := 0x1F.

Definition mask3 : Z := 0x0F.

Definition mask4 : Z := 0x07.

Definition locb : Z := 0x80.

Definition hicb : Z := 0xBF.

(** The table [first]: information about the first byte of an encoding. *)
Definition first (b : Z) : Z :=
  if b <? 0x80 then 0xF0
  else if b <? 0xC2 then 0xF1
  else if b <? 0xE0 then 0x02
  else if b =? 0xE0 then 0x13
  else if b <? 0xED then 0x03
  else if b =? 0xED then 0x23
  else if b <? 0xF0 then 0x03
  else if b =? 0xF0 then 0x34
  else if b <? 0xF4 then 0x04
  else if b =? 0xF4 then 0x44
  else 0xF1.

(** The table [acceptRanges]: the range of the second byte. *)
Definition acceptRanges (i : Z) : Z * Z :=
  if i =? 0 then (locb, hicb)
  else if i =? 1 then (0xA0, hicb)
  else if i =? 2 then (locb, 0x9F)
  else if i =? 3 then (0x90, hicb)
  else if i =? 4 then (locb, 0x8F)
  else (0, 0).

(** [utf8.DecodeRuneInString]: the rune at the head of [s] and its width. *)
Definition DecodeRuneInString (s : string) : Z * nat :=
  let n := String.length s in
  if (n <? 1)%nat then (RuneError, O)
  else
    let s0 := at_ s 0 in
    let x := first s0 in
    if x >=? 0xF0 then
      ((if Z.testbit x 0 then RuneError else s0), 1%nat)
    else
      let sz := Z.to_nat (Z.land x 7) in
      let accept := acceptRanges (Z.shiftr x 4) in
      if (n <? sz)%nat then (RuneError, 1%nat)
      else
        let s1 := at_ s 1 in
        if (s1 <? fst accept) || (snd accept <? s1) then (RuneError, 1%nat)
        else if (sz <=? 2)%nat then
          (Z.lor (Z.shiftl (Z.land s0 mask2) 6) (Z.land s1 maskx), 2%nat)
        else
          let s2 := at_ s 2 in
          if (s2 <? locb) || (hicb <? s2) then (RuneError, 1%nat)
          else if (sz <=? 3)%nat then
            (Z.lor (Z.lor (Z.shiftl (Z.land s0 mask3) 12)
                          (Z.shiftl (Z.land s1 maskx) 6))
                   (Z.land s2 maskx), 3%nat)
          else
            let s3 := at_ s 3 in
            if (s3 <? locb) || (hicb <? s3) then (RuneError, 1%nat)
            else
              (Z.lor (Z.lor (Z.lor (Z.shiftl (Z.land s0 mask4) 18)
                                   (Z.shiftl (Z.land s1 maskx) 12))
                            (Z.shiftl (Z.land s2 maskx) 6))
                     (Z.land s3 maskx), 4%nat).

(** [utf8.ValidString]: no rune of [s] decodes to an encoding error.  [skip]
    counts the bytes of the current rune still to be stepped over. *)
Fixpoint valid_from (skip : nat) (s : string) : bool :=
  match s with
  | EmptyString => true
  | String c t =>
      match skip with
      | S k => valid_from k t
      | O =>
          if byte c <? RuneSelf then valid_from O t
          else
            let '(r, size) := DecodeRuneInString s in
            if (size =? 1)%nat then false else valid_from (size - 1) t
      end
  end.

Definition ValidString (s : string) : bool := valid_from O s.

(** [utf8.AppendRune]: the encoding of a rune. *)
Definition EncodeRune (r : Z) : string :=
  let enc3 (r : Z) :=
    String (chr (Z.lor 0xE0 (Z.shiftr r 12)))
      (String (chr (Z.lor 0x80 (Z.land (Z.shiftr r 6) maskx)))
         (String (chr (Z.lor 0x80 (Z.land r maskx))) EmptyString)) in
  if (0 <=? r) && (r <=? 0x7F) then String (chr r) EmptyString
  else if (0 <=? r) && (r <=? 0x7FF) then
    String (chr (Z.lor 0xC0 (Z.shiftr r 6)))
      (String (chr (Z.lor 0x80 (Z.land r maskx))) EmptyString)
  else if (r <? 0) || (0x10FFFF <? r) || ((0xD800 <=? r) && (r <=? 0xDFFF))
  then enc3 RuneError
  else if r <=? 0xFFFF then enc3 r
  else
    String (chr (Z.lor 0xF0 (Z.shiftr r 18)))
      (String (chr (Z.lor 0x80 (Z.land (Z.shiftr r 12) maskx)))
         (String (chr (Z.lor 0x80 (Z.land (Z.shiftr r 6) maskx)))
            (String (chr (Z.lor 0x80 (Z.land r maskx))) EmptyString))).

End utf8.

(** What [DecodeRuneInString] returns on a string whose first byte is not
    ASCII: an encoding error of width one, or a rune of two, three or four
    bytes, none of them ASCII. *)
Inductive decoded (c0 : ascii) (t : string) : Z -> nat -> Prop :=
| decoded_error : decoded c0 t utf8.RuneError 1
| decoded_two (c1 : ascii) (t1 : string) (r : Z) :
    t = String c1 t1 -> 0x80 <= byte c1 -> r < 0x800 ->
    decoded c0 t r 2
| decoded_three (c1 c2 : ascii) (t2 : string) (r : Z) :
    t = String c1 (String c2 t2) ->
    0xE0 <= byte c0 <= 0xEF -> 0x80 <= byte c1 <= 0xBF ->
    0x80 <= byte c2 <= 0xBF ->
    r = (byte c0 mod 16) * 4096 + (byte c1 mod 64) * 64 + byte c2 mod 64 ->
    decoded c0 t r 3
| decoded_four (c1 c2 c3 : ascii) (t3 : string) (r : Z) :
    t = String c1 (String c2 (String c3 t3)) ->
    0x80 <= byte c1 -> 0x80 <= byte c2 -> 0x80 <= byte c3 ->
    0x10000 <= r ->
    decoded c0 t r 4.

(** ** Package [encoding/json]: strings and maps of strings *)

Module json.

Definition dquote : ascii := "034"%char.

Definition backslash : ascii := "\"%char.

Definition hex (n : Z) : ascii :=
  match String.get (Z.to_nat n) "0123456789abcdef" with
  | Some c => c
  | None => "0"%char
  end.

(** [htmlSafeSet[b]] for a byte below [utf8.RuneSelf]. *)
Definition htmlSafe (b : Z) : bool :=
  (0x20 <=? b) && negb (b =? 0x22) && negb (b =? 0x5C)
  && negb (b =? 0x3C) && negb (b =? 0x3E) && negb (b =? 0x26).

(** What [appendString] writes for a byte below [utf8.RuneSelf] that is not
    in [htmlSafeSet]. *)
Definition escape_byte (c : ascii) : string :=
  let b := byte c in
  if (b =? 0x5C) || (b =? 0x22) then String backslash (String c EmptyString)
  else if b =? 0x08 then String backslash "b"
  else if b =? 0x0C then String backslash "f"
  else if b =? 0x0A then String backslash "n"
  else if b =? 0x0D then String backslash "r"
  else if b =? 0x09 then String backslash "t"
  else String backslash
         (String "u" (String "0" (String "0"
            (String (hex (Z.shiftr b 4))
               (String (hex (Z.land b 0xF)) EmptyString))))).

(** The loop of [appendString] with [escapeHTML] set, between the two quotes.
    [skip] counts the bytes of the rune just handled that the index steps
    over ([i += size]). *)
Fixpoint appendString_from (skip : nat) (src : string) : string :=
  match src with
  | EmptyString => EmptyString
  | String c t =>
      match skip with
      | S k => appendString_from k t
      | O =>
          let b := byte c in
          if b <? utf8.RuneSelf then
            if htmlSafe b then String c (appendString_from O t)
            else escape_byte c ++ appendString_from O t
          else
            let '(r, size) := utf8.DecodeRuneInString (take utf8.UTFMax src) in
            if (r =? utf8.RuneError) && (size =? 1)%nat then
              String backslash "ufffd" ++ appendString_from O t
            else if (r =? 0x2028) || (r =? 0x2029) then
              String backslash
                (String "u" (String "2" (String "0" (String "2"
                   (String (hex (Z.land r 0xF)) EmptyString)))))
              ++ appendString_from (size - 1) t
            else take size src ++ appendString_from (size - 1) t
      end
  end.

(** [appendString dst src true] on an empty [dst]. *)
Definition appendString (src : string) : string :=
  String dquote (appendString_from O src ++ String dquote EmptyString).

(** [json.Marshal] of a Go string. *)
Definition Marshal_string (s : string) : string := appendString s.

(** A [map[string]string] is the list of its entries, one per key. *)
Definition map_string := list (string * string).

Fixpoint insert_sorted (kv : string * string) (l : map_string) : map_string :=
  match l with
  | [] => [kv]
  | kv' :: l' =>
      if String.leb (fst kv) (fst kv') then kv :: l
      else kv' :: insert_sorted kv l'
  end.

(** The entries in the order of their keys, as the map encoder sorts them. *)
Definition sort_keys (m : map_string) : map_string :=
  fold_right insert_sorted [] m.

Fixpoint members (l : map_string) : string :=
  match l with
  | [] => EmptyString
  | (k, v) :: l' =>
      appendString k ++ ":" ++ appendString v
      ++ (match l' with [] => EmptyString | _ => "," ++ members l' end)
  end.

(** [json.Marshal] of a non-nil [map[string]string]. *)
Definition Marshal_map (m : map_string) : string :=
  "{" ++ members (sort_keys m) ++ "}".

End json.

(** The entries of a map that are valid UTF-8. *)
Definition valid_entry (kv : string * string) : Prop :=
  utf8.ValidString (fst kv) = true /\ utf8.ValidString (snd kv) = true.

(** Parsing JSON: an object whose values are strings. *)
Module json_parse.

Import json.

Definition hexval (c : ascii) : option Z :=
  let b := byte c in
  if (0x30 <=? b) && (b <=? 0x39) then Some (b - 0x30)
  else if (0x61 <=? b) && (b <=? 0x66) then Some (b - 0x61 + 10)
  else if (0x41 <=? b) && (b <=? 0x46) then Some (b - 0x41 + 10)
  else None.

(** The number written by four hexadecimal digits. *)
Definition hex4 (h1 h2 h3 h4 : ascii) : option Z :=
  match hexval h1, hexval h2, hexval h3, hexval h4 with
  | Some a, Some b, Some c, Some d => Some (((a * 16 + b) * 16 + c) * 16 + d)
  | _, _, _, _ => None
  end.

(** The byte that a one-letter escape stands for. *)
Definition simple_escape (e : ascii) : option ascii :=
  let b := byte e in
  if b =? 0x22 then Some dquote
  else if b =? 0x5C then Some backslash
  else if b =? 0x2F then Some "/"%char
  else if b =? 0x62 then Some (chr 0x08)
  else if b =? 0x66 then Some (chr 0x0C)
  else if b =? 0x6E then Some (chr 0x0A)
  else if b =? 0x72 then Some (chr 0x0D)
  else if b =? 0x74 then Some (chr 0x09)
  else None.

Definition prepend (pre : string) (r : option (string * string))
  : option (string * string) :=
  match r with
  | Some (d, rest) => Some ((pre ++ d)%string, rest)
  | None => None
  end.

Definition is_surrogate (r : Z) : bool := (0xD800 <=? r) && (r <? 0xE000).

(** [utf16.DecodeRune]: the rune of a surrogate pair, or the replacement
    rune. *)
Definition utf16_DecodeRune (r1 r2 : Z) : Z :=
  if (0xD800 <=? r1) && (r1 <? 0xDC00) && (0xDC00 <=? r2) && (r2 <? 0xE000)
  then Z.lor (Z.shiftl (r1 - 0xD800) 10) (r2 - 0xDC00) + 0x10000
  else utf8.RuneError.

(** The text of a JSON string, read from after its opening quote: the bytes
    it stands for, and what follows its closing quote.  An escape [\uXXXX]
    stands for the UTF-8 encoding of its rune, a pair of surrogate escapes
    for the rune of the pair, and a surrogate alone for the replacement
    rune. *)
Fixpoint unquote_from (s : string) : option (string * string) :=
  match s with
  | EmptyString => None
  | String c t =>
      if Ascii.eqb c dquote then Some (EmptyString, t)
      else if Ascii.eqb c backslash then
        match t with
        | EmptyString => None
        | String e t1 =>
            if Ascii.eqb e "u" then
              match t1 with
              | String h1 (String h2 (String h3 (String h4 t2))) =>
                  match hex4 h1 h2 h3 h4 with
                  | None => None
                  | Some r =>
                      if is_surrogate r then
                        match t2 with
                        | String b1 (String u1 (String g1 (String g2
                            (String g3 (String g4 t3))))) =>
                            match (if Ascii.eqb b1 backslash && Ascii.eqb u1 "u"
                                   then hex4 g1 g2 g3 g4 else None) with
                            | Some r2 =>
                                if utf16_DecodeRune r r2 =? utf8.RuneError
                                then prepend (utf8.EncodeRune utf8.RuneError)
                                             (unquote_from t2)
                                else prepend (utf8.EncodeRune
                                                (utf16_DecodeRune r r2))
                                             (unquote_from t3)
                            | None =>
                                prepend (utf8.EncodeRune utf8.RuneError)
                                        (unquote_from t2)
                            end
                        | _ => prepend (utf8.EncodeRune utf8.RuneError)
                                       (unquote_from t2)
                        end
                      else prepend (utf8.EncodeRune r) (unquote_from t2)
                  end
              | _ => None
              end
            else
              match simple_escape e with
              | Some ch => prepend (String ch EmptyString) (unquote_from t1)
              | None => None
              end
        end
      else if byte c <? 0x20 then None
      else prepend (String c EmptyString) (unquote_from t)
  end.

(** The members of an object, read from after its opening brace, up to the
    closing brace that ends the text. *)
Fixpoint parse_members (fuel : nat) (s : string) : option map_string :=
  match fuel with
  | O => None
  | S fuel' =>
      match s with
      | String q t =>
          if Ascii.eqb q dquote then
            match unquote_from t with
            | Some (k, String colon (String q' t')) =>
                if Ascii.eqb colon ":" && Ascii.eqb q' dquote then
                  match unquote_from t' with
                  | Some (v, String sep rest) =>
                      if Ascii.eqb sep "}" then
                        if String.eqb rest EmptyString then Some [(k, v)]
                        else None
                      else if Ascii.eqb sep "," then
                        option_map (cons (k, v)) (parse_members fuel' rest)
                      else None
                  | _ => None
                  end
                else None
            | _ => None
            end
          else None
      | EmptyString => None
      end
  end.

(** [json.Unmarshal] of a compact object into a [map[string]string]. *)
Definition Unmarshal_map (s : string) : option map_string :=
  match s with
  | String open t =>
      if Ascii.eqb open "{" then
        if String.eqb t "}" then Some []
        else parse_members (String.length t) t
      else None
  | EmptyString => None
  end.

(** The value under a key. *)
Fixpoint lookup (k : string) (m : map_string) : option string :=
  match m with
  | [] => None
  | (k', v) :: m' => if String.eqb k k' then Some v else lookup k m'
  end.

End json_parse.

(** Every byte of the string is outside ASCII. *)
Fixpoint all_high (s : string) : Prop :=
  match s with
  | EmptyString => True
  | String c t => 0x80 <= byte c /\ all_high t
  end.

(** ** Package [encoding/base64] *)

Module base64.

Definition encodeURL : string :=
  "ABCDEFGHIJKLMNOPQRSTUVWXYZabcdefghijklmnopqrstuvwxyz0123456789-_".

Definition StdPadding : ascii := "="%char.

(** [enc.encode[v]] for the URL alphabet. *)
Definition encode_char (v : Z) : ascii :=
  match String.get (Z.to_nat v) encodeURL with
  | Some c => c
  | None => "A"%char
  end.

(** [Encoding.Encode]: three bytes at a time, then the one or two left over;
    [pad] tells whether the encoding pads with [StdPadding]. *)
Fixpoint Encode (pad : bool) (src : string) : string :=
  match src with
  | EmptyString => EmptyString
  | String c0 (String c1 (String c2 rest)) =>
      let val := Z.lor (Z.lor (Z.shiftl (byte c0) 16) (Z.shiftl (byte c1) 8))
                       (byte c2) in
      String (encode_char (Z.land (Z.shiftr val 18) 0x3F))
        (String (encode_char (Z.land (Z.shiftr val 12) 0x3F))
           (String (encode_char (Z.land (Z.shiftr val 6) 0x3F))
              (String (encode_char (Z.land val 0x3F)) (Encode pad rest))))
  | String c0 (String c1 EmptyString) =>
      let val := Z.lor (Z.shiftl (byte c0) 16) (Z.shiftl (byte c1) 8) in
      String (encode_char (Z.land (Z.shiftr val 18) 0x3F))
        (String (encode_char (Z.land (Z.shiftr val 12) 0x3F))
           (String (encode_char (Z.land (Z.shiftr val 6) 0x3F))
              (if pad then String StdPadding EmptyString else EmptyString)))
  | String c0 EmptyString =>
      let val := Z.shiftl (byte c0) 16 in
      String (encode_char (Z.land (Z.shiftr val 18) 0x3F))
        (String (encode_char (Z.land (Z.shiftr val 12) 0x3F))
           (if pad then String StdPadding (String StdPadding EmptyString)
            else EmptyString))
  end.

(** [base64.URLEncoding.EncodeToString] and
    [base64.RawURLEncoding.EncodeToString]. *)
Definition URLEncoding_EncodeToString : string -> string := Encode true.

Definition RawURLEncoding_EncodeToString : string -> string := Encode false.

End base64.

(** Decoding base64. *)
Module base64_decode.

Import base64.

(** The index of [c] in the alphabet [s], counted from [i]. *)
Fixpoint index_from (c : ascii) (s : string) (i : Z) : option Z :=
  match s with
  | EmptyString => None
  | String a s' => if Ascii.eqb a c then Some i else index_from c s' (i + 1)
  end.

(** [enc.decodeMap[c]] for the URL alphabet; [None] for a byte outside it. *)
Definition decode_char (c : ascii) : option Z := index_from c encodeURL 0.

Definition byte_of (val : Z) (shift : Z) : ascii :=
  chr (Z.land (Z.shiftr val shift) 0xFF).

(** [base64.RawURLEncoding.DecodeString]: four characters give three bytes,
    three give two, two give one; one character left over, or a character
    outside the alphabet, is an error. *)
Fixpoint Decode (s : string) : option string :=
  match s with
  | EmptyString => Some EmptyString
  | String a (String b (String c (String d rest))) =>
      match decode_char a, decode_char b, decode_char c, decode_char d,
            Decode rest with
      | Some va, Some vb, Some vc, Some vd, Some r =>
          let val := Z.lor (Z.lor (Z.lor (Z.shiftl va 18) (Z.shiftl vb 12))
                                  (Z.shiftl vc 6)) vd in
          Some (String (byte_of val 16)
                  (String (byte_of val 8) (String (byte_of val 0) r)))
      | _, _, _, _, _ => None
      end
  | String a (String b (String c EmptyString)) =>
      match decode_char a, decode_char b, decode_char c with
      | Some va, Some vb, Some vc =>
          let val := Z.lor (Z.lor (Z.shiftl va 18) (Z.shiftl vb 12))
                           (Z.shiftl vc 6) in
          Some (String (byte_of val 16) (String (byte_of val 8) EmptyString))
      | _, _, _ => None
      end
  | String a (String b EmptyString) =>
      match decode_char a, decode_char b with
      | Some va, Some vb =>
          let val := Z.lor (Z.shiftl va 18) (Z.shiftl vb 12) in
          Some (String (byte_of val 16) EmptyString)
      | _, _ => None
      end
  | String _ EmptyString => None
  end.

End base64_decode.

(** ** The sub-protocol of [Subscribe] *)

(** The map [authExt] that [Subscribe] builds. *)
Definition authExt (hostname accessToken : string) : json.map_string :=
  [("host", hostname); ("Authorization", accessToken)].

(** The string [subprotocol] that [Subscribe] offers to the server. *)
Definition subprotocol (hostname accessToken : string) : string :=
  "header-"
  ++ strings.ReplaceAll
       (base64.URLEncoding_EncodeToString
          (json.Marshal_map (authExt hostname accessToken)))
       "=" "".

(** What the server reads in the sub-protocol: the text after [header-] is
    decoded from base64url and parsed as a JSON object. *)
Definition decode_subprotocol (p : string) : option json.map_string :=
  if strings.HasPrefix p "header-" then
    match base64_decode.Decode (drop 7 p) with
    | Some text => json_parse.Unmarshal_map text
    | None => None
    end
  else None.

(** A credential that is not valid UTF-8: the single byte FF, and the single
    byte FE. *)
Definition byte_FF : string := String (chr 0xFF) EmptyString.

Definition byte_FE : string := String (chr 0xFE) EmptyString.

(** The encoding of the replacement rune. *)
Definition replacement : string :=
  String (chr 0xEF) (String (chr 0xBF) (String (chr 0xBD) EmptyString)).

(** ** Package [gql]: messages, errors and the connection *)

Local Open Scope list_scope.

Record wsError : Type := mkWsError { ErrorType : string }.

Record PayloadExtensions : Type := mkExtensions {
  Authorization : json.map_string
}.

(** [Errors] is a slice of pointers: an element may be nil. *)
Record Payload : Type := mkPayload {
  Data : string;
  Extensions : option PayloadExtensions;
  Errors : list (option wsError)
}.

(** [Payload_] is a pointer: [None] is the nil of a frame without payload. *)
Record wsMessage : Type := mkMsg {
  Type_ : string;
  Payload_ : option Payload;
  ID : string
}.

(** Go errors: the sentinel of the package, an error of a library or of a
    callback, and [fmt.Errorf] with one [%w] verb (and, for [ErrorfQ], one
    [%q] verb that prints a payload pointer). *)
Inductive error : Type :=
| ErrUnexpected
| LibError (msg : string)
| Errorf (format : string) (wrapped : error)
| ErrorfQ (format : string) (wrapped : error) (p : option Payload).

(** [errors.Is e ErrUnexpected]. *)
Fixpoint Is_ErrUnexpected (e : error) : bool :=
  match e with
  | ErrUnexpected => true
  | LibError _ => false
  | Errorf _ w => Is_ErrUnexpected w
  | ErrorfQ _ w _ => Is_ErrUnexpected w
  end.

(** [context.Context]: the background context, and the children made by
    [context.WithCancel]; [scope] names the cancel function of a child. *)
Inductive Context : Type :=
| Background
| WithCancel (parent : Context) (scope : nat).

(** Whether [c] is done once the scopes in [cancelled] are cancelled: a
    context is done when its own scope or one above it is. *)
Fixpoint Done (cancelled : nat -> bool) (c : Context) : bool :=
  match c with
  | Background => false
  | WithCancel parent scope => cancelled scope || Done cancelled parent
  end.

(** What one call of [s.read] finds on the connection. *)
Inductive ReadOutcome : Type :=
| ReadFrame (m : option wsMessage)
    (* a frame was decoded; [None]: the frame was JSON null, [res] stays nil *)
| ReadError (e : error)
    (* [ReadJSON] failed: closed connection, deadline, malformed frame *)
| ReadDeadlineError (e : error)
    (* [SetReadDeadline] failed *)
| ReadCancelled (e : error)
    (* the context was cancelled, the watcher goroutine closed the
       connection, and [ReadJSON] failed *)
| ReadDeadlineCancelled (e : error).
    (* the context was cancelled and the watcher goroutine closed the
       connection before the read began: [SetReadDeadline] failed on the
       closed connection *)

(** What one call of [s.send] finds on the connection. *)
Inductive WriteOutcome : Type :=
| WriteOk
| WriteError (e : error)
| WriteDeadlineError (e : error)
| WriteCancelled (e : error).

Inductive Level : Type := LevelDebug | LevelWarn.

Inductive LogValue : Type :=
| VString (s : string)
| VWsError (e : option wsError).

(** Who closes the connection: the deferred call of [Subscribe] or the
    goroutine that waits for [ctx.Done()]. *)
Inductive Closer : Type := Deferred | Watcher.

(** The observable actions of [Subscribe]. *)
Inductive Event : Type :=
| EvDial (addr : string) (protocols : list string)
| EvWrite (m : wsMessage)
| EvRead (r : ReadOutcome)
| EvLog (level : Level) (msg : string) (attrs : list (string * LogValue))
| EvOnReady (c : Context)
| EvOnData (c : Context) (p : Payload)
| EvClose (who : Closer)
| EvCancel.

(** How a function ends: it returns its [error] result, or it panics. *)
Inductive Result : Type :=
| Returned (err : option error)
| Panicked (msg : string).

Definition nil_dereference : string :=
  "invalid memory address or nil pointer dereference".

(** A run of one of the loops: its end, the events in order, and the read
    outcomes it has not consumed. *)
Record Run : Type := mkRun {
  result : Result;
  events : list Event;
  unread : list ReadOutcome
}.

Definition emit (evs : list Event) (r : Run) : Run :=
  mkRun (result r) (evs ++ events r) (unread r).

(** [s.read()].  A close by the watcher goroutine is recorded where the code
    meets it: before the read that fails because of it. *)
Definition read (r : ReadOutcome) : list Event * option wsMessage * option error :=
  match r with
  | ReadDeadlineError e =>
      ([EvRead r], None, Some (Errorf "failed to set read deadline: %w" e))
  | ReadError e =>
      ([EvRead r], None, Some (Errorf "failed to read JSON: %w" e))
  | ReadCancelled e =>
      ([EvClose Watcher; EvRead r], None, Some (Errorf "failed to read JSON: %w" e))
  | ReadDeadlineCancelled e =>
      ([EvClose Watcher; EvRead r], None,
       Some (Errorf "failed to set read deadline: %w" e))
  | ReadFrame m => ([EvRead r], m, None)
  end.

(** [s.send(msg)]. *)
Definition send (w : WriteOutcome) (msg : wsMessage) : list Event * option error :=
  match w with
  | WriteDeadlineError e =>
      ([], Some (Errorf "failed to set write deadline: %w" e))
  | WriteError e =>
      ([EvWrite msg], Some (Errorf "failed to write JSON: %w" e))
  | WriteCancelled e =>
      ([EvClose Watcher; EvWrite msg], Some (Errorf "failed to write JSON: %w" e))
  | WriteOk => ([EvWrite msg], None)
  end.

(** When the peer sends nothing more, the read deadline passes and
    [ReadJSON] fails. *)
Definition idle : ReadOutcome := ReadError (LibError "i/o timeout").

Definition read_failed (evs : list Event) (e : error) (rest : list ReadOutcome)
  : Run :=
  mkRun (Returned (Some (Errorf "failed to read packet: %w" e))) evs rest.

(** The run of a loop whose read finds nothing before the deadline. *)
Definition idle_run : Run :=
  read_failed [EvRead idle]
    (Errorf "failed to read JSON: %w" (LibError "i/o timeout")) [].

Definition unexpected_packet (pkt : wsMessage) : Event :=
  EvLog LevelWarn "Received unexpected packet" [("type", VString (Type_ pkt))].

Definition websocket_errors (p : Payload) : list Event :=
  map (fun e => EvLog LevelWarn "Received websocket error" [("error", VWsError e)])
      (Errors p).

(** ** [initConnection] *)

(** The loop of [initConnection], over the outcomes of the reads to come. *)
Fixpoint initConnection_loop (reads : list ReadOutcome) : Run :=
  match reads with
  | [] => idle_run
  | r :: rest =>
      let '(evs, pkt, err) := read r in
      match err with
      | Some e => read_failed evs e rest
      | None =>
          match pkt with
          | None => mkRun (Panicked nil_dereference) evs rest
          | Some pkt =>
              if String.eqb (Type_ pkt) "connection_ack"
              then mkRun (Returned None) evs rest
              else if String.eqb (Type_ pkt) "connection_error"
              then mkRun (Returned (Some
                       (ErrorfQ "%w: connection error: %q" ErrUnexpected
                                (Payload_ pkt)))) evs rest
              else emit (evs ++ [unexpected_packet pkt])
                        (initConnection_loop rest)
          end
      end
  end.

Definition connection_init : wsMessage := mkMsg "connection_init" None "".

Definition initConnection (w : WriteOutcome) (reads : list ReadOutcome) : Run :=
  let '(evs, err) := send w connection_init in
  match err with
  | Some e =>
      mkRun (Returned (Some (Errorf "failed to send connection_init: %w" e)))
            evs reads
  | None => emit evs (initConnection_loop reads)
  end.

(** ** [start], [process] and [Subscribe] *)

Section Subscription.

(** The type behind [*Request] with its encoding by [json.Marshal], and the
    state that the two callbacks of the caller close over. *)
Variable Request : Type.

Variable Marshal_Request : Request -> string + error.

Variable H : Type.

(** The loop of [start]. *)
Fixpoint start_loop (reqID : string) (reads : list ReadOutcome) : Run :=
  match reads with
  | [] => idle_run
  | r :: rest =>
      let '(evs, pkt, err) := read r in
      match err with
      | Some e => read_failed evs e rest
      | None =>
          match pkt with
          | None => mkRun (Panicked nil_dereference) evs rest
          | Some pkt =>
              if String.eqb (Type_ pkt) "ka"
              then emit evs (start_loop reqID rest)
              else if String.eqb (Type_ pkt) "error"
              then
                match Payload_ pkt with
                | None => mkRun (Panicked nil_dereference) evs rest
                | Some p =>
                    mkRun (Returned (Some
                             (Errorf "%w: websocket error" ErrUnexpected)))
                          (evs ++ websocket_errors p) rest
                end
              else if String.eqb (Type_ pkt) "start_ack"
              then
                if negb (String.eqb (ID pkt) reqID)
                then emit (evs ++ [EvLog LevelWarn "Received unexpected start_ack"
                                     [("got", VString (ID pkt));
                                      ("expected", VString reqID)]])
                          (start_loop reqID rest)
                else mkRun (Returned None) evs rest
              else emit (evs ++ [unexpected_packet pkt]) (start_loop reqID rest)
          end
      end
  end.

(** The message that [start] sends. *)
Definition start_message (reqID : string) (auth : json.map_string)
  (encSubscription : string) : wsMessage :=
  mkMsg "start"
        (Some (mkPayload (json.Marshal_string encSubscription)
                         (Some (mkExtensions auth)) []))
        reqID.

Definition start (reqID : string) (auth : json.map_string)
  (subscription : Request) (w : WriteOutcome) (reads : list ReadOutcome) : Run :=
  match Marshal_Request subscription with
  | inr e =>
      mkRun (Returned (Some (Errorf "failed to marshal subscription: %w" e)))
            [] reads
  | inl encSubscription =>
      let '(evs, err) := send w (start_message reqID auth encSubscription) in
      match err with
      | Some e =>
          mkRun (Returned (Some (Errorf "failed to send connection_init: %w" e)))
                evs reads
      | None => emit evs (start_loop reqID reads)
      end
  end.

(** The data callback: it receives a context and the payload, may change the
    state of the caller, and returns the continuation flag and an error. *)
Definition DataHandler : Type := Context -> Payload -> H -> bool * option error * H.

(** The ready callback. *)
Definition ReadyHandler : Type := Context -> H -> option error * H.

(** The loop of [process]; the state of the caller is threaded through the
    calls of [onData]. *)
Fixpoint process_loop (reqID : string) (onData : DataHandler)
  (reads : list ReadOutcome) (h : H) : Run * H :=
  match reads with
  | [] => (idle_run, h)
  | r :: rest =>
      let '(evs, pkt, err) := read r in
      match err with
      | Some e => (read_failed evs e rest, h)
      | None =>
          match pkt with
          | None => (mkRun (Panicked nil_dereference) evs rest, h)
          | Some pkt =>
              if String.eqb (Type_ pkt) "ka"
              then let '(run, h') := process_loop reqID onData rest h in
                   (emit evs run, h')
              else if String.eqb (Type_ pkt) "error"
              then
                match Payload_ pkt with
                | None => (mkRun (Panicked nil_dereference) evs rest, h)
                | Some p =>
                    (mkRun (Returned (Some
                              (Errorf "%w: websocket error" ErrUnexpected)))
                           (evs ++ websocket_errors p) rest, h)
                end
              else if String.eqb (Type_ pkt) "data"
              then
                if negb (String.eqb (ID pkt) reqID)
                then let '(run, h') := process_loop reqID onData rest h in
                     (emit (evs ++ [EvLog LevelWarn "Received unexpected data packet"
                                      [("got", VString (ID pkt));
                                       ("expected", VString reqID)]]) run, h')
                else
                  match Payload_ pkt with
                  | None => (mkRun (Panicked nil_dereference) evs rest, h)
                  | Some p =>
                      let evs' : list Event :=
                        evs ++ [EvLog LevelDebug "Received data packet"
                                  [("data", VString (Data p))];
                                EvOnData Background p] in
                      let '(cont, err, h1) := onData Background p h in
                      match err with
                      | Some e =>
                          (mkRun (Returned (Some
                                    (Errorf "failed to process data packet: %w" e)))
                                 evs' rest, h1)
                      | None =>
                          if negb cont
                          then (mkRun (Returned None)
                                      (evs' ++ [EvLog LevelDebug
                                                  "Data handler requested exit" []])
                                      rest, h1)
                          else let '(run, h') := process_loop reqID onData rest h1 in
                               (emit evs' run, h')
                      end
                  end
              else let '(run, h') := process_loop reqID onData rest h in
                   (emit (evs ++ [unexpected_packet pkt]) run, h')
          end
      end
  end.

Definition process (reqID : string) (onData : DataHandler)
  (reads : list ReadOutcome) (h : H) : Run * H :=
  process_loop reqID onData reads h.

(** What the surroundings of one call of [Subscribe] decide. *)
Record World : Type := mkWorld {
  scope_id : nat;                 (* names the cancel function of the call *)
  dial_error : option error;      (* the result of [DialContext] *)
  reqID : string;                 (* [uuid.New().String()] *)
  init_write : WriteOutcome;      (* the write of [initConnection] *)
  start_write : WriteOutcome;     (* the write of [start] *)
  reads : list ReadOutcome;       (* the reads, in order *)
  watcher_runs : bool             (* the watcher goroutine is scheduled after
                                     the deferred [cancel()] *)
}.

(** The end of a call of [Subscribe]: result, trace, state of the caller. *)
Record Outcome : Type := mkOutcome {
  outcome : Result;
  trace : list Event;
  final : H
}.

Definition fail (format : string) (e : error) : Result :=
  Returned (Some (Errorf format e)).

(** [Subscribe] from [wss.initConnection()] to its last return. *)
Definition Subscribe_session (w : World) (ctx' : Context) (auth : json.map_string)
  (subscription : Request) (onReady : ReadyHandler) (onData : DataHandler)
  (h : H) : Outcome :=
  let r1 := initConnection (init_write w) (reads w) in
  match result r1 with
  | Panicked m => mkOutcome (Panicked m) (events r1) h
  | Returned (Some e) =>
      mkOutcome (fail "failed to init connection: %w" e) (events r1) h
  | Returned None =>
      let t1 : list Event := events r1 ++ [EvLog LevelDebug "Websocket initialized" []] in
      let r2 := start (reqID w) auth subscription (start_write w) (unread r1) in
      match result r2 with
      | Panicked m => mkOutcome (Panicked m) (t1 ++ events r2) h
      | Returned (Some e) =>
          mkOutcome (fail "failed to start subscription: %w" e)
                    (t1 ++ events r2) h
      | Returned None =>
          let t2 : list Event := t1 ++ events r2
                    ++ [EvLog LevelDebug "Websocket subscription ready" [];
                        EvOnReady ctx'] in
          let '(err, h1) := onReady ctx' h in
          match err with
          | Some e => mkOutcome (fail "onReady error: %w" e) t2 h1
          | None =>
              let '(r3, h2) := process (reqID w) onData (unread r2) h1 in
              match result r3 with
              | Panicked m => mkOutcome (Panicked m) (t2 ++ events r3) h2
              | Returned (Some e) =>
                  mkOutcome (fail "failed to process subscription: %w" e)
                            (t2 ++ events r3) h2
              | Returned None => mkOutcome (Returned None) (t2 ++ events r3) h2
              end
          end
      end
  end.

(** Whether the watcher goroutine has closed the connection in [t]. *)
Definition watcher_closed (t : list Event) : bool :=
  existsb (fun e => match e with EvClose Watcher => true | _ => false end) t.

(** [Subscribe].  The deferred calls run at every return and at a panic, last
    deferred first: [ws.Close()], then [cancel()].  The cancel makes
    [ctx.Done()] ready, so the watcher goroutine, if it has not closed the
    connection before and is scheduled, closes it after that. *)
Definition Subscribe (w : World) (ctx : Context) (endpoint accessToken : string)
  (subscription : Request) (onReady : ReadyHandler) (onData : DataHandler)
  (h : H) : Outcome :=
  let ctx' := WithCancel ctx (scope_id w) in
  match url_parse.Parse endpoint with
  | None =>
      mkOutcome (Returned (Some (Errorf "unable to parse endpoint %s: %w"
                                        (LibError "parse"))))
                [EvCancel] h
  | Some u =>
      let auth := authExt (url.Hostname u) accessToken in
      let endpoint' := fst (GenerateWSAddr u) in
      let t0 : list Event := [EvLog LevelDebug "Connecting to websocket"
                   [("endpoint", VString endpoint')];
                 EvDial endpoint'
                   ["graphql-ws"; subprotocol (url.Hostname u) accessToken]] in
      match dial_error w with
      | Some e =>
          mkOutcome (fail "failed to dial websocket: %w" e) (t0 ++ [EvCancel]) h
      | None =>
          let o := Subscribe_session w ctx' auth subscription onReady onData h in
          let t : list Event := t0 ++ trace o ++ [EvClose Deferred; EvCancel] in
          mkOutcome (outcome o)
                    (t ++ (if watcher_runs w && negb (watcher_closed t)
                           then [EvClose Watcher] else []))
                    (final o)
      end
  end.

End Subscription.

Arguments mkOutcome {H} _ _ _.

Arguments outcome {H} _.

Arguments trace {H} _.

Arguments final {H} _.

(** ** Reading a trace *)

Definition is_onReady (e : Event) : bool :=
  match e with EvOnReady _ => true | _ => false end.

Definition is_onData (e : Event) : bool :=
  match e with EvOnData _ _ => true | _ => false end.

Definition is_close (e : Event) : bool :=
  match e with EvClose _ => true | _ => false end.

(** A call of [DialContext]; [dial_error] of the world says how it ended. *)
Definition is_dial (e : Event) : bool :=
  match e with EvDial _ _ => true | _ => false end.

Definition is_deferred_close (e : Event) : bool :=
  match e with EvClose Deferred => true | _ => false end.

(** Reads and writes on the connection. *)
Definition is_io (e : Event) : bool :=
  match e with EvRead _ | EvWrite _ => true | _ => false end.

(** The number of calls of [ws.Close()] in a trace. *)
Definition closes (t : list Event) : nat := List.length (filter is_close t).

(** No event of [t] satisfies [p]. *)
Definition none (p : Event -> bool) (t : list Event) : Prop :=
  filter p t = [].

(** Events that are neither a close, nor the ready callback, nor a cancel. *)
Definition calm (e : Event) : bool :=
  match e with
  | EvRead _ | EvLog _ _ _ | EvWrite _ | EvOnData _ _ => true
  | _ => false
  end.

(** What every loop keeps: the ready callback is not called, the deferred close
    does not run, the watcher closes at most once, and when it has closed, the
    loop ends on an error. *)
Definition loop_inv (r : Run) : Prop :=
  none is_onReady (events r)
  /\ none is_deferred_close (events r)
  /\ closes (events r) = (if watcher_closed (events r) then 1 else 0)%nat
  /\ (watcher_closed (events r) = true -> exists e, result r = Returned (Some e)).

(** The payloads handed to the data callback, with the context of each call. *)
Definition delivered (t : list Event) : list (Context * Payload) :=
  flat_map (fun e => match e with EvOnData c p => [(c, p)] | _ => [] end) t.

(** The payloads of the data frames read in [t] that carry the id [id]. *)
Definition matching_data (id : string) (t : list Event) : list Payload :=
  flat_map (fun e =>
              match e with
              | EvRead (ReadFrame (Some m)) =>
                  if String.eqb (Type_ m) "data" && String.eqb (ID m) id
                  then match Payload_ m with Some p => [p] | None => [] end
                  else []
              | _ => []
              end) t.

Definition frame (ty : string) (p : option Payload) (id : string) : ReadOutcome :=
  ReadFrame (Some (mkMsg ty p id)).

(** Frames that [initConnection] logs and steps over. *)
Definition tolerated (m : wsMessage) : bool :=
  negb (String.eqb (Type_ m) "connection_ack")
  && negb (String.eqb (Type_ m) "connection_error").

Definition tolerated_events (ms : list wsMessage) : list Event :=
  flat_map (fun m => [EvRead (ReadFrame (Some m)); unexpected_packet m]) ms.

(** Events of a run that ends before the dial succeeds. *)
Definition before_dial (e : Event) : bool :=
  match e with
  | EvLog _ _ _ | EvDial _ _ | EvCancel => true
  | _ => false
  end.

(** What [Subscribe] does before [initConnection]. *)
Definition opening (u : url.URL) (accessToken : string) : list Event :=
  [EvLog LevelDebug "Connecting to websocket"
     [("endpoint", VString (fst (GenerateWSAddr u)))];
   EvDial (fst (GenerateWSAddr u))
     ["graphql-ws"; subprotocol (url.Hostname u) accessToken]].

(** What the deferred calls and the watcher do at the end. *)
Definition closing (w : World) (t : list Event) : list Event :=
  [EvClose Deferred; EvCancel]
  ++ (if watcher_runs w && negb (watcher_closed t) then [EvClose Watcher] else []).

Section Shape.
Variable H : Type.

(** The shape of the trace of a session.  Either the ready callback is not
    called, no callback is, and the session fails; or the trace splits around
    the one call of the ready callback: before it, no callback and, last of
    all reads, a start_ack with the id of the subscription; after it, the
    events of [process], or nothing when the callback fails. *)
Definition session_shape (w : World) (ctx' : Context) (onReady : ReadyHandler H)
  (onData : DataHandler H) (h : H) (o : Outcome H) : Prop :=
  (none is_onReady (trace o) /\ none is_onData (trace o)
   /\ outcome o <> Returned None)
  \/ exists A B pre m,
      trace o = A ++ EvOnReady ctx' :: B
      /\ A = pre ++ [EvRead (ReadFrame (Some m));
                     EvLog LevelDebug "Websocket subscription ready" []]
      /\ Type_ m = "start_ack" /\ ID m = reqID w
      /\ none is_onReady A /\ none is_onData A /\ none is_onReady B
      /\ watcher_closed A = false /\ closes A = O
      /\ match fst (onReady ctx' h) with
         | Some e =>
             outcome o = fail "onReady error: %w" e /\ B = []
             /\ final o = snd (onReady ctx' h)
         | None =>
             exists rs,
               B = events (fst (process H (reqID w) onData rs
                                        (snd (onReady ctx' h))))
               /\ final o = snd (process H (reqID w) onData rs
                                         (snd (onReady ctx' h)))
               /\ (outcome o = Returned None <->
                   result (fst (process H (reqID w) onData rs
                                        (snd (onReady ctx' h))))
                   = Returned None)
         end.

End Shape.

Arguments session_shape {H} _ _ _ _ _ _.

(** ** A concrete caller *)

(** The caller of [internal/team]: its subscription has no variables, its
    trigger succeeds, and its data callback keeps the payload and stops. *)
Definition demo_id : string := "6ba7b810-9dad-11d1-80b4-00c04fd430c8".

Definition demo_payload : Payload := mkPayload "{}" None [].

Definition demo_marshal (query : string) : string + error :=
  inl (json.Marshal_map [("query", query)]).

Definition collect : DataHandler (list Payload) :=
  fun _ p h => (false, None, h ++ [p]).

Definition trigger_ok : ReadyHandler (list Payload) := fun _ h => (None, h).

Definition demo_world (rs : list ReadOutcome) (watcher : bool) : World :=
  mkWorld 1 None demo_id WriteOk WriteOk rs watcher.

Definition demo_run (rs : list ReadOutcome) (watcher : bool)
  : Outcome (list Payload) :=
  Subscribe string demo_marshal (list Payload) (demo_world rs watcher)
            Background "https://svc.example.com" "token"
            "subscription { onPublishPolicy }" trigger_ok collect [].

Definition ka_frame : wsMessage := mkMsg "ka" None "".

Definition stray_data : wsMessage := mkMsg "data" (Some demo_payload) demo_id.

(** ** Frames that [start] and [process] step over *)

(** The frames that [start] steps over: every frame that is neither an error
    nor the start_ack of the subscription. *)
Definition start_skips (reqID : string) (m : wsMessage) : bool :=
  negb (String.eqb (Type_ m) "error")
  && negb (String.eqb (Type_ m) "start_ack" && String.eqb (ID m) reqID).

(** What [start] does with such a frame. *)
Definition start_skip_events (reqID : string) (m : wsMessage) : list Event :=
  EvRead (ReadFrame (Some m))
  :: (if String.eqb (Type_ m) "ka" then []
      else if String.eqb (Type_ m) "start_ack"
      then [EvLog LevelWarn "Received unexpected start_ack"
              [("got", VString (ID m)); ("expected", VString reqID)]]
      else [unexpected_packet m]).

(** The frames that [process] steps over: every frame that is neither an
    error nor a data frame of the subscription. *)
Definition process_skips (reqID : string) (m : wsMessage) : bool :=
  negb (String.eqb (Type_ m) "error")
  && negb (String.eqb (Type_ m) "data" && String.eqb (ID m) reqID).

Definition process_skip_events (reqID : string) (m : wsMessage) : list Event :=
  EvRead (ReadFrame (Some m))
  :: (if String.eqb (Type_ m) "ka" then []
      else if String.eqb (Type_ m) "data"
      then [EvLog LevelWarn "Received unexpected data packet"
              [("got", VString (ID m)); ("expected", VString reqID)]]
      else [unexpected_packet m]).

(** ** Reading a trace: writes and the answers of the data callback *)

Definition is_write (e : Event) : bool :=
  match e with EvWrite _ => true | _ => false end.

(** The frames written in [t], in order. *)
Definition writes (t : list Event) : list wsMessage :=
  flat_map (fun e => match e with EvWrite m => [m] | _ => [] end) t.

Section Replay.

Variable H : Type.

(** The state of the caller after the data callback has handled the calls
    [calls] one after the other, from the state [h]. *)
Fixpoint replay (onData : DataHandler H) (calls : list (Context * Payload))
  (h : H) : H :=
  match calls with
  | [] => h
  | (c, p) :: calls' => replay onData calls' (snd (onData c p h))
  end.

(** The answers of the data callback to these calls. *)
Fixpoint answers (onData : DataHandler H) (calls : list (Context * Payload))
  (h : H) : list (bool * option error) :=
  match calls with
  | [] => []
  | (c, p) :: calls' =>
      fst (onData c p h) :: answers onData calls' (snd (onData c p h))
  end.

End Replay.

Arguments replay {H} _ _ _.

Arguments answers {H} _ _ _.

(** How the answers of the data callback decide the end of a run. *)
Definition verdict (a : bool * option error) (wrap : error -> error)
  (res : Result) : Prop :=
  match a with
  | (_, Some e) => res = Returned (Some (wrap e))
  | (false, None) => res = Returned None
  | (true, None) => res <> Returned None
  end.

(** [json.Unmarshal] of a JSON string into a Go string. *)
Definition Unmarshal_string (s : string) : option string :=
  match s with
  | String q t =>
      if Ascii.eqb q json.dquote then
        match json_parse.unquote_from t with
        | Some (d, EmptyString) => Some d
        | _ => None
        end
      else None
  | EmptyString => None
  end.

(** ** Package [strconv]: [Atoi] *)

Module strconv.

Inductive Err : Type := ErrSyntax | ErrRange.

(** [*strconv.NumError]. *)
Record NumError : Type := mkNumError {
  Func : string;
  Num : string;
  Err_ : Err
}.

Definition maxUint64 : Z := 2 ^ 64 - 1.

(** The conversion [int64(x)]. *)
Definition int64 (x : Z) : Z := (x + 2 ^ 63) mod 2 ^ 64 - 2 ^ 63.

(** The loop of the fast path of [Atoi]: [ch -= '0'] wraps in a byte; the
    strings of the fast path are too short for [n] to overflow. *)
Fixpoint fast_digits (s : string) (n : Z) : option Z :=
  match s with
  | EmptyString => Some n
  | String ch t =>
      let d := (byte ch - 48) mod 256 in
      if d >? 9 then None else fast_digits t (n * 10 + d)
  end.

(** [lower(c)]: [c | ('x' - 'X')]. *)
Definition lower (c : Z) : Z := Z.lor c 32.

(** The loop of [ParseUint(s, 10, 64)]: the value, or the error with the
    value returned beside it. *)
Fixpoint uint_digits (s : string) (n : Z) : Z + (Z * Err) :=
  match s with
  | EmptyString => inl n
  | String ch t =>
      let c := byte ch in
      let digit :=
        if (48 <=? c) && (c <=? 57) then Some (c - 48)
        else if (97 <=? lower c) && (lower c <=? 122)
        then Some (lower c - 97 + 10)
        else None in
      match digit with
      | None => inr (0, ErrSyntax)
      | Some d =>
          if d >=? 10 then inr (0, ErrSyntax)
          else if n >=? maxUint64 / 10 + 1 then inr (maxUint64, ErrRange)
          else
            let n0 := n * 10 in
            let n1 := (n0 + d) mod 2 ^ 64 in
            if (n1 <? n0) || (n1 >? maxUint64) then inr (maxUint64, ErrRange)
            else uint_digits t n1
      end
  end.

(** [ParseUint(s, 10, 64)]. *)
Definition ParseUint (s : string) : Z + (Z * Err) :=
  match s with
  | EmptyString => inr (0, ErrSyntax)
  | _ => uint_digits s 0
  end.

(** [ParseInt(s, 10, 0)] on a machine with 64-bit [int]: the value and the
    kind of the error. *)
Definition ParseInt (s : string) : Z * option Err :=
  match s with
  | EmptyString => (0, Some ErrSyntax)
  | String c t =>
      let neg := Ascii.eqb c "-" in
      let s1 := if Ascii.eqb c "+" || Ascii.eqb c "-" then t else s in
      let cutoff := 2 ^ 63 in
      let checked (un : Z) : Z * option Err :=
        if negb neg && (un >=? cutoff) then (cutoff - 1, Some ErrRange)
        else if neg && (un >? cutoff) then (- cutoff, Some ErrRange)
        else
          let n := int64 un in
          ((if neg then int64 (- n) else n), None) in
      match ParseUint s1 with
      | inr (_, ErrSyntax) => (0, Some ErrSyntax)
      | inr (un, ErrRange) => checked un
      | inl un => checked un
      end
  end.

(** [Atoi(s)], with 64-bit [int]. *)
Definition Atoi (s : string) : Z * option NumError :=
  let sLen := String.length s in
  if ((0 <? sLen) && (sLen <? 19))%nat then
    match s with
    | EmptyString => (0, Some (mkNumError "Atoi" s ErrSyntax))
    | String c t =>
        let signed := Ascii.eqb c "-" || Ascii.eqb c "+" in
        let s1 := if signed then t else s in
        if signed && (String.length s1 <? 1)%nat
        then (0, Some (mkNumError "Atoi" s ErrSyntax))
        else
          match fast_digits s1 0 with
          | None => (0, Some (mkNumError "Atoi" s ErrSyntax))
          | Some n => ((if Ascii.eqb c "-" then - n else n), None)
          end
    end
  else
    let '(i64, err) := ParseInt s in
    (i64, option_map (mkNumError "Atoi" s) err).

(** [Itoa(i)]: the decimal digits of [i], after a minus sign below zero. *)
Fixpoint digits (fuel : nat) (n : Z) (acc : string) : string :=
  match fuel with
  | O => acc
  | S fuel' =>
      let acc' := String (chr (48 + n mod 10)) acc in
      if n <? 10 then acc' else digits fuel' (n / 10) acc'
  end.

Definition Itoa (i : Z) : string :=
  if i <? 0 then String "-" (digits 20 (- i) EmptyString)
  else digits 20 i EmptyString.

(** An optional sign followed by one or more decimal digits. *)
Definition is_digit (c : ascii) : bool := (48 <=? byte c) && (byte c <=? 57).

Fixpoint all_digits (s : string) : bool :=
  match s with
  | EmptyString => true
  | String c t => is_digit c && all_digits t
  end.

Definition decimal (s : string) : bool :=
  match s with
  | EmptyString => false
  | String c t =>
      if Ascii.eqb c "-" || Ascii.eqb c "+"
      then negb (String.eqb t EmptyString) && all_digits t
      else all_digits s
  end.

End strconv.

(** ** Go maps with string keys *)

(** A map is the list of its entries, one per key; [set] keeps the place of
    a key that is present. *)
Module gomap.

Definition t (V : Type) : Type := list (string * V).

(** [m[k]] with its [ok] flag. *)
Fixpoint get {V : Type} (m : t V) (k : string) : option V :=
  match m with
  | [] => None
  | (k', v) :: m' => if String.eqb k k' then Some v else get m' k
  end.

(** [m[k] = v]. *)
Fixpoint set {V : Type} (m : t V) (k : string) (v : V) : t V :=
  match m with
  | [] => [(k, v)]
  | (k', v') :: m' =>
      if String.eqb k k' then (k, v) :: m' else (k', v') :: set m' k v
  end.

End gomap.

(** ** Package [log/slog]: the records of the default logger *)

Module slog.

Inductive Level : Type := Debug | Info | Warn | Error.

Inductive Value : Type :=
| StringValue (s : string)
| BoolValue (b : bool)
| IntValue (n : Z)
| ErrorValue (e : option wsError)
| StringsValue (l : list string)
| MatchesValue (l : list (list string))
| MapValue (m : list (string * string)).

Record Record_ : Type := mkRecord {
  level : Level;
  message : string;
  attrs : list (string * Value)
}.

End slog.

(** ** [Execute] *)

(** The values of a [map[string]any] of this program; a map is the list of
    its entries. *)
Inductive Any : Type :=
| AnyString (s : string)
| AnyStrings (l : list string)
| AnyMap (m : list Entry)
with Entry : Type :=
| entry (key : string) (value : Any).

(** [gql.Request]; a nil [Variables] is the empty list. *)
Record gqlRequest : Type := mkRequest {
  Query : string;
  Variables : list Entry
}.

(** What a call of [Execute] does outside the program. *)
Inductive HttpEvent : Type :=
| HvDo (method url : string) (header : list (string * string)) (body : string)
| HvBodyClose
| HvCancelTimeout.

(** The response of the server: its status code and what [io.ReadAll] finds
    in its body. *)
Record Response : Type := mkResponse {
  StatusCode : Z;
  Status : string;
  ReadAll : string + error
}.

(** What the surroundings of one request decide: the result of
    [http.NewRequestWithContext] and the result of [http.DefaultClient.Do]. *)
Record HttpWorld : Type := mkHttpWorld {
  newRequest_error : option error;
  do_result : Response + error
}.

Definition StatusOK : Z := 200.

Section Execution.

(** [json.Marshal] of a request, and [json.Unmarshal] of a body into a nil
    [*Payload]: the JSON text [null] leaves the pointer nil. *)
Variable Marshal_gqlRequest : gqlRequest -> string + error.

Variable Unmarshal_Payload : string -> option Payload + error.

(** [Execute]: the payload, the error and the events; the deferred calls run
    at every return, the close of the body before the cancel. *)
Definition Execute (w : HttpWorld) (endpoint accessToken : string)
  (req : gqlRequest) : option Payload * option error * list HttpEvent :=
  match Marshal_gqlRequest req with
  | inr e =>
      (None, Some (Errorf "could not marshal request: %w" e), [HvCancelTimeout])
  | inl enc =>
      match newRequest_error w with
      | Some e =>
          (None, Some (Errorf "failed to create request: %w" e),
           [HvCancelTimeout])
      | None =>
          let sent := HvDo "POST" endpoint
                        [("Content-Type", "application/json");
                         ("Authorization", accessToken)] enc in
          match do_result w with
          | inr e =>
              (None, Some (Errorf "failed to send request: %w" e),
               [sent; HvCancelTimeout])
          | inl resp =>
              let evs := [sent; HvBodyClose; HvCancelTimeout] in
              match ReadAll resp with
              | inr e => (None, Some (Errorf "failed to read body: %w" e), evs)
              | inl rawEnc =>
                  if negb (StatusCode resp =? StatusOK)
                  then (None,
                        Some (Errorf "%w: unexpected status code: %d %q"
                                     ErrUnexpected), evs)
                  else
                    match Unmarshal_Payload rawEnc with
                    | inr e =>
                        (None,
                         Some (Errorf "failed to unmarshal payload body: %w" e),
                         evs)
                    | inl payload => (payload, None, evs)
                    end
              end
          end
      end
  end.

End Execution.

(** [strings.Split(s, sep)] for a separator of one byte. *)
Fixpoint Split (s : string) (sep : ascii) : list string :=
  match s with
  | EmptyString => [EmptyString]
  | String c t =>
      if Ascii.eqb c sep then EmptyString :: Split t sep
      else match Split t sep with
           | h :: r => String c h :: r
           | [] => [String c EmptyString]
           end
  end.

(** [strings.Join(elems, sep)] for a separator of one byte. *)
Fixpoint Join (elems : list string) (sep : ascii) : string :=
  match elems with
  | [] => EmptyString
  | [e] => e
  | e :: rest => (e ++ String sep (Join rest sep))%string
  end.

(** The number of events of [t] that satisfy [p]. *)
Definition count {A : Type} (p : A -> bool) (t : list A) : nat :=
  List.length (filter p t).

Definition is_do (e : HttpEvent) : bool :=
  match e with HvDo _ _ _ _ => true | _ => false end.

Definition is_body_close (e : HttpEvent) : bool :=
  match e with HvBodyClose => true | _ => false end.

Definition is_cancel_timeout (e : HttpEvent) : bool :=
  match e with HvCancelTimeout => true | _ => false end.

(** ** Package [internal/team]: the accounts of a policy *)

Module team.

(** The elements of [accounts] and of [permissions] in the raw policy. *)
Record rawItem : Type := mkRawItem {
  Name : string;
  Id : string;
  Typename : string
}.

(** The elements of [rawPolicyData.OnPublishPolicy.Policy]. *)
Record rawPolicy : Type := mkRawPolicy {
  Accounts : list rawItem;
  Permissions : list rawItem;
  ApprovalRequired : bool;
  Duration : string;
  PolicyTypename : string
}.

Module Role.

Record t : Type := mk {
  ID : string;
  Name : string;
  MaxDurNoApproval : Z;
  MaxDurApproval : Z
}.

End Role.

Module Account.

Record t : Type := mk {
  ID : string;
  Name : string;
  Roles : gomap.t Role.t
}.

End Account.

Local Abbreviation gql_Errorf := Errorf.

(** The errors of the package: its sentinel, the errors of [strconv] and of
    other libraries, the errors of package [gql], and [fmt.Errorf] with one
    [%w] verb; [args] are the arguments of its other verbs, as they are
    printed. *)
Inductive Error : Type :=
| ErrUnexpected
| NumError (e : strconv.NumError)
| LibError (msg : string)
| GqlError (e : error)
| Errorf (format : string) (args : list string) (wrapped : Error).

(** [errors.Is e gql.ErrUnexpected]. *)
Fixpoint Is_gql_ErrUnexpected (e : Error) : bool :=
  match e with
  | GqlError g => Is_ErrUnexpected g
  | Errorf _ _ w => Is_gql_ErrUnexpected w
  | _ => false
  end.

(** [errors.Is e team.ErrUnexpected]. *)
Fixpoint Is_team_ErrUnexpected (e : Error) : bool :=
  match e with
  | ErrUnexpected => true
  | Errorf _ _ w => Is_team_ErrUnexpected w
  | _ => false
  end.

(** The accounts built so far, and the records logged. *)
Definition State : Type := gomap.t Account.t * list slog.Record_.

Definition debug (msg : string) (attrs : list (string * slog.Value))
  (log : list slog.Record_) : list slog.Record_ :=
  log ++ [slog.mkRecord slog.Debug msg attrs].

(** The body of the loop over [pol.Permissions], on the roles of one
    account. *)
Definition add_permission (duration : Z) (approvalRequired : bool)
  (st : gomap.t Role.t * list slog.Record_) (perm : rawItem)
  : gomap.t Role.t * list slog.Record_ :=
  let '(roles, log) := st in
  let log := debug "Permission" [("name", slog.StringValue (Name perm));
                                 ("id", slog.StringValue (Id perm))] log in
  let role := match gomap.get roles (Id perm) with
              | Some role => role
              | None => Role.mk (Id perm) (Name perm) 0 0
              end in
  let role := Role.mk (Role.ID role) (Role.Name role)
                      (Role.MaxDurNoApproval role)
                      (Z.max duration (Role.MaxDurApproval role)) in
  let role := if negb approvalRequired
              then Role.mk (Role.ID role) (Role.Name role)
                           (Z.max duration (Role.MaxDurNoApproval role))
                           (Role.MaxDurApproval role)
              else role in
  (gomap.set roles (Id perm) role, log).

(** The body of the loop over [pol.Accounts]. *)
Definition add_account (duration : Z) (approvalRequired : bool)
  (permissions : list rawItem) (st : State) (account : rawItem) : State :=
  let '(accounts, log) := st in
  let log := debug "Account" [("name", slog.StringValue (Name account));
                              ("id", slog.StringValue (Id account))] log in
  let acc := match gomap.get accounts (Id account) with
             | Some acc => acc
             | None => Account.mk (Id account) (Name account) []
             end in
  let '(roles, log) :=
    fold_left (add_permission duration approvalRequired) permissions
              (Account.Roles acc, log) in
  (gomap.set accounts (Id account)
             (Account.mk (Account.ID acc) (Account.Name acc) roles), log).

(** The loop over the policies, from the accounts and the log so far. *)
Fixpoint policies_loop (policies : list rawPolicy) (st : State)
  : (gomap.t Account.t + Error) * list slog.Record_ :=
  match policies with
  | [] => (inl (fst st), snd st)
  | pol :: rest =>
      let log := debug "Policy"
                   [("dur", slog.StringValue (Duration pol));
                    ("approval_required", slog.BoolValue (ApprovalRequired pol))]
                   (snd st) in
      match strconv.Atoi (Duration pol) with
      | (_, Some err) =>
          (inr (Errorf "failed to parse policy duration %q: %w"
                       [Duration pol] (NumError err)), log)
      | (duration, None) =>
          policies_loop rest
            (fold_left (add_account duration (ApprovalRequired pol)
                                    (Permissions pol))
                       (Accounts pol) (fst st, log))
      end
  end.

(** The accounts that [FetchAccounts] builds from the policies it has
    received. *)
Definition accounts_of (policies : list rawPolicy) (log : list slog.Record_)
  : (gomap.t Account.t + Error) * list slog.Record_ :=
  policies_loop policies ([], log).

(** *** [FetchAccounts] *)

Definition policySubscription : string :=
"subscription OnPublishPolicy {
    onPublishPolicy {
      id
      policy {
        accounts {
          name
          id
          __typename
        }
        permissions {
          name
          id
          __typename
        }
        approvalRequired
        duration
        __typename
      }
      username
      __typename
    }
  }".

Definition policyRequest : string :=
"query GetUserPolicy($userId: String, $groupIds: [String]) {
  getUserPolicy(userId: $userId, groupIds: $groupIds) {
    id
    policy {
      accounts {
        name
        id
        __typename
      }
      permissions {
        name
        id
        __typename
      }
      approvalRequired
      duration
      __typename
    }
    username
    __typename
  }
}".

Definition createRequest : string :=
"mutation CreateRequests(
    $input: CreateRequestsInput!
    $condition: ModelRequestsConditionInput
  ) {
    createRequests(input: $input, condition: $condition) {
      id
      email
      accountId
      accountName
      role
      roleId
      startTime
      duration
      justification
      status
      comment
      username
      approver
      approverId
      approvers
      approver_ids
      revoker
      revokerId
      endTime
      ticketNo
      revokeComment
      session_duration
      createdAt
      updatedAt
      owner
      __typename
    }
  }".

(** [rawPolicyData], with the fields of [OnPublishPolicy]. *)
Record rawPolicyData : Type := mkRawPolicyData {
  PolicyId : string;
  Policy : list rawPolicy;
  Username : string;
  DataTypename : string
}.

Definition zero_policy : rawPolicyData :=
  mkRawPolicyData EmptyString [] EmptyString EmptyString.

(** The claims of the ID token that [FetchAccounts] reads. *)
Record IDToken : Type := mkIDToken {
  UserID : string;
  GroupIDs : string
}.

(** How a function of the package ends. *)
Inductive Ends (A : Type) : Type :=
| Returns (a : A)
| Panics (msg : string).

Arguments Returns {A} _.

Arguments Panics {A} _.

(** What the surroundings of one call of [FetchAccounts] decide. *)
Record FetchWorld : Type := mkFetchWorld {
  id_token : IDToken + Error;      (* [token.ParseIDToken()] *)
  timeout_scope : nat;             (* names the cancel of [WithTimeout] *)
  subscription : World;            (* the connection of [Subscribe] *)
  trigger : HttpWorld              (* the request of the ready callback *)
}.

(** What the two callbacks share: the variable [rawPolicy], and the events of
    the request of the trigger. *)
Definition Shared : Type := rawPolicyData * list HttpEvent.

(** The end of a call of [FetchAccounts]. *)
Record Fetched : Type := mkFetched {
  fetched : Ends (gomap.t Account.t + Error);
  records : list slog.Record_;
  events : list Event;
  requests : list HttpEvent
}.

Section Fetching.

Variable Marshal_gqlRequest : gqlRequest -> string + error.

Variable Unmarshal_Payload : string -> option Payload + error.

(** [json.Unmarshal(data, &rawPolicy)]: the error, and the variable as the
    call leaves it. *)
Variable Unmarshal_policy : string -> rawPolicyData -> option error * rawPolicyData.

(** The ready callback of [FetchAccounts]. *)
Definition fetch_onReady (w : FetchWorld) (endpoint accessToken : string)
  (idTok : IDToken) : ReadyHandler Shared :=
  fun _ h =>
    let '(_, err, evs) :=
      Execute Marshal_gqlRequest Unmarshal_Payload (trigger w) endpoint
        accessToken
        (mkRequest policyRequest
           [entry "userId" (AnyString (UserID idTok));
            entry "groupIds" (AnyStrings (Split (GroupIDs idTok) ","))]) in
    (option_map (gql_Errorf "failed to request: %w") err,
     (fst h, snd h ++ evs)).

(** The data callback of [FetchAccounts]. *)
Definition fetch_onData : DataHandler Shared :=
  fun _ payload h =>
    let '(err, raw) := Unmarshal_policy (Data payload) (fst h) in
    (false, option_map (gql_Errorf "failed to unmarshal payload: %w") err,
     (raw, snd h)).

Definition FetchAccounts (w : FetchWorld) (ctx : Context)
  (endpoint accessToken : string) : Fetched :=
  let log := [slog.mkRecord slog.Info "Fetching AWS accounts" []] in
  match id_token w with
  | inr e =>
      mkFetched (Returns (inr (Errorf "failed to parse ID token: %w" [] e)))
                log [] []
  | inl idTok =>
      let ctx' := WithCancel ctx (timeout_scope w) in
      let o := Subscribe gqlRequest Marshal_gqlRequest Shared (subscription w)
                 ctx' endpoint accessToken (mkRequest policySubscription [])
                 (fetch_onReady w endpoint accessToken idTok) fetch_onData
                 (zero_policy, []) in
      let evs := trace o ++ [EvCancel] in
      match outcome o with
      | Panicked m => mkFetched (Panics m) log evs (snd (final o))
      | Returned (Some e) =>
          mkFetched (Returns (inr (Errorf "failed to fetch: %w" []
                                          (GqlError e))))
                    log evs (snd (final o))
      | Returned None =>
          let '(res, log') := accounts_of (Policy (fst (final o))) log in
          mkFetched (Returns res) log' evs (snd (final o))
      end
  end.

End Fetching.

(** *** [Request] *)

Module AccessRequest.

(** [StartTime] counts the nanoseconds since the zero time. *)
Record t : Type := mk {
  AccountID : string;
  AccountName : string;
  Role : string;
  RoleID : string;
  Duration : Z;
  StartTime : Z;
  Justification : string;
  Ticket : string
}.

End AccessRequest.

(** [time.Minute], in nanoseconds. *)
Definition Minute : Z := 60 * 1000000000.

(** [t.Truncate(d)]: [t] rounded down to a multiple of [d] since the zero
    time; [t] itself when [d] is not positive. *)
Definition Truncate (t d : Z) : Z := if d <=? 0 then t else t - t mod d.

(** The start time that [Request] sends: the time of the request, or the
    current time when that is the zero time, without its seconds. *)
Definition start_time (now : Z) (req : AccessRequest.t) : Z :=
  let startTime :=
    if AccessRequest.StartTime req =? 0 then now
    else AccessRequest.StartTime req in
  Truncate startTime Minute.

Section Requesting.

Variable Marshal_gqlRequest : gqlRequest -> string + error.

Variable Unmarshal_Payload : string -> option Payload + error.

(** [t.UTC().Format(time.RFC3339)]. *)
Variable Format_RFC3339 : Z -> string.

(** [json.Unmarshal(data, &rawResult)], then [rawResult.CreateRequests.Id]. *)
Variable Unmarshal_id : string -> string + error.

(** The request that [Request] hands to [Execute]. *)
Definition create_request (now : Z) (req : AccessRequest.t) : gqlRequest :=
  mkRequest createRequest
    [entry "input"
       (AnyMap
          [entry "accountId" (AnyString (AccessRequest.AccountID req));
           entry "accountName" (AnyString (AccessRequest.AccountName req));
           entry "role" (AnyString (AccessRequest.Role req));
           entry "roleId" (AnyString (AccessRequest.RoleID req));
           entry "duration"
                 (AnyString (strconv.Itoa (AccessRequest.Duration req)));
           entry "startTime"
                 (AnyString (Format_RFC3339 (start_time now req)));
           entry "justification"
                 (AnyString (AccessRequest.Justification req));
           entry "ticketNo" (AnyString (AccessRequest.Ticket req))])].

(** [Request]: its end, the records logged, and the events of its request;
    [now] is what [time.Now()] returns. *)
Definition Request (now : Z) (w : HttpWorld) (endpoint accessToken : string)
  (req : AccessRequest.t)
  : Ends (string * option Error) * list slog.Record_ * list HttpEvent :=
  let log := [slog.mkRecord slog.Info "Requesting access" []] in
  let '(resp, err, evs) :=
    Execute Marshal_gqlRequest Unmarshal_Payload w endpoint accessToken
            (create_request now req) in
  match err with
  | Some e =>
      (Returns (EmptyString,
                Some (Errorf "failed to execute: %w" [] (GqlError e))),
       log, evs)
  | None =>
      match resp with
      | None => (Panics nil_dereference, log, evs)
      | Some p =>
          if (0 <? List.length (Errors p))%nat
          then (Returns (EmptyString,
                         Some (Errorf "%w: server returned an error" []
                                      ErrUnexpected)),
                log ++ map (fun e => slog.mkRecord slog.Error
                                       "Received error from server"
                                       [("error", slog.ErrorValue e)])
                           (Errors p),
                evs)
          else
            match Unmarshal_id (Data p) with
            | inr e =>
                (Returns (EmptyString,
                          Some (Errorf "failed to unmarshal payload: %w" []
                                       (GqlError e))),
                 log, evs)
            | inl id => (Returns (id, None), log, evs)
            end
      end
  end.

End Requesting.

(** *** [ExtractConfig] *)

Record RemoteConfig : Type := mkRemoteConfig {
  GraphQLEndpoint : string;
  UserPoolClientID : string;
  OAuthDomain : string;
  OAuthResponseType : string;
  OAuthScopes : list string
}.

(** The keys of [configExtractors]. *)
Definition extractor_names : list string :=
  ["aws_appsync_graphqlEndpoint"; "aws_user_pools_web_client_id";
   "oauth_domain"; "oauth_responseType"; "oauth_scope"].

(** What the surroundings of one call of [ExtractConfig] decide: the two
    requests, and the order in which the loop ranges over the map
    [configExtractors]. *)
Record ConfigWorld : Type := mkConfigWorld {
  homepage : HttpWorld;
  script : HttpWorld;
  order : list string
}.

(** [raw[name]], the empty string for a key that is missing. *)
Definition raw_value (raw : gomap.t string) (name : string) : string :=
  match gomap.get raw name with
  | Some v => v
  | None => EmptyString
  end.

(** The server that [ExtractConfig] asks: the address as parsed, with the
    scheme [http] when it has none. *)
Definition server_of (parsed : url.URL) : url.URL :=
  if String.eqb (url.Scheme parsed) EmptyString
  then url.set_Scheme "http" parsed else parsed.

Definition GET (target : string) : HttpEvent := HvDo "GET" target [] EmptyString.

Section Extracting.

(** [re.FindAllStringSubmatch(s, -1)] for the regular expressions of the
    package, each of which has one group: the matches in order, each with
    its text and the text of its group. *)
Variable jsRegex : string -> list (string * string).

Variable configExtractors : string -> string -> list (string * string).

Variable scopeRegex : string -> list (string * string).

(** [url.JoinPath(base, elem)]. *)
Variable JoinPath : string -> string -> string + error.

Definition submatch (m : string * string) : list string := [fst m; snd m].

(** The loop over [configExtractors], in the order [names]. *)
Fixpoint extract_loop (body : string) (names : list string)
  (raw : gomap.t string) (log : list slog.Record_)
  : (gomap.t string + Error) * list slog.Record_ :=
  match names with
  | [] => (inl raw, log)
  | name :: rest =>
      let matches := configExtractors name body in
      let log := debug "Found matches"
                   [("name", slog.StringValue name);
                    ("matches", slog.MatchesValue (map submatch matches))]
                   log in
      match matches with
      | [m] => extract_loop body rest (gomap.set raw name (snd m)) log
      | _ =>
          (inr (Errorf "%w: could find extract %q (count=%v)"
                       [name; strconv.Itoa (Z.of_nat (List.length matches))]
                       ErrUnexpected), log)
      end
  end.

(** [ExtractConfig]: its result, the records logged and the events.  The
    deferred calls, last deferred first, run at every return. *)
Definition ExtractConfig (w : ConfigWorld) (addr : string)
  : (RemoteConfig + Error) * list slog.Record_ * list HttpEvent :=
  match url_parse.Parse addr with
  | None =>
      (inr (Errorf "could not parse server URL: %w" [] (LibError "parse")),
       [], [HvCancelTimeout])
  | Some parsed =>
      let server := server_of parsed in
      let log :=
        [slog.mkRecord slog.Info "Fetching homepage"
           [("server", slog.StringValue (url.String_ server))]] in
      match newRequest_error (homepage w) with
      | Some e =>
          (inr (Errorf "could not create request: %w" [] (GqlError e)),
           log, [HvCancelTimeout])
      | None =>
          let evs := [GET (url.String_ server)] in
          match do_result (homepage w) with
          | inr e =>
              (inr (Errorf "could not send request: %w" [] (GqlError e)),
               log, evs ++ [HvCancelTimeout])
          | inl resp =>
              if negb (StatusCode resp =? StatusOK)
              then (inr (Errorf "%w: could not fetch homepage: %v"
                                [Status resp] ErrUnexpected),
                    log, evs ++ [HvCancelTimeout])
              else
                let deferred := [HvBodyClose; HvCancelTimeout] in
                match ReadAll resp with
                | inr e =>
                    (inr (Errorf "could not read response body: %w" []
                                 (GqlError e)), log, evs ++ deferred)
                | inl rawBody =>
                    let log := debug "Extracting homepage matches"
                                 [("body", slog.StringValue rawBody)] log in
                    let matches := jsRegex rawBody in
                    let log :=
                      log ++ map (fun m =>
                                    slog.mkRecord slog.Debug "Found match"
                                      [("match", slog.StringsValue (submatch m))])
                                 matches in
                    match map snd matches with
                    | [path] =>
                        match JoinPath (url.String_ server) path with
                        | inr e =>
                            (inr (Errorf "could not combine path: %w" []
                                         (GqlError e)), log, evs ++ deferred)
                        | inl jsURL =>
                            let log :=
                              log ++ [slog.mkRecord slog.Info
                                        "Fetching main JS file"
                                        [("file", slog.StringValue jsURL)]] in
                            match newRequest_error (script w) with
                            | Some e =>
                                (inr (Errorf "could not create js request: %w"
                                             [] (GqlError e)),
                                 log, evs ++ deferred)
                            | None =>
                                let evs := evs ++ [GET jsURL] in
                                match do_result (script w) with
                                | inr e =>
                                    (inr (Errorf "could not send js request: %w"
                                                 [] (GqlError e)),
                                     log, evs ++ deferred)
                                | inl resp2 =>
                                    if negb (StatusCode resp2 =? StatusOK)
                                    then (inr (Errorf "%w: could not fetch js: %v"
                                                      [Status resp2]
                                                      ErrUnexpected),
                                          log, evs ++ deferred)
                                    else
                                      let deferred := HvBodyClose :: deferred in
                                      match ReadAll resp2 with
                                      | inr e =>
                                          (inr (Errorf
                                                  "could not read response body: %w"
                                                  [] (GqlError e)),
                                           log, evs ++ deferred)
                                      | inl rawBody2 =>
                                          match extract_loop rawBody2 (order w)
                                                             [] log with
                                          | (inr e, log) =>
                                              (inr e, log, evs ++ deferred)
                                          | (inl raw, log) =>
                                              let log :=
                                                debug "Extracted raw config"
                                                  [("raw", slog.MapValue raw)]
                                                  log in
                                              let matches :=
                                                scopeRegex
                                                  (raw_value raw "oauth_scope") in
                                              let log :=
                                                log ++ map
                                                  (fun m =>
                                                     slog.mkRecord slog.Debug
                                                       "Found scope match"
                                                       [("match",
                                                         slog.StringsValue
                                                           (submatch m))])
                                                  matches in
                                              (inl (mkRemoteConfig
                                                      (raw_value raw
                                                         "aws_appsync_graphqlEndpoint")
                                                      (raw_value raw
                                                         "aws_user_pools_web_client_id")
                                                      (raw_value raw "oauth_domain")
                                                      (raw_value raw
                                                         "oauth_responseType")
                                                      (map snd matches)),
                                               log, evs ++ deferred)
                                          end
                                      end
                                end
                            end
                        end
                    | _ =>
                        (inr (Errorf "%w: could find main JS file" []
                                     ErrUnexpected), log, evs ++ deferred)
                    end
                end
          end
      end
  end.

End Extracting.

(** A host name as it is typed: letters, digits, dots, hyphens and
    underscores, at least one of them. *)
Definition plain_byte (c : ascii) : bool :=
  url.is_alnum c || Ascii.eqb c "." || Ascii.eqb c "-" || Ascii.eqb c "_".

Fixpoint all_plain (s : string) : bool :=
  match s with
  | EmptyString => true
  | String c t => plain_byte c && all_plain t
  end.

Definition plain_host (s : string) : bool :=
  url.nonempty s && all_plain s.

(** *** The same loops, read cell by cell *)

(** What one pass of the permission loop does to a role. *)
Definition bump (duration : Z) (approvalRequired : bool) (role : Role.t)
  : Role.t :=
  Role.mk (Role.ID role) (Role.Name role)
          (if approvalRequired then Role.MaxDurNoApproval role
           else Z.max duration (Role.MaxDurNoApproval role))
          (Z.max duration (Role.MaxDurApproval role)).

(** The role that the permission loop works on: the one of the map, or a
    new one. *)
Definition role_of (roles : gomap.t Role.t) (perm : rawItem) : Role.t :=
  match gomap.get roles (Id perm) with
  | Some role => role
  | None => Role.mk (Id perm) (Name perm) 0 0
  end.

(** The permission loop and the account loop without the log. *)
Definition apply_permissions (d : Z) (appr : bool) (perms : list rawItem)
  (roles : gomap.t Role.t) : gomap.t Role.t :=
  fold_left (fun roles perm =>
               gomap.set roles (Id perm) (bump d appr (role_of roles perm)))
            perms roles.

Definition account_of (accounts : gomap.t Account.t) (account : rawItem)
  : Account.t :=
  match gomap.get accounts (Id account) with
  | Some acc => acc
  | None => Account.mk (Id account) (Name account) []
  end.

Definition apply_accounts (d : Z) (appr : bool) (perms accs : list rawItem)
  (accounts : gomap.t Account.t) : gomap.t Account.t :=
  fold_left (fun accounts account =>
               let acc := account_of accounts account in
               gomap.set accounts (Id account)
                 (Account.mk (Account.ID acc) (Account.Name acc)
                    (apply_permissions d appr perms (Account.Roles acc))))
            accs accounts.

(** The first item with the id [k]. *)
Definition first_with (k : string) (items : list rawItem) : option rawItem :=
  find (fun x => String.eqb (Id x) k) items.

Definition listed (k : string) (items : list rawItem) : bool :=
  existsb (fun x => String.eqb (Id x) k) items.

(** The role of permission [p] in account [a]. *)
Definition cell (accounts : gomap.t Account.t) (a p : string) : option Role.t :=
  match gomap.get accounts a with
  | Some acc => gomap.get (Account.Roles acc) p
  | None => None
  end.

(** The policies with their durations, when every duration is a number. *)
Fixpoint parsed (policies : list rawPolicy) : option (list (Z * rawPolicy)) :=
  match policies with
  | [] => Some []
  | pol :: rest =>
      match strconv.Atoi (Duration pol), parsed rest with
      | (d, None), Some l => Some ((d, pol) :: l)
      | _, _ => None
      end
  end.

(** The durations of the policies that list both the account [a] and the
    permission [p]; with [unapproved], of those that need no approval. *)
Definition durations (unapproved : bool) (a p : string)
  (policies : list rawPolicy) : list Z :=
  flat_map (fun pol =>
              if listed a (Accounts pol) && listed p (Permissions pol)
                 && (negb unapproved || negb (ApprovalRequired pol))
              then [fst (strconv.Atoi (Duration pol))] else [])
           policies.

(** One policy, one cell. *)
Definition cell_step (a p : string) (v : option Role.t) (dp : Z * rawPolicy)
  : option Role.t :=
  match (if listed a (Accounts (snd dp))
         then first_with p (Permissions (snd dp)) else None) with
  | Some f =>
      Some (bump (fst dp) (ApprovalRequired (snd dp))
                 (match v with Some r => r | None => Role.mk p (Name f) 0 0 end))
  | None => v
  end.

Definition policy_step (accounts : gomap.t Account.t) (dp : Z * rawPolicy)
  : gomap.t Account.t :=
  apply_accounts (fst dp) (ApprovalRequired (snd dp)) (Permissions (snd dp))
                 (Accounts (snd dp)) accounts.

(** One policy, one account. *)
Definition account_step (a : string) (v : option (string * string))
  (dp : Z * rawPolicy) : option (string * string) :=
  match first_with a (Accounts (snd dp)) with
  | Some first => Some (match v with Some x => x | None => (a, Name first) end)
  | None => v
  end.

Definition header (accounts : gomap.t Account.t) (a : string)
  : option (string * string) :=
  option_map (fun acc => (Account.ID acc, Account.Name acc))
             (gomap.get accounts a).

(** Whether the duration of a policy is not a number. *)
Definition bad_duration (pol : rawPolicy) : bool :=
  match snd (strconv.Atoi (Duration pol)) with Some _ => true | None => false end.

End team.

(** ** [strings.TrimSpace] *)

(** [unicode.IsSpace]. *)
Definition IsSpace (r : Z) : bool :=
  if (0 <=? r) && (r <=? 0xFF) then
    (r =? 0x09) || (r =? 0x0A) || (r =? 0x0B) || (r =? 0x0C) || (r =? 0x0D)
    || (r =? 0x20) || (r =? 0x85) || (r =? 0xA0)
  else
    (r =? 0x1680) || ((0x2000 <=? r) && (r <=? 0x200A))
    || ((0x2028 <=? r) && (r <=? 0x2029)) || (r =? 0x202F) || (r =? 0x205F)
    || (r =? 0x3000).

(** The table [asciiSpace]. *)
Definition asciiSpace (c : Z) : bool :=
  (c =? 0x09) || (c =? 0x0A) || (c =? 0x0B) || (c =? 0x0C) || (c =? 0x0D)
  || (c =? 0x20).

(** [utf8.RuneStart]. *)
Definition RuneStart (b : Z) : bool := negb (Z.land b 0xC0 =? 0x80).

(** The loop of [DecodeLastRuneInString]: from [start] down to [lim], the
    index of the first byte that can start a rune, as an integer that may
    fall below zero. *)
Fixpoint back_to_start (s : string) (start : nat) (steps : nat) : Z :=
  match steps with
  | O => Z.of_nat start
  | S k =>
      if RuneStart (at_ s start) then Z.of_nat start
      else match start with
           | O => -1
           | S start' => back_to_start s start' k
           end
  end.

(** [utf8.DecodeLastRuneInString]. *)
Definition DecodeLastRuneInString (s : string) : Z * nat :=
  let end_ := String.length s in
  match end_ with
  | O => (utf8.RuneError, O)
  | S start =>
      let r := at_ s start in
      if r <? utf8.RuneSelf then (r, 1%nat)
      else
        let lim := (end_ - utf8.UTFMax)%nat in
        let found :=
          match start with
          | O => -1
          | S start' => back_to_start s start' (start - lim)
          end in
        let start1 := if found <? 0 then O else Z.to_nat found in
        let '(r, size) := utf8.DecodeRuneInString (drop start1 s) in
        if negb (start1 + size =? end_)%nat then (utf8.RuneError, 1%nat)
        else (r, size)
  end.

(** [TrimLeftFunc(s, unicode.IsSpace)]: the runes of [s] are decoded from the
    left until one is not a space. *)
Fixpoint trim_left (fuel : nat) (s : string) : string :=
  match fuel with
  | O => s
  | S fuel' =>
      match s with
      | EmptyString => EmptyString
      | _ =>
          let '(r, size) := utf8.DecodeRuneInString s in
          if IsSpace r then trim_left fuel' (drop size s) else s
      end
  end.

Definition TrimLeftSpace (s : string) : string :=
  trim_left (String.length s) s.

(** [lastIndexFunc(s, unicode.IsSpace, false)]: the index of the last rune
    of [s[:i]] that is not a space. *)
Fixpoint last_index (fuel : nat) (s : string) (i : nat) : option nat :=
  match fuel with
  | O => None
  | S fuel' =>
      match i with
      | O => None
      | _ =>
          let '(r, size) := DecodeLastRuneInString (take i s) in
          let i' := (i - size)%nat in
          if IsSpace r then last_index fuel' s i' else Some i'
      end
  end.

(** [TrimRightFunc(s, unicode.IsSpace)]. *)
Definition TrimRightSpace (s : string) : string :=
  match last_index (String.length s) s (String.length s) with
  | Some i =>
      if at_ s i >=? utf8.RuneSelf
      then take (i + snd (utf8.DecodeRuneInString (drop i s))) s
      else take (i + 1) s
  | None => EmptyString
  end.

(** The second loop of [TrimSpace], on [s[start:]]: [stop] counts down. *)
Fixpoint trim_stop (s : string) (stop : nat) : string :=
  match stop with
  | O => EmptyString
  | S stop' =>
      let c := at_ s stop' in
      if c >=? utf8.RuneSelf then TrimRightSpace (take stop s)
      else if asciiSpace c then trim_stop s stop'
      else take stop s
  end.

(** [strings.TrimSpace]: the first loop, then the second. *)
Fixpoint TrimSpace (s : string) : string :=
  match s with
  | EmptyString => EmptyString
  | String ch t =>
      let c := byte ch in
      if c >=? utf8.RuneSelf then TrimRightSpace (TrimLeftSpace s)
      else if asciiSpace c then TrimSpace t
      else trim_stop s (String.length s)
  end.

(** ** Package [main]: the prompts *)

Module cli.

(** The standard input is the list of its lines, each without the newline
    that ends it; when the lines run out, [ReadString] fails with [eof].
    The output is the list of the messages printed. *)
Record Terminal : Type := mkTerminal {
  stdin : list string;
  eof : error;
  stdout : list string
}.

(** [prompt(msg)]. *)
Definition prompt (msg : string) (t : Terminal)
  : string * option error * Terminal :=
  let out := stdout t ++ [msg] in
  match stdin t with
  | [] => (EmptyString, Some (eof t), mkTerminal [] (eof t) out)
  | raw :: rest =>
      (TrimSpace (raw ++ String (chr 10) EmptyString), None,
       mkTerminal rest (eof t) out)
  end.

Definition yes_words : list string := ["y"; "yes"; "t"].

Definition no_words : list string :=
  ["n"; "no"; "f"; "q"; "quit"; "s"; "stop"; "e"; "exit"].

Definition is_word (ws : list string) (line : string) : bool :=
  existsb (String.eqb line) ws.

(** The loop of [promptBool], over the lines to come. *)
Fixpoint promptBool_loop (msg : string) (lines : list string) (e : error)
  (out : list string) : bool * option error * Terminal :=
  match lines with
  | [] => (false, Some e, mkTerminal [] e (out ++ [msg]))
  | raw :: rest =>
      let line := TrimSpace (raw ++ String (chr 10) EmptyString) in
      if is_word yes_words line
      then (true, None, mkTerminal rest e (out ++ [msg]))
      else if is_word no_words line
      then (false, None, mkTerminal rest e (out ++ [msg]))
      else promptBool_loop msg rest e (out ++ [msg])
  end.

Definition promptBool (msg : string) (t : Terminal)
  : bool * option error * Terminal :=
  promptBool_loop msg (stdin t) (eof t) (stdout t).

(** The loop of [promptSelection]. *)
Fixpoint promptSelection_loop (msg : string) (min max : Z)
  (lines : list string) (e : error) (out : list string)
  : Z * option error * Terminal :=
  match lines with
  | [] => (0, Some e, mkTerminal [] e (out ++ [msg]))
  | raw :: rest =>
      let line := TrimSpace (raw ++ String (chr 10) EmptyString) in
      match strconv.Atoi line with
      | (_, Some _) => promptSelection_loop msg min max rest e (out ++ [msg])
      | (val, None) =>
          if (val <? min) || (val >? max)
          then promptSelection_loop msg min max rest e (out ++ [msg])
          else (val, None, mkTerminal rest e (out ++ [msg]))
      end
  end.

Definition promptSelection (msg : string) (min max : Z) (t : Terminal)
  : Z * option error * Terminal :=
  promptSelection_loop msg min max (stdin t) (eof t) (stdout t).

(** The loop of [promptString]. *)
Fixpoint promptString_loop (msg : string) (lines : list string) (e : error)
  (out : list string) : string * option error * Terminal :=
  match lines with
  | [] => (EmptyString, Some e, mkTerminal [] e (out ++ [msg]))
  | raw :: rest =>
      let line := TrimSpace (raw ++ String (chr 10) EmptyString) in
      if String.eqb line EmptyString
      then promptString_loop msg rest e (out ++ [msg])
      else (line, None, mkTerminal rest e (out ++ [msg]))
  end.

Definition promptString (msg : string) (t : Terminal)
  : string * option error * Terminal :=
  promptString_loop msg (stdin t) (eof t) (stdout t).

(** The line that [prompt] makes of a raw line. *)
Definition line_of (raw : string) : string :=
  TrimSpace (raw ++ String (chr 10) EmptyString).

(** The lines that [promptSelection] asks again for. *)
Definition rejected (min max : Z) (raw : string) : bool :=
  match strconv.Atoi (line_of raw) with
  | (_, Some _) => true
  | (val, None) => (val <? min) || (val >? max)
  end.

(** The lines that [promptBool] asks again for. *)
Definition unclear (raw : string) : bool :=
  negb (is_word yes_words (line_of raw))
  && negb (is_word no_words (line_of raw)).

End cli.

(** ** Package [regexp]: the pattern of the ticket numbers *)

Module regexp.

(** The syntax of the pattern. *)
Inductive Regexp : Type :=
| BeginText                                  (* [^] *)
| EndText                                    (* [$] *)
| CharClass (ranges : list (ascii * ascii))  (* [[a-z...]] *)
| Plus (r : Regexp)                          (* [r+] *)
| Concat (r1 r2 : Regexp).

Definition in_class (c : ascii) (ranges : list (ascii * ascii)) : bool :=
  existsb (fun range => (byte (fst range) <=? byte c)
                        && (byte c <=? byte (snd range))) ranges.

(** The positions of [text] where a match of [r] that starts at [pos] can
    end.  A repetition is tried at most [fuel] more times, each time from a
    position further on. *)
Fixpoint ends (r : Regexp) (fuel : nat) (text : string) (pos : nat)
  : list nat :=
  match r with
  | BeginText => if (pos =? 0)%nat then [pos] else []
  | EndText => if (pos =? String.length text)%nat then [pos] else []
  | CharClass ranges =>
      match String.get pos text with
      | Some c => if in_class c ranges then [S pos] else []
      | None => []
      end
  | Concat r1 r2 => flat_map (ends r2 fuel text) (ends r1 fuel text pos)
  | Plus r1 =>
      (fix again (n : nat) (pos : nat) : list nat :=
         let once := ends r1 fuel text pos in
         match n with
         | O => once
         | S n' =>
             once ++ flat_map (fun p => if (pos <? p)%nat then again n' p
                                        else []) once
         end) fuel pos
  end.

(** [re.MatchString(s)]: some match of [re] starts somewhere in [s]. *)
Definition MatchString (re : Regexp) (s : string) : bool :=
  existsb (fun start =>
             match ends re (String.length s) s start with
             | [] => false
             | _ => true
             end)
          (seq 0 (S (String.length s))).

(** The repetition of a class, unfolded. *)
Fixpoint class_run (ranges : list (ascii * ascii)) (n : nat) (text : string)
  (pos : nat) : list nat :=
  match String.get pos text with
  | Some c =>
      if in_class c ranges
      then S pos :: match n with
                    | O => []
                    | S n' => class_run ranges n' text (S pos)
                    end
      else []
  | None => []
  end.

(** The bytes of [s] from [pos] on are bytes of the class. *)
Fixpoint class_from (ranges : list (ascii * ascii)) (s : string) (pos : nat)
  : bool :=
  match s with
  | EmptyString => true
  | String c t =>
      match pos with
      | O => in_class c ranges && class_from ranges t O
      | S pos' => class_from ranges t pos'
      end
  end.

End regexp.

(** The bytes of a ticket number. *)
Definition ticket_ranges : list (ascii * ascii) :=
  [("a", "z"); ("A", "Z"); ("0", "9"); ("_", "_"); ("-", "-")]%char.

(** [team.TicketRegex]: the pattern [^[a-zA-Z0-9_-]+$]. *)
Definition TicketRegex : regexp.Regexp :=
  regexp.Concat regexp.BeginText
    (regexp.Concat (regexp.Plus (regexp.CharClass ticket_ranges))
                   regexp.EndText).

Fixpoint all_ticket_bytes (s : string) : bool :=
  match s with
  | EmptyString => true
  | String c t => regexp.in_class c ticket_ranges && all_ticket_bytes t
  end.

(** ** Two policies *)

(** A policy that needs approval, for two accounts and two permissions, and
    a policy without approval that names one of the accounts again, under
    another name. *)
Definition demo_policies : list team.rawPolicy :=
  [team.mkRawPolicy
     [team.mkRawItem "production" "111" "Account";
      team.mkRawItem "development" "222" "Account"]
     [team.mkRawItem "Admin" "p-admin" "Permission";
      team.mkRawItem "ReadOnly" "p-read" "Permission"]
     true "8" "Policy";
   team.mkRawPolicy
     [team.mkRawItem "dev (renamed)" "222" "Account"]
     [team.mkRawItem "ReadOnly" "p-read" "Permission"]
     false "4" "Policy"].

Definition demo_accounts : gomap.t team.Account.t :=
  [("111", team.Account.mk "111" "production"
             [("p-admin", team.Role.mk "p-admin" "Admin" 0 8);
              ("p-read", team.Role.mk "p-read" "ReadOnly" 0 8)]);
   ("222", team.Account.mk "222" "development"
             [("p-admin", team.Role.mk "p-admin" "Admin" 0 8);
              ("p-read", team.Role.mk "p-read" "ReadOnly" 4 8)])].

(** ** A server to configure *)

(** A homepage that names one script, and a script in which every extractor
    finds one match. *)
Definition demo_jsRegex (body : string) : list (string * string) :=
  [("src=main.js", "main.js")].

Definition demo_extractors (name body : string) : list (string * string) :=
  [((name ++ ":value")%string, (name ++ "-value")%string)].

Definition demo_scopeRegex (text : string) : list (string * string) :=
  [("openid,", "openid"); ("email", "email")].

Definition demo_JoinPath (base elem : string) : string + error :=
  inl (base ++ "/" ++ elem)%string.

Definition demo_answer (body : string) : HttpWorld :=
  mkHttpWorld None (inl (mkResponse 200 "200 OK" (inl body))).

Definition demo_config_world (order : list string) : team.ConfigWorld :=
  team.mkConfigWorld (demo_answer "homepage") (demo_answer "script") order.

Definition demo_extract (order : list string)
  : (team.RemoteConfig + team.Error) * list slog.Record_ * list HttpEvent :=
  team.ExtractConfig demo_jsRegex demo_extractors demo_scopeRegex demo_JoinPath
    (demo_config_world order) "team.you-company.com".

(* ====================================================================== *)
(** * Part II: the endpoint resolver *)

Local Open Scope string_scope.
Local Open Scope Z_scope.

(** ** The definitions on examples *)

Example parse_svc :
  url_parse.Parse "https://svc.example.com"
  = Some (url.mkURL "https" "" "svc.example.com" "" false false "" "").
Proof. vm_compute. reflexivity. Qed.

Example parse_appsync :
  url_parse.Parse "https://x.appsync-api.us-east-1.amazonaws.com/graphql"
  = Some (url.mkURL "https" "" "x.appsync-api.us-east-1.amazonaws.com"
                    "/graphql" false false "" "").
Proof. vm_compute. reflexivity. Qed.

Example parse_misc :
  url_parse.Parse "HTTP://h.example:8080/a/b?x=1#top"
  = Some (url.mkURL "http" "" "h.example:8080" "/a/b" false false "x=1" "top")
  /\ url_parse.Parse "mailto:someone" 
     = Some (url.mkURL "mailto" "someone" "" "" false false "" "")
  /\ url_parse.Parse ":x" = None
  /\ url_parse.Parse "http://h:port/" = None.
Proof. vm_compute. repeat split. Qed.

Example string_roundtrip_misc :
  option_map url.String_ (url_parse.Parse "http://h.example:8080/a/b?x=1#top")
  = Some "http://h.example:8080/a/b?x=1#top".
Proof. vm_compute. reflexivity. Qed.

Example hostname_examples :
  url.Hostname (url.mkURL "https" "" "h.example:8080" "" false false "" "")
  = "h.example"
  /\ url.Hostname (url.mkURL "https" "" "a:b:80" "" false false "" "") = "a:b"
  /\ url.Hostname (url.mkURL "https" "" "[::1]:443" "" false false "" "") = "::1"
  /\ url.Hostname svc_url = "svc.example.com".
Proof. vm_compute. repeat split. Qed.

Example gen_svc :
  option_map (fun u => fst (GenerateWSAddr u))
             (url_parse.Parse "https://svc.example.com")
  = Some "wss://svc.example.com/realtime".
Proof. vm_compute. reflexivity. Qed.

Example decode_rune_examples :
  utf8.DecodeRuneInString "a" = (97, 1%nat)
  /\ utf8.DecodeRuneInString (String (chr 0xC3) (String (chr 0xA9) "x"))
     = (0xE9, 2%nat)
  /\ utf8.DecodeRuneInString
       (String (chr 0xE2) (String (chr 0x80) (String (chr 0xA8) "")))
     = (0x2028, 3%nat)
  /\ utf8.DecodeRuneInString (String (chr 0xFF) "a") = (utf8.RuneError, 1%nat)
  /\ utf8.DecodeRuneInString (String (chr 0xE2) (String (chr 0x80) ""))
     = (utf8.RuneError, 1%nat)
  /\ utf8.DecodeRuneInString
       (String (chr 0xF0) (String (chr 0x9F) (String (chr 0x98)
          (String (chr 0x80) ""))))
     = (0x1F600, 4%nat)
  /\ utf8.EncodeRune 0x1F600
     = String (chr 0xF0) (String (chr 0x9F) (String (chr 0x98)
          (String (chr 0x80) "")))
  /\ utf8.EncodeRune 0x2028
     = String (chr 0xE2) (String (chr 0x80) (String (chr 0xA8) "")).
Proof. vm_compute. repeat split. Qed.

Example marshal_authExt :
  json.Marshal_map (authExt "h.example" "a<b")
  = String "{" (String json.dquote "Authorization"
      ++ String json.dquote ":" ++ String json.dquote "a"
      ++ String json.backslash "u003cb"
      ++ String json.dquote "," ++ String json.dquote "host"
      ++ String json.dquote ":" ++ String json.dquote "h.example"
      ++ String json.dquote "}").
Proof. vm_compute. reflexivity. Qed.

Example base64_examples :
  base64.URLEncoding_EncodeToString "foobar" = "Zm9vYmFy"
  /\ base64.URLEncoding_EncodeToString "fooba" = "Zm9vYmE="
  /\ base64.URLEncoding_EncodeToString "foob" = "Zm9vYg=="
  /\ base64.RawURLEncoding_EncodeToString "foob" = "Zm9vYg"
  /\ base64.URLEncoding_EncodeToString (String (chr 0xFB) (String (chr 0xFF) ""))
     = "-_8=".
Proof. vm_compute. repeat split. Qed.

Example subprotocol_example :
  subprotocol "h" "t" = "header-eyJBdXRob3JpemF0aW9uIjoidCIsImhvc3QiOiJoIn0".
Proof. vm_compute. reflexivity. Qed.

Example base64_decode_examples :
  base64_decode.Decode "Zm9vYmFy" = Some "foobar"
  /\ base64_decode.Decode "Zm9vYmE" = Some "fooba"
  /\ base64_decode.Decode "Zm9vYg" = Some "foob"
  /\ base64_decode.Decode "Zm9vY" = None
  /\ base64_decode.Decode "Zm9v=" = None.
Proof. vm_compute. repeat split. Qed.

Example unquote_examples :
  json_parse.unquote_from
    (String "a" (String json.backslash
       (String "u" (String "0" (String "0" (String "3" (String "c"
          (String json.dquote "rest"))))))))
  = Some ("a<", "rest")
  /\ json_parse.unquote_from
       (String json.backslash "ud83d" ++ String json.backslash "ude00"
        ++ String json.dquote "")
     = Some (String (chr 0xF0) (String (chr 0x9F) (String (chr 0x98)
               (String (chr 0x80) ""))), "")
  /\ json_parse.unquote_from
       (String json.backslash "ud83dx" ++ String json.dquote "")
     = Some (String (chr 0xEF) (String (chr 0xBF) (String (chr 0xBD) "x")), "")
  /\ json_parse.unquote_from "unterminated" = None.
Proof. vm_compute. repeat split. Qed.

Example decode_subprotocol_example :
  decode_subprotocol (subprotocol "svc.example.com" "a<b&c")
  = Some [("Authorization", "a<b&c"); ("host", "svc.example.com")].
Proof. vm_compute. reflexivity. Qed.

(** ** Facts about [strings.Replace] *)

Section ReplaceFacts.

Import strings.

Lemma append_assoc_s (a b c : string) : ((a ++ b) ++ c = a ++ (b ++ c))%string.
Proof. induction a as [|x a IH]; simpl; [reflexivity | now rewrite IH]. Qed.

Lemma length_append_s (a b : string) :
  String.length (a ++ b) = (String.length a + String.length b)%nat.
Proof. induction a as [|x a IH]; simpl; [reflexivity | now rewrite IH]. Qed.

Lemma HasPrefix_split (s p : string) :
  HasPrefix s p = true -> exists t, s = (p ++ t)%string.
Proof.
  unfold HasPrefix. revert s.
  induction p as [|c p IH]; intros s H.
  - exists s. reflexivity.
  - destruct s as [|d s]; simpl in H; [discriminate|].
    destruct (ascii_dec c d) as [->|]; [|discriminate].
    destruct (IH s H) as [t ->]. exists t. reflexivity.
Qed.

Lemma HasPrefix_append (p t : string) : HasPrefix (p ++ t) p = true.
Proof.
  unfold HasPrefix. induction p as [|c p IH]; simpl.
  - destruct t; reflexivity.
  - destruct (ascii_dec c c); [exact IH | congruence].
Qed.

Lemma Contains_cons (c : ascii) (s p : string) :
  Contains (String c s) p = HasPrefix (String c s) p || Contains s p.
Proof. reflexivity. Qed.

Lemma replace_from_done (old new : string) (t : string) :
  replace_from old new O 0 t = t.
Proof. induction t as [|c t IH]; simpl; [reflexivity | now rewrite IH]. Qed.

Lemma replace_from_skip (old new a t : string) (n : Z) :
  replace_from old new (String.length a) n (a ++ t)
  = replace_from old new O n t.
Proof. induction a as [|c a IH]; simpl; [reflexivity | exact IH]. Qed.

(** Replacing once rewrites the leftmost occurrence and nothing else. *)
Lemma Replace_once (old new : string) :
  old <> EmptyString -> String.eqb old new = false ->
  forall s, Contains s old = true ->
  exists pre post,
    s = (pre ++ old ++ post)%string
    /\ Replace s old new 1 = (pre ++ new ++ post)%string
    /\ forall pre' post', s = (pre' ++ old ++ post')%string ->
                          (String.length pre <= String.length pre')%nat.
Proof.
  intros Hne Hdiff s. unfold Replace. rewrite Hdiff. simpl.
  destruct old as [|o old']; [congruence|].
  induction s as [|c s IH]; intros Hc.
  - simpl in Hc. discriminate.
  - rewrite Contains_cons in Hc.
    destruct (HasPrefix (String c s) (String o old')) eqn:Hp.
    + destruct (HasPrefix_split _ _ Hp) as [post Hs].
      exists EmptyString, post. split; [exact Hs|]. split.
      * change (replace_from (String o old') new O 1 (String c s))
          with (if HasPrefix (String c s) (String o old')
                then new ++ replace_from (String o old') new
                              (String.length (String o old') - 1) (1 - 1) s
                else String c (replace_from (String o old') new O 1 s))%string.
        rewrite Hp. simpl in Hs. injection Hs as _ Hs. subst s.
        replace (String.length (String o old') - 1)%nat
          with (String.length old') by (simpl; lia).
        change (1 - 1) with 0.
        rewrite replace_from_skip, replace_from_done. reflexivity.
      * intros; simpl; lia.
    + destruct (IH Hc) as (pre & post & Hs & Hr & Hl).
      exists (String c pre), post. split; [simpl; f_equal; exact Hs|]. split.
      * change (replace_from (String o old') new O 1 (String c s))
          with (if HasPrefix (String c s) (String o old')
                then new ++ replace_from (String o old') new
                              (String.length (String o old') - 1) (1 - 1) s
                else String c (replace_from (String o old') new O 1 s))%string.
        rewrite Hp, Hr. reflexivity.
      * intros pre' post' E. destruct pre' as [|d pre'].
        -- simpl in E. rewrite E in Hp.
           pose proof (HasPrefix_append (String o old') post') as Hq.
           simpl in Hq, Hp. rewrite Hq in Hp. discriminate.
        -- simpl in E. injection E as _ E. simpl.
           apply le_n_S. exact (Hl pre' post' E).
Qed.

End ReplaceFacts.

(** ** Properties of [GenerateWSAddr] *)

Section GenerateWSAddrFacts.

Import url.

Lemma GenerateWSAddr_host (u : URL) :
  isAppSync (Host u) = true ->
  Path (snd (GenerateWSAddr u)) = Path u
  /\ exists pre post,
      Host u = (pre ++ ".appsync-api." ++ post)%string
      /\ Host (snd (GenerateWSAddr u))
         = (pre ++ ".appsync-realtime-api." ++ post)%string
      /\ forall pre' post',
          Host u = (pre' ++ ".appsync-api." ++ post')%string ->
          (String.length pre <= String.length pre')%nat.
Proof.
  intros Happ. unfold GenerateWSAddr. rewrite Happ.
  split.
  - destruct (String.eqb _ "https"); reflexivity.
  - unfold isAppSync in Happ. apply andb_true_iff in Happ as [Hc _].
    destruct (Replace_once ".appsync-api." ".appsync-realtime-api."
                ltac:(discriminate) eq_refl (Host u) Hc)
      as (pre & post & Hs & Hr & Hl).
    exists pre, post. split; [exact Hs|]. split; [|exact Hl].
    rewrite <- Hr. destruct (String.eqb _ "https"); reflexivity.
Qed.

Lemma GenerateWSAddr_path (u : URL) :
  isAppSync (Host u) = false ->
  Host (snd (GenerateWSAddr u)) = Host u
  /\ Path (snd (GenerateWSAddr u)) = (Path u ++ "/realtime")%string.
Proof.
  intros Happ. unfold GenerateWSAddr. rewrite Happ.
  destruct (String.eqb _ "https"); split; reflexivity.
Qed.

Lemma GenerateWSAddr_scheme (u : URL) :
  Scheme (snd (GenerateWSAddr u))
  = if String.eqb (Scheme u) "https" then "wss" else "ws".
Proof.
  unfold GenerateWSAddr.
  destruct (isAppSync (Host u)); simpl;
    destruct (String.eqb (Scheme u) "https"); reflexivity.
Qed.

Lemma GenerateWSAddr_other_fields (u : URL) :
  let u' := snd (GenerateWSAddr u) in
  Opaque u' = Opaque u /\ OmitHost u' = OmitHost u
  /\ ForceQuery u' = ForceQuery u /\ RawQuery u' = RawQuery u
  /\ Fragment u' = Fragment u.
Proof.
  unfold GenerateWSAddr.
  destruct (isAppSync (Host u)); simpl;
    destruct (String.eqb (Scheme u) "https"); simpl; repeat split.
Qed.

(** The address is the rendering of the rewritten URL, and it opens with the
    rewritten scheme. *)
Lemma String_scheme_prefix (u : URL) :
  Scheme u <> EmptyString ->
  exists rest, String_ u = (Scheme u ++ ":" ++ rest)%string.
Proof.
  intros Hs. unfold String_.
  assert (Hn : nonempty (Scheme u) = true).
  { unfold nonempty. destruct (String.eqb_spec (Scheme u) ""); [contradiction|reflexivity]. }
  rewrite Hn. simpl orb.
  destruct (nonempty (Opaque u)).
  - eexists. rewrite !append_assoc_s. reflexivity.
  - eexists. rewrite !append_assoc_s. reflexivity.
Qed.

End GenerateWSAddrFacts.

(** ** A second call of [GenerateWSAddr] on the same URL *)

Section SecondCall.

Import url.

Lemma escape_app (a b : string) (m : encoding) :
  escape (a ++ b) m = (escape a m ++ escape b m)%string.
Proof.
  induction a as [|c a IH]; simpl; [reflexivity|].
  rewrite IH. destruct (shouldEscape c m); reflexivity.
Qed.

Lemma nonempty_length (s : string) :
  nonempty s = negb (String.length s =? 0)%nat.
Proof. destruct s; reflexivity. Qed.

Lemma nonempty_true (s : string) : s <> "" -> nonempty s = true.
Proof. destruct s; [congruence | reflexivity]. Qed.

Lemma first_byte_append (a b : string) (c : ascii) :
  nonempty a = true -> first_byte_is (a ++ b) c = first_byte_is a c.
Proof. destruct a; [discriminate | reflexivity]. Qed.

(** The pieces of the rendering of a URL that has a scheme and no opaque
    part. *)
Local Abbreviation authority u :=
  (if OmitHost u && negb (nonempty (Host u)) then ""
   else (if nonempty (Host u) || nonempty (Path u) then "//" else "")
        ++ (if nonempty (Host u) then escape (Host u) encodeHost else ""))%string.

Local Abbreviation slash u :=
  (if nonempty (EscapedPath u) && negb (first_byte_is (EscapedPath u) "/")
      && nonempty (Host u)
   then "/" else "")%string.

Local Abbreviation tail u :=
  ((if ForceQuery u || nonempty (RawQuery u) then "?" ++ RawQuery u else "")
   ++ (if nonempty (Fragment u) then "#" ++ escape (Fragment u) encodeFragment
       else ""))%string.

Lemma String_pieces (u : URL) :
  nonempty (Scheme u) = true -> Opaque u = "" ->
  String_ u
  = (Scheme u ++ ":" ++ authority u ++ slash u ++ EscapedPath u ++ tail u)%string.
Proof.
  intros Hs Ho. unfold String_. rewrite Hs, Ho. simpl orb.
  cbn [nonempty String.eqb negb]. cbv zeta.
  assert (Hb : nonempty ((Scheme u ++ ":") ++ authority u ++ slash u) = true).
  { rewrite nonempty_length, !length_append_s. simpl.
    destruct (String.length (Scheme u) + 1 + _)%nat eqn:E; [lia|reflexivity]. }
  rewrite Hb. simpl. rewrite !append_assoc_s. reflexivity.
Qed.

Lemma String_opaque (u : URL) :
  nonempty (Opaque u) = true ->
  String_ u = ((if nonempty (Scheme u) then Scheme u ++ ":" else "")
               ++ Opaque u ++ tail u)%string.
Proof.
  intros Ho. unfold String_. rewrite Ho. rewrite !append_assoc_s. reflexivity.
Qed.

Lemma String_pieces_length (u : URL) :
  nonempty (Scheme u) = true -> Opaque u = "" ->
  String.length (String_ u)
  = (String.length (Scheme u) + 1 + String.length (authority u)
     + String.length (slash u) + String.length (EscapedPath u)
     + String.length (tail u))%nat.
Proof.
  intros Hs Ho. rewrite (String_pieces u Hs Ho), !length_append_s. simpl. lia.
Qed.

(** Appending [/realtime] to the path makes the escaped path longer and keeps
    the slash before it. *)
Lemma EscapedPath_realtime (u : URL) :
  EscapedPath (set_Path (Path u ++ "/realtime") u)
  = (escape (Path u) encodePath ++ "/realtime")%string
  /\ (String.length (EscapedPath u) + 9
      <= String.length (EscapedPath (set_Path (Path u ++ "/realtime") u)))%nat
  /\ (String.length (slash u)
      <= String.length (slash (set_Path (Path u ++ "/realtime") u)))%nat.
Proof.
  assert (E : EscapedPath (set_Path (Path u ++ "/realtime") u)
              = (escape (Path u) encodePath ++ "/realtime")%string).
  { unfold EscapedPath. cbn [Path set_Path].
    destruct (String.eqb_spec (Path u ++ "/realtime") "*") as [F|_].
    - apply (f_equal String.length) in F. rewrite length_append_s in F.
      simpl in F. lia.
    - rewrite escape_app. reflexivity. }
  split; [exact E|]. rewrite E. cbn [Host set_Path].
  assert (L : (String.length (EscapedPath u)
               <= String.length (escape (Path u) encodePath))%nat).
  { unfold EscapedPath. destruct (String.eqb_spec (Path u) "*") as [->|_];
      [simpl; lia | lia]. }
  split; [rewrite length_append_s; simpl; lia|].
  destruct (nonempty (EscapedPath u) && negb (first_byte_is (EscapedPath u) "/")
            && nonempty (Host u)) eqn:S1; [|simpl; lia].
  apply andb_true_iff in S1 as [S1 Hh]. apply andb_true_iff in S1 as [Hn Hf].
  assert (N : nonempty (escape (Path u) encodePath) = true
              /\ first_byte_is (escape (Path u) encodePath) "/" = false).
  { revert Hn Hf. unfold EscapedPath.
    destruct (String.eqb_spec (Path u) "*") as [->|_]; [split; reflexivity|].
    intros Hn Hf. split; [exact Hn|]. now destruct (first_byte_is _ _). }
  destruct N as (N1 & N2).
  rewrite (first_byte_append _ _ _ N1), N2, Hh.
  rewrite nonempty_length, length_append_s. simpl.
  destruct (String.length _ + 9)%nat eqn:E9; [lia|]. simpl. lia.
Qed.

Lemma authority_realtime (u : URL) :
  (String.length (authority u)
   <= String.length (authority (set_Path (Path u ++ "/realtime") u)))%nat.
Proof.
  cbn [Host Path OmitHost set_Path].
  destruct (OmitHost u && negb (nonempty (Host u))); [lia|].
  rewrite !length_append_s.
  destruct (nonempty (Host u)); simpl; [lia|].
  destruct (Path u); simpl; lia.
Qed.

Lemma GenerateWSAddr_ws (v : URL) :
  Scheme v = "ws" ->
  fst (GenerateWSAddr v)
  = String_ (set_Scheme "ws"
               (if isAppSync (Host v)
                then set_Host (strings.Replace (Host v) ".appsync-api."
                                 ".appsync-realtime-api." 1) v
                else set_Path (Path v ++ "/realtime") v)).
Proof.
  intros Hs. unfold GenerateWSAddr.
  destruct (isAppSync (Host v)); cbn [Scheme set_Host set_Path fst];
    rewrite Hs; reflexivity.
Qed.

(** A call on a URL of scheme [ws] without opaque part returns an address
    that is longer than the rendering of the URL. *)
Lemma GenerateWSAddr_grows (v : URL) :
  Scheme v = "ws" -> Opaque v = "" ->
  (String.length (String_ v) < String.length (fst (GenerateWSAddr v)))%nat.
Proof.
  intros Hs Ho. rewrite (GenerateWSAddr_ws v Hs).
  assert (Hn : nonempty (Scheme v) = true) by (rewrite Hs; reflexivity).
  destruct (isAppSync (Host v)) eqn:Happ.
  - unfold isAppSync in Happ. apply andb_true_iff in Happ as [Hc _].
    destruct (Replace_once ".appsync-api." ".appsync-realtime-api."
                ltac:(discriminate) eq_refl (Host v) Hc)
      as (pre & post & Hh & Hr & _).
    rewrite Hr.
    rewrite (String_pieces_length v Hn Ho), String_pieces_length;
      [|reflexivity | exact Ho].
    unfold EscapedPath.
    cbn [Scheme Host Path OmitHost ForceQuery RawQuery Fragment
         set_Host set_Scheme].
    rewrite Hh, Hs.
    assert (N1 : nonempty (pre ++ ".appsync-api." ++ post) = true).
    { rewrite nonempty_length, !length_append_s. simpl.
      destruct (String.length pre + _)%nat eqn:E; [lia | reflexivity]. }
    assert (N2 : nonempty (pre ++ ".appsync-realtime-api." ++ post) = true).
    { rewrite nonempty_length, !length_append_s. simpl.
      destruct (String.length pre + _)%nat eqn:E; [lia | reflexivity]. }
    rewrite N1, N2, !andb_false_r. simpl orb. cbv iota.
    rewrite !andb_true_r.
    rewrite !escape_app, !length_append_s.
    change (escape ".appsync-api." encodeHost) with ".appsync-api.".
    change (escape ".appsync-realtime-api." encodeHost)
      with ".appsync-realtime-api.".
    simpl String.length. lia.
  - destruct (EscapedPath_realtime v) as (_ & L1 & L2).
    pose proof (authority_realtime v) as L3.
    rewrite (String_pieces_length v Hn Ho), String_pieces_length;
      [|reflexivity | exact Ho].
    change (EscapedPath (set_Scheme "ws" (set_Path (Path v ++ "/realtime") v)))
      with (EscapedPath (set_Path (Path v ++ "/realtime") v)).
    cbn [Scheme Host Path OmitHost ForceQuery RawQuery Fragment
         set_Path set_Scheme] in *.
    rewrite Hs. simpl (String.length "ws"). lia.
Qed.

(** What a second call on the URL that a first call has rewritten returns:
    the same address exactly when the URL has an opaque part and its scheme
    was not [https]. *)
Lemma GenerateWSAddr_second_call (u : URL) :
  fst (GenerateWSAddr (snd (GenerateWSAddr u))) = fst (GenerateWSAddr u)
  <-> Opaque u <> "" /\ Scheme u <> "https".
Proof.
  pose proof (GenerateWSAddr_scheme u) as S1.
  pose proof (GenerateWSAddr_scheme (snd (GenerateWSAddr u))) as S2.
  destruct (GenerateWSAddr_other_fields u) as (O1 & _ & F1 & Q1 & R1).
  destruct (GenerateWSAddr_other_fields (snd (GenerateWSAddr u)))
    as (O2 & _ & F2 & Q2 & R2).
  cbv zeta in *.
  set (u1 := snd (GenerateWSAddr u)) in *.
  set (u2 := snd (GenerateWSAddr u1)) in *.
  change (fst (GenerateWSAddr u1)) with (String_ u2).
  change (fst (GenerateWSAddr u)) with (String_ u1).
  destruct (String.eqb_spec (Scheme u) "https") as [Hs|Hs].
  - rewrite S1 in S2. simpl in S2.
    split; [|intros [_ F]; contradiction].
    intros E. exfalso.
    destruct (String_scheme_prefix u1) as [r1 E1]; [rewrite S1; discriminate|].
    destruct (String_scheme_prefix u2) as [r2 E2]; [rewrite S2; discriminate|].
    rewrite E1, E2, S1, S2 in E. simpl in E. discriminate E.
  - rewrite S1 in S2. simpl in S2.
    destruct (String.eqb_spec (Opaque u) "") as [Ho|Ho].
    + split; [|intros [F _]; contradiction].
      intros E. exfalso.
      pose proof (GenerateWSAddr_grows u1 S1 (eq_trans O1 Ho)) as G.
      change (fst (GenerateWSAddr u1)) with (String_ u2) in G.
      rewrite E in G. lia.
    + split; [intros _; split; assumption|]. intros _.
      rewrite (String_opaque u1), (String_opaque u2);
        [|rewrite O2, O1; now apply nonempty_true
         |rewrite O1; now apply nonempty_true].
      rewrite S1, S2, O2, F2, Q2, R2. reflexivity.
Qed.

(** The result depends on the scheme only through its being [https]. *)
Lemma GenerateWSAddr_scheme_test (u : URL) (s : string) :
  String.eqb s "https" = String.eqb (Scheme u) "https" ->
  GenerateWSAddr (set_Scheme s u) = GenerateWSAddr u.
Proof.
  intros E. unfold GenerateWSAddr. cbn [Host Path set_Scheme].
  destruct (isAppSync (Host u)); cbn [Scheme set_Host set_Path set_Scheme];
    rewrite E; destruct (String.eqb (Scheme u) "https"); reflexivity.
Qed.

End SecondCall.

(** C2: for every URL, [GenerateWSAddr] returns the rendering of the URL it
    rewrites; when the host contains [.appsync-api.] and [.amazonaws.] the
    leftmost [.appsync-api.] of the host becomes [.appsync-realtime-api.] and
    the path is kept, otherwise the host is kept and [/realtime] is appended
    to the path; scheme [https] becomes [wss] and [http] becomes [ws]; the
    other fields are kept.  The two endpoints of the specification yield the
    two addresses it gives. *)
Theorem GenerateWSAddr_derivation (u : url.URL) :
  let u' := snd (GenerateWSAddr u) in
  fst (GenerateWSAddr u) = url.String_ u'
  /\ (if isAppSync (url.Host u)
      then url.Path u' = url.Path u
           /\ exists pre post,
               url.Host u = (pre ++ ".appsync-api." ++ post)%string
               /\ url.Host u' = (pre ++ ".appsync-realtime-api." ++ post)%string
               /\ forall pre' post',
                   url.Host u = (pre' ++ ".appsync-api." ++ post')%string ->
                   (String.length pre <= String.length pre')%nat
      else url.Host u' = url.Host u
           /\ url.Path u' = (url.Path u ++ "/realtime")%string)
  /\ url.Scheme (snd (GenerateWSAddr (url.set_Scheme "https" u))) = "wss"
  /\ url.Scheme (snd (GenerateWSAddr (url.set_Scheme "http" u))) = "ws"
  /\ (url.Opaque u' = url.Opaque u /\ url.OmitHost u' = url.OmitHost u
      /\ url.ForceQuery u' = url.ForceQuery u /\ url.RawQuery u' = url.RawQuery u
      /\ url.Fragment u' = url.Fragment u)
  /\ option_map (fun v => fst (GenerateWSAddr v))
                (url_parse.Parse "https://svc.example.com")
     = Some "wss://svc.example.com/realtime"
  /\ option_map (fun v => fst (GenerateWSAddr v))
                (url_parse.Parse
                   "https://x.appsync-api.us-east-1.amazonaws.com/graphql")
     = Some "wss://x.appsync-realtime-api.us-east-1.amazonaws.com/graphql".
Proof.
  cbv zeta. split; [reflexivity|]. split.
  - destruct (isAppSync (url.Host u)) eqn:E.
    + exact (GenerateWSAddr_host u E).
    + exact (GenerateWSAddr_path u E).
  - split; [rewrite GenerateWSAddr_scheme; reflexivity|].
    split; [rewrite GenerateWSAddr_scheme; reflexivity|].
    split; [exact (GenerateWSAddr_other_fields u)|].
    split; vm_compute; reflexivity.
Qed.

(** C9, as the specification states it, fails: the call changes the URL it is
    given, and a second call on that URL yields another address, with the
    plain scheme. *)
Lemma GenerateWSAddr_changes_its_input :
  let first := GenerateWSAddr svc_url in
  let second := GenerateWSAddr (snd first) in
  snd first <> svc_url
  /\ fst first = "wss://svc.example.com/realtime"
  /\ fst second = "ws://svc.example.com/realtime/realtime"
  /\ fst second <> fst first.
Proof.
  cbv zeta. split; [vm_compute; discriminate|].
  split; [vm_compute; reflexivity|].
  split; [vm_compute; reflexivity|].
  vm_compute; discriminate.
Qed.

(** C9, amended: the address depends on the fields of the URL only, and on
    the scheme only through its being [https]; a URL of scheme [https] yields
    scheme [wss] and an address that opens with [wss:], any other scheme
    yields [ws] and an address that opens with [ws:]; the URL given is never
    left as it was; a second call on it always yields scheme [ws], and it
    returns the address of the first call exactly when the URL has an opaque
    part and its scheme was not [https]. *)
Theorem GenerateWSAddr_scheme_and_mutation (u : url.URL) :
  let u' := snd (GenerateWSAddr u) in
  (forall s, String.eqb s "https" = String.eqb (url.Scheme u) "https" ->
             GenerateWSAddr (url.set_Scheme s u) = GenerateWSAddr u)
  /\ (if String.eqb (url.Scheme u) "https"
      then url.Scheme u' = "wss"
           /\ exists rest, fst (GenerateWSAddr u) = ("wss:" ++ rest)%string
      else url.Scheme u' = "ws"
           /\ exists rest, fst (GenerateWSAddr u) = ("ws:" ++ rest)%string)
  /\ u' <> u
  /\ url.Scheme (snd (GenerateWSAddr u')) = "ws"
  /\ (fst (GenerateWSAddr u') = fst (GenerateWSAddr u)
      <-> url.Opaque u <> "" /\ url.Scheme u <> "https").
Proof.
  cbv zeta. split; [intros s; apply GenerateWSAddr_scheme_test|].
  assert (Hpre : exists rest,
             fst (GenerateWSAddr u)
             = (url.Scheme (snd (GenerateWSAddr u)) ++ ":" ++ rest)%string).
  { apply String_scheme_prefix. rewrite GenerateWSAddr_scheme.
    destruct (String.eqb _ _); discriminate. }
  split.
  - destruct Hpre as [rest Hrest]. rewrite GenerateWSAddr_scheme in Hrest.
    rewrite GenerateWSAddr_scheme.
    destruct (String.eqb (url.Scheme u) "https");
      (split; [reflexivity | exists rest; exact Hrest]).
  - split; [|split; [|apply GenerateWSAddr_second_call]].
    + intros Heq. destruct (isAppSync (url.Host u)) eqn:E.
      * destruct (GenerateWSAddr_host u E) as (_ & pre & post & H1 & H2 & _).
        rewrite Heq, H1 in H2.
        apply (f_equal String.length) in H2.
        rewrite !length_append_s in H2. simpl in H2. lia.
      * destruct (GenerateWSAddr_path u E) as (_ & H2).
        rewrite Heq in H2. apply (f_equal String.length) in H2.
        rewrite length_append_s in H2. simpl in H2. lia.
    + rewrite !GenerateWSAddr_scheme.
      destruct (String.eqb (url.Scheme u) "https"); reflexivity.
Qed.

(** The two cases of a second call, on parsed endpoints: with a host the
    address changes, with an opaque part and scheme [http] it does not. *)
Example second_call_examples :
  option_map (fun v => (fst (GenerateWSAddr v),
                        fst (GenerateWSAddr (snd (GenerateWSAddr v)))))
             (url_parse.Parse "http://svc.example.com/graphql")
  = Some ("ws://svc.example.com/graphql/realtime",
          "ws://svc.example.com/graphql/realtime/realtime")
  /\ option_map (fun v => (fst (GenerateWSAddr v),
                           fst (GenerateWSAddr (snd (GenerateWSAddr v)))))
                (url_parse.Parse "http:x")
     = Some ("ws:x", "ws:x")
  /\ option_map (fun v => (fst (GenerateWSAddr v),
                           fst (GenerateWSAddr (snd (GenerateWSAddr v)))))
                (url_parse.Parse "https:x")
     = Some ("wss:x", "ws:x").
Proof. repeat split; vm_compute; reflexivity. Qed.

(** ** Bit operations as arithmetic *)

Section Bits.

Lemma byte_range (c : ascii) : 0 <= byte c < 256.
Proof.
  unfold byte. pose proof (N_ascii_bounded c) as Hb.
  change 256 with (Z.of_N 256). lia.
Qed.

Lemma chr_byte (c : ascii) : chr (byte c) = c.
Proof. unfold chr, byte. rewrite N2Z.id. apply ascii_N_embedding. Qed.

Lemma byte_chr (z : Z) : 0 <= z < 256 -> byte (chr z) = z.
Proof.
  intros Hz. unfold chr, byte. rewrite N_ascii_embedding.
  - apply Z2N.id. lia.
  - change 256%N with (Z.to_N 256). apply Z2N.inj_lt; lia.
Qed.

Lemma land_low (x : Z) (k : Z) : 0 <= k -> Z.land x (2 ^ k - 1) = x mod 2 ^ k.
Proof.
  intros Hk. rewrite <- Z.land_ones by exact Hk. f_equal.
  rewrite Z.ones_equiv. lia.
Qed.

Lemma lor_disjoint (x b : Z) (k : Z) :
  0 <= k -> x mod 2 ^ k = 0 -> 0 <= b < 2 ^ k -> Z.lor x b = x + b.
Proof.
  intros Hk Hx Hb.
  assert (Hland : Z.land x b = 0).
  { apply Z.bits_inj'. intros n Hn. rewrite Z.land_spec, Z.bits_0.
    destruct (Z.lt_ge_cases n k) as [Hlt|Hge].
    - assert (Z.testbit x n = false) as ->; [|reflexivity].
      rewrite <- (Z.mod_pow2_bits_low x k n) by lia.
      rewrite Hx. apply Z.bits_0.
    - assert (Z.testbit b n = false) as ->; [|apply andb_false_r].
      destruct (Z.eq_dec b 0) as [->|Hnz]; [apply Z.bits_0|].
      apply Z.bits_above_log2; [lia|].
      apply Z.log2_lt_pow2; [lia|].
      apply Z.lt_le_trans with (2 ^ k); [lia|].
      apply Z.pow_le_mono_r; lia. }
  rewrite <- Z.lxor_lor by exact Hland.
  symmetry. apply Z.add_nocarry_lxor. exact Hland.
Qed.

End Bits.

(** ** Base64: stripping the padding, and decoding what was encoded *)

Section Base64Facts.

Import base64 base64_decode.

Lemma string_ind3 (P : string -> Prop) :
  P EmptyString ->
  (forall a, P (String a EmptyString)) ->
  (forall a b, P (String a (String b EmptyString))) ->
  (forall a b c s, P s -> P (String a (String b (String c s)))) ->
  forall s, P s.
Proof.
  intros H0 H1 H2 H3 s.
  assert (G : P s /\ (forall a, P (String a s))
              /\ (forall a b, P (String a (String b s)))).
  { induction s as [|c s (I0 & I1 & I2)]; [auto|].
    split; [apply I1|]. split; [intros a; apply I2|].
    intros a b. apply H3, I0. }
  apply G.
Qed.

Lemma sextet_range (val k : Z) : 0 <= Z.land (Z.shiftr val k) 0x3F < 64.
Proof.
  change 0x3F with (2 ^ 6 - 1). rewrite land_low by lia.
  apply Z.mod_pos_bound. lia.
Qed.

Lemma low_sextet_range (val : Z) : 0 <= Z.land val 0x3F < 64.
Proof.
  change 0x3F with (2 ^ 6 - 1). rewrite land_low by lia.
  apply Z.mod_pos_bound. lia.
Qed.

Lemma decode_encode_char (v : Z) :
  0 <= v < 64 -> decode_char (encode_char v) = Some v.
Proof.
  intros Hv.
  assert (Hn : exists n, (n < 64)%nat /\ v = Z.of_nat n)
    by (exists (Z.to_nat v); lia).
  destruct Hn as (n & Hn & ->). clear Hv.
  do 64 (destruct n as [|n]; [vm_compute; reflexivity|]). lia.
Qed.

Lemma encode_char_not_pad (v : Z) : encode_char v <> StdPadding.
Proof.
  unfold encode_char. generalize (Z.to_nat v). intros n.
  do 64 (destruct n as [|n]; [vm_compute; discriminate|]).
  vm_compute. discriminate.
Qed.

(** The three bytes of a group, read back from its four sextets. *)
Lemma group_roundtrip (b0 b1 b2 : Z) :
  0 <= b0 < 256 -> 0 <= b1 < 256 -> 0 <= b2 < 256 ->
  let val := Z.lor (Z.lor (Z.shiftl b0 16) (Z.shiftl b1 8)) b2 in
  let val' :=
    Z.lor (Z.lor (Z.lor (Z.shiftl (Z.land (Z.shiftr val 18) 0x3F) 18)
                        (Z.shiftl (Z.land (Z.shiftr val 12) 0x3F) 12))
                 (Z.shiftl (Z.land (Z.shiftr val 6) 0x3F) 6))
          (Z.land val 0x3F) in
  Z.land (Z.shiftr val' 16) 0xFF = b0
  /\ Z.land (Z.shiftr val' 8) 0xFF = b1
  /\ Z.land (Z.shiftr val' 0) 0xFF = b2
  /\ val = b0 * 65536 + b1 * 256 + b2.
Proof.
  intros H0 H1 H2 val val'.
  assert (Hval : val = b0 * 65536 + b1 * 256 + b2).
  { unfold val. rewrite !Z.shiftl_mul_pow2 by lia.
    change (2 ^ 16) with 65536. change (2 ^ 8) with 256.
    rewrite (lor_disjoint (b0 * 65536) (b1 * 256) 16); try lia.
    2:{ change (2 ^ 16) with 65536. rewrite Z.mod_mul; lia. }
    rewrite (lor_disjoint (b0 * 65536 + b1 * 256) b2 8); try lia.
    change (2 ^ 8) with 256.
    replace (b0 * 65536 + b1 * 256) with ((b0 * 256 + b1) * 256) by lia.
    apply Z.mod_mul. lia. }
  assert (Hval' : val' = val).
  { unfold val'. change 0x3F with (2 ^ 6 - 1).
    rewrite !land_low, !Z.shiftr_div_pow2, !Z.shiftl_mul_pow2 by lia.
    change (2 ^ 18) with 262144. change (2 ^ 12) with 4096.
    change (2 ^ 6) with 64.
    pose proof (Z.mod_pos_bound (val / 262144) 64 ltac:(lia)).
    pose proof (Z.mod_pos_bound (val / 4096) 64 ltac:(lia)).
    pose proof (Z.mod_pos_bound (val / 64) 64 ltac:(lia)).
    pose proof (Z.mod_pos_bound val 64 ltac:(lia)).
    rewrite (lor_disjoint _ ((val / 4096) mod 64 * 4096) 18); try lia.
    2:{ change (2 ^ 18) with 262144. apply Z.mod_mul. lia. }
    rewrite (lor_disjoint _ ((val / 64) mod 64 * 64) 12); try lia.
    2:{ change (2 ^ 12) with 4096.
        replace ((val / 262144) mod 64 * 262144 + (val / 4096) mod 64 * 4096)
          with (((val / 262144) mod 64 * 64 + (val / 4096) mod 64) * 4096)
          by lia.
        apply Z.mod_mul. lia. }
    rewrite (lor_disjoint _ (val mod 64) 6); try lia.
    2:{ change (2 ^ 6) with 64.
        replace ((val / 262144) mod 64 * 262144 + (val / 4096) mod 64 * 4096
                 + (val / 64) mod 64 * 64)
          with (((val / 262144) mod 64 * 4096 + (val / 4096) mod 64 * 64
                 + (val / 64) mod 64) * 64) by lia.
        apply Z.mod_mul. lia. }
    assert (0 <= val < 16777216) by lia.
    clear Hval. Z.div_mod_to_equations. lia. }
  rewrite Hval'. change 0xFF with (2 ^ 8 - 1).
  rewrite !land_low, !Z.shiftr_div_pow2 by lia.
  change (2 ^ 16) with 65536. change (2 ^ 8) with 256. change (2 ^ 0) with 1.
  rewrite Hval. repeat split; Z.div_mod_to_equations; lia.
Qed.

Lemma Decode_four (a b c d : ascii) (rest : string) :
  Decode (String a (String b (String c (String d rest))))
  = match decode_char a, decode_char b, decode_char c, decode_char d,
          Decode rest with
    | Some va, Some vb, Some vc, Some vd, Some r =>
        let val := Z.lor (Z.lor (Z.lor (Z.shiftl va 18) (Z.shiftl vb 12))
                                (Z.shiftl vc 6)) vd in
        Some (String (byte_of val 16)
                (String (byte_of val 8) (String (byte_of val 0) r)))
    | _, _, _, _, _ => None
    end.
Proof. reflexivity. Qed.

(** Decoding undoes the unpadded encoding. *)
Lemma Decode_Encode (s : string) : Decode (Encode false s) = Some s.
Proof.
  induction s as [|a|a b|a b c s IH] using string_ind3.
  - reflexivity.
  - cbn [Encode Decode].
    rewrite !decode_encode_char by apply sextet_range.
    destruct (group_roundtrip (byte a) 0 0 (byte_range a) ltac:(lia) ltac:(lia))
      as (G0 & _ & _ & Hv).
    cbv zeta in G0, Hv.
    rewrite Z.shiftl_0_l, !Z.lor_0_r in G0, Hv.
    assert (E2 : Z.land (Z.shiftr (Z.shiftl (byte a) 16) 6) 0x3F = 0).
    { rewrite Hv. change 0x3F with (2 ^ 6 - 1).
      rewrite land_low, Z.shiftr_div_pow2 by lia.
      pose proof (byte_range a). change (2 ^ 6) with 64.
      Z.div_mod_to_equations. lia. }
    assert (E3 : Z.land (Z.shiftl (byte a) 16) 0x3F = 0).
    { rewrite Hv. change 0x3F with (2 ^ 6 - 1). rewrite land_low by lia.
      pose proof (byte_range a). change (2 ^ 6) with 64.
      Z.div_mod_to_equations. lia. }
    rewrite E2, E3, Z.shiftl_0_l, !Z.lor_0_r in G0.
    unfold byte_of. rewrite G0, chr_byte. reflexivity.
  - cbn [Encode Decode].
    rewrite !decode_encode_char by apply sextet_range.
    destruct (group_roundtrip (byte a) (byte b) 0 (byte_range a) (byte_range b)
                ltac:(lia)) as (G0 & G1 & _ & Hv).
    cbv zeta in G0, G1, Hv. rewrite !Z.lor_0_r in G0, G1, Hv.
    assert (E3 : Z.land (Z.lor (Z.shiftl (byte a) 16) (Z.shiftl (byte b) 8))
                        0x3F = 0).
    { rewrite Hv. change 0x3F with (2 ^ 6 - 1). rewrite land_low by lia.
      pose proof (byte_range a). pose proof (byte_range b).
      change (2 ^ 6) with 64. Z.div_mod_to_equations. lia. }
    rewrite E3, !Z.lor_0_r in G0, G1.
    unfold byte_of. rewrite G0, G1, !chr_byte. reflexivity.
  - cbn [Encode]. rewrite Decode_four, IH.
    rewrite !decode_encode_char
      by first [apply sextet_range | apply low_sextet_range].
    destruct (group_roundtrip (byte a) (byte b) (byte c) (byte_range a)
                (byte_range b) (byte_range c)) as (G0 & G1 & G2 & _).
    cbv zeta in G0, G1, G2. cbv zeta.
    unfold byte_of. rewrite G0, G1, G2, !chr_byte. reflexivity.
Qed.

Lemma HasPrefix_one (c d : ascii) (t : string) :
  strings.HasPrefix (String c t) (String d EmptyString) = Ascii.eqb d c.
Proof.
  unfold strings.HasPrefix.
  change (prefix (String d EmptyString) (String c t))
    with (if ascii_dec d c then prefix EmptyString t else false).
  destruct (ascii_dec d c) as [->|Hne].
  - rewrite Ascii.eqb_refl. destruct t; reflexivity.
  - apply Ascii.eqb_neq in Hne. now rewrite Hne.
Qed.

Lemma replace_pad_step (n : Z) (c : ascii) (t : string) :
  n < 0 ->
  strings.replace_from "=" "" O n (String c t)
  = if Ascii.eqb "=" c then strings.replace_from "=" "" O (n - 1) t
    else String c (strings.replace_from "=" "" O n t).
Proof.
  intros Hn.
  change (strings.replace_from "=" "" O n (String c t))
    with (if n =? 0 then String c (strings.replace_from "=" "" O n t)
          else if strings.HasPrefix (String c t) "="
               then ("" ++ strings.replace_from "=" "" O (n - 1) t)%string
               else String c (strings.replace_from "=" "" O n t)).
  destruct (Z.eqb_spec n 0); [lia|]. rewrite HasPrefix_one. reflexivity.
Qed.

Lemma replace_pad_keep (n : Z) (c : ascii) (t : string) :
  n < 0 -> c <> StdPadding ->
  strings.replace_from "=" "" O n (String c t)
  = String c (strings.replace_from "=" "" O n t).
Proof.
  intros Hn Hc. rewrite replace_pad_step by exact Hn.
  destruct (Ascii.eqb_spec "=" c) as [E|_]; [|reflexivity].
  exfalso. apply Hc. now rewrite <- E.
Qed.

(** Without its padding, the padded encoding is the unpadded one. *)
Lemma strip_padding (s : string) (n : Z) :
  n < 0 -> strings.replace_from "=" "" O n (Encode true s) = Encode false s.
Proof.
  revert n. induction s as [|a|a b|a b c s IH] using string_ind3; intros n Hn.
  - reflexivity.
  - cbn [Encode].
    rewrite !replace_pad_keep by (auto using encode_char_not_pad).
    rewrite !replace_pad_step by lia. reflexivity.
  - cbn [Encode].
    rewrite !replace_pad_keep by (auto using encode_char_not_pad).
    rewrite !replace_pad_step by lia. reflexivity.
  - cbn [Encode].
    rewrite !replace_pad_keep by (auto using encode_char_not_pad).
    rewrite IH by exact Hn. reflexivity.
Qed.

Lemma URLEncoding_without_padding (s : string) :
  strings.ReplaceAll (URLEncoding_EncodeToString s) "=" ""
  = RawURLEncoding_EncodeToString s.
Proof.
  unfold strings.ReplaceAll, strings.Replace. simpl.
  apply strip_padding. lia.
Qed.

End Base64Facts.

(** ** Facts about [utf8.DecodeRuneInString] *)

Section Utf8Facts.

Import utf8.

Lemma take_drop (n : nat) (s : string) : (take n s ++ drop n s)%string = s.
Proof.
  revert s. induction n as [|n IH]; intros [|c t]; simpl; auto.
  now rewrite IH.
Qed.

Lemma drop_length (n : nat) (s : string) :
  (String.length (drop n s) <= String.length s)%nat.
Proof.
  revert s. induction n as [|n IH]; intros [|c t]; simpl; try lia.
  specialize (IH t). lia.
Qed.

(** The value of [first] on a byte that is not ASCII. *)
Lemma first_cases (b : Z) :
  0x80 <= b < 256 ->
  first b = 0xF1
  \/ (0xC2 <= b <= 0xDF /\ first b = 0x02)
  \/ (b = 0xE0 /\ first b = 0x13)
  \/ (0xE1 <= b <= 0xEF /\ b <> 0xED /\ first b = 0x03)
  \/ (b = 0xED /\ first b = 0x23)
  \/ (b = 0xF0 /\ first b = 0x34)
  \/ (0xF1 <= b <= 0xF3 /\ first b = 0x04)
  \/ (b = 0xF4 /\ first b = 0x44).
Proof.
  intros Hb. unfold first.
  repeat match goal with
    | |- context [?x <? ?y] => destruct (Z.ltb_spec x y)
    | |- context [?x =? ?y] => destruct (Z.eqb_spec x y)
    end; try lia; auto 12.
Qed.

Lemma rune2_arith (s0 s1 : Z) :
  Z.lor (Z.shiftl (Z.land s0 mask2) 6) (Z.land s1 maskx)
  = (s0 mod 32) * 64 + s1 mod 64.
Proof.
  change mask2 with (2 ^ 5 - 1). change maskx with (2 ^ 6 - 1).
  rewrite !land_low, Z.shiftl_mul_pow2 by lia.
  change (2 ^ 5) with 32. change (2 ^ 6) with 64.
  apply (lor_disjoint _ _ 6); [lia | apply Z.mod_mul; lia |].
  apply Z.mod_pos_bound. lia.
Qed.

Lemma rune3_arith (s0 s1 s2 : Z) :
  Z.lor (Z.lor (Z.shiftl (Z.land s0 mask3) 12) (Z.shiftl (Z.land s1 maskx) 6))
        (Z.land s2 maskx)
  = (s0 mod 16) * 4096 + (s1 mod 64) * 64 + s2 mod 64.
Proof.
  change mask3 with (2 ^ 4 - 1). change maskx with (2 ^ 6 - 1).
  rewrite !land_low, !Z.shiftl_mul_pow2 by lia.
  change (2 ^ 4) with 16. change (2 ^ 6) with 64. change (2 ^ 12) with 4096.
  pose proof (Z.mod_pos_bound s1 64 ltac:(lia)).
  pose proof (Z.mod_pos_bound s2 64 ltac:(lia)).
  rewrite (lor_disjoint _ (s1 mod 64 * 64) 12);
    [| lia | apply Z.mod_mul; lia | change (2 ^ 12) with 4096; lia].
  apply (lor_disjoint _ _ 6); [lia | | change (2 ^ 6) with 64; lia].
  change (2 ^ 6) with 64.
  replace (s0 mod 16 * 4096 + s1 mod 64 * 64)
    with ((s0 mod 16 * 64 + s1 mod 64) * 64) by lia.
  apply Z.mod_mul. lia.
Qed.

Lemma rune4_arith (s0 s1 s2 s3 : Z) :
  Z.lor (Z.lor (Z.lor (Z.shiftl (Z.land s0 mask4) 18)
                      (Z.shiftl (Z.land s1 maskx) 12))
               (Z.shiftl (Z.land s2 maskx) 6))
        (Z.land s3 maskx)
  = (s0 mod 8) * 262144 + (s1 mod 64) * 4096 + (s2 mod 64) * 64 + s3 mod 64.
Proof.
  change mask4 with (2 ^ 3 - 1). change maskx with (2 ^ 6 - 1).
  rewrite !land_low, !Z.shiftl_mul_pow2 by lia.
  change (2 ^ 3) with 8. change (2 ^ 6) with 64. change (2 ^ 12) with 4096.
  change (2 ^ 18) with 262144.
  pose proof (Z.mod_pos_bound s1 64 ltac:(lia)).
  pose proof (Z.mod_pos_bound s2 64 ltac:(lia)).
  pose proof (Z.mod_pos_bound s3 64 ltac:(lia)).
  rewrite (lor_disjoint _ (s1 mod 64 * 4096) 18);
    [| lia | apply Z.mod_mul; lia | change (2 ^ 18) with 262144; lia].
  rewrite (lor_disjoint _ (s2 mod 64 * 64) 12);
    [| lia | | change (2 ^ 12) with 4096; lia].
  2:{ change (2 ^ 12) with 4096.
      replace (s0 mod 8 * 262144 + s1 mod 64 * 4096)
        with ((s0 mod 8 * 64 + s1 mod 64) * 4096) by lia.
      apply Z.mod_mul. lia. }
  apply (lor_disjoint _ _ 6); [lia | | change (2 ^ 6) with 64; lia].
  change (2 ^ 6) with 64.
  replace (s0 mod 8 * 262144 + s1 mod 64 * 4096 + s2 mod 64 * 64)
    with ((s0 mod 8 * 4096 + s1 mod 64 * 64 + s2 mod 64) * 64) by lia.
  apply Z.mod_mul. lia.
Qed.

Ltac fold_consts :=
  repeat match goal with
    | |- context [Z.to_nat (Z.land (Zpos ?p) 7)] =>
        let v := eval vm_compute in (Z.to_nat (Z.land (Zpos p) 7)) in
        change (Z.to_nat (Z.land (Zpos p) 7)) with v
    | |- context [acceptRanges (Z.shiftr (Zpos ?p) 4)] =>
        let v := eval vm_compute in (acceptRanges (Z.shiftr (Zpos p) 4)) in
        change (acceptRanges (Z.shiftr (Zpos p) 4)) with v
    | |- context [Zpos ?p >=? 0xF0] =>
        let v := eval vm_compute in (Zpos p >=? 0xF0) in
        change (Zpos p >=? 0xF0) with v
    | |- context [Z.testbit (Zpos ?p) 0] =>
        let v := eval vm_compute in (Z.testbit (Zpos p) 0) in
        change (Z.testbit (Zpos p) 0) with v
    end.

Ltac split_ifs :=
  repeat match goal with
    | |- context [(?x <? ?y) || (?u <? ?v)] =>
        destruct (Z.ltb_spec x y); destruct (Z.ltb_spec u v);
        cbn [orb fst snd]
    end.

Ltac decoded_case :=
  first
    [ apply decoded_error
    | eapply decoded_two;
      [ reflexivity | lia
      | rewrite rune2_arith; Z.div_mod_to_equations; lia ]
    | eapply decoded_three; [ reflexivity | lia .. | apply rune3_arith ]
    | eapply decoded_four;
      [ reflexivity | lia ..
      | rewrite rune4_arith; Z.div_mod_to_equations; lia ] ].

Lemma DecodeRune_decoded (c0 : ascii) (t : string) :
  0x80 <= byte c0 ->
  decoded c0 t (fst (DecodeRuneInString (String c0 t)))
          (snd (DecodeRuneInString (String c0 t))).
Proof.
  intros H0. pose proof (byte_range c0) as R0.
  unfold DecodeRuneInString.
  change (at_ (String c0 t) 0) with (byte c0).
  destruct (first_cases (byte c0) ltac:(lia))
    as [F|[(B & F)|[(B & F)|[(B & B' & F)|[(B & F)|[(B & F)|[(B & F)|(B & F)]]]]]]];
    rewrite F; fold_consts;
    destruct t as [|c1 [|c2 [|c3 t3]]];
    cbn [String.length Nat.ltb Nat.leb at_ String.get fst snd];
    try apply decoded_error;
    pose proof (byte_range c1) as R1;
    try pose proof (byte_range c2) as R2;
    try pose proof (byte_range c3) as R3;
    unfold locb, hicb in *;
    split_ifs; decoded_case.
Qed.

(** The decoder looks at four bytes at most. *)
Lemma DecodeRune_take (s : string) :
  DecodeRuneInString (take UTFMax s) = DecodeRuneInString s.
Proof.
  destruct s as [|c0 [|c1 [|c2 [|c3 [|c4 t]]]]]; try reflexivity.
  unfold UTFMax. cbn [take].
  unfold DecodeRuneInString.
  change (at_ (String c0 (String c1 (String c2 (String c3 EmptyString)))) 0)
    with (byte c0).
  change (at_ (String c0 (String c1 (String c2 (String c3 (String c4 t))))) 0)
    with (byte c0).
  pose proof (byte_range c0) as R0.
  destruct (Z.lt_ge_cases (byte c0) 0x80) as [Hlt|Hge].
  - unfold first. destruct (Z.ltb_spec (byte c0) 0x80); [reflexivity | lia].
  - destruct (first_cases (byte c0) ltac:(lia))
      as [F|[(B & F)|[(B & F)|[(B & B' & F)|[(B & F)|[(B & F)|[(B & F)|(B & F)]]]]]]];
      rewrite F; fold_consts;
      cbn [String.length Nat.ltb Nat.leb at_ String.get fst snd];
      reflexivity.
Qed.

End Utf8Facts.

(** ** A JSON string is read back as the string that was written *)

Section JsonFacts.

Import json json_parse.

Lemma prepend_prepend (a b : string) (r : option (string * string)) :
  prepend a (prepend b r) = prepend (a ++ b) r.
Proof.
  destruct r as [[d rest]|]; simpl; [|reflexivity].
  now rewrite append_assoc_s.
Qed.

Lemma byte_neq (c d : ascii) : byte c <> byte d -> Ascii.eqb c d = false.
Proof. intros Hne. apply Ascii.eqb_neq. intros ->. now apply Hne. Qed.

(** A byte that is not ASCII stands for itself. *)
Lemma unquote_high (c : ascii) (x : string) :
  0x80 <= byte c ->
  unquote_from (String c x) = prepend (String c EmptyString) (unquote_from x).
Proof.
  intros Hc. cbn [unquote_from].
  rewrite (byte_neq c dquote), (byte_neq c backslash)
    by (change (byte dquote) with 34; change (byte backslash) with 92; lia).
  destruct (Z.ltb_spec (byte c) 0x20); [lia | reflexivity].
Qed.

Lemma unquote_all_high (pre x : string) :
  all_high pre ->
  unquote_from (pre ++ x) = prepend pre (unquote_from x).
Proof.
  induction pre as [|c pre IH]; intros Hh.
  - simpl. destruct (unquote_from x) as [[d r]|]; reflexivity.
  - destruct Hh as [Hc Hh]. simpl append.
    rewrite unquote_high, (IH Hh), prepend_prepend by exact Hc. reflexivity.
Qed.

(** What [appendString] writes for an ASCII byte is read back as that byte. *)
Lemma unquote_ascii (c : ascii) (x : string) :
  byte c < 0x80 ->
  unquote_from ((if htmlSafe (byte c) then String c EmptyString
                 else escape_byte c) ++ x)
  = prepend (String c EmptyString) (unquote_from x).
Proof.
  destruct c as [[] [] [] [] [] [] [] []]; intros H;
    first [ reflexivity | vm_compute in H; discriminate H ].
Qed.

Lemma unquote_line_separators (x : string) :
  unquote_from
    (String backslash
       (String "u" (String "2" (String "0" (String "2"
          (String (hex (Z.land 0x2028 0xF)) EmptyString))))) ++ x)
  = prepend (String (chr 0xE2) (String (chr 0x80) (String (chr 0xA8) EmptyString)))
            (unquote_from x)
  /\ unquote_from
       (String backslash
          (String "u" (String "2" (String "0" (String "2"
             (String (hex (Z.land 0x2029 0xF)) EmptyString))))) ++ x)
     = prepend (String (chr 0xE2) (String (chr 0x80) (String (chr 0xA9) EmptyString)))
               (unquote_from x).
Proof. split; reflexivity. Qed.

Lemma appendString_from_skip (k : nat) (s : string) :
  appendString_from k s = appendString_from O (drop k s).
Proof.
  revert k. induction s as [|c t IH]; intros [|k]; try reflexivity.
  cbn [appendString_from drop]. apply IH.
Qed.

Lemma valid_from_skip (k : nat) (s : string) :
  utf8.valid_from k s = utf8.valid_from O (drop k s).
Proof.
  revert k. induction s as [|c t IH]; intros [|k]; try reflexivity.
  cbn [utf8.valid_from drop]. apply IH.
Qed.

Lemma appendString_from_cons (c : ascii) (t : string) :
  appendString_from O (String c t)
  = if byte c <? utf8.RuneSelf then
      if htmlSafe (byte c) then String c (appendString_from O t)
      else (escape_byte c ++ appendString_from O t)%string
    else
      let '(r, size) := utf8.DecodeRuneInString (take utf8.UTFMax (String c t)) in
      if (r =? utf8.RuneError) && (size =? 1)%nat then
        (String backslash "ufffd" ++ appendString_from O t)%string
      else if (r =? 0x2028) || (r =? 0x2029) then
        (String backslash
           (String "u" (String "2" (String "0" (String "2"
              (String (hex (Z.land r 0xF)) EmptyString)))))
         ++ appendString_from (size - 1) t)%string
      else (take size (String c t) ++ appendString_from (size - 1) t)%string.
Proof. reflexivity. Qed.

Lemma valid_from_cons (c : ascii) (t : string) :
  utf8.valid_from O (String c t)
  = if byte c <? utf8.RuneSelf then utf8.valid_from O t
    else
      let '(r, size) := utf8.DecodeRuneInString (String c t) in
      if (size =? 1)%nat then false else utf8.valid_from (size - 1) t.
Proof. reflexivity. Qed.

(** The text that [appendString] writes for a valid UTF-8 string, followed by
    the closing quote, is read back as that string. *)
Lemma unquote_appendString_bounded (n : nat) :
  forall s rest,
    (String.length s <= n)%nat ->
    utf8.ValidString s = true ->
    unquote_from (appendString_from O s ++ String dquote rest)
    = Some (s, rest).
Proof.
  unfold utf8.ValidString.
  induction n as [|n IH]; intros s rest Hlen Hv.
  { destruct s; [reflexivity | simpl in Hlen; lia]. }
  destruct s as [|c t]; [reflexivity|].
  simpl in Hlen.
  rewrite appendString_from_cons. rewrite valid_from_cons in Hv.
  unfold utf8.RuneSelf in *.
  destruct (Z.ltb_spec (byte c) 0x80) as [Hlo|Hhi].
  - assert (E : (if htmlSafe (byte c) then String c (appendString_from O t)
                 else (escape_byte c ++ appendString_from O t)%string)
                = ((if htmlSafe (byte c) then String c EmptyString
                    else escape_byte c) ++ appendString_from O t)%string)
      by (destruct (htmlSafe (byte c)); reflexivity).
    rewrite E, append_assoc_s, unquote_ascii by exact Hlo.
    rewrite IH by (auto; lia). reflexivity.
  - rewrite DecodeRune_take.
    pose proof (DecodeRune_decoded c t Hhi) as Hd.
    destruct (utf8.DecodeRuneInString (String c t)) as [r size].
    cbn [fst snd] in Hd.
    assert (Hshort : forall k, (String.length (drop k t) <= n)%nat)
      by (intros k; pose proof (drop_length k t); lia).
    destruct Hd as [ | c1 t1 r Ht H1 Hr
                     | c1 c2 t2 r Ht H0 H1 H2 Hr
                     | c1 c2 c3 t3 r Ht H1 H2 H3 Hr ];
      [discriminate Hv | subst t ..]; cbn [Nat.eqb] in Hv |- *;
      rewrite andb_false_r; rewrite valid_from_skip in Hv;
      rewrite appendString_from_skip.
    + destruct (Z.eqb_spec r 0x2028); [lia|].
      destruct (Z.eqb_spec r 0x2029); [lia|]. cbn [orb].
      cbn [take Nat.sub drop] in *.
      rewrite append_assoc_s, unquote_all_high by (cbn; lia).
      rewrite IH by (auto; specialize (Hshort 1%nat); exact Hshort).
      reflexivity.
    + pose proof (byte_range c). pose proof (byte_range c1).
      pose proof (byte_range c2).
      cbn [take Nat.sub drop] in *.
      assert (Hrest : unquote_from
                        (appendString_from O t2 ++ String dquote rest)
                      = Some (t2, rest))
        by (apply IH; [specialize (Hshort 2%nat); exact Hshort | exact Hv]).
      destruct (Z.eqb_spec r 0x2028) as [E8|N8].
      { cbn [orb]. rewrite E8, append_assoc_s.
        rewrite (proj1 (unquote_line_separators _)), Hrest.
        assert (byte c = 0xE2 /\ byte c1 = 0x80 /\ byte c2 = 0xA8) as (B0 & B1 & B2)
          by (rewrite Hr in E8; clear - E8 H0 H1 H2; Z.div_mod_to_equations; lia).
        rewrite <- (chr_byte c), <- (chr_byte c1), <- (chr_byte c2), B0, B1, B2.
        reflexivity. }
      destruct (Z.eqb_spec r 0x2029) as [E9|N9].
      { cbn [orb]. rewrite E9, append_assoc_s.
        rewrite (proj2 (unquote_line_separators _)), Hrest.
        assert (byte c = 0xE2 /\ byte c1 = 0x80 /\ byte c2 = 0xA9) as (B0 & B1 & B2)
          by (rewrite Hr in E9; clear - E9 H0 H1 H2; Z.div_mod_to_equations; lia).
        rewrite <- (chr_byte c), <- (chr_byte c1), <- (chr_byte c2), B0, B1, B2.
        reflexivity. }
      cbn [orb]. rewrite append_assoc_s, unquote_all_high by (cbn; lia).
      rewrite Hrest. reflexivity.
    + destruct (Z.eqb_spec r 0x2028); [lia|].
      destruct (Z.eqb_spec r 0x2029); [lia|]. cbn [orb].
      cbn [take Nat.sub drop] in *.
      rewrite append_assoc_s, unquote_all_high by (cbn; lia).
      rewrite IH by (auto; specialize (Hshort 3%nat); exact Hshort).
      reflexivity.
Qed.

Lemma unquote_appendString (s rest : string) :
  utf8.ValidString s = true ->
  unquote_from (appendString_from O s ++ String dquote rest) = Some (s, rest).
Proof. apply (unquote_appendString_bounded (String.length s)). lia. Qed.

End JsonFacts.

(** ** An object of strings is read back as the map that was written *)

Section ObjectFacts.

Import json json_parse.

Lemma member_text (k v tail : string) :
  (appendString k ++ ":" ++ appendString v ++ tail)%string
  = String dquote
      (appendString_from O k
       ++ String dquote
            (String ":"
               (String dquote
                  (appendString_from O v ++ String dquote tail))))%string.
Proof.
  unfold appendString.
  repeat (cbn [append]; rewrite ?append_assoc_s). reflexivity.
Qed.

Lemma members_cons (k v : string) (m : map_string) (tail : string) :
  (members ((k, v) :: m) ++ tail)%string
  = (appendString k ++ ":" ++ appendString v
     ++ match m with
        | [] => tail
        | _ => String "," (members m ++ tail)
        end)%string.
Proof.
  cbn [members]. destruct m;
    repeat (cbn [append]; rewrite ?append_assoc_s); reflexivity.
Qed.

Lemma parse_members_members (m : map_string) :
  m <> [] -> Forall valid_entry m ->
  forall fuel, (List.length m <= fuel)%nat ->
  parse_members fuel (members m ++ "}") = Some m.
Proof.
  induction m as [|[k v] m IH]; intros Hne Hv fuel Hf; [congruence|].
  inversion Hv as [|kv m' [Hk Hval] Hv']; subst. cbn [fst snd] in *.
  destruct fuel as [|fuel]; [simpl in Hf; lia|].
  rewrite members_cons, member_text. cbn [parse_members].
  rewrite Ascii.eqb_refl, (unquote_appendString k _ Hk).
  cbn [andb]. rewrite Ascii.eqb_refl. cbn [andb].
  rewrite (unquote_appendString v _ Hval).
  destruct m as [|kv' m''].
  - reflexivity.
  - cbn [Ascii.eqb Bool.eqb andb]. cbn.
    rewrite IH; [reflexivity | discriminate | exact Hv' | simpl in *; lia].
Qed.

Lemma members_length (m : map_string) (tail : string) :
  (List.length m <= String.length (members m ++ tail))%nat.
Proof.
  induction m as [|[k v] m IH]; [simpl; lia|].
  rewrite members_cons, member_text. cbn [String.length List.length].
  rewrite !length_append_s. cbn [String.length].
  rewrite !length_append_s. cbn [String.length].
  destruct m; [simpl; lia|].
  cbn [String.length]. simpl List.length in *. lia.
Qed.

Lemma insert_sorted_valid (kv : string * string) (m : map_string) :
  valid_entry kv -> Forall valid_entry m -> Forall valid_entry (insert_sorted kv m).
Proof.
  intros Hkv Hm. induction Hm as [|kv' m Hkv' Hm IH]; simpl.
  - auto.
  - destruct (String.leb (fst kv) (fst kv')); auto.
Qed.

Lemma sort_keys_valid (m : map_string) :
  Forall valid_entry m -> Forall valid_entry (sort_keys m).
Proof.
  unfold sort_keys. induction 1; simpl; auto using insert_sorted_valid.
Qed.

(** Parsing undoes the encoding of a map of valid UTF-8 strings. *)
Lemma Unmarshal_Marshal (m : map_string) :
  Forall valid_entry m -> Unmarshal_map (Marshal_map m) = Some (sort_keys m).
Proof.
  intros Hv. apply sort_keys_valid in Hv. unfold Marshal_map.
  destruct (sort_keys m) as [|[k v] m'] eqn:E; [reflexivity|].
  cbn [append Unmarshal_map]. rewrite Ascii.eqb_refl.
  assert (Hq : String.eqb (members ((k, v) :: m') ++ "}") "}" = false).
  { rewrite members_cons, member_text. reflexivity. }
  rewrite Hq. apply parse_members_members; [discriminate | exact Hv |].
  apply members_length.
Qed.

End ObjectFacts.

(** ** The sub-protocol string *)

Lemma subprotocol_format (hostname accessToken : string) :
  subprotocol hostname accessToken
  = ("header-"
     ++ base64.RawURLEncoding_EncodeToString
          (json.Marshal_map (authExt hostname accessToken)))%string
  /\ json.Marshal_map (authExt hostname accessToken)
     = ("{" ++ json.appendString "Authorization" ++ ":"
        ++ json.appendString accessToken ++ ","
        ++ json.appendString "host" ++ ":"
        ++ json.appendString hostname ++ "}")%string.
Proof.
  split.
  - unfold subprotocol. now rewrite URLEncoding_without_padding.
  - unfold json.Marshal_map, authExt.
    change (json.sort_keys [("host", hostname); ("Authorization", accessToken)])
      with [("Authorization", accessToken); ("host", hostname)].
    cbn [json.members]. rewrite !append_assoc_s. reflexivity.
Qed.

(** C8, as the specification states it, fails: a credential that is not
    valid UTF-8 is not recovered, its bad bytes come back as the replacement
    rune, and two such credentials yield the same sub-protocol string. *)
Lemma subprotocol_replaces_invalid_utf8 :
  utf8.ValidString byte_FF = false
  /\ decode_subprotocol (subprotocol "svc.example.com" byte_FF)
     = Some [("Authorization", replacement); ("host", "svc.example.com")]
  /\ String.eqb replacement byte_FF = false
  /\ subprotocol "svc.example.com" byte_FF
     = subprotocol "svc.example.com" byte_FE
  /\ String.eqb byte_FF byte_FE = false.
Proof. vm_compute. repeat split. Qed.

(** C8, amended: for every hostname and credential the sub-protocol string is
    [header-] followed by the unpadded base64url encoding of the compact JSON
    object with the keys [Authorization] and [host], in that order; and when
    hostname and credential are valid UTF-8, removing the prefix, decoding
    and parsing gives back the map with exactly these two entries. *)
Theorem subprotocol_roundtrip (hostname accessToken : string) :
  subprotocol hostname accessToken
  = ("header-"
     ++ base64.RawURLEncoding_EncodeToString
          (json.Marshal_map (authExt hostname accessToken)))%string
  /\ json.Marshal_map (authExt hostname accessToken)
     = ("{" ++ json.appendString "Authorization" ++ ":"
        ++ json.appendString accessToken ++ ","
        ++ json.appendString "host" ++ ":"
        ++ json.appendString hostname ++ "}")%string
  /\ (utf8.ValidString hostname = true ->
      utf8.ValidString accessToken = true ->
      decode_subprotocol (subprotocol hostname accessToken)
      = Some [("Authorization", accessToken); ("host", hostname)]
      /\ (forall m, decode_subprotocol (subprotocol hostname accessToken) = Some m ->
                    json_parse.lookup "host" m = Some hostname
                    /\ json_parse.lookup "Authorization" m = Some accessToken
                    /\ List.length m = 2%nat)).
Proof.
  destruct (subprotocol_format hostname accessToken) as (Hf & Hm).
  split; [exact Hf|]. split; [exact Hm|].
  intros Hh Ha.
  assert (Hd : decode_subprotocol (subprotocol hostname accessToken)
               = Some [("Authorization", accessToken); ("host", hostname)]).
  { rewrite Hf. unfold decode_subprotocol.
    change (strings.HasPrefix
              ("header-" ++ base64.RawURLEncoding_EncodeToString
                              (json.Marshal_map (authExt hostname accessToken)))
              "header-") with
      (String.prefix EmptyString
         (base64.RawURLEncoding_EncodeToString
            (json.Marshal_map (authExt hostname accessToken)))).
    assert (Hp : forall x, String.prefix EmptyString x = true)
      by (intros []; reflexivity).
    rewrite Hp. cbn [append drop].
    unfold base64.RawURLEncoding_EncodeToString. rewrite Decode_Encode.
    rewrite Unmarshal_Marshal; [reflexivity|].
    repeat constructor; assumption. }
  split; [exact Hd|].
  intros m Hm'. rewrite Hd in Hm'. injection Hm' as <-.
  repeat split.
Qed.

(** C8 at the concrete caller, with a credential that needs an escape and a
    hostname outside ASCII. *)
Lemma subprotocol_roundtrip_witness :
  let hostname := String (chr 0xC3) (String (chr 0xA9) ".example.com") in
  let token := String json.dquote "a<b" ++ replacement in
  utf8.ValidString hostname = true
  /\ utf8.ValidString token = true
  /\ decode_subprotocol (subprotocol hostname token)
     = Some [("Authorization", token); ("host", hostname)].
Proof.
  cbv zeta. split; [reflexivity|]. split; [reflexivity|].
  exact (proj1 (proj2 (proj2 (subprotocol_roundtrip
                  (String (chr 0xC3) (String (chr 0xA9) ".example.com"))
                  (String json.dquote "a<b" ++ replacement)))
               eq_refl eq_refl)).
Defined.

(* ====================================================================== *)
(** * Part III: the subscription state machine *)

Local Open Scope list_scope.

(** ** A run of [Subscribe], event by event *)

(** The caller of [internal/team] against a server that acknowledges the
    connection and the subscription and then pushes one payload; the watcher
    goroutine is scheduled after the deferred cancel. *)
Example served_trace :
  trace (demo_run [frame "connection_ack" None "";
                   frame "start_ack" None demo_id;
                   frame "data" (Some demo_payload) demo_id] true)
  = [EvLog LevelDebug "Connecting to websocket"
       [("endpoint", VString "wss://svc.example.com/realtime")];
     EvDial "wss://svc.example.com/realtime"
       ["graphql-ws";
        "header-eyJBdXRob3JpemF0aW9uIjoidG9rZW4iLCJob3N0Ijoic3ZjLmV4YW1wbGUuY29tIn0"];
     EvWrite connection_init;
     EvRead (frame "connection_ack" None "");
     EvLog LevelDebug "Websocket initialized" [];
     EvWrite (start_message demo_id (authExt "svc.example.com" "token")
                (json.Marshal_map [("query", "subscription { onPublishPolicy }")]));
     EvRead (frame "start_ack" None demo_id);
     EvLog LevelDebug "Websocket subscription ready" [];
     EvOnReady (WithCancel Background 1);
     EvRead (frame "data" (Some demo_payload) demo_id);
     EvLog LevelDebug "Received data packet" [("data", VString "{}")];
     EvOnData Background demo_payload;
     EvLog LevelDebug "Data handler requested exit" [];
     EvClose Deferred; EvCancel; EvClose Watcher].
Proof. vm_compute. reflexivity. Qed.

(** The same server, and a trigger that fails: the data frame is not read. *)
Example trigger_failure_trace :
  let o := Subscribe string demo_marshal (list Payload)
             (demo_world [frame "connection_ack" None "";
                          frame "start_ack" None demo_id;
                          frame "data" (Some demo_payload) demo_id] false)
             Background "https://svc.example.com" "token"
             "subscription { onPublishPolicy }"
             (fun _ h => (Some (LibError "failed to request"), h)) collect [] in
  outcome o
  = Returned (Some (Errorf "onReady error: %w" (LibError "failed to request")))
  /\ final o = []
  /\ filter (fun e => is_io e || is_onReady e || is_onData e || is_close e)
            (trace o)
     = [EvWrite connection_init;
        EvRead (frame "connection_ack" None "");
        EvWrite (start_message demo_id (authExt "svc.example.com" "token")
                   (json.Marshal_map
                      [("query", "subscription { onPublishPolicy }")]));
        EvRead (frame "start_ack" None demo_id);
        EvOnReady (WithCancel Background 1);
        EvClose Deferred].
Proof. vm_compute. repeat split. Qed.

(** ** Facts about traces *)

Lemma none_app (p : Event -> bool) (a b : list Event) :
  none p a -> none p b -> none p (a ++ b).
Proof. unfold none. intros Ha Hb. now rewrite filter_app, Ha, Hb. Qed.

Lemma none_In (p : Event -> bool) (t : list Event) (e : Event) :
  none p t -> In e t -> p e = false.
Proof.
  unfold none. intros Hn Hin. destruct (p e) eqn:E; [|reflexivity].
  assert (In e (filter p t)) by (apply filter_In; auto).
  rewrite Hn in H. contradiction.
Qed.

(** A list splits in one way only around its single element that
    satisfies [p]. *)
Lemma split_unique (p : Event -> bool) (a b a' b' : list Event) (x y : Event) :
  none p a -> p x = true -> p y = true -> none p b ->
  a ++ x :: b = a' ++ y :: b' -> a' = a /\ y = x /\ b' = b.
Proof.
  revert a'. induction a as [|e a IH]; intros a' Ha Hx Hy Hb E.
  - destruct a' as [|e' a'].
    + simpl in E. injection E as -> ->. auto.
    + simpl in E. injection E as -> E.
      assert (In y b) by (rewrite E; apply in_or_app; right; left; reflexivity).
      rewrite (none_In p b y Hb H) in Hy. discriminate.
  - unfold none in Ha. simpl in Ha. destruct (p e) eqn:Pe; [discriminate|].
    destruct a' as [|e' a'].
    + simpl in E. injection E as -> E. congruence.
    + simpl in E. injection E as -> E.
      destruct (IH a' Ha Hx Hy Hb E) as (-> & -> & ->). auto.
Qed.

Lemma closes_app (a b : list Event) : closes (a ++ b) = (closes a + closes b)%nat.
Proof. unfold closes. now rewrite filter_app, length_app. Qed.

Lemma watcher_closed_app (a b : list Event) :
  watcher_closed (a ++ b) = watcher_closed a || watcher_closed b.
Proof. unfold watcher_closed. apply existsb_app. Qed.

(** ** Invariants of the three loops *)

Lemma calm_facts (evs : list Event) :
  forallb calm evs = true ->
  none is_onReady evs /\ none is_deferred_close evs
  /\ closes evs = O /\ watcher_closed evs = false.
Proof.
  unfold none, closes, watcher_closed.
  induction evs as [|e evs IH]; simpl; [auto|].
  intros Hc. apply andb_true_iff in Hc as [He Hc].
  destruct (IH Hc) as (H1 & H2 & H3 & H4).
  destruct e as [| | | | | |[]|]; simpl in *; try discriminate; auto.
Qed.

Lemma loop_inv_emit (evs : list Event) (r : Run) :
  forallb calm evs = true -> loop_inv r -> loop_inv (emit evs r).
Proof.
  intros Hc (H1 & H2 & H3 & H4).
  destruct (calm_facts evs Hc) as (C1 & C2 & C3 & C4).
  unfold loop_inv, emit; simpl.
  rewrite closes_app, watcher_closed_app, C3, C4. simpl.
  repeat split; auto using none_app.
Qed.

Lemma loop_inv_calm (res : Result) (evs : list Event) (rest : list ReadOutcome) :
  forallb calm evs = true -> loop_inv (mkRun res evs rest).
Proof.
  intros Hc. destruct (calm_facts evs Hc) as (C1 & C2 & C3 & C4).
  unfold loop_inv; simpl. rewrite C3, C4. repeat split; auto; discriminate.
Qed.

Lemma loop_inv_read_failed (r : ReadOutcome) (rest : list ReadOutcome) :
  forall evs pkt e, read r = (evs, pkt, Some e) ->
  loop_inv (read_failed evs e rest).
Proof.
  intros evs pkt e Hr.
  destruct r; simpl in Hr; inversion Hr; subst;
    unfold loop_inv, none; simpl; repeat split; eauto; discriminate.
Qed.

Lemma forallb_calm_app (a b : list Event) :
  forallb calm a = true -> forallb calm b = true -> forallb calm (a ++ b) = true.
Proof. intros Ha Hb. rewrite forallb_app, Ha, Hb. reflexivity. Qed.

Lemma calm_websocket_errors (p : Payload) :
  forallb calm (websocket_errors p) = true.
Proof.
  unfold websocket_errors. induction (Errors p); simpl; auto.
Qed.

Create HintDb loops.

#[local] Hint Resolve loop_inv_emit loop_inv_calm forallb_calm_app
  calm_websocket_errors : loops.

Ltac read_cases r IH :=
  destruct r as [[pkt|]|e|e|e|e];
  [ | apply loop_inv_calm; reflexivity
    | eapply (loop_inv_read_failed (ReadError e)); reflexivity
    | eapply (loop_inv_read_failed (ReadDeadlineError e)); reflexivity
    | eapply (loop_inv_read_failed (ReadCancelled e)); reflexivity
    | eapply (loop_inv_read_failed (ReadDeadlineCancelled e)); reflexivity ].

Lemma initConnection_loop_inv (reads : list ReadOutcome) :
  loop_inv (initConnection_loop reads).
Proof.
  induction reads as [|r rest IH].
  - apply loop_inv_calm. reflexivity.
  - read_cases r IH. simpl.
    destruct (String.eqb (Type_ pkt) "connection_ack"); auto with loops.
    destruct (String.eqb (Type_ pkt) "connection_error"); auto with loops.
Qed.

Lemma start_loop_inv (id : string) (reads : list ReadOutcome) :
  loop_inv (start_loop id reads).
Proof.
  induction reads as [|r rest IH].
  - apply loop_inv_calm. reflexivity.
  - read_cases r IH. simpl.
    destruct (String.eqb (Type_ pkt) "ka"); auto with loops.
    destruct (String.eqb (Type_ pkt) "error").
    { destruct (Payload_ pkt); auto with loops.
      apply loop_inv_calm. simpl. apply calm_websocket_errors. }
    destruct (String.eqb (Type_ pkt) "start_ack"); auto with loops.
    destruct (String.eqb (ID pkt) id); simpl; auto with loops.
Qed.

(** The callbacks are not called by [initConnection] and [start]. *)
Lemma none_onData_calm_loop (evs : list Event) (r : Run) :
  none is_onData evs -> none is_onData (events r) ->
  none is_onData (events (emit evs r)).
Proof. intros. simpl. now apply none_app. Qed.

Ltac frame_cases r :=
  destruct r as [[pkt|]|e|e|e|e]; [ | reflexivity ..].

Lemma initConnection_loop_no_data (reads : list ReadOutcome) :
  none is_onData (events (initConnection_loop reads)).
Proof.
  induction reads as [|r rest IH]; [reflexivity|].
  frame_cases r. simpl.
  destruct (String.eqb (Type_ pkt) "connection_ack"); [reflexivity|].
  destruct (String.eqb (Type_ pkt) "connection_error"); [reflexivity|].
  apply none_onData_calm_loop; [reflexivity | exact IH].
Qed.

Lemma none_websocket_errors (p : Event -> bool) (pl : Payload) :
  (forall l m a, p (EvLog l m a) = false) -> none p (websocket_errors pl).
Proof.
  intros Hp. unfold none, websocket_errors.
  induction (Errors pl); simpl; [reflexivity|]. now rewrite Hp.
Qed.

Lemma start_loop_no_data (id : string) (reads : list ReadOutcome) :
  none is_onData (events (start_loop id reads)).
Proof.
  induction reads as [|r rest IH]; [reflexivity|].
  frame_cases r. simpl.
  destruct (String.eqb (Type_ pkt) "ka");
    [apply none_onData_calm_loop; [reflexivity | exact IH]|].
  destruct (String.eqb (Type_ pkt) "error").
  { destruct (Payload_ pkt); [|reflexivity]. simpl.
    apply (none_app is_onData [_]); [reflexivity|].
    apply none_websocket_errors. reflexivity. }
  destruct (String.eqb (Type_ pkt) "start_ack").
  { destruct (String.eqb (ID pkt) id); simpl; [reflexivity|].
    apply (none_app is_onData [_; _]); [reflexivity | exact IH]. }
  apply none_onData_calm_loop; [reflexivity | exact IH].
Qed.

(** When [start] ends without error, the last frame it has read is a
    start_ack that carries the id of the subscription. *)
Lemma start_loop_ack (id : string) (reads : list ReadOutcome) :
  result (start_loop id reads) = Returned None ->
  exists pre m,
    events (start_loop id reads) = pre ++ [EvRead (ReadFrame (Some m))]
    /\ Type_ m = "start_ack" /\ ID m = id.
Proof.
  induction reads as [|r rest IH]; [discriminate|].
  destruct r as [[pkt|]|e|e|e|e]; try discriminate. simpl.
  destruct (String.eqb (Type_ pkt) "ka") eqn:Eka.
  { simpl. intros Hr. destruct (IH Hr) as (pre & m & -> & Hm).
    exists (EvRead (ReadFrame (Some pkt)) :: pre), m. auto. }
  destruct (String.eqb (Type_ pkt) "error").
  { destruct (Payload_ pkt); discriminate. }
  destruct (String.eqb (Type_ pkt) "start_ack") eqn:Eack.
  { destruct (String.eqb (ID pkt) id) eqn:Eid; simpl.
    - intros _. exists [], pkt. repeat split.
      + now apply String.eqb_eq.
      + now apply String.eqb_eq.
    - intros Hr. destruct (IH Hr) as (pre & m & -> & Hm).
      eexists (_ :: _ :: pre), m. split; [reflexivity | exact Hm]. }
  simpl. intros Hr. destruct (IH Hr) as (pre & m & -> & Hm).
  eexists (_ :: _ :: pre), m. split; [reflexivity | exact Hm].
Qed.

Lemma delivered_app (a b : list Event) :
  delivered (a ++ b) = delivered a ++ delivered b.
Proof. apply flat_map_app. Qed.

Lemma matching_data_app (id : string) (a b : list Event) :
  matching_data id (a ++ b) = matching_data id a ++ matching_data id b.
Proof. apply flat_map_app. Qed.

Lemma delivered_none (t : list Event) : none is_onData t -> delivered t = [].
Proof.
  unfold none, delivered. induction t as [|e t IH]; simpl; [reflexivity|].
  destruct e; simpl; try exact IH. discriminate.
Qed.

Lemma matching_websocket_errors (id : string) (p : Payload) :
  matching_data id (websocket_errors p) = [].
Proof.
  unfold websocket_errors. induction (Errors p); simpl; auto.
Qed.

Lemma delivered_websocket_errors (p : Payload) :
  delivered (websocket_errors p) = [].
Proof.
  unfold websocket_errors. induction (Errors p); simpl; auto.
Qed.

Section ProcessFacts.

Variable H : Type.

Variable id : string.

Variable onData : DataHandler H.

Lemma process_loop_inv (reads : list ReadOutcome) (h : H) :
  loop_inv (fst (process_loop H id onData reads h)).
Proof.
  revert h. induction reads as [|r rest IH]; intros h.
  - apply loop_inv_calm. reflexivity.
  - read_cases r IH. simpl.
    destruct (String.eqb (Type_ pkt) "ka").
    { specialize (IH h). destruct (process_loop H id onData rest h).
      simpl. auto with loops. }
    destruct (String.eqb (Type_ pkt) "error").
    { destruct (Payload_ pkt); simpl; auto with loops.
      apply loop_inv_calm. simpl. apply calm_websocket_errors. }
    destruct (String.eqb (Type_ pkt) "data").
    { destruct (String.eqb (ID pkt) id); simpl.
      - destruct (Payload_ pkt) as [p|]; simpl; auto with loops.
        destruct (onData Background p h) as [[cont [e|]] h1]; simpl;
          auto with loops.
        destruct cont; simpl; auto with loops.
        specialize (IH h1). destruct (process_loop H id onData rest h1).
        simpl. auto with loops.
      - specialize (IH h). destruct (process_loop H id onData rest h).
        simpl. auto with loops. }
    specialize (IH h). destruct (process_loop H id onData rest h).
    simpl. auto with loops.
Qed.

(** The data callback is called once for each data frame read that carries
    the id of the subscription and a payload, in order, with that payload and
    with the background context. *)
Lemma process_loop_delivers (reads : list ReadOutcome) (h : H) :
  delivered (events (fst (process_loop H id onData reads h)))
  = map (fun p => (Background, p))
        (matching_data id (events (fst (process_loop H id onData reads h)))).
Proof.
  revert h. induction reads as [|r rest IH]; intros h; [reflexivity|].
  frame_cases r. simpl.
  destruct (String.eqb (Type_ pkt) "ka") eqn:Eka.
  { specialize (IH h). destruct (process_loop H id onData rest h). simpl in *.
    assert (String.eqb (Type_ pkt) "data" = false) as ->.
    { apply String.eqb_eq in Eka. rewrite Eka. reflexivity. }
    exact IH. }
  destruct (String.eqb (Type_ pkt) "error") eqn:Eerr.
  { assert (String.eqb (Type_ pkt) "data" = false) as Ed.
    { apply String.eqb_eq in Eerr. rewrite Eerr. reflexivity. }
    destruct (Payload_ pkt); simpl; rewrite Ed; simpl; [|reflexivity].
    now rewrite matching_websocket_errors, delivered_websocket_errors. }
  destruct (String.eqb (Type_ pkt) "data") eqn:Ed.
  { destruct (String.eqb (ID pkt) id) eqn:Eid; simpl.
    - destruct (Payload_ pkt) as [p|] eqn:Ep; simpl.
      + destruct (onData Background p h) as [[cont [e|]] h1]; simpl.
        * rewrite Ed, Eid, Ep. reflexivity.
        * destruct cont; simpl.
          -- specialize (IH h1). destruct (process_loop H id onData rest h1).
             simpl in *. rewrite Ed, Eid, Ep. simpl. now rewrite IH.
          -- rewrite Ed, Eid, Ep. reflexivity.
      + rewrite Ed, Eid, Ep. reflexivity.
    - specialize (IH h). destruct (process_loop H id onData rest h).
      simpl in *. rewrite Ed, Eid. exact IH. }
  specialize (IH h). destruct (process_loop H id onData rest h).
  simpl in *. rewrite Ed. exact IH.
Qed.

End ProcessFacts.

Lemma emit_nil (r : Run) : emit [] r = r.
Proof. destruct r. reflexivity. Qed.

Lemma emit_emit (a b : list Event) (r : Run) :
  emit a (emit b r) = emit (a ++ b) r.
Proof. unfold emit. simpl. now rewrite app_assoc. Qed.

Lemma initConnection_loop_tolerates (ms : list wsMessage) (rs : list ReadOutcome) :
  forallb tolerated ms = true ->
  initConnection_loop (map (fun m => ReadFrame (Some m)) ms ++ rs)
  = emit (tolerated_events ms) (initConnection_loop rs).
Proof.
  induction ms as [|m ms IH]; intros Ht.
  - simpl. now rewrite emit_nil.
  - simpl in Ht. apply andb_true_iff in Ht as [Hm Ht].
    unfold tolerated in Hm. apply andb_true_iff in Hm as [H1 H2].
    apply negb_true_iff in H1, H2.
    simpl. rewrite H1, H2, (IH Ht), emit_emit. reflexivity.
Qed.

Section ProcessEnd.

Variable H : Type.

Variable id : string.

Variable onData : DataHandler H.

(** [process] returns without error only when the data callback has just
    asked to stop. *)
Lemma process_loop_success (reads : list ReadOutcome) (h : H) :
  result (fst (process_loop H id onData reads h)) = Returned None ->
  exists pre p h',
    events (fst (process_loop H id onData reads h))
    = pre ++ [EvOnData Background p;
              EvLog LevelDebug "Data handler requested exit" []]
    /\ onData Background p h'
       = (false, None, snd (process_loop H id onData reads h)).
Proof.
  revert h. induction reads as [|r rest IH]; intros h; [discriminate|].
  destruct r as [[pkt|]|e|e|e|e]; try discriminate. simpl.
  destruct (String.eqb (Type_ pkt) "ka").
  { specialize (IH h). destruct (process_loop H id onData rest h) as [r' h'].
    simpl in *. intros Hr. destruct (IH Hr) as (pre & p & h0 & -> & Hd).
    exists (EvRead (ReadFrame (Some pkt)) :: pre), p, h0. auto. }
  destruct (String.eqb (Type_ pkt) "error").
  { destruct (Payload_ pkt); discriminate. }
  destruct (String.eqb (Type_ pkt) "data").
  { destruct (String.eqb (ID pkt) id); simpl.
    - destruct (Payload_ pkt) as [p|]; [|discriminate].
      destruct (onData Background p h) as [[cont [e|]] h1] eqn:Eh;
        [discriminate|].
      destruct cont; simpl.
      + specialize (IH h1). destruct (process_loop H id onData rest h1) as [r' h'].
        simpl in *. intros Hr. destruct (IH Hr) as (pre & p' & h0 & -> & Hd).
        eexists (_ :: _ :: _ :: pre), p', h0. split; [reflexivity | exact Hd].
      + intros _. eexists [_; _], p, h. split; [reflexivity | exact Eh].
    - specialize (IH h). destruct (process_loop H id onData rest h) as [r' h'].
      simpl in *. intros Hr. destruct (IH Hr) as (pre & p' & h0 & -> & Hd).
      eexists (_ :: _ :: pre), p', h0. split; [reflexivity | exact Hd]. }
  specialize (IH h). destruct (process_loop H id onData rest h) as [r' h'].
  simpl in *. intros Hr. destruct (IH Hr) as (pre & p' & h0 & -> & Hd).
  eexists (_ :: _ :: pre), p', h0. split; [reflexivity | exact Hd].
Qed.

End ProcessEnd.

Lemma before_dial_facts (t : list Event) :
  forallb before_dial t = true ->
  closes t = O /\ none is_onReady t /\ none is_onData t
  /\ delivered t = [] /\ forall id, matching_data id t = [].
Proof.
  unfold closes, none. induction t as [|e t IH]; simpl; [auto|].
  intros Hb. apply andb_true_iff in Hb as [He Hb].
  destruct (IH Hb) as (H1 & H2 & H3 & H4 & H5).
  destruct e; simpl in *; try discriminate; auto.
Qed.

(** ** Facts about [initConnection], [start] and the session *)

Lemma send_then_inv (w : WriteOutcome) (msg : wsMessage) (format : string)
  (rs : list ReadOutcome) (k : Run) :
  loop_inv k ->
  loop_inv (let '(evs, err) := send w msg in
            match err with
            | Some e => mkRun (Returned (Some (Errorf format e))) evs rs
            | None => emit evs k
            end).
Proof.
  intros Hk. destruct w; simpl.
  - apply loop_inv_emit; auto.
  - apply loop_inv_calm; reflexivity.
  - apply loop_inv_calm; reflexivity.
  - unfold loop_inv, none; simpl. repeat split; eauto.
Qed.

Lemma send_then_no_data (w : WriteOutcome) (msg : wsMessage) (format : string)
  (rs : list ReadOutcome) (k : Run) :
  none is_onData (events k) ->
  none is_onData
    (events (let '(evs, err) := send w msg in
             match err with
             | Some e => mkRun (Returned (Some (Errorf format e))) evs rs
             | None => emit evs k
             end)).
Proof. intros Hk. destruct w; unfold none in *; simpl; auto. Qed.

Lemma initConnection_inv (w : WriteOutcome) (reads : list ReadOutcome) :
  loop_inv (initConnection w reads)
  /\ none is_onData (events (initConnection w reads)).
Proof.
  unfold initConnection. split.
  - apply send_then_inv, initConnection_loop_inv.
  - apply send_then_no_data, initConnection_loop_no_data.
Qed.

Section SessionFacts.

Variable Request : Type.

Variable Marshal_Request : Request -> string + error.

Variable H : Type.

Local Abbreviation start' := (start Request Marshal_Request).

Local Abbreviation session := (Subscribe_session Request Marshal_Request H).

Local Abbreviation subscribe := (Subscribe Request Marshal_Request H).

Lemma start_inv (id : string) (auth : json.map_string) (sub : Request)
  (w : WriteOutcome) (reads : list ReadOutcome) :
  loop_inv (start' id auth sub w reads)
  /\ none is_onData (events (start' id auth sub w reads))
  /\ (result (start' id auth sub w reads) = Returned None ->
      exists pre m,
        events (start' id auth sub w reads)
        = pre ++ [EvRead (ReadFrame (Some m))]
        /\ Type_ m = "start_ack" /\ ID m = id).
Proof.
  unfold start. destruct (Marshal_Request sub) as [enc|e].
  - split; [apply send_then_inv, start_loop_inv|].
    split; [apply send_then_no_data, start_loop_no_data|].
    destruct w; simpl; try discriminate.
    intros Hr. destruct (start_loop_ack id reads Hr) as (pre & m & -> & Hm).
    eexists (_ :: pre), m. split; [reflexivity | exact Hm].
  - split; [apply loop_inv_calm; reflexivity|].
    split; [reflexivity | discriminate].
Qed.

Lemma loop_inv_ok_quiet (r : Run) :
  loop_inv r -> result r = Returned None ->
  watcher_closed (events r) = false /\ closes (events r) = O.
Proof.
  intros (_ & _ & Hc & Hw) Hr.
  destruct (watcher_closed (events r)) eqn:E.
  - destruct (Hw eq_refl) as [e He]. congruence.
  - auto.
Qed.

Lemma session_facts (w : World) (ctx' : Context) (auth : json.map_string)
  (sub : Request) (onReady : ReadyHandler H) (onData : DataHandler H) (h : H) :
  let o := session w ctx' auth sub onReady onData h in
  none is_deferred_close (trace o)
  /\ closes (trace o) = (if watcher_closed (trace o) then 1 else 0)%nat
  /\ session_shape w ctx' onReady onData h o.
Proof.
  unfold Subscribe_session.
  destruct (initConnection_inv (init_write w) (reads w)) as (I1 & D1).
  set (r1 := initConnection (init_write w) (reads w)) in *.
  destruct (result r1) as [[e1|]|m1] eqn:R1; simpl.
  - destruct I1 as (N1 & N2 & N3 & _). repeat split; auto.
    left. repeat split; auto. discriminate.
  - destruct (loop_inv_ok_quiet r1 I1 R1) as (W1 & C1).
    destruct (start_inv (reqID w) auth sub (start_write w) (unread r1))
      as (I2 & D2 & A2).
    set (r2 := start' (reqID w) auth sub (start_write w) (unread r1)) in *.
    destruct I1 as (N1 & F1 & _ & _).
    destruct (result r2) as [[e2|]|m2] eqn:R2; simpl.
    + destruct I2 as (N2 & F2 & K2 & _).
      rewrite !closes_app, !watcher_closed_app, W1, C1. simpl.
      repeat split; auto using none_app.
      * apply none_app; [apply none_app; [auto | reflexivity] | auto].
      * left. repeat split; try discriminate;
          (apply none_app; [apply none_app; [auto | reflexivity] | auto]).
    + destruct (loop_inv_ok_quiet r2 I2 R2) as (W2 & C2).
      destruct I2 as (N2 & F2 & _ & _).
      destruct (A2 eq_refl) as (pre & m & Epre & Hty & Hid).
      assert (NA : forall p, p (EvLog LevelDebug "Websocket initialized" []) = false ->
                   p (EvLog LevelDebug "Websocket subscription ready" []) = false ->
                   none p (events r1) -> none p (events r2) ->
                   none p ((events r1 ++ [EvLog LevelDebug "Websocket initialized" []])
                           ++ events r2
                           ++ [EvLog LevelDebug "Websocket subscription ready" []])).
      { intros p P1 P2 Q1 Q2. apply none_app; [apply none_app; auto|].
        - unfold none; simpl; now rewrite P1.
        - apply none_app; auto. unfold none; simpl; now rewrite P2. }
      set (A := (events r1 ++ [EvLog LevelDebug "Websocket initialized" []])
                ++ events r2
                ++ [EvLog LevelDebug "Websocket subscription ready" []]).
      assert (WA : watcher_closed A = false).
      { unfold A. rewrite !watcher_closed_app, W1, W2. reflexivity. }
      assert (CA : closes A = O).
      { unfold A. rewrite !closes_app, C1, C2. reflexivity. }
      assert (TA : forall B, (events r1 ++ [EvLog LevelDebug "Websocket initialized" []])
                             ++ events r2
                             ++ [EvLog LevelDebug "Websocket subscription ready" [];
                                 EvOnReady ctx'] ++ B
                             = A ++ EvOnReady ctx' :: B).
      { intros B. unfold A. rewrite <- !app_assoc. reflexivity. }
      assert (SA : A = ((events r1 ++ [EvLog LevelDebug "Websocket initialized" []])
                        ++ pre)
                       ++ [EvRead (ReadFrame (Some m));
                           EvLog LevelDebug "Websocket subscription ready" []]).
      { unfold A. rewrite Epre, <- !app_assoc. reflexivity. }
      destruct (onReady ctx' h) as [[e|] h1] eqn:ER.
      * simpl. pose proof (TA []) as T0. rewrite app_nil_r in T0.
        rewrite app_assoc in T0. rewrite app_assoc. rewrite T0.
        rewrite closes_app, watcher_closed_app, WA, CA. simpl.
        split; [apply none_app; [apply NA; auto | reflexivity]|].
        split; [reflexivity|].
        right.
        exists A, [], ((events r1 ++ [EvLog LevelDebug "Websocket initialized" []])
                       ++ pre), m. rewrite ER. simpl.
        repeat split; auto; apply NA; auto.
      * pose proof (process_loop_inv H (reqID w) onData (unread r2) h1) as I3.
        unfold process.
        destruct (process_loop H (reqID w) onData (unread r2) h1) as [r3 h2] eqn:EP.
        simpl in I3. destruct I3 as (N3 & F3 & K3 & _).
        assert (T3 : forall res,
                   trace (mkOutcome res
                            (((events r1 ++ [EvLog LevelDebug "Websocket initialized" []])
                              ++ events r2
                              ++ [EvLog LevelDebug "Websocket subscription ready" [];
                                  EvOnReady ctx']) ++ events r3) h2)
                   = A ++ EvOnReady ctx' :: events r3).
        { intros res. simpl. rewrite <- TA, <- !app_assoc. reflexivity. }
        assert (G : forall res,
                   (res = Returned None <-> result r3 = Returned None) ->
                   let o := mkOutcome res
                            (((events r1 ++ [EvLog LevelDebug "Websocket initialized" []])
                              ++ events r2
                              ++ [EvLog LevelDebug "Websocket subscription ready" [];
                                  EvOnReady ctx']) ++ events r3) h2 in
                   none is_deferred_close (trace o)
                   /\ closes (trace o) = (if watcher_closed (trace o) then 1 else 0)%nat
                   /\ session_shape w ctx' onReady onData h o).
        { intros res Hres o. unfold o. rewrite T3. clear o.
          split; [apply none_app; [apply NA; auto|]|].
          { unfold none. simpl. exact F3. }
          split.
          { rewrite closes_app, watcher_closed_app, WA, CA. simpl. exact K3. }
          right.
          exists A, (events r3),
            ((events r1 ++ [EvLog LevelDebug "Websocket initialized" []]) ++ pre), m. rewrite ER. simpl.
          split; [exact (T3 res)|].
          repeat split; auto; try (apply NA; auto).
          exists (unread r2). unfold process. rewrite EP. simpl.
          split; [reflexivity | split; [reflexivity | exact Hres]]. }
        destruct (result r3) as [[e3|]|m3] eqn:R3; apply G;
          unfold fail; split; intros; congruence.
    + destruct I2 as (N2 & F2 & K2 & Hp).
      rewrite !closes_app, !watcher_closed_app, W1, C1. simpl.
      repeat split; auto.
      * apply none_app; [apply none_app; [auto | reflexivity] | auto].
      * left. repeat split; try discriminate;
          (apply none_app; [apply none_app; [auto | reflexivity] | auto]).
  - destruct I1 as (N1 & N2 & N3 & _). repeat split; auto.
    left. repeat split; auto. discriminate.
Qed.

End SessionFacts.

(** ** Facts about [Subscribe] *)

Section SubscribeFacts.

Variable Request : Type.

Variable Marshal_Request : Request -> string + error.

Variable H : Type.

Local Abbreviation session := (Subscribe_session Request Marshal_Request H).

Local Abbreviation subscribe := (Subscribe Request Marshal_Request H).

Lemma Subscribe_dialled (w : World) (ctx : Context) (endpoint tok : string)
  (sub : Request) (onReady : ReadyHandler H) (onData : DataHandler H) (h : H)
  (u : url.URL) :
  url_parse.Parse endpoint = Some u -> dial_error w = None ->
  let s := session w (WithCancel ctx (scope_id w))
                   (authExt (url.Hostname u) tok) sub onReady onData h in
  subscribe w ctx endpoint tok sub onReady onData h
  = mkOutcome (outcome s)
              (opening u tok ++ trace s ++ closing w (trace s))
              (final s).
Proof.
  intros Hp Hd. unfold Subscribe. rewrite Hp, Hd. cbv zeta.
  f_equal. unfold closing, opening.
  rewrite !watcher_closed_app. simpl. rewrite orb_false_r.
  rewrite <- !app_assoc. reflexivity.
Qed.

Lemma Subscribe_not_dialled (w : World) (ctx : Context) (endpoint tok : string)
  (sub : Request) (onReady : ReadyHandler H) (onData : DataHandler H) (h : H) :
  match url_parse.Parse endpoint, dial_error w with
  | Some _, None => True
  | _, _ =>
      forallb (fun e => match e with
                        | EvLog _ _ _ | EvDial _ _ | EvCancel => true
                        | _ => false
                        end)
              (trace (subscribe w ctx endpoint tok sub onReady onData h)) = true
      /\ outcome (subscribe w ctx endpoint tok sub onReady onData h)
         <> Returned None
  end.
Proof.
  unfold Subscribe. destruct (url_parse.Parse endpoint) as [u|].
  - destruct (dial_error w); [|exact I]. simpl. split; [reflexivity|discriminate].
  - simpl. split; [reflexivity|discriminate].
Qed.

Lemma none_opening (p : Event -> bool) (u : url.URL) (tok : string) :
  (forall l m a, p (EvLog l m a) = false) -> (forall a ps, p (EvDial a ps) = false) ->
  none p (opening u tok).
Proof. intros H1 H2. unfold none, opening. simpl. now rewrite H1, H2. Qed.

Lemma none_closing (p : Event -> bool) (w : World) (t : list Event) :
  (forall c, p (EvClose c) = false) -> p EvCancel = false ->
  none p (closing w t).
Proof.
  intros H1 H2. unfold none, closing. simpl. rewrite H1, H2.
  destruct (watcher_runs w && negb (watcher_closed t)); simpl;
    now rewrite ?H1.
Qed.

End SubscribeFacts.

(** ** The claims about the state machine *)

Section Claims.

Variable Request : Type.

Variable Marshal_Request : Request -> string + error.

Variable H : Type.

Local Abbreviation session := (Subscribe_session Request Marshal_Request H).

Local Abbreviation subscribe := (Subscribe Request Marshal_Request H).

(** The shape of a trace of [Subscribe]: either the ready callback is not
    called in it, or the trace splits around the one call of the callback,
    with a start_ack for the subscription read before it and, when the
    callback fails, nothing but the closing after it. *)
Lemma Subscribe_shape
  (w : World) (ctx : Context) (endpoint accessToken : string)
  (subscription : Request) (onReady : ReadyHandler H) (onData : DataHandler H)
  (h : H) :
  let o := subscribe w ctx endpoint accessToken subscription onReady onData h in
  let ctx' := WithCancel ctx (scope_id w) in
  none is_onReady (trace o)
  \/ exists A B m,
      trace o = A ++ EvOnReady ctx' :: B
      /\ none is_onReady A /\ none is_onData A /\ none is_onReady B
      /\ In (EvRead (ReadFrame (Some m))) A
      /\ Type_ m = "start_ack" /\ ID m = reqID w
      /\ forall e, fst (onReady ctx' h) = Some e ->
                   outcome o = Returned (Some (Errorf "onReady error: %w" e))
                   /\ none is_io B /\ none is_onData B.
Proof.
  cbv zeta.
  pose proof (Subscribe_not_dialled Request Marshal_Request H w ctx endpoint
                accessToken subscription onReady onData h) as Hnd.
  destruct (url_parse.Parse endpoint) as [u|] eqn:Hp;
    [destruct (dial_error w) as [de|] eqn:Hd|].
  2:{ rewrite (Subscribe_dialled Request Marshal_Request H w ctx endpoint
                 accessToken subscription onReady onData h u Hp Hd).
      cbv zeta. cbn [outcome trace].
      destruct (session_facts Request Marshal_Request H w
                  (WithCancel ctx (scope_id w))
                  (authExt (url.Hostname u) accessToken)
                  subscription onReady onData h) as (_ & _ & Hs).
      cbv zeta in Hs.
      set (s := session w (WithCancel ctx (scope_id w))
                        (authExt (url.Hostname u) accessToken)
                        subscription onReady onData h) in *.
      assert (NO : none is_onReady (opening u accessToken))
        by (apply none_opening; reflexivity).
      assert (NC : none is_onReady (closing w (trace s)))
        by (apply none_closing; reflexivity).
      destruct Hs as [(N1 & N2 & _) | (A & B & pre0 & m & HT & HA & Hty & Hid
                                       & NA & DA & NB & _ & _ & HR)].
      - left. repeat apply none_app; auto.
      - right.
        exists (opening u accessToken ++ A), (B ++ closing w (trace s)), m.
        split; [rewrite HT, <- !app_assoc; reflexivity|].
        split; [apply none_app; auto|].
        split; [apply none_app; [apply none_opening; reflexivity | exact DA]|].
        split; [apply none_app; auto|].
        split.
        { apply in_or_app. right. rewrite HA.
          apply in_or_app. right. left. reflexivity. }
        split; [exact Hty|]. split; [exact Hid|].
        intros e He. rewrite He in HR. destruct HR as (HO & -> & _).
        split; [exact HO|]. simpl.
        split; apply none_closing; reflexivity. }
  all: left; destruct Hnd as (Hall & _);
    exact (proj1 (proj2 (before_dial_facts _ Hall))).
Qed.

(** C1: in every run of [Subscribe] the ready callback is called at most once;
    when it is called, it receives the context of the operation, a start_ack
    frame that carries the id of the subscription has been read before, and no
    payload has been handed to the data callback before; and when the callback
    returns an error, [Subscribe] returns that error wrapped, and after the
    call there is no read, no write and no call of the data callback. *)
Theorem Subscribe_trigger_after_start_ack
  (w : World) (ctx : Context) (endpoint accessToken : string)
  (subscription : Request) (onReady : ReadyHandler H) (onData : DataHandler H)
  (h : H) :
  let o := subscribe w ctx endpoint accessToken subscription onReady onData h in
  let ctx' := WithCancel ctx (scope_id w) in
  (List.length (filter is_onReady (trace o)) <= 1)%nat
  /\ forall pre c post,
      trace o = pre ++ EvOnReady c :: post ->
      c = ctx'
      /\ (exists m, In (EvRead (ReadFrame (Some m))) pre
                    /\ Type_ m = "start_ack" /\ ID m = reqID w)
      /\ none is_onData pre
      /\ forall e, fst (onReady ctx' h) = Some e ->
                   outcome o = Returned (Some (Errorf "onReady error: %w" e))
                   /\ none is_io post /\ none is_onData post.
Proof.
  cbv zeta.
  destruct (Subscribe_shape w ctx endpoint accessToken subscription onReady
              onData h)
    as [NT | (A & B & m & HT & NA & DA & NB & Hin & Hty & Hid & Hfail)];
    cbv zeta in *.
  - split; [rewrite NT; simpl; lia|].
    intros pre c post E. exfalso.
    assert (Hc : In (EvOnReady c)
                    (trace (subscribe w ctx endpoint accessToken subscription
                                      onReady onData h)))
      by (rewrite E; apply in_or_app; right; left; reflexivity).
    pose proof (none_In _ _ _ NT Hc) as F. discriminate F.
  - rewrite HT. split.
    + rewrite filter_app. simpl. rewrite NA, NB. simpl. lia.
    + intros pre c post E.
      destruct (split_unique is_onReady A B pre post
                  (EvOnReady (WithCancel ctx (scope_id w))) (EvOnReady c)
                  NA eq_refl eq_refl NB E)
        as (-> & Hc & ->).
      injection Hc as ->.
      split; [reflexivity|]. split; [exists m; auto|].
      split; [exact DA | exact Hfail].
Qed.

(** The payloads that reach the data callback in a run of [Subscribe] are
    data frames read with the id of the subscription, the last such frames
    read, each handed over with the background context. *)
Lemma Subscribe_delivered
  (w : World) (ctx : Context) (endpoint accessToken : string)
  (subscription : Request) (onReady : ReadyHandler H) (onData : DataHandler H)
  (h : H) :
  let o := subscribe w ctx endpoint accessToken subscription onReady onData h in
  exists earlier ps,
    delivered (trace o) = map (fun p => (Background, p)) ps
    /\ matching_data (reqID w) (trace o) = earlier ++ ps.
Proof.
  cbv zeta.
  pose proof (Subscribe_not_dialled Request Marshal_Request H w ctx endpoint
                accessToken subscription onReady onData h) as Hnd.
  destruct (url_parse.Parse endpoint) as [u|] eqn:Hp;
    [destruct (dial_error w) as [de|] eqn:Hd|].
  2:{ rewrite (Subscribe_dialled Request Marshal_Request H w ctx endpoint
                 accessToken subscription onReady onData h u Hp Hd).
      cbv zeta. cbn [outcome trace].
      destruct (session_facts Request Marshal_Request H w
                  (WithCancel ctx (scope_id w))
                  (authExt (url.Hostname u) accessToken)
                  subscription onReady onData h) as (_ & _ & Hs).
      cbv zeta in Hs.
      set (s := session w (WithCancel ctx (scope_id w))
                        (authExt (url.Hostname u) accessToken)
                        subscription onReady onData h) in *.
      assert (DO : delivered (opening u accessToken) = []) by reflexivity.
      assert (DC : delivered (closing w (trace s)) = []).
      { unfold closing. destruct (_ && _); reflexivity. }
      assert (MC : matching_data (reqID w) (closing w (trace s)) = []).
      { unfold closing. destruct (_ && _); reflexivity. }
      rewrite !delivered_app, !matching_data_app, DO, DC, MC, app_nil_r.
      simpl app.
      destruct Hs as [(N1 & N2 & _) | (A & B & pre0 & m & HT & HA & Hty & Hid
                                       & NA & DA & NB & _ & _ & HR)].
      - exists (matching_data (reqID w) (trace s)), [].
        rewrite (delivered_none _ N2), app_nil_r. auto.
      - rewrite HT, delivered_app, matching_data_app, (delivered_none _ DA).
        simpl.
        destruct (fst (onReady (WithCancel ctx (scope_id w)) h)).
        + destruct HR as (_ & -> & _).
          exists (matching_data (reqID w) A), []. rewrite app_nil_r. auto.
        + destruct HR as (rs & -> & _). unfold process.
          rewrite process_loop_delivers, ?app_nil_r.
          eexists (matching_data (reqID w) A), _. split; reflexivity. }
  all: destruct Hnd as (Hall & _);
    destruct (before_dial_facts _ Hall) as (_ & _ & _ & D & M);
    exists [], []; rewrite D, M; auto.
Qed.

(** C3, amended: once the dial has been made and has succeeded, every end of
    [Subscribe] runs the deferred close exactly once; the watcher closes once
    more when it runs, so the trace holds one or two closes, two whenever the
    watcher is scheduled or a cancellation has made it run; in a run without
    a dial, or with a dial that fails, there is no connection and nothing is
    closed; and no close comes before the dial. *)
Theorem Subscribe_close_count
  (w : World) (ctx : Context) (endpoint accessToken : string)
  (subscription : Request) (onReady : ReadyHandler H) (onData : DataHandler H)
  (h : H) :
  let o := subscribe w ctx endpoint accessToken subscription onReady onData h in
  match existsb is_dial (trace o), dial_error w with
  | true, None =>
      List.length (filter is_deferred_close (trace o)) = 1%nat
      /\ closes (trace o)
         = (1 + (if watcher_closed (trace o) then 1 else 0))%nat
      /\ watcher_runs w && negb (watcher_closed (trace o)) = false
  | _, _ => closes (trace o) = O
  end
  /\ forall pre who post,
       trace o = pre ++ EvClose who :: post -> existsb is_dial pre = true.
Proof.
  cbv zeta.
  pose proof (Subscribe_not_dialled Request Marshal_Request H w ctx endpoint
                accessToken subscription onReady onData h) as Hnd.
  assert (Hz : forall t : list Event,
             closes t = O ->
             forall pre who post, t = pre ++ EvClose who :: post ->
             existsb is_dial pre = true).
  { intros t Ht pre who post E. rewrite E, closes_app in Ht.
    unfold closes in Ht. simpl in Ht. lia. }
  destruct (url_parse.Parse endpoint) as [u|] eqn:Hp;
    [destruct (dial_error w) as [de|] eqn:Hd|].
  2:{ rewrite (Subscribe_dialled Request Marshal_Request H w ctx endpoint
                 accessToken subscription onReady onData h u Hp Hd).
      cbv zeta. cbn [outcome trace].
      destruct (session_facts Request Marshal_Request H w
                  (WithCancel ctx (scope_id w))
                  (authExt (url.Hostname u) accessToken)
                  subscription onReady onData h) as (ND & HC & _).
      cbv zeta in ND, HC.
      set (s := session w (WithCancel ctx (scope_id w))
                        (authExt (url.Hostname u) accessToken)
                        subscription onReady onData h) in *.
      split.
      - change (existsb is_dial (opening u accessToken ++ trace s
                                 ++ closing w (trace s))) with true.
        rewrite !filter_app, !length_app, !closes_app, !watcher_closed_app.
        rewrite ND, HC. unfold closing, opening, closes.
        destruct (watcher_runs w), (watcher_closed (trace s)); simpl; auto.
      - intros pre who post E. unfold opening in E.
        destruct pre as [|a [|b pre]]; simpl in E; try discriminate.
        injection E as <- <- _. reflexivity. }
  all: destruct Hnd as (Hall & _);
    destruct (before_dial_facts _ Hall) as (C & _);
    (split; [|exact (Hz _ C)]).
  - destruct (existsb is_dial _); exact C.
  - unfold Subscribe. rewrite Hp. simpl. destruct (dial_error w); reflexivity.
Qed.

(** C3, as the specification states it, fails: in a run that succeeds, and in
    a run that a cancellation ends, the connection is closed twice. *)
Lemma Subscribe_closes_twice :
  let served :=
    demo_run [frame "connection_ack" None "";
              frame "start_ack" None demo_id;
              frame "data" (Some demo_payload) demo_id] true in
  let cancelled :=
    demo_run [frame "connection_ack" None "";
              frame "start_ack" None demo_id;
              ReadCancelled (LibError "use of closed network connection")]
             false in
  outcome served = Returned None
  /\ final served = [demo_payload]
  /\ filter is_close (trace served) = [EvClose Deferred; EvClose Watcher]
  /\ closes (trace served) = 2%nat
  /\ filter is_close (trace cancelled) = [EvClose Watcher; EvClose Deferred]
  /\ closes (trace cancelled) = 2%nat.
Proof. vm_compute. repeat split. Qed.

(** C4: an error frame without payload makes [start] and [process] panic, and
    with them [Subscribe]; with a payload, both log every error of the
    payload and return the error of the package. *)
Theorem error_frame_without_payload_panics
  (id i : string) (p : Payload) (rest : list ReadOutcome)
  (onData : DataHandler H) (h : H) :
  result (start_loop id (frame "error" None i :: rest))
  = Panicked nil_dereference
  /\ result (fst (process_loop H id onData (frame "error" None i :: rest) h))
     = Panicked nil_dereference
  /\ outcome (demo_run [frame "connection_ack" None ""; frame "error" None ""]
                       false)
     = Panicked nil_dereference
  /\ outcome (demo_run [frame "connection_ack" None "";
                        frame "start_ack" None demo_id;
                        frame "error" None ""] false)
     = Panicked nil_dereference
  /\ start_loop id (frame "error" (Some p) i :: rest)
     = mkRun (Returned (Some (Errorf "%w: websocket error" ErrUnexpected)))
             (EvRead (frame "error" (Some p) i) :: websocket_errors p) rest
  /\ process_loop H id onData (frame "error" (Some p) i :: rest) h
     = (mkRun (Returned (Some (Errorf "%w: websocket error" ErrUnexpected)))
              (EvRead (frame "error" (Some p) i) :: websocket_errors p) rest, h).
Proof.
  repeat split; try reflexivity; vm_compute; reflexivity.
Qed.

(** C5: a keep-alive frame leaves each of the three loops where it was: the
    loop goes on with the reads that follow, the state of the caller is the
    same, and the data callback is not called; a data frame with another id
    than the subscription is logged and stepped over in the same way; and in
    every run of [Subscribe] the payloads handed to the data callback are
    payloads of data frames read with the id of the subscription. *)
Theorem keepalive_and_foreign_data_are_dropped
  (w : World) (ctx : Context) (endpoint accessToken : string)
  (subscription : Request) (onReady : ReadyHandler H) (onData : DataHandler H)
  (h : H) (id other : string) (p : option Payload) (i : string)
  (rest : list ReadOutcome)
  (Hother : other <> id) :
  initConnection_loop (frame "ka" p i :: rest)
  = emit [EvRead (frame "ka" p i); unexpected_packet (mkMsg "ka" p i)]
         (initConnection_loop rest)
  /\ start_loop id (frame "ka" p i :: rest)
     = emit [EvRead (frame "ka" p i)] (start_loop id rest)
  /\ process_loop H id onData (frame "ka" p i :: rest) h
     = (emit [EvRead (frame "ka" p i)]
             (fst (process_loop H id onData rest h)),
        snd (process_loop H id onData rest h))
  /\ process_loop H id onData (frame "data" p other :: rest) h
     = (emit [EvRead (frame "data" p other);
              EvLog LevelWarn "Received unexpected data packet"
                    [("got", VString other); ("expected", VString id)]]
             (fst (process_loop H id onData rest h)),
        snd (process_loop H id onData rest h))
  /\ (let o := subscribe w ctx endpoint accessToken subscription
                         onReady onData h in
      exists earlier ps,
        delivered (trace o) = map (fun q => (Background, q)) ps
        /\ matching_data (reqID w) (trace o) = earlier ++ ps).
Proof.
  split; [reflexivity|]. split; [reflexivity|]. split.
  { simpl. destruct (process_loop H id onData rest h). reflexivity. }
  split.
  { simpl. apply String.eqb_neq in Hother. rewrite Hother. simpl.
    destruct (process_loop H id onData rest h). reflexivity. }
  apply Subscribe_delivered.
Qed.

(** In [process], a data frame that carries the id of the subscription
    and a payload makes one call of the data callback, with that payload; on
    an error of the callback the loop ends with it, on a true flag the loop
    goes on with the next read, on a false flag the loop ends without error.
    Over a whole run the callback is called once per such frame, in order.
    And when [Subscribe] returns without error, the last payload handed over
    is one of these, the callback has answered false to it, and the deferred
    close and cancel follow at once. *)
Lemma matching_data_is_dispatched
  (w : World) (ctx : Context) (endpoint accessToken : string)
  (subscription : Request) (onReady : ReadyHandler H) (onData : DataHandler H)
  (h : H) (id : string) (p : Payload) (rest : list ReadOutcome) :
  process_loop H id onData (frame "data" (Some p) id :: rest) h
  = (let evs := [EvRead (frame "data" (Some p) id);
                 EvLog LevelDebug "Received data packet"
                       [("data", VString (Data p))];
                 EvOnData Background p] in
     let '(cont, err, h1) := onData Background p h in
     match err with
     | Some e =>
         (mkRun (Returned (Some (Errorf "failed to process data packet: %w" e)))
                evs rest, h1)
     | None =>
         if cont
         then (emit evs (fst (process_loop H id onData rest h1)),
               snd (process_loop H id onData rest h1))
         else (mkRun (Returned None)
                     (evs ++ [EvLog LevelDebug "Data handler requested exit" []])
                     rest, h1)
     end)
  /\ (forall reads h0,
         delivered (events (fst (process_loop H id onData reads h0)))
         = map (fun q => (Background, q))
               (matching_data id
                  (events (fst (process_loop H id onData reads h0)))))
  /\ (let o := subscribe w ctx endpoint accessToken subscription
                         onReady onData h in
      outcome o = Returned None ->
      exists t q h' tail,
        trace o = t ++ [EvOnData Background q;
                        EvLog LevelDebug "Data handler requested exit" [];
                        EvClose Deferred; EvCancel] ++ tail
        /\ onData Background q h' = (false, None, final o)
        /\ In q (matching_data (reqID w) (trace o))
        /\ (tail = [] \/ tail = [EvClose Watcher])).
Proof.
  split.
  { simpl. rewrite String.eqb_refl. simpl.
    destruct (onData Background p h) as [[cont [e|]] h1]; [reflexivity|].
    destruct cont; simpl; [|reflexivity].
    destruct (process_loop H id onData rest h1). reflexivity. }
  split; [intros; apply process_loop_delivers|].
  cbv zeta.
  pose proof (Subscribe_delivered w ctx endpoint accessToken subscription
                onReady onData h) as (earlier & ps & HD & HM).
  pose proof (Subscribe_not_dialled Request Marshal_Request H w ctx endpoint
                accessToken subscription onReady onData h) as Hnd.
  revert HD HM.
  destruct (url_parse.Parse endpoint) as [u|] eqn:Hp;
    [destruct (dial_error w) as [de|] eqn:Hd|].
  2:{ rewrite (Subscribe_dialled Request Marshal_Request H w ctx endpoint
                 accessToken subscription onReady onData h u Hp Hd).
      cbv zeta. cbn [outcome trace final].
      destruct (session_facts Request Marshal_Request H w
                  (WithCancel ctx (scope_id w))
                  (authExt (url.Hostname u) accessToken)
                  subscription onReady onData h) as (_ & _ & Hs).
      cbv zeta in Hs.
      set (s := session w (WithCancel ctx (scope_id w))
                        (authExt (url.Hostname u) accessToken)
                        subscription onReady onData h) in *.
      intros HD HM Hok.
      destruct Hs as [(_ & _ & Hno) | (A & B & pre0 & m & HT & HA & Hty & Hid
                                       & NA & DA & NB & _ & _ & HR)];
        [contradiction|].
      destruct (fst (onReady (WithCancel ctx (scope_id w)) h)) as [e|].
      { destruct HR as (HO & _). rewrite HO in Hok. discriminate. }
      destruct HR as (rs & HB & HF & HO).
      apply HO in Hok. unfold process in *.
      destruct (process_loop_success H (reqID w) onData rs _ Hok)
        as (pre & q & h' & HE & HQ).
      assert (HTr : opening u accessToken ++ trace s ++ closing w (trace s)
                    = (opening u accessToken ++ A
                       ++ EvOnReady (WithCancel ctx (scope_id w)) :: pre)
                      ++ [EvOnData Background q;
                          EvLog LevelDebug "Data handler requested exit" [];
                          EvClose Deferred; EvCancel]
                      ++ (if watcher_runs w && negb (watcher_closed (trace s))
                          then [EvClose Watcher] else [])).
      { rewrite HT, HB, HE. unfold closing. rewrite <- !app_assoc.
        simpl. rewrite <- !app_assoc. reflexivity. }
      exists (opening u accessToken ++ A
              ++ EvOnReady (WithCancel ctx (scope_id w)) :: pre), q, h',
        (if watcher_runs w && negb (watcher_closed (trace s))
         then [EvClose Watcher] else []).
      split; [exact HTr|]. split; [rewrite HF; exact HQ|]. split.
      - rewrite HM. apply in_or_app. right.
        assert (Hin : In (Background, q)
                         (delivered (opening u accessToken ++ trace s
                                     ++ closing w (trace s)))).
        { rewrite HTr, !delivered_app. apply in_or_app. right.
          left. reflexivity. }
        rewrite HD in Hin. apply in_map_iff in Hin as (q' & Eq & Hq').
        injection Eq as ->. exact Hq'.
      - destruct (_ && _); auto. }
  all: intros _ _ Hok; destruct Hnd as (_ & Hne); contradiction.
Qed.

(** C6: a data frame that carries the id of the subscription and no payload
    makes [process] panic before the data callback is called: the frame is
    read, nothing is handed to the callback, the state of the caller is
    untouched, the reads that follow are not consumed, and [Subscribe] ends
    with the panic instead of returning.  With a payload, the frame makes one
    call of the callback with that payload, and the answer decides: an error
    ends the loop with it, a true flag lets the loop go on with the next
    read, a false flag ends the loop without error. *)
Theorem data_frame_without_payload_panics
  (id : string) (p : Payload) (rest : list ReadOutcome)
  (onData : DataHandler H) (h : H) :
  process_loop H id onData (frame "data" None id :: rest) h
  = (mkRun (Panicked nil_dereference) [EvRead (frame "data" None id)] rest, h)
  /\ delivered (events (fst (process_loop H id onData
                                (frame "data" None id :: rest) h))) = []
  /\ (let o := demo_run [frame "connection_ack" None "";
                         frame "start_ack" None demo_id;
                         frame "data" None demo_id;
                         frame "data" (Some demo_payload) demo_id] false in
      outcome o = Panicked nil_dereference
      /\ delivered (trace o) = []
      /\ final o = []
      /\ In (EvRead (frame "data" None demo_id)) (trace o))
  /\ process_loop H id onData (frame "data" (Some p) id :: rest) h
     = (let evs := [EvRead (frame "data" (Some p) id);
                    EvLog LevelDebug "Received data packet"
                          [("data", VString (Data p))];
                    EvOnData Background p] in
        let '(cont, err, h1) := onData Background p h in
        match err with
        | Some e =>
            (mkRun (Returned (Some (Errorf "failed to process data packet: %w" e)))
                   evs rest, h1)
        | None =>
            if cont
            then (emit evs (fst (process_loop H id onData rest h1)),
                  snd (process_loop H id onData rest h1))
            else (mkRun (Returned None)
                        (evs ++ [EvLog LevelDebug "Data handler requested exit" []])
                        rest, h1)
        end).
Proof.
  assert (E : process_loop H id onData (frame "data" None id :: rest) h
              = (mkRun (Panicked nil_dereference)
                       [EvRead (frame "data" None id)] rest, h)).
  { simpl. rewrite String.eqb_refl. reflexivity. }
  split; [exact E|]. split; [rewrite E; reflexivity|].
  split.
  { cbv zeta. split; [vm_compute; reflexivity|].
    split; [vm_compute; reflexivity|]. split; [vm_compute; reflexivity|].
    vm_compute. tauto. }
  simpl. rewrite String.eqb_refl. simpl.
  destruct (onData Background p h) as [[cont [e|]] h1]; [reflexivity|].
  destruct cont; simpl; [|reflexivity].
  destruct (process_loop H id onData rest h1). reflexivity.
Qed.

(** C7: the handshake writes a connection_init frame without payload and
    then reads; frames of other kinds are logged and stepped over; a
    connection_ack ends the handshake without error; a connection_error ends
    it with the error of the package, [Subscribe] returns that error wrapped,
    the ready callback is not called, and the deferred close runs. *)
Theorem handshake_rejected
  (w : World) (ctx : Context) (endpoint accessToken : string)
  (subscription : Request) (onReady : ReadyHandler H) (onData : DataHandler H)
  (h : H) (u : url.URL) (others : list wsMessage) (p : option Payload)
  (i : string) (rest : list ReadOutcome)
  (Hparse : url_parse.Parse endpoint = Some u)
  (Hdial : dial_error w = None)
  (Hwrite : init_write w = WriteOk)
  (Hothers : forallb tolerated others = true)
  (Hreads : reads w = map (fun m => ReadFrame (Some m)) others
                      ++ frame "connection_error" p i :: rest) :
  let o := subscribe w ctx endpoint accessToken subscription onReady onData h in
  let rejected := ErrorfQ "%w: connection error: %q" ErrUnexpected p in
  trace o = opening u accessToken
            ++ EvWrite (mkMsg "connection_init" None "")
            :: tolerated_events others
            ++ EvRead (frame "connection_error" p i)
            :: [EvClose Deferred; EvCancel]
            ++ (if watcher_runs w then [EvClose Watcher] else [])
  /\ outcome o = Returned (Some (Errorf "failed to init connection: %w" rejected))
  /\ Is_ErrUnexpected rejected = true
  /\ none is_onReady (trace o) /\ none is_onData (trace o)
  /\ In (EvClose Deferred) (trace o)
  /\ forall p' i' rest',
      initConnection WriteOk
        (map (fun m => ReadFrame (Some m)) others
         ++ frame "connection_ack" p' i' :: rest')
      = mkRun (Returned None)
              (EvWrite (mkMsg "connection_init" None "")
               :: tolerated_events others
               ++ [EvRead (frame "connection_ack" p' i')])
              rest'.
Proof.
  cbv zeta.
  assert (HT : trace (subscribe w ctx endpoint accessToken subscription
                                onReady onData h)
               = opening u accessToken
                 ++ EvWrite (mkMsg "connection_init" None "")
                 :: tolerated_events others
                 ++ EvRead (frame "connection_error" p i)
                 :: [EvClose Deferred; EvCancel]
                 ++ (if watcher_runs w then [EvClose Watcher] else [])
               /\ outcome (subscribe w ctx endpoint accessToken subscription
                                     onReady onData h)
                  = Returned (Some (Errorf "failed to init connection: %w"
                                      (ErrorfQ "%w: connection error: %q"
                                               ErrUnexpected p)))).
  { rewrite (Subscribe_dialled Request Marshal_Request H w ctx endpoint
               accessToken subscription onReady onData h u Hparse Hdial).
    cbv zeta. cbn [outcome trace]. unfold Subscribe_session, initConnection.
    rewrite Hwrite, Hreads. simpl send. cbv iota beta.
    rewrite (initConnection_loop_tolerates others _ Hothers).
    simpl. unfold closing.
    assert (HW : watcher_closed
                   (EvWrite connection_init
                    :: tolerated_events others
                    ++ [EvRead (frame "connection_error" p i)]) = false).
    { simpl. unfold watcher_closed. rewrite existsb_app. simpl.
      rewrite orb_false_r. clear. induction others; simpl; auto. }
    rewrite HW, andb_true_r. split; [|reflexivity].
    unfold opening. simpl. do 3 f_equal. rewrite <- app_assoc. reflexivity. }
  destruct HT as (HT & HO). rewrite HT, HO.
  assert (HN : forall q, q (EvWrite (mkMsg "connection_init" None "")) = false ->
               (forall l m a, q (EvLog l m a) = false) ->
               (forall a ps, q (EvDial a ps) = false) ->
               (forall r, q (EvRead r) = false) ->
               (forall c, q (EvClose c) = false) -> q EvCancel = false ->
               none q (opening u accessToken
                       ++ EvWrite (mkMsg "connection_init" None "")
                       :: tolerated_events others
                       ++ EvRead (frame "connection_error" p i)
                       :: [EvClose Deferred; EvCancel]
                       ++ (if watcher_runs w then [EvClose Watcher] else []))).
  { intros q Q1 Q2 Q3 Q4 Q5 Q6. apply none_app; [now apply none_opening|].
    unfold none. simpl. rewrite Q1, filter_app. simpl.
    rewrite Q4, !Q5, Q6.
    assert (filter q (tolerated_events others) = []) as ->.
    { clear - Q2 Q4. unfold tolerated_events, unexpected_packet.
      induction others; simpl; [auto|]. now rewrite Q4, Q2. }
    destruct (watcher_runs w); simpl; now rewrite ?Q5. }
  split; [reflexivity|]. split; [reflexivity|]. split; [reflexivity|].
  split; [apply HN; reflexivity|]. split; [apply HN; reflexivity|].
  split.
  { apply in_or_app. right. right. apply in_or_app. right. right.
    left. reflexivity. }
  intros p' i' rest'. unfold initConnection. simpl send. cbv iota beta.
  rewrite (initConnection_loop_tolerates others _ Hothers).
  reflexivity.
Qed.

(** C10: every call of the data callback receives the background context,
    which no cancellation makes done, whereas the context of the operation,
    the one the ready callback receives, is done once its cancel function is
    called. *)
Theorem data_handler_gets_background_context
  (w : World) (ctx : Context) (endpoint accessToken : string)
  (subscription : Request) (onReady : ReadyHandler H) (onData : DataHandler H)
  (h : H) :
  let o := subscribe w ctx endpoint accessToken subscription onReady onData h in
  Forall (fun cp => fst cp = Background
                    /\ forall cancelled, Done cancelled (fst cp) = false)
         (delivered (trace o))
  /\ Forall (fun e => match e with
                      | EvOnData c _ => c = Background
                      | EvOnReady c => c = WithCancel ctx (scope_id w)
                      | _ => True
                      end) (trace o)
  /\ Done (fun s => Nat.eqb s (scope_id w)) (WithCancel ctx (scope_id w)) = true.
Proof.
  cbv zeta.
  pose proof (Subscribe_delivered w ctx endpoint accessToken subscription
                onReady onData h) as (earlier & ps & HD & _).
  pose proof (Subscribe_shape w ctx endpoint accessToken
                subscription onReady onData h) as HS.
  cbv zeta in HS.
  set (t := trace (subscribe w ctx endpoint accessToken subscription
                             onReady onData h)) in *.
  split.
  { rewrite HD. apply Forall_forall. intros cp Hin.
    apply in_map_iff in Hin as (q & <- & _). simpl. auto. }
  split.
  { apply Forall_forall. intros e Hin.
    destruct e as [| | | |c|c q| |]; auto.
    - destruct HS as [NT | (A & B & m & HT & NA & _ & NB & _)].
      + pose proof (none_In _ _ _ NT Hin) as F. discriminate F.
      + rewrite HT in Hin. apply in_app_or in Hin as [Hin | [Hin | Hin]].
        * pose proof (none_In _ _ _ NA Hin) as F. discriminate F.
        * now injection Hin as <-.
        * pose proof (none_In _ _ _ NB Hin) as F. discriminate F.
    - assert (Hd : In (c, q) (delivered t)).
      { unfold delivered. apply in_flat_map. exists (EvOnData c q).
        split; [exact Hin | left; reflexivity]. }
      rewrite HD in Hd. apply in_map_iff in Hd as (q' & Eq & _).
      now injection Eq as <- _. }
  simpl. now rewrite Nat.eqb_refl.
Qed.

End Claims.

(** ** The claims at the concrete caller *)

(** C5 at the concrete caller: a data frame with another id is stepped over,
    the data frame that follows it is handed to the callback. *)
Lemma keepalive_and_foreign_data_witness :
  "another-id" <> demo_id
  /\ process_loop (list Payload) demo_id collect
       [frame "data" (Some demo_payload) "another-id";
        frame "data" (Some demo_payload) demo_id] []
     = (emit [EvRead (frame "data" (Some demo_payload) "another-id");
              EvLog LevelWarn "Received unexpected data packet"
                    [("got", VString "another-id");
                     ("expected", VString demo_id)]]
             (fst (process_loop (list Payload) demo_id collect
                     [frame "data" (Some demo_payload) demo_id] [])),
        [demo_payload]).
Proof.
  split; [discriminate|].
  exact (proj1 (proj2 (proj2 (proj2
           (keepalive_and_foreign_data_are_dropped
              string demo_marshal (list Payload) (demo_world [] false)
              Background "https://svc.example.com" "token" "subscription"
              trigger_ok collect [] demo_id "another-id" (Some demo_payload)
              "another-id" [frame "data" (Some demo_payload) demo_id]
              ltac:(discriminate)))))).
Defined.

(** The scenario of the specification at the concrete caller: one data frame
    with a payload, answered with a false flag. *)
Lemma matching_data_scenario :
  let o := demo_run [frame "connection_ack" None "";
                     frame "start_ack" None demo_id;
                     frame "data" (Some demo_payload) demo_id] false in
  outcome o = Returned None
  /\ final o = [demo_payload]
  /\ closes (trace o) = 1%nat
  /\ exists t q h' tail,
      trace o = t ++ [EvOnData Background q;
                      EvLog LevelDebug "Data handler requested exit" [];
                      EvClose Deferred; EvCancel] ++ tail
      /\ collect Background q h' = (false, None, final o)
      /\ In q (matching_data demo_id (trace o))
      /\ (tail = [] \/ tail = [EvClose Watcher]).
Proof.
  cbv zeta. split; [reflexivity|]. split; [reflexivity|].
  split; [reflexivity|].
  exact (proj2 (proj2
           (matching_data_is_dispatched
              string demo_marshal (list Payload)
              (demo_world [frame "connection_ack" None "";
                           frame "start_ack" None demo_id;
                           frame "data" (Some demo_payload) demo_id] false)
              Background "https://svc.example.com" "token"
              "subscription { onPublishPolicy }" trigger_ok collect []
              demo_id demo_payload [])) eq_refl).
Defined.

(** C7 at the concrete caller: the scenario of the specification, after a
    keep-alive and a stray data frame. *)
Lemma handshake_rejected_witness :
  let w := demo_world
             (map (fun m => ReadFrame (Some m)) [ka_frame; stray_data]
              ++ frame "connection_error" None ""
              :: [frame "connection_ack" None ""]) true in
  let o := Subscribe string demo_marshal (list Payload) w Background
                     "https://svc.example.com" "token"
                     "subscription { onPublishPolicy }" trigger_ok collect [] in
  url_parse.Parse "https://svc.example.com" = Some svc_url
  /\ forallb tolerated [ka_frame; stray_data] = true
  /\ outcome o
     = Returned (Some (Errorf "failed to init connection: %w"
                         (ErrorfQ "%w: connection error: %q" ErrUnexpected None)))
  /\ none is_onReady (trace o) /\ none is_onData (trace o)
  /\ In (EvClose Deferred) (trace o).
Proof.
  cbv zeta. split; [reflexivity|]. split; [reflexivity|].
  pose proof (handshake_rejected
                string demo_marshal (list Payload)
                (demo_world
                   (map (fun m => ReadFrame (Some m)) [ka_frame; stray_data]
                    ++ frame "connection_error" None ""
                    :: [frame "connection_ack" None ""]) true)
                Background "https://svc.example.com" "token"
                "subscription { onPublishPolicy }" trigger_ok collect []
                svc_url [ka_frame; stray_data] None ""
                [frame "connection_ack" None ""]
                eq_refl eq_refl eq_refl eq_refl eq_refl) as W.
  cbv zeta in W.
  exact (conj (proj1 (proj2 W))
           (conj (proj1 (proj2 (proj2 (proj2 W))))
              (conj (proj1 (proj2 (proj2 (proj2 (proj2 W)))))
                 (proj1 (proj2 (proj2 (proj2 (proj2 (proj2 W))))))))).
Defined.

(* ====================================================================== *)
(** * Part IV: further properties of the subscription *)

(** ** Frames that [start] and [process] step over *)

Section SkipFacts.

Variable H : Type.

Lemma start_loop_skips (id : string) (ms : list wsMessage)
  (rest : list ReadOutcome) :
  forallb (start_skips id) ms = true ->
  start_loop id (map (fun m => ReadFrame (Some m)) ms ++ rest)
  = emit (flat_map (start_skip_events id) ms) (start_loop id rest).
Proof.
  induction ms as [|m ms IH]; intros Hs.
  - simpl. unfold emit. destruct (start_loop id rest); reflexivity.
  - simpl in Hs. apply andb_prop in Hs as [Hm Hms].
    specialize (IH Hms). unfold start_skips in Hm.
    apply andb_prop in Hm as [He Ha].
    apply negb_true_iff in He, Ha.
    cbn [map app start_loop read flat_map]. unfold start_skip_events.
    rewrite He, IH.
    destruct (String.eqb (Type_ m) "ka") eqn:Hka.
    + rewrite emit_emit. reflexivity.
    + destruct (String.eqb (Type_ m) "start_ack") eqn:Hack.
      * simpl in Ha. rewrite Ha. simpl. rewrite emit_emit. reflexivity.
      * rewrite emit_emit. reflexivity.
Qed.

Lemma process_loop_skips (id : string) (onData : DataHandler H)
  (ms : list wsMessage) (rest : list ReadOutcome) (h : H) :
  forallb (process_skips id) ms = true ->
  process_loop H id onData (map (fun m => ReadFrame (Some m)) ms ++ rest) h
  = (emit (flat_map (process_skip_events id) ms)
          (fst (process_loop H id onData rest h)),
     snd (process_loop H id onData rest h)).
Proof.
  induction ms as [|m ms IH]; intros Hs.
  - simpl. unfold emit.
    destruct (process_loop H id onData rest h) as [[] ?]; reflexivity.
  - simpl in Hs. apply andb_prop in Hs as [Hm Hms].
    specialize (IH Hms). unfold process_skips in Hm.
    apply andb_prop in Hm as [He Ha].
    apply negb_true_iff in He, Ha.
    cbn [map app process_loop read flat_map]. unfold process_skip_events.
    rewrite He, IH.
    destruct (String.eqb (Type_ m) "ka") eqn:Hka.
    + rewrite emit_emit. reflexivity.
    + destruct (String.eqb (Type_ m) "data") eqn:Hd.
      * simpl in Ha. rewrite Ha. simpl. rewrite emit_emit. reflexivity.
      * rewrite emit_emit. reflexivity.
Qed.

Lemma skip_events_quiet (id : string) (ms : list wsMessage) :
  none is_onData (flat_map (start_skip_events id) ms)
  /\ none is_onData (flat_map (process_skip_events id) ms)
  /\ none is_write (flat_map (start_skip_events id) ms)
  /\ none is_write (flat_map (process_skip_events id) ms).
Proof.
  unfold none, start_skip_events, process_skip_events.
  repeat split; induction ms as [|m ms IH]; simpl; auto;
    rewrite filter_app, IH;
    repeat match goal with |- context [if ?b then _ else _] => destruct b end;
    reflexivity.
Qed.

End SkipFacts.

(** ** The frames that [Subscribe] writes *)

Lemma writes_app (a b : list Event) : writes (a ++ b) = writes a ++ writes b.
Proof. unfold writes. apply flat_map_app. Qed.

Lemma writes_read (r : ReadOutcome) : writes (fst (fst (read r))) = [].
Proof. destruct r; reflexivity. Qed.

Lemma writes_websocket_errors (p : Payload) : writes (websocket_errors p) = [].
Proof. unfold websocket_errors. induction (Errors p); simpl; auto. Qed.

Lemma writes_emit (evs : list Event) (r : Run) :
  writes (events (emit evs r)) = writes evs ++ writes (events r).
Proof. unfold emit. simpl. apply writes_app. Qed.

Lemma writes_initConnection_loop (rs : list ReadOutcome) :
  writes (events (initConnection_loop rs)) = [].
Proof.
  induction rs as [|r rest IH]; [reflexivity|].
  cbn [initConnection_loop].
  pose proof (writes_read r) as Hr. destruct (read r) as [[evs pkt] err].
  simpl in Hr.
  destruct err; [exact Hr|]. destruct pkt as [pkt|]; [|exact Hr].
  destruct (String.eqb (Type_ pkt) "connection_ack"); [exact Hr|].
  destruct (String.eqb (Type_ pkt) "connection_error"); [exact Hr|].
  now rewrite writes_emit, writes_app, Hr, IH.
Qed.

Lemma writes_start_loop (id : string) (rs : list ReadOutcome) :
  writes (events (start_loop id rs)) = [].
Proof.
  induction rs as [|r rest IH]; [reflexivity|].
  cbn [start_loop].
  pose proof (writes_read r) as Hr. destruct (read r) as [[evs pkt] err].
  simpl in Hr.
  destruct err; [exact Hr|]. destruct pkt as [pkt|]; [|exact Hr].
  destruct (String.eqb (Type_ pkt) "ka");
    [now rewrite writes_emit, Hr, IH|].
  destruct (String.eqb (Type_ pkt) "error").
  { destruct (Payload_ pkt); simpl;
      now rewrite ?writes_app, ?writes_websocket_errors, Hr. }
  destruct (String.eqb (Type_ pkt) "start_ack").
  { destruct (negb (String.eqb (ID pkt) id)); [|exact Hr].
    now rewrite writes_emit, writes_app, Hr, IH. }
  now rewrite writes_emit, writes_app, Hr, IH.
Qed.

Lemma writes_process_loop (H : Type) (id : string) (onData : DataHandler H)
  (rs : list ReadOutcome) (h : H) :
  writes (events (fst (process_loop H id onData rs h))) = [].
Proof.
  revert h. induction rs as [|r rest IH]; intros h; [reflexivity|].
  cbn [process_loop].
  pose proof (writes_read r) as Hr. destruct (read r) as [[evs pkt] err].
  simpl in Hr.
  destruct err; [exact Hr|]. destruct pkt as [pkt|]; [|exact Hr].
  destruct (String.eqb (Type_ pkt) "ka").
  { specialize (IH h). destruct (process_loop H id onData rest h).
    simpl in *. now rewrite writes_app, Hr, IH. }
  destruct (String.eqb (Type_ pkt) "error").
  { destruct (Payload_ pkt); simpl;
      now rewrite ?writes_app, ?writes_websocket_errors, Hr. }
  destruct (String.eqb (Type_ pkt) "data").
  { destruct (negb (String.eqb (ID pkt) id)).
    - specialize (IH h). destruct (process_loop H id onData rest h).
      simpl in *. now rewrite !writes_app, Hr, IH.
    - destruct (Payload_ pkt) as [p|]; [|exact Hr].
      destruct (onData Background p h) as [[cont [e|]] h1]; simpl.
      + now rewrite writes_app, Hr.
      + destruct cont; simpl.
        * specialize (IH h1). destruct (process_loop H id onData rest h1).
          simpl in *. now rewrite !writes_app, Hr, IH.
        * now rewrite !writes_app, Hr. }
  specialize (IH h). destruct (process_loop H id onData rest h).
  simpl in *. now rewrite !writes_app, Hr, IH.
Qed.

(** A handshake that succeeds ends on the read of a connection_ack. *)
Lemma initConnection_loop_ok (rs : list ReadOutcome) :
  result (initConnection_loop rs) = Returned None ->
  exists pre ack,
    events (initConnection_loop rs) = pre ++ [EvRead (ReadFrame (Some ack))]
    /\ Type_ ack = "connection_ack".
Proof.
  induction rs as [|r rest IH]; [discriminate|].
  cbn [initConnection_loop].
  destruct r as [[m|]|e|e|e|e]; simpl; try discriminate.
  destruct (String.eqb (Type_ m) "connection_ack") eqn:Hack.
  - intros _. exists [], m. split; [reflexivity|].
    now apply String.eqb_eq.
  - destruct (String.eqb (Type_ m) "connection_error"); [discriminate|].
    simpl. intros Hok. destruct (IH Hok) as (pre & ack & -> & Hty).
    exists (EvRead (ReadFrame (Some m)) :: unexpected_packet m :: pre), ack.
    split; [reflexivity | exact Hty].
Qed.

Lemma send_writes (wo : WriteOutcome) (m : wsMessage) :
  (writes (fst (send wo m)) = [] \/ writes (fst (send wo m)) = [m])
  /\ (snd (send wo m) = None -> fst (send wo m) = [EvWrite m]).
Proof. destruct wo; simpl; split; auto; discriminate. Qed.

Section WriteFacts.

Variable Request : Type.

Variable Marshal_Request : Request -> string + error.

Variable H : Type.

Local Abbreviation session := (Subscribe_session Request Marshal_Request H).

Local Abbreviation subscribe := (Subscribe Request Marshal_Request H).

Local Abbreviation start' := (start Request Marshal_Request).

Lemma initConnection_writes (wo : WriteOutcome) (rs : list ReadOutcome) :
  let r := initConnection wo rs in
  (writes (events r) = [] \/ writes (events r) = [connection_init])
  /\ (result r = Returned None ->
      exists mid ack,
        events r = EvWrite connection_init :: mid
                   ++ [EvRead (ReadFrame (Some ack))]
        /\ Type_ ack = "connection_ack" /\ writes mid = []).
Proof.
  unfold initConnection.
  destruct (send_writes wo connection_init) as (Hw & Hok).
  destruct (send wo connection_init) as [evs [e|]]; simpl in *.
  - split; [exact Hw | discriminate].
  - rewrite (Hok eq_refl). simpl. rewrite writes_initConnection_loop.
    split; [auto|]. intros Hr.
    destruct (initConnection_loop_ok rs Hr) as (pre & ack & E & Hty).
    exists pre, ack. rewrite E. repeat split; auto.
    pose proof (writes_initConnection_loop rs) as W.
    rewrite E, writes_app in W. now apply app_eq_nil in W.
Qed.

Lemma start_writes (id : string) (auth : json.map_string) (sub : Request)
  (wo : WriteOutcome) (rs : list ReadOutcome) :
  let r := start' id auth sub wo rs in
  writes (events r) = []
  \/ exists enc, Marshal_Request sub = inl enc
                 /\ writes (events r) = [start_message id auth enc].
Proof.
  unfold start. destruct (Marshal_Request sub) as [enc|e]; [|left; reflexivity].
  destruct (send_writes wo (start_message id auth enc)) as (Hw & Hok).
  destruct (send wo (start_message id auth enc)) as [evs [e|]]; simpl in *.
  - destruct Hw as [Hw|Hw]; [left; exact Hw | right; exists enc; auto].
  - right. exists enc. rewrite (Hok eq_refl). simpl.
    rewrite writes_start_loop. auto.
Qed.

(** The writes of a session: nothing, or the connection_init, or the
    connection_init and, after the read of a connection_ack, the start
    message. *)
Lemma session_writes (w : World) (ctx' : Context) (auth : json.map_string)
  (sub : Request) (onReady : ReadyHandler H) (onData : DataHandler H) (h : H) :
  let s := session w ctx' auth sub onReady onData h in
  writes (trace s) = []
  \/ writes (trace s) = [connection_init]
  \/ exists enc mid ack post,
       Marshal_Request sub = inl enc
       /\ trace s = EvWrite connection_init :: mid
                    ++ EvRead (ReadFrame (Some ack)) :: post
       /\ Type_ ack = "connection_ack"
       /\ writes mid = []
       /\ writes post = [start_message (reqID w) auth enc].
Proof.
  unfold Subscribe_session.
  destruct (initConnection_writes (init_write w) (reads w)) as (W1 & Ok1).
  set (r1 := initConnection (init_write w) (reads w)) in *.
  destruct (result r1) as [[e1|]|m1] eqn:R1; simpl;
    try (destruct W1 as [W1|W1]; rewrite W1; auto).
  destruct (Ok1 eq_refl) as (mid & ack & E1 & Hty & Wmid).
  pose proof (start_writes (reqID w) auth sub (start_write w) (unread r1)) as W2.
  set (r2 := start' (reqID w) auth sub (start_write w) (unread r1)) in *.
  assert (W1' : writes (events r1) = [connection_init]).
  { rewrite E1. simpl. rewrite writes_app, Wmid. reflexivity. }
  assert (G : forall tail,
             writes tail = [] ->
             let t := (events r1 ++ [EvLog LevelDebug "Websocket initialized" []])
                      ++ events r2 ++ tail in
             writes t = [connection_init]
             \/ exists enc mid ack post,
                 Marshal_Request sub = inl enc
                 /\ t = EvWrite connection_init :: mid
                        ++ EvRead (ReadFrame (Some ack)) :: post
                 /\ Type_ ack = "connection_ack"
                 /\ writes mid = []
                 /\ writes post = [start_message (reqID w) auth enc]).
  { intros tail Wt. cbv zeta. destruct W2 as [W2 | (enc & HM & W2)].
    - left. rewrite !writes_app, W1', W2, Wt. reflexivity.
    - right. exists enc, mid, ack,
        (EvLog LevelDebug "Websocket initialized" [] :: events r2 ++ tail).
      repeat split; auto.
      + rewrite E1. simpl. rewrite <- !app_assoc. reflexivity.
      + simpl. rewrite writes_app, W2, Wt. reflexivity. }
  destruct (result r2) as [[e2|]|m2] eqn:R2; simpl.
  - right. specialize (G [] eq_refl).
    cbv zeta in G. rewrite app_nil_r in G. exact G.
  - destruct (onReady ctx' h) as [[e|] h1].
    + right. simpl.
      specialize (G [EvLog LevelDebug "Websocket subscription ready" [];
                     EvOnReady ctx'] eq_refl). exact G.
    + unfold process.
      pose proof (writes_process_loop H (reqID w) onData (unread r2) h1) as W3.
      destruct (process_loop H (reqID w) onData (unread r2) h1) as [r3 h2].
      simpl in W3.
      assert (G3 : writes ([EvLog LevelDebug "Websocket subscription ready" [];
                            EvOnReady ctx'] ++ events r3) = []).
      { rewrite writes_app, W3. reflexivity. }
      specialize (G _ G3). cbv zeta in G.
      assert (E : forall res, trace (mkOutcome res
                        (((events r1 ++ [EvLog LevelDebug "Websocket initialized" []])
                          ++ events r2
                          ++ [EvLog LevelDebug "Websocket subscription ready" [];
                              EvOnReady ctx']) ++ events r3) h2)
                  = (events r1 ++ [EvLog LevelDebug "Websocket initialized" []])
                    ++ events r2
                    ++ [EvLog LevelDebug "Websocket subscription ready" [];
                        EvOnReady ctx'] ++ events r3).
      { intros res. simpl. rewrite <- !app_assoc. reflexivity. }
      right. destruct (result r3) as [[e3|]|m3]; rewrite E; exact G.
  - right. specialize (G [] eq_refl).
    cbv zeta in G. rewrite app_nil_r in G. exact G.
Qed.

End WriteFacts.

(** ** The data callback and the state of the caller *)

Lemma delivered_read (r : ReadOutcome) : delivered (fst (fst (read r))) = [].
Proof. destruct r; reflexivity. Qed.

Lemma Forall_removelast_cons {A : Type} (P : A -> Prop) (a : A) (l : list A) :
  l = [] \/ (P a /\ Forall P (removelast l)) ->
  Forall P (removelast (a :: l)).
Proof.
  intros [-> | [Ha Hl]]; [constructor|].
  destruct l; [constructor|]. cbn [removelast] in *. constructor; auto.
Qed.

Lemma last_cons_default {A : Type} (a d : A) (l : list A) :
  last (a :: l) d = last l a.
Proof.
  revert a d. induction l as [|b l IH]; intros a d; [reflexivity|].
  change (last (a :: b :: l) d) with (last (b :: l) d).
  now rewrite (IH b d), (IH b a).
Qed.

Section ReplayFacts.

Variable H : Type.

Variable id : string.

Variable onData : DataHandler H.

Lemma process_loop_replay (rs : list ReadOutcome) (h : H) :
  let r := fst (process_loop H id onData rs h) in
  let a := answers onData (delivered (events r)) h in
  snd (process_loop H id onData rs h) = replay onData (delivered (events r)) h
  /\ Forall (fun x => x = (true, None)) (removelast a)
  /\ verdict (last a (true, None))
             (Errorf "failed to process data packet: %w") (result r).
Proof.
  cbv zeta. revert h. induction rs as [|r rest IH]; intros h.
  { simpl. repeat split; [constructor | discriminate]. }
  cbn [process_loop].
  pose proof (delivered_read r) as Hr. destruct (read r) as [[evs pkt] err].
  simpl in Hr.
  assert (Skip : forall extra,
             delivered extra = [] ->
             let x := let '(run, h') := process_loop H id onData rest h in
                      (emit (evs ++ extra) run, h') in
             snd x = replay onData (delivered (events (fst x))) h
             /\ Forall (fun x => x = (true, None))
                       (removelast (answers onData (delivered (events (fst x))) h))
             /\ verdict (last (answers onData (delivered (events (fst x))) h)
                              (true, None))
                        (Errorf "failed to process data packet: %w")
                        (result (fst x))).
  { intros extra He. cbv zeta. specialize (IH h).
    destruct (process_loop H id onData rest h) as [run h'].
    simpl in *. rewrite !delivered_app, Hr, He. exact IH. }
  destruct err as [e|].
  { simpl. rewrite Hr. simpl. repeat split; [constructor | discriminate]. }
  destruct pkt as [pkt|].
  2:{ simpl. rewrite Hr. simpl. repeat split; [constructor | discriminate]. }
  destruct (String.eqb (Type_ pkt) "ka").
  { specialize (Skip [] eq_refl). rewrite app_nil_r in Skip. exact Skip. }
  destruct (String.eqb (Type_ pkt) "error").
  { destruct (Payload_ pkt); simpl;
      rewrite ?delivered_app, ?delivered_websocket_errors, Hr; simpl;
      repeat split; try constructor; discriminate. }
  destruct (String.eqb (Type_ pkt) "data"); [|apply Skip; reflexivity].
  destruct (negb (String.eqb (ID pkt) id)); [apply Skip; reflexivity|].
  destruct (Payload_ pkt) as [p|].
  2:{ simpl. rewrite Hr. simpl. repeat split; [constructor | discriminate]. }
  destruct (onData Background p h) as [[cont [e|]] h1] eqn:EO.
  { simpl. rewrite delivered_app, Hr. simpl. rewrite EO. simpl.
    split; [reflexivity|]. split; [constructor|]. destruct cont; reflexivity. }
  destruct cont; simpl.
  - specialize (IH h1).
    destruct (process_loop H id onData rest h1) as [run h'].
    cbn -[last removelast] in *.
    rewrite !delivered_app, Hr. cbn -[last removelast]. rewrite EO.
    cbn -[last removelast].
    destruct IH as (IH1 & IH2 & IH3). split; [exact IH1|]. split.
    + apply Forall_removelast_cons. right. split; [reflexivity | exact IH2].
    + rewrite last_cons_default. exact IH3.
  - rewrite !delivered_app, Hr. simpl. rewrite EO. simpl.
    split; [reflexivity|]. split; [constructor | reflexivity].
Qed.

End ReplayFacts.

Lemma existsb_none (p : Event -> bool) (t : list Event) :
  none p t -> existsb p t = false.
Proof.
  unfold none. induction t as [|e t IH]; simpl; [reflexivity|].
  destruct (p e); [discriminate | exact IH].
Qed.

Section StateFacts.

Variable Request : Type.

Variable Marshal_Request : Request -> string + error.

Variable H : Type.

Local Abbreviation session := (Subscribe_session Request Marshal_Request H).

Local Abbreviation subscribe := (Subscribe Request Marshal_Request H).

Local Abbreviation start' := (start Request Marshal_Request).

(** The state and the end of a session, from the answers of the callbacks. *)
Lemma session_replay (w : World) (ctx' : Context) (auth : json.map_string)
  (sub : Request) (onReady : ReadyHandler H) (onData : DataHandler H) (h : H) :
  let s := session w ctx' auth sub onReady onData h in
  let h0 := snd (onReady ctx' h) in
  let a := answers onData (delivered (trace s)) h0 in
  final s = replay onData (delivered (trace s))
                   (if existsb is_onReady (trace s) then h0 else h)
  /\ Forall (fun x => x = (true, None)) (removelast a)
  /\ verdict (last a (true, None))
             (fun e => Errorf "failed to process subscription: %w"
                         (Errorf "failed to process data packet: %w" e))
             (outcome s)
  /\ (outcome s = Returned None ->
      existsb is_onReady (trace s) = true /\ fst (onReady ctx' h) = None).
Proof.
  unfold Subscribe_session.
  destruct (initConnection_inv (init_write w) (reads w)) as (I1 & D1).
  set (r1 := initConnection (init_write w) (reads w)) in *.
  assert (Q : forall res t,
             none is_onReady t -> none is_onData t -> res <> Returned None ->
             let s := mkOutcome res t h in
             final s = replay onData (delivered (trace s))
                   (if existsb is_onReady (trace s)
                    then snd (onReady ctx' h) else h)
             /\ Forall (fun x => x = (true, None))
                  (removelast (answers onData (delivered (trace s))
                                 (snd (onReady ctx' h))))
             /\ verdict (last (answers onData (delivered (trace s))
                                 (snd (onReady ctx' h))) (true, None))
                  (fun e => Errorf "failed to process subscription: %w"
                              (Errorf "failed to process data packet: %w" e))
                  (outcome s)
             /\ (outcome s = Returned None ->
                 existsb is_onReady (trace s) = true
                 /\ fst (onReady ctx' h) = None)).
  { intros res t N1 N2 Hres. simpl.
    rewrite (existsb_none _ _ N1), (delivered_none _ N2). simpl.
    split; [reflexivity|]. split; [constructor|]. split; [exact Hres|].
    intros E. contradiction. }
  destruct I1 as (N1 & _).
  destruct (result r1) as [[e1|]|m1] eqn:R1;
    [apply Q; auto; discriminate | | apply Q; auto; discriminate].
  destruct (start_inv Request Marshal_Request (reqID w) auth sub (start_write w)
              (unread r1)) as (I2 & D2 & _).
  set (r2 := start' (reqID w) auth sub (start_write w) (unread r1)) in *.
  destruct I2 as (N2 & _).
  assert (NA : forall p, p (EvLog LevelDebug "Websocket initialized" []) = false ->
               none p (events r1) -> none p (events r2) ->
               none p ((events r1 ++ [EvLog LevelDebug "Websocket initialized" []])
                       ++ events r2)).
  { intros p P1 Q1 Q2. apply none_app; [apply none_app; auto|auto].
    unfold none; simpl; now rewrite P1. }
  destruct (result r2) as [[e2|]|m2] eqn:R2;
    [apply Q; try apply NA; auto; discriminate |
     | apply Q; try apply NA; auto; discriminate].
  assert (DA : delivered ((events r1 ++ [EvLog LevelDebug "Websocket initialized" []])
                          ++ events r2
                          ++ [EvLog LevelDebug "Websocket subscription ready" [];
                              EvOnReady ctx']) = []).
  { rewrite !delivered_app, (delivered_none _ D1), (delivered_none _ D2).
    reflexivity. }
  assert (EA : forall B, existsb is_onReady
                 (((events r1 ++ [EvLog LevelDebug "Websocket initialized" []])
                   ++ events r2
                   ++ [EvLog LevelDebug "Websocket subscription ready" [];
                       EvOnReady ctx']) ++ B) = true).
  { intros B. rewrite !existsb_app. simpl. now rewrite !orb_true_r. }
  destruct (onReady ctx' h) as [[e|] h1] eqn:ER; cbn [snd].
  { simpl. specialize (EA []). rewrite app_nil_r in EA. rewrite EA, DA. simpl.
    split; [reflexivity|]. split; [constructor|].
    split; discriminate. }
  unfold process.
  pose proof (process_loop_replay H (reqID w) onData (unread r2) h1) as P.
  cbv zeta in P.
  destruct (process_loop H (reqID w) onData (unread r2) h1) as [r3 h2].
  simpl in P. destruct P as (P1 & P2 & P3).
  assert (G : forall res,
             verdict (last (answers onData (delivered (events r3)) h1) (true, None))
               (fun e => Errorf "failed to process subscription: %w"
                           (Errorf "failed to process data packet: %w" e)) res ->
             let s := mkOutcome res
                        (((events r1 ++ [EvLog LevelDebug "Websocket initialized" []])
                          ++ events r2
                          ++ [EvLog LevelDebug "Websocket subscription ready" [];
                              EvOnReady ctx']) ++ events r3) h2 in
             final s = replay onData (delivered (trace s))
                         (if existsb is_onReady (trace s) then h1 else h)
             /\ Forall (fun x => x = (true, None))
                  (removelast (answers onData (delivered (trace s)) h1))
             /\ verdict (last (answers onData (delivered (trace s)) h1) (true, None))
                  (fun e => Errorf "failed to process subscription: %w"
                              (Errorf "failed to process data packet: %w" e))
                  (outcome s)
             /\ (outcome s = Returned None ->
                 existsb is_onReady (trace s) = true
                 /\ @None error = None)).
  { intros res V. simpl. rewrite EA, delivered_app, DA. simpl. auto. }
  destruct (last (answers onData (delivered (events r3)) h1) (true, None))
    as [[|] [e|]] eqn:EL; simpl in P3.
  - rewrite P3. apply G. reflexivity.
  - destruct (result r3) as [[e3|]|m3]; try contradiction;
      apply G; simpl; discriminate.
  - rewrite P3. apply G. reflexivity.
  - rewrite P3. apply G. reflexivity.
Qed.

End StateFacts.

(** ** Further properties of the subscription *)

Lemma writes_before_dial (t : list Event) :
  forallb before_dial t = true -> writes t = [].
Proof.
  induction t as [|e t IH]; simpl; [reflexivity|].
  intros Hb. apply andb_true_iff in Hb as [He Hb].
  destruct e; simpl in *; try discriminate; auto.
Qed.

Lemma writes_opening (u : url.URL) (tok : string) : writes (opening u tok) = [].
Proof. reflexivity. Qed.

Lemma writes_closing (w : World) (t : list Event) : writes (closing w t) = [].
Proof. unfold closing. destruct (_ && _); reflexivity. Qed.

Lemma delivered_closing (w : World) (t : list Event) :
  delivered (closing w t) = [].
Proof. unfold closing. destruct (_ && _); reflexivity. Qed.

Lemma Unmarshal_Marshal_string (s : string) :
  utf8.ValidString s = true ->
  Unmarshal_string (json.Marshal_string s) = Some s.
Proof.
  intros Hv. unfold Unmarshal_string, json.Marshal_string, json.appendString.
  rewrite Ascii.eqb_refl, (unquote_appendString s EmptyString Hv).
  reflexivity.
Qed.

Section Further.

Variable Request : Type.

Variable Marshal_Request : Request -> string + error.

Variable H : Type.

Local Abbreviation session := (Subscribe_session Request Marshal_Request H).

Local Abbreviation subscribe := (Subscribe Request Marshal_Request H).

Local Abbreviation start' := (start Request Marshal_Request).

(** A run of [Subscribe] either ends before the connection exists, with the
    state of the caller untouched, or is a session between the opening and
    the closing events. *)
Lemma Subscribe_cases (w : World) (ctx : Context) (endpoint tok : string)
  (sub : Request) (onReady : ReadyHandler H) (onData : DataHandler H) (h : H) :
  let o := subscribe w ctx endpoint tok sub onReady onData h in
  (forallb before_dial (trace o) = true /\ outcome o <> Returned None
   /\ final o = h)
  \/ exists u,
      url_parse.Parse endpoint = Some u
      /\ let s := session w (WithCancel ctx (scope_id w))
                          (authExt (url.Hostname u) tok) sub onReady onData h in
         o = mkOutcome (outcome s)
                       (opening u tok ++ trace s ++ closing w (trace s))
                       (final s).
Proof.
  cbv zeta.
  destruct (url_parse.Parse endpoint) as [u|] eqn:Hp;
    [destruct (dial_error w) as [de|] eqn:Hd|].
  - left. unfold Subscribe. rewrite Hp, Hd. simpl.
    repeat split; discriminate.
  - right. exists u. split; [reflexivity|].
    apply (Subscribe_dialled Request Marshal_Request H); assumption.
  - left. unfold Subscribe. rewrite Hp. simpl. repeat split; discriminate.
Qed.

(** X1: in [start], every frame that is neither an error frame nor the
    start_ack of the subscription is stepped over: the loop goes on with the
    reads that follow, and ends as it would have without the frame.  Such
    frames are keep-alives, start_acks with another id and frames of every
    other kind, a data frame of the subscription among them: data that
    arrives before the start_ack is logged as unexpected and lost. *)
Theorem start_steps_over_other_frames
  (id : string) (ms : list wsMessage) (rest : list ReadOutcome)
  (Hs : forallb (start_skips id) ms = true) :
  start_loop id (map (fun m => ReadFrame (Some m)) ms ++ rest)
  = emit (flat_map (start_skip_events id) ms) (start_loop id rest)
  /\ none is_write (flat_map (start_skip_events id) ms)
  /\ (forall p, start_skips id (mkMsg "data" p id) = true
                /\ start_skip_events id (mkMsg "data" p id)
                   = [EvRead (frame "data" p id);
                      unexpected_packet (mkMsg "data" p id)])
  /\ (forall p i, String.eqb i id = false ->
                  start_skips id (mkMsg "start_ack" p i) = true).
Proof.
  split; [now apply start_loop_skips|].
  split; [apply (skip_events_quiet id ms)|].
  split; [intros p; split; reflexivity|].
  intros p i Hi. unfold start_skips. simpl. now rewrite Hi.
Qed.

(** X2: in [process], every frame that is neither an error frame nor a data
    frame of the subscription is stepped over: the data callback is not
    called, the state of the caller is unchanged, and the loop goes on with
    the reads that follow.  A late start_ack or connection_ack is such a
    frame. *)
Theorem process_steps_over_other_frames
  (id : string) (onData : DataHandler H) (ms : list wsMessage)
  (rest : list ReadOutcome) (h : H)
  (Hs : forallb (process_skips id) ms = true) :
  process_loop H id onData (map (fun m => ReadFrame (Some m)) ms ++ rest) h
  = (emit (flat_map (process_skip_events id) ms)
          (fst (process_loop H id onData rest h)),
     snd (process_loop H id onData rest h))
  /\ none is_onData (flat_map (process_skip_events id) ms)
  /\ (forall p i, process_skips id (mkMsg "start_ack" p i) = true
                  /\ process_skips id (mkMsg "connection_ack" p i) = true).
Proof.
  split; [now apply process_loop_skips|].
  split; [apply (skip_events_quiet id ms)|].
  intros p i. split; reflexivity.
Qed.

(** X3: [Subscribe] writes at most two frames, in this order: the
    connection_init, and the start message of the subscription, which is
    written only after a connection_ack has been read.  No frame is written
    before the dial and none when the dial fails, and a subscription that
    cannot be marshalled is never written, although the handshake has taken
    place by then. *)
Theorem Subscribe_writes_in_order
  (w : World) (ctx : Context) (endpoint accessToken : string)
  (subscription : Request) (onReady : ReadyHandler H) (onData : DataHandler H)
  (h : H) :
  let o := subscribe w ctx endpoint accessToken subscription onReady onData h in
  (writes (trace o) = []
   \/ writes (trace o) = [connection_init]
   \/ exists host enc pre ack post,
        Marshal_Request subscription = inl enc
        /\ trace o = pre ++ EvRead (ReadFrame (Some ack)) :: post
        /\ Type_ ack = "connection_ack"
        /\ writes pre = [connection_init]
        /\ writes post
           = [start_message (reqID w) (authExt host accessToken) enc])
  /\ (forall pre m post,
        trace o = pre ++ EvWrite m :: post -> existsb is_dial pre = true)
  /\ (dial_error w <> None -> writes (trace o) = [])
  /\ (forall e, Marshal_Request subscription = inr e ->
                List.length (writes (trace o)) <= 1)%nat.
Proof.
  cbv zeta.
  destruct (Subscribe_cases w ctx endpoint accessToken subscription onReady
              onData h) as [(Hb & _ & _) | (u & Hp & E)]; cbv zeta in *.
  { pose proof (writes_before_dial _ Hb) as W. rewrite W.
    repeat split; auto.
    intros pre m post E. rewrite E, writes_app in W. simpl in W.
    apply app_eq_nil in W as [_ W]. discriminate W. }
  assert (Hd : dial_error w = None).
  { destruct (dial_error w) eqn:Hd; [|reflexivity].
    unfold Subscribe in E. rewrite Hp, Hd in E. simpl in E.
    apply (f_equal (fun o => List.length (trace o))) in E. simpl in E.
    rewrite length_app in E. simpl in E. lia. }
  rewrite E. cbn [trace].
  assert (Hdial : forall pre m post,
             opening u accessToken
             ++ trace (session w (WithCancel ctx (scope_id w))
                               (authExt (url.Hostname u) accessToken)
                               subscription onReady onData h)
             ++ closing w (trace (session w (WithCancel ctx (scope_id w))
                                          (authExt (url.Hostname u) accessToken)
                                          subscription onReady onData h))
             = pre ++ EvWrite m :: post -> existsb is_dial pre = true).
  { intros pre m post E'. unfold opening in E'.
    destruct pre as [|a [|b pre]]; simpl in E'; try discriminate.
    injection E' as <- <- _. reflexivity. }
  rewrite !writes_app, writes_opening, writes_closing, app_nil_r. simpl app.
  destruct (session_writes Request Marshal_Request H w
              (WithCancel ctx (scope_id w))
              (authExt (url.Hostname u) accessToken)
              subscription onReady onData h)
    as [W | [W | (enc & mid & ack & post & HM & HT & Hty & Wm & Wp)]];
    cbv zeta in *.
  - rewrite W. repeat split; auto; try congruence.
  - rewrite W. repeat split; auto; try congruence.
  - split; [|split; [exact Hdial|]].
    + rewrite HT. simpl. rewrite writes_app, Wm. simpl. rewrite Wp.
      right. right.
      exists (url.Hostname u), enc,
        (opening u accessToken ++ EvWrite connection_init :: mid),
        ack, (post ++ closing w (EvWrite connection_init :: mid
                                 ++ EvRead (ReadFrame (Some ack)) :: post)).
      repeat split; auto.
      * unfold opening. simpl. rewrite <- ?app_assoc. simpl. reflexivity.
      * rewrite writes_app, writes_opening. simpl. now rewrite Wm.
      * now rewrite writes_app, writes_closing, app_nil_r.
    + rewrite HT. simpl. rewrite writes_app, Wm. simpl. rewrite Wp.
      split; congruence.
Qed.

(** X4: the only frame that [start] writes is the start message with the id
    of the subscription; its payload carries the credentials map and, as
    data, a JSON string whose content is the marshalled subscription: when
    that text is valid UTF-8, parsing the data as a JSON string gives the
    text back.  After a successful write, that frame is the first event. *)
Theorem start_payload_is_the_quoted_subscription
  (id : string) (auth : json.map_string) (sub : Request) (wo : WriteOutcome)
  (rs : list ReadOutcome) (enc : string)
  (HM : Marshal_Request sub = inl enc)
  (HV : utf8.ValidString enc = true) :
  let r := start' id auth sub wo rs in
  Forall (fun m =>
            Type_ m = "start" /\ ID m = id
            /\ exists p, Payload_ m = Some p
                         /\ Unmarshal_string (Data p) = Some enc
                         /\ Extensions p = Some (mkExtensions auth)
                         /\ Errors p = [])
         (writes (events r))
  /\ (wo = WriteOk ->
      exists tail, events r = EvWrite (start_message id auth enc) :: tail).
Proof.
  cbv zeta. split.
  - destruct (start_writes Request Marshal_Request id auth sub wo rs)
      as [W | (enc' & HM' & W)]; rewrite W; [constructor|].
    rewrite HM in HM'. injection HM' as <-.
    constructor; [|constructor].
    split; [reflexivity|]. split; [reflexivity|].
    eexists. split; [reflexivity|]. simpl.
    split; [now apply Unmarshal_Marshal_string | auto].
  - intros ->. unfold start. rewrite HM. simpl. eexists. reflexivity.
Qed.

(** X5: the credentials go to the server twice, in the sub-protocol offered
    at the dial and in the extensions of the start message, and both are
    built from one map: the hostname of the endpoint as it was parsed,
    before the address is rewritten, and the access token.  When both are
    valid UTF-8, decoding the sub-protocol gives the map of the start
    message, with its keys in order. *)
Theorem dial_and_start_carry_the_same_credentials
  (w : World) (ctx : Context) (endpoint accessToken : string)
  (subscription : Request) (onReady : ReadyHandler H) (onData : DataHandler H)
  (h : H) (u : url.URL)
  (Hparse : url_parse.Parse endpoint = Some u)
  (Hhost : utf8.ValidString (url.Hostname u) = true)
  (Htoken : utf8.ValidString accessToken = true) :
  let o := subscribe w ctx endpoint accessToken subscription onReady onData h in
  let auth := [("host", url.Hostname u); ("Authorization", accessToken)] in
  exists sp tail,
    trace o = EvLog LevelDebug "Connecting to websocket"
                [("endpoint", VString (fst (GenerateWSAddr u)))]
              :: EvDial (fst (GenerateWSAddr u)) ["graphql-ws"; sp] :: tail
    /\ decode_subprotocol sp = Some (json.sort_keys auth)
    /\ Forall (fun m =>
                 Type_ m = "start" ->
                 exists p, Payload_ m = Some p
                           /\ Extensions p = Some (mkExtensions auth))
              (writes (trace o)).
Proof.
  cbv zeta.
  assert (Hdec : decode_subprotocol (subprotocol (url.Hostname u) accessToken)
                 = Some (json.sort_keys
                           [("host", url.Hostname u);
                            ("Authorization", accessToken)])).
  { destruct (subprotocol_format (url.Hostname u) accessToken) as (Hf & _).
    rewrite Hf. unfold decode_subprotocol.
    change (strings.HasPrefix
              ("header-" ++ base64.RawURLEncoding_EncodeToString
                 (json.Marshal_map (authExt (url.Hostname u) accessToken)))
              "header-") with
      (String.prefix EmptyString
         (base64.RawURLEncoding_EncodeToString
            (json.Marshal_map (authExt (url.Hostname u) accessToken)))).
    assert (Hpre : forall x, String.prefix EmptyString x = true)
      by (intros []; reflexivity).
    rewrite Hpre. cbn [append drop].
    unfold base64.RawURLEncoding_EncodeToString. rewrite Decode_Encode.
    rewrite Unmarshal_Marshal; [reflexivity|].
    repeat constructor; assumption. }
  exists (subprotocol (url.Hostname u) accessToken).
  destruct (dial_error w) as [de|] eqn:Hd.
  { unfold Subscribe. rewrite Hparse, Hd. simpl.
    eexists. split; [reflexivity|]. split; [exact Hdec | constructor]. }
  rewrite (Subscribe_dialled Request Marshal_Request H w ctx endpoint
             accessToken subscription onReady onData h u Hparse Hd).
  cbv zeta. cbn [trace]. eexists. split; [reflexivity|].
  split; [exact Hdec|].
  rewrite !writes_app, writes_opening, writes_closing, app_nil_r. simpl app.
  destruct (session_writes Request Marshal_Request H w
              (WithCancel ctx (scope_id w))
              (authExt (url.Hostname u) accessToken)
              subscription onReady onData h)
    as [W | [W | (enc & mid & ack & post & HM & HT & Hty & Wm & Wp)]];
    cbv zeta in *.
  - rewrite W. constructor.
  - rewrite W. constructor; [discriminate | constructor].
  - rewrite HT. simpl. rewrite writes_app, Wm. simpl. rewrite Wp.
    constructor; [discriminate|]. constructor; [|constructor].
    intros _. eexists. split; reflexivity.
Qed.

(** The state of the caller and the end of [Subscribe], from the answers of
    the callbacks. *)
Lemma Subscribe_replay
  (w : World) (ctx : Context) (endpoint accessToken : string)
  (subscription : Request) (onReady : ReadyHandler H) (onData : DataHandler H)
  (h : H) :
  let o := subscribe w ctx endpoint accessToken subscription onReady onData h in
  let ctx' := WithCancel ctx (scope_id w) in
  let a := answers onData (delivered (trace o)) (snd (onReady ctx' h)) in
  final o = replay onData (delivered (trace o))
                   (if existsb is_onReady (trace o)
                    then snd (onReady ctx' h) else h)
  /\ Forall (fun x => x = (true, None)) (removelast a)
  /\ verdict (last a (true, None))
             (fun e => Errorf "failed to process subscription: %w"
                         (Errorf "failed to process data packet: %w" e))
             (outcome o)
  /\ (outcome o = Returned None ->
      existsb is_onReady (trace o) = true /\ fst (onReady ctx' h) = None)
  /\ (dial_error w <> None -> forallb before_dial (trace o) = true).
Proof.
  cbv zeta.
  destruct (Subscribe_cases w ctx endpoint accessToken subscription onReady
              onData h) as [(Hb & Hne & Hf) | (u & Hp & E)]; cbv zeta in *.
  { destruct (before_dial_facts _ Hb) as (_ & N & _ & D & _).
    rewrite Hf, D, (existsb_none _ _ N). simpl.
    split; [reflexivity|]. split; [constructor|]. split; [exact Hne|].
    split; [intros E; contradiction | auto]. }
  assert (Hd : dial_error w = None).
  { destruct (dial_error w) eqn:Hd; [|reflexivity].
    unfold Subscribe in E. rewrite Hp, Hd in E. simpl in E.
    apply (f_equal (fun o => List.length (trace o))) in E. simpl in E.
    rewrite length_app in E. simpl in E. lia. }
  rewrite E. cbn [trace final outcome].
  destruct (session_replay Request Marshal_Request H w
              (WithCancel ctx (scope_id w))
              (authExt (url.Hostname u) accessToken)
              subscription onReady onData h) as (R & F & V & O).
  cbv zeta in R, F, V, O. rewrite R.
  assert (E1 : existsb is_onReady (opening u accessToken) = false)
    by reflexivity.
  assert (E2 : forall t, existsb is_onReady (closing w t) = false).
  { intros t. unfold closing. destruct (_ && _); reflexivity. }
  assert (D1 : delivered (opening u accessToken) = []) by reflexivity.
  rewrite !existsb_app, E1, E2, orb_false_r.
  rewrite !delivered_app, delivered_closing, D1, app_nil_r.
  split; [reflexivity|]. split; [exact F|]. split; [exact V|].
  split; [exact O|]. intros Hn; congruence.
Qed.

(** X6: the state of the caller changes through the callbacks only: at the
    end of [Subscribe] it is the state the caller started with, handed to
    the ready callback if that was called, and then to the data callback for
    each payload delivered, in the order of the trace. *)
Theorem caller_state_follows_the_callbacks
  (w : World) (ctx : Context) (endpoint accessToken : string)
  (subscription : Request) (onReady : ReadyHandler H) (onData : DataHandler H)
  (h : H) :
  let o := subscribe w ctx endpoint accessToken subscription onReady onData h in
  let ctx' := WithCancel ctx (scope_id w) in
  final o = replay onData (delivered (trace o))
                   (if existsb is_onReady (trace o)
                    then snd (onReady ctx' h) else h).
Proof.
  exact (proj1 (Subscribe_replay w ctx endpoint accessToken subscription
                  onReady onData h)).
Qed.

(** X7: the answers of the data callback decide how [Subscribe] ends.  Every
    answer but the last asks to go on, without error: the callback is not
    called again once it has asked to stop or has failed.  [Subscribe]
    returns without error exactly when the last answer asks to stop; when
    the last answer is an error, [Subscribe] returns it, wrapped twice; and
    when the callback was not called, or last asked to go on, [Subscribe]
    does not return without error. *)
Theorem data_callback_answers_decide_the_outcome
  (w : World) (ctx : Context) (endpoint accessToken : string)
  (subscription : Request) (onReady : ReadyHandler H) (onData : DataHandler H)
  (h : H) :
  let o := subscribe w ctx endpoint accessToken subscription onReady onData h in
  let ctx' := WithCancel ctx (scope_id w) in
  let a := answers onData (delivered (trace o)) (snd (onReady ctx' h)) in
  Forall (fun x => x = (true, None)) (removelast a)
  /\ match last a (true, None) with
     | (_, Some e) =>
         outcome o
         = Returned (Some (Errorf "failed to process subscription: %w"
                             (Errorf "failed to process data packet: %w" e)))
     | (false, None) => outcome o = Returned None
     | (true, None) => outcome o <> Returned None
     end.
Proof.
  destruct (Subscribe_replay w ctx endpoint accessToken subscription
              onReady onData h) as (_ & F & V & _).
  split; [exact F | exact V].
Qed.

End Further.

(** ** The further properties at the concrete caller *)

(** X1 at the concrete caller: a keep-alive, a start_ack for another
    subscription, a data frame of the subscription and a connection_ack are
    stepped over before the start_ack arrives. *)
Lemma start_steps_over_other_frames_witness :
  let ms := [ka_frame; mkMsg "start_ack" None "another-id"; stray_data;
             mkMsg "connection_ack" None ""] in
  forallb (start_skips demo_id) ms = true
  /\ start_loop demo_id (map (fun m => ReadFrame (Some m)) ms
                         ++ [frame "start_ack" None demo_id])
     = emit (flat_map (start_skip_events demo_id) ms)
            (start_loop demo_id [frame "start_ack" None demo_id]).
Proof.
  cbv zeta. split; [reflexivity|].
  exact (proj1 (start_steps_over_other_frames demo_id
                  [ka_frame; mkMsg "start_ack" None "another-id"; stray_data;
                   mkMsg "connection_ack" None ""]
                  [frame "start_ack" None demo_id] eq_refl)).
Defined.

(** X2 at the concrete caller: late acknowledgements and a data frame of
    another subscription are stepped over before the payload arrives. *)
Lemma process_steps_over_other_frames_witness :
  let ms := [ka_frame; mkMsg "start_ack" None demo_id;
             mkMsg "connection_ack" None "";
             mkMsg "data" (Some demo_payload) "another-id"] in
  forallb (process_skips demo_id) ms = true
  /\ process_loop (list Payload) demo_id collect
       (map (fun m => ReadFrame (Some m)) ms
        ++ [frame "data" (Some demo_payload) demo_id]) []
     = (emit (flat_map (process_skip_events demo_id) ms)
             (fst (process_loop (list Payload) demo_id collect
                     [frame "data" (Some demo_payload) demo_id] [])),
        [demo_payload]).
Proof.
  cbv zeta. split; [reflexivity|].
  exact (proj1 (process_steps_over_other_frames (list Payload) demo_id collect
                  [ka_frame; mkMsg "start_ack" None demo_id;
                   mkMsg "connection_ack" None "";
                   mkMsg "data" (Some demo_payload) "another-id"]
                  [frame "data" (Some demo_payload) demo_id] [] eq_refl)).
Defined.

(** X4 at the concrete caller. *)
Lemma start_payload_witness :
  let enc := json.Marshal_map [("query", "subscription { onPublishPolicy }")] in
  let r := start string demo_marshal demo_id (authExt "svc.example.com" "token")
                 "subscription { onPublishPolicy }" WriteOk
                 [frame "start_ack" None demo_id] in
  demo_marshal "subscription { onPublishPolicy }" = inl enc
  /\ utf8.ValidString enc = true
  /\ Forall (fun m =>
               Type_ m = "start" /\ ID m = demo_id
               /\ exists p, Payload_ m = Some p
                            /\ Unmarshal_string (Data p) = Some enc
                            /\ Extensions p
                               = Some (mkExtensions
                                         (authExt "svc.example.com" "token"))
                            /\ Errors p = [])
            (writes (events r)).
Proof.
  cbv zeta. split; [reflexivity|]. split; [reflexivity|].
  exact (proj1 (start_payload_is_the_quoted_subscription
                  string demo_marshal demo_id
                  (authExt "svc.example.com" "token")
                  "subscription { onPublishPolicy }" WriteOk
                  [frame "start_ack" None demo_id]
                  (json.Marshal_map
                     [("query", "subscription { onPublishPolicy }")])
                  eq_refl eq_refl)).
Defined.

(** X5 at an AppSync endpoint: the dial goes to the realtime host, the
    credentials name the API host. *)
Lemma dial_and_start_credentials_witness :
  let endpoint := "https://x.appsync-api.us-east-1.amazonaws.com/graphql" in
  let o := Subscribe string demo_marshal (list Payload)
             (demo_world [frame "connection_ack" None "";
                          frame "start_ack" None demo_id;
                          frame "data" (Some demo_payload) demo_id] false)
             Background endpoint "token" "subscription { onPublishPolicy }"
             trigger_ok collect [] in
  let auth := [("host", "x.appsync-api.us-east-1.amazonaws.com");
               ("Authorization", "token")] in
  url_parse.Parse endpoint = Some appsync_url
  /\ utf8.ValidString (url.Hostname appsync_url) = true
  /\ utf8.ValidString "token" = true
  /\ fst (GenerateWSAddr appsync_url)
     = "wss://x.appsync-realtime-api.us-east-1.amazonaws.com/graphql"
  /\ exists sp tail,
      trace o = EvLog LevelDebug "Connecting to websocket"
                  [("endpoint", VString (fst (GenerateWSAddr appsync_url)))]
                :: EvDial (fst (GenerateWSAddr appsync_url)) ["graphql-ws"; sp]
                :: tail
      /\ decode_subprotocol sp = Some (json.sort_keys auth)
      /\ Forall (fun m =>
                   Type_ m = "start" ->
                   exists p, Payload_ m = Some p
                             /\ Extensions p = Some (mkExtensions auth))
                (writes (trace o)).
Proof.
  cbv zeta. split; [reflexivity|]. split; [reflexivity|].
  split; [reflexivity|]. split; [reflexivity|].
  exact (dial_and_start_carry_the_same_credentials
           string demo_marshal (list Payload)
           (demo_world [frame "connection_ack" None "";
                        frame "start_ack" None demo_id;
                        frame "data" (Some demo_payload) demo_id] false)
           Background
           "https://x.appsync-api.us-east-1.amazonaws.com/graphql"
           "token" "subscription { onPublishPolicy }" trigger_ok collect []
           appsync_url eq_refl eq_refl eq_refl).
Defined.

(* ====================================================================== *)
(** * Part V: the accounts of a policy *)

Section GomapFacts.

Context {V : Type}.

Lemma get_set_eq (m : gomap.t V) (k : string) (v : V) :
  gomap.get (gomap.set m k v) k = Some v.
Proof.
  induction m as [|[k' v'] m IH]; simpl.
  - now rewrite String.eqb_refl.
  - destruct (String.eqb k k') eqn:E; simpl.
    + now rewrite String.eqb_refl.
    + now rewrite E.
Qed.

Lemma get_set_neq (m : gomap.t V) (k k' : string) (v : V) :
  String.eqb k' k = false ->
  gomap.get (gomap.set m k v) k' = gomap.get m k'.
Proof.
  intros Hk. induction m as [|[k0 v0] m IH]; simpl.
  - now rewrite Hk.
  - destruct (String.eqb k k0) eqn:E; simpl.
    + apply String.eqb_eq in E. subst k0. now rewrite Hk.
    + destruct (String.eqb k' k0); auto.
Qed.

Lemma set_same (m : gomap.t V) (k : string) (v : V) :
  gomap.get m k = Some v -> gomap.set m k v = m.
Proof.
  induction m as [|[k0 v0] m IH]; simpl; [discriminate|].
  destruct (String.eqb k k0) eqn:E.
  - apply String.eqb_eq in E. subst k0. now intros [= ->].
  - intros Hg. now rewrite IH.
Qed.

End GomapFacts.

Section AccountFacts.

Import team.

Lemma add_permission_pure (d : Z) (appr : bool) (roles : gomap.t Role.t)
  (log : list slog.Record_) (perm : rawItem) :
  fst (add_permission d appr (roles, log) perm)
  = gomap.set roles (Id perm) (bump d appr (role_of roles perm)).
Proof.
  unfold add_permission, role_of, bump. simpl.
  destruct (gomap.get roles (Id perm)); destruct appr; reflexivity.
Qed.

Lemma fold_permissions_pure (d : Z) (appr : bool) (perms : list rawItem)
  (roles : gomap.t Role.t) (log : list slog.Record_) :
  fst (fold_left (add_permission d appr) perms (roles, log))
  = apply_permissions d appr perms roles.
Proof.
  revert roles log. induction perms as [|perm perms IH]; intros roles log;
    [reflexivity|].
  cbn [fold_left].
  destruct (add_permission d appr (roles, log) perm) as [roles1 log1] eqn:E.
  apply (f_equal fst) in E. rewrite add_permission_pure in E.
  cbn [fst] in E. subst roles1. rewrite IH. reflexivity.
Qed.

Lemma bump_bump (d : Z) (appr : bool) (r : Role.t) :
  bump d appr (bump d appr r) = bump d appr r.
Proof.
  unfold bump. destruct appr; simpl; f_equal; lia.
Qed.

(** The roles after the permission loop. *)
Lemma apply_permissions_get (d : Z) (appr : bool) (perms : list rawItem)
  (roles : gomap.t Role.t) (p : string) :
  gomap.get (apply_permissions d appr perms roles) p
  = match first_with p perms with
    | Some first =>
        Some (bump d appr (match gomap.get roles p with
                           | Some r => r
                           | None => Role.mk p (Name first) 0 0
                           end))
    | None => gomap.get roles p
    end.
Proof.
  revert roles. induction perms as [|perm perms IH]; intros roles;
    [reflexivity|].
  unfold apply_permissions in *. cbn [fold_left]. rewrite IH.
  unfold first_with. cbn [find].
  destruct (String.eqb (Id perm) p) eqn:E.
  - apply String.eqb_eq in E. subst p. rewrite get_set_eq.
    unfold role_of.
    destruct (find (fun x => String.eqb (Id x) (Id perm)) perms);
      [now rewrite bump_bump | reflexivity].
  - rewrite get_set_neq by (now rewrite String.eqb_sym).
    reflexivity.
Qed.

Lemma apply_permissions_fixed (d : Z) (appr : bool) (perms : list rawItem)
  (roles : gomap.t Role.t) :
  (forall perm, In perm perms ->
                exists r, gomap.get roles (Id perm) = Some r
                          /\ bump d appr r = r) ->
  apply_permissions d appr perms roles = roles.
Proof.
  induction perms as [|perm perms IH]; intros Hf; [reflexivity|].
  unfold apply_permissions in *. cbn [fold_left].
  destruct (Hf perm (or_introl eq_refl)) as (r & Hg & Hb).
  unfold role_of. rewrite Hg, Hb, (set_same _ _ _ Hg).
  apply IH. intros q Hq. apply Hf. now right.
Qed.

Lemma first_with_In (k : string) (items : list rawItem) (x : rawItem) :
  In x items -> exists y, first_with (Id x) items = Some y.
Proof.
  unfold first_with. intros Hin.
  destruct (find (fun y => String.eqb (Id y) (Id x)) items) eqn:E;
    [eauto|].
  pose proof (find_none _ _ E x Hin) as F. simpl in F.
  now rewrite String.eqb_refl in F.
Qed.

Lemma apply_permissions_twice (d : Z) (appr : bool) (perms : list rawItem)
  (roles : gomap.t Role.t) :
  apply_permissions d appr perms (apply_permissions d appr perms roles)
  = apply_permissions d appr perms roles.
Proof.
  apply apply_permissions_fixed. intros perm Hin.
  rewrite apply_permissions_get.
  destruct (first_with_In (Id perm) perms perm Hin) as (y & ->).
  eexists. split; [reflexivity | apply bump_bump].
Qed.

End AccountFacts.

Section AccountLoopFacts.

Import team.

Lemma add_account_pure (d : Z) (appr : bool) (perms : list rawItem)
  (accounts : gomap.t Account.t) (log : list slog.Record_) (account : rawItem) :
  fst (add_account d appr perms (accounts, log) account)
  = gomap.set accounts (Id account)
      (Account.mk (Account.ID (account_of accounts account))
                  (Account.Name (account_of accounts account))
                  (apply_permissions d appr perms
                     (Account.Roles (account_of accounts account)))).
Proof.
  unfold add_account, account_of. cbv zeta.
  rewrite <- (fold_permissions_pure d appr perms _
                (debug "Account"
                   [("name", slog.StringValue (Name account));
                    ("id", slog.StringValue (Id account))] log)).
  destruct (fold_left _ _ _) as [roles log1]. reflexivity.
Qed.

Lemma fold_accounts_pure (d : Z) (appr : bool) (perms accs : list rawItem)
  (accounts : gomap.t Account.t) (log : list slog.Record_) :
  fst (fold_left (add_account d appr perms) accs (accounts, log))
  = apply_accounts d appr perms accs accounts.
Proof.
  revert accounts log. induction accs as [|account accs IH];
    intros accounts log; [reflexivity|].
  cbn [fold_left].
  destruct (add_account d appr perms (accounts, log) account)
    as [accounts1 log1] eqn:E.
  apply (f_equal fst) in E. rewrite add_account_pure in E.
  cbn [fst] in E. subst accounts1. rewrite IH. reflexivity.
Qed.

(** The accounts after the account loop of one policy. *)
Lemma apply_accounts_get (d : Z) (appr : bool) (perms accs : list rawItem)
  (accounts : gomap.t Account.t) (a : string) :
  gomap.get (apply_accounts d appr perms accs accounts) a
  = match first_with a accs with
    | Some first =>
        let acc := match gomap.get accounts a with
                   | Some acc => acc
                   | None => Account.mk a (Name first) []
                   end in
        Some (Account.mk (Account.ID acc) (Account.Name acc)
                (apply_permissions d appr perms (Account.Roles acc)))
    | None => gomap.get accounts a
    end.
Proof.
  revert accounts. induction accs as [|account accs IH]; intros accounts;
    [reflexivity|].
  unfold apply_accounts in *. cbn [fold_left]. cbv zeta in *. rewrite IH.
  unfold first_with. cbn [find].
  destruct (String.eqb (Id account) a) eqn:E.
  - apply String.eqb_eq in E. subst a. rewrite get_set_eq.
    unfold account_of.
    destruct (find (fun x => String.eqb (Id x) (Id account)) accs);
      [|reflexivity].
    cbn [Account.ID Account.Name Account.Roles].
    now rewrite apply_permissions_twice.
  - rewrite get_set_neq by (now rewrite String.eqb_sym).
    reflexivity.
Qed.

Lemma listed_first_with (k : string) (items : list rawItem) :
  listed k items = match first_with k items with Some _ => true | None => false end.
Proof.
  unfold listed, first_with. induction items as [|x items IH]; simpl; auto.
  destruct (String.eqb (Id x) k); auto.
Qed.

Lemma first_with_Id (k : string) (items : list rawItem) (x : rawItem) :
  first_with k items = Some x -> Id x = k.
Proof.
  unfold first_with. intros Hf. apply find_some in Hf as [_ Hk].
  now apply String.eqb_eq.
Qed.

Lemma cell_policy_step (accounts : gomap.t Account.t) (dp : Z * rawPolicy)
  (a p : string) :
  cell (policy_step accounts dp) a p = cell_step a p (cell accounts a p) dp.
Proof.
  unfold cell, policy_step, cell_step. rewrite apply_accounts_get.
  rewrite listed_first_with.
  destruct (first_with a (Accounts (snd dp))) as [first|]; [|reflexivity].
  cbv zeta. cbn [Account.Roles]. rewrite apply_permissions_get.
  destruct (gomap.get accounts a) as [acc|]; reflexivity.
Qed.

Lemma cell_fold (l : list (Z * rawPolicy)) (accounts : gomap.t Account.t)
  (a p : string) :
  cell (fold_left policy_step l accounts) a p
  = fold_left (cell_step a p) l (cell accounts a p).
Proof.
  revert accounts. induction l as [|dp l IH]; intros accounts; [reflexivity|].
  cbn [fold_left]. now rewrite IH, cell_policy_step.
Qed.

Lemma header_fold (l : list (Z * rawPolicy)) (accounts : gomap.t Account.t)
  (a : string) :
  header (fold_left policy_step l accounts) a
  = fold_left (account_step a) l (header accounts a).
Proof.
  revert accounts. induction l as [|dp l IH]; intros accounts; [reflexivity|].
  cbn [fold_left]. rewrite IH. f_equal.
  unfold header, policy_step, account_step. rewrite apply_accounts_get.
  destruct (first_with a (Accounts (snd dp))); [|reflexivity].
  destruct (gomap.get accounts a); reflexivity.
Qed.

(** The loop over the policies ends on the first duration that is not a
    number, or with the accounts of all policies. *)
Lemma policies_loop_parsed (pols : list rawPolicy) (st : State) :
  match parsed pols with
  | Some l => fst (policies_loop pols st) = inl (fold_left policy_step l (fst st))
  | None =>
      exists pre pol post ne,
        pols = pre ++ pol :: post
        /\ Forall (fun q => snd (strconv.Atoi (Duration q)) = None) pre
        /\ snd (strconv.Atoi (Duration pol)) = Some ne
        /\ fst (policies_loop pols st)
           = inr (Errorf "failed to parse policy duration %q: %w"
                         [Duration pol] (NumError ne))
  end.
Proof.
  revert st. induction pols as [|pol pols IH]; intros st; [reflexivity|].
  cbn [parsed policies_loop].
  destruct (strconv.Atoi (Duration pol)) as [d [ne|]] eqn:EA.
  - exists [], pol, pols, ne. rewrite EA. repeat split; constructor.
  - specialize (IH (fold_left (add_account d (ApprovalRequired pol)
                                 (Permissions pol)) (Accounts pol)
                              (fst st,
                               debug "Policy"
                                 [("dur", slog.StringValue (Duration pol));
                                  ("approval_required",
                                   slog.BoolValue (ApprovalRequired pol))]
                                 (snd st)))).
    destruct (parsed pols) as [l|].
    + rewrite IH, fold_accounts_pure. reflexivity.
    + destruct IH as (pre & bad & post & ne & -> & Hpre & Hbad & Hres).
      exists (pol :: pre), bad, post, ne. repeat split; auto.
      constructor; [now rewrite EA | exact Hpre].
Qed.

Lemma parsed_map (pols : list rawPolicy) (l : list (Z * rawPolicy)) :
  parsed pols = Some l ->
  l = map (fun pol => (fst (strconv.Atoi (Duration pol)), pol)) pols.
Proof.
  revert l. induction pols as [|pol pols IH]; intros l; simpl.
  - now intros [= <-].
  - destruct (strconv.Atoi (Duration pol)) as [d [ne|]]; [discriminate|].
    destruct (parsed pols) as [l'|]; [|discriminate].
    intros [= <-]. simpl. f_equal. now apply IH.
Qed.

Lemma max_fold_right (d v : Z) (ds : list Z) :
  Z.max d (fold_right Z.max v ds) = fold_right Z.max (Z.max d v) ds.
Proof. induction ds as [|x ds IH]; simpl; [reflexivity|]. lia. Qed.

(** The limits of a cell after a run of policies. *)
Lemma cell_fold_limits (a p : string) (pols : list rawPolicy)
  (v : option Role.t) (r : Role.t) :
  fold_left (cell_step a p)
            (map (fun pol => (fst (strconv.Atoi (Duration pol)), pol)) pols) v
  = Some r ->
  Role.MaxDurApproval r
  = fold_right Z.max (match v with Some r0 => Role.MaxDurApproval r0 | None => 0 end)
               (durations false a p pols)
  /\ Role.MaxDurNoApproval r
     = fold_right Z.max
                  (match v with Some r0 => Role.MaxDurNoApproval r0 | None => 0 end)
                  (durations true a p pols).
Proof.
  revert v. induction pols as [|pol pols IH]; intros v.
  - simpl. intros ->. auto.
  - cbn [map fold_left]. intros Hf. apply IH in Hf. clear IH.
    unfold durations in *. cbn [flat_map].
    unfold cell_step in Hf. cbn [fst snd] in Hf.
    rewrite (listed_first_with p) .
    destruct (listed a (Accounts pol)); cbn [andb];
      [|destruct Hf; split; assumption].
    destruct (first_with p (Permissions pol)) as [f|]; cbn [andb];
      [|destruct Hf; split; assumption].
    rewrite !fold_right_app. cbn [negb orb].
    destruct Hf as [H1 H2]. rewrite H1, H2. clear H1 H2.
    destruct v as [r0|]; destruct (ApprovalRequired pol);
      cbn [bump negb fold_right Role.MaxDurApproval Role.MaxDurNoApproval];
      rewrite ?max_fold_right; auto.
Qed.

End AccountLoopFacts.

Section AccountTheorems.

Import team.

Lemma find_app {A : Type} (f : A -> bool) (l1 l2 : list A) :
  find f (l1 ++ l2)
  = match find f l1 with Some x => Some x | None => find f l2 end.
Proof.
  induction l1 as [|x l1 IH]; simpl; [reflexivity|].
  destruct (f x); auto.
Qed.

Lemma account_fold_header (a : string) (l : list (Z * rawPolicy))
  (v : option (string * string)) :
  fold_left (account_step a) l v
  = match v with
    | Some x => Some x
    | None =>
        option_map (fun first => (a, Name first))
          (first_with a (flat_map (fun dp => Accounts (snd dp)) l))
    end.
Proof.
  revert v. induction l as [|dp l IH]; intros v.
  - destruct v; reflexivity.
  - cbn [fold_left flat_map]. rewrite IH. unfold account_step.
    unfold first_with. rewrite find_app.
    fold (first_with a (Accounts (snd dp))).
    destruct (first_with a (Accounts (snd dp))); destruct v; reflexivity.
Qed.

Lemma cell_fold_identity (a p : string) (l : list (Z * rawPolicy))
  (v : option Role.t) :
  match fold_left (cell_step a p) l v with
  | Some r =>
      match v with
      | Some r0 => Role.ID r = Role.ID r0 /\ Role.Name r = Role.Name r0
      | None =>
          Role.ID r = p
          /\ option_map Name
               (first_with p
                  (flat_map (fun dp => if listed a (Accounts (snd dp))
                                       then Permissions (snd dp) else []) l))
             = Some (Role.Name r)
      end
  | None =>
      v = None
      /\ forallb (fun dp => negb (listed a (Accounts (snd dp))
                                  && listed p (Permissions (snd dp)))) l = true
  end.
Proof.
  revert v. induction l as [|dp l IH]; intros v.
  - simpl. destruct v; auto.
  - cbn [fold_left flat_map forallb]. specialize (IH (cell_step a p v dp)).
    remember (cell_step a p v dp) as c eqn:Ec.
    unfold cell_step in Ec.
    rewrite (listed_first_with p (Permissions (snd dp))).
    unfold first_with in *. rewrite find_app.
    destruct (fold_left (cell_step a p) l c) as [r|].
    + destruct (listed a (Accounts (snd dp))); [|subst c; exact IH].
      destruct (find (fun x => String.eqb (Id x) p) (Permissions (snd dp)))
        as [f|]; [|subst c; exact IH].
      subst c. destruct v as [r0|]; simpl in IH; [exact IH|].
      destruct IH as [I1 I2]. split; [exact I1|]. simpl. now rewrite I2.
    + destruct IH as [I1 I2]. subst c.
      destruct (listed a (Accounts (snd dp))); simpl; [|auto].
      destruct (find (fun x => String.eqb (Id x) p) (Permissions (snd dp)));
        [discriminate | auto].
Qed.

Lemma max_list_nonneg (ds : list Z) : 0 <= fold_right Z.max 0 ds.
Proof. induction ds; simpl; lia. Qed.

Lemma max_flat_map_le {A : Type} (f g : A -> bool) (val : A -> Z)
  (l : list A) :
  (forall x, f x = true -> g x = true) ->
  fold_right Z.max 0 (flat_map (fun x => if f x then [val x] else []) l)
  <= fold_right Z.max 0 (flat_map (fun x => if g x then [val x] else []) l).
Proof.
  intros Hfg. induction l as [|x l IH]; [simpl; lia|].
  cbn [flat_map]. rewrite !fold_right_app. specialize (Hfg x).
  destruct (f x), (g x); cbn [fold_right];
    try lia; discriminate (Hfg eq_refl).
Qed.

Lemma durations_unapproved_le (a p : string) (pols : list rawPolicy) :
  fold_right Z.max 0 (durations true a p pols)
  <= fold_right Z.max 0 (durations false a p pols).
Proof.
  unfold durations. apply max_flat_map_le. intros pol Hf.
  apply andb_true_iff in Hf as [-> _]. reflexivity.
Qed.

Lemma accounts_of_parsed (pols : list rawPolicy) (log log' : list slog.Record_)
  (accounts : gomap.t Account.t) :
  accounts_of pols log = (inl accounts, log') ->
  accounts
  = fold_left policy_step
      (map (fun pol => (fst (strconv.Atoi (Duration pol)), pol)) pols) [].
Proof.
  unfold accounts_of. intros E. apply (f_equal fst) in E. cbn [fst] in E.
  pose proof (policies_loop_parsed pols ([], log)) as P.
  destruct (parsed pols) as [l|] eqn:EP.
  - rewrite P in E. injection E as <-. now rewrite (parsed_map pols l EP).
  - destruct P as (pre & pol & post & ne & _ & _ & _ & P).
    rewrite P in E. discriminate.
Qed.

(** X8: the two limits of a role.  In the accounts that the loop returns, the
    limit with approval of a role is the largest duration among the policies
    that list both the account and the permission, and the limit without
    approval is the largest among those of them that need no approval;
    durations below zero count as zero.  So the limit without approval is
    never above the limit with approval, and neither is negative. *)
Theorem role_limits_are_the_largest_durations
  (pols : list rawPolicy) (log log' : list slog.Record_)
  (accounts : gomap.t Account.t) (a p : string) (acc : Account.t) (r : Role.t)
  (Hok : accounts_of pols log = (inl accounts, log'))
  (Hacc : gomap.get accounts a = Some acc)
  (Hrole : gomap.get (Account.Roles acc) p = Some r) :
  Role.MaxDurApproval r = fold_right Z.max 0 (durations false a p pols)
  /\ Role.MaxDurNoApproval r = fold_right Z.max 0 (durations true a p pols)
  /\ 0 <= Role.MaxDurNoApproval r <= Role.MaxDurApproval r.
Proof.
  pose proof (accounts_of_parsed pols log log' accounts Hok) as E.
  assert (Hc : cell accounts a p = Some r) by (unfold cell; now rewrite Hacc).
  rewrite E, cell_fold in Hc.
  destruct (cell_fold_limits a p pols _ r Hc) as [H1 H2].
  change (cell [] a p) with (@None Role.t) in H1, H2.
  rewrite H1, H2. split; [reflexivity|]. split; [reflexivity|].
  split; [apply max_list_nonneg | apply durations_unapproved_le].
Qed.

(** X9: which accounts and roles there are.  The loop returns an account for
    every account id that some policy lists, and for no other; the account
    has a role for every permission id that a policy listing the account
    lists, and no other.  Each is stored under its own id, and carries the
    name of the first item with that id, in the order of the policies:
    a later item with the same id and another name changes nothing. *)
Theorem accounts_are_the_listed_ones
  (pols : list rawPolicy) (log log' : list slog.Record_)
  (accounts : gomap.t Account.t) (a : string)
  (Hok : accounts_of pols log = (inl accounts, log')) :
  match gomap.get accounts a with
  | None => forallb (fun pol => negb (listed a (Accounts pol))) pols = true
  | Some acc =>
      Account.ID acc = a
      /\ option_map Name (first_with a (flat_map Accounts pols))
         = Some (Account.Name acc)
      /\ forall p,
          match gomap.get (Account.Roles acc) p with
          | None =>
              forallb (fun pol => negb (listed a (Accounts pol)
                                        && listed p (Permissions pol))) pols
              = true
          | Some r =>
              Role.ID r = p
              /\ option_map Name
                   (first_with p
                      (flat_map (fun pol => if listed a (Accounts pol)
                                            then Permissions pol else []) pols))
                 = Some (Role.Name r)
          end
  end.
Proof.
  pose proof (accounts_of_parsed pols log log' accounts Hok) as E.
  set (l := map (fun pol => (fst (strconv.Atoi (Duration pol)), pol)) pols) in E.
  assert (FM : forall (f : rawPolicy -> list rawItem),
             flat_map (fun dp => f (snd dp)) l = flat_map f pols).
  { intros f. unfold l. clear. induction pols; simpl; [reflexivity|].
    now f_equal. }
  assert (FB : forall (f : rawPolicy -> bool),
             forallb (fun dp => f (snd dp)) l = forallb f pols).
  { intros f. unfold l. clear. induction pols; simpl; [reflexivity|].
    now f_equal. }
  pose proof (header_fold l [] a) as Hh. rewrite <- E in Hh.
  rewrite account_fold_header in Hh. change (header [] a) with
    (@None (string * string)) in Hh. cbv iota in Hh. rewrite FM in Hh.
  unfold header in Hh.
  assert (Cells : forall p, cell accounts a p
                            = fold_left (cell_step a p) l None).
  { intros p. rewrite E. apply cell_fold. }
  destruct (gomap.get accounts a) as [acc|] eqn:Hg.
  - destruct (first_with a (flat_map Accounts pols)) as [first|] eqn:Ef;
      [|discriminate].
    simpl in Hh. injection Hh as H1 H2.
    split; [exact H1|]. split; [simpl; now rewrite H2|].
    intros p. specialize (Cells p). unfold cell in Cells. rewrite Hg in Cells.
    pose proof (cell_fold_identity a p l None) as CI.
    rewrite <- Cells in CI.
    destruct (gomap.get (Account.Roles acc) p) as [r|].
    + destruct CI as [C1 C2]. split; [exact C1|].
      rewrite <- C2. now rewrite <- (FM (fun pol => if listed a (Accounts pol)
                                          then Permissions pol else [])).
    + destruct CI as [_ C2]. now rewrite <- (FB (fun pol =>
             negb (listed a (Accounts pol) && listed p (Permissions pol)))).
  - destruct (first_with a (flat_map Accounts pols)) as [first|] eqn:Ef;
      [discriminate|].
    clear - Ef. unfold first_with in Ef.
    induction pols as [|pol pols IH]; [reflexivity|].
    simpl in *. rewrite find_app in Ef. rewrite listed_first_with.
    unfold first_with.
    destruct (find (fun x => String.eqb (Id x) a) (Accounts pol));
      [discriminate|].
    simpl. now apply IH.
Qed.

End AccountTheorems.

(** ** Durations that are not numbers *)

Section AtoiFacts.

Import strconv.

Lemma fast_digits_all (s : string) (n m : Z) :
  fast_digits s n = Some m -> all_digits s = true.
Proof.
  revert n. induction s as [|c s IH]; intros n; simpl; [reflexivity|].
  destruct ((byte c - 48) mod 256 >? 9) eqn:E; [discriminate|].
  intros Hf. rewrite (IH _ Hf), andb_true_r. clear Hf IH.
  unfold is_digit. pose proof (byte_range c) as Hb.
  rewrite Z.gtb_ltb in E. apply Z.ltb_ge in E.
  revert E Hb. generalize (byte c). intros b E Hb.
  apply andb_true_iff. split; apply Z.leb_le;
    Z.div_mod_to_equations; lia.
Qed.

Lemma uint_digits_all (s : string) (n m : Z) :
  uint_digits s n = inl m -> all_digits s = true.
Proof.
  revert n. induction s as [|c s IH]; intros n; [reflexivity|].
  cbn [uint_digits all_digits]. cbv zeta. unfold is_digit.
  destruct ((48 <=? byte c) && (byte c <=? 57)) eqn:Ed.
  - destruct (byte c - 48 >=? 10); [discriminate|].
    destruct (n >=? maxUint64 / 10 + 1); [discriminate|].
    destruct (_ || _); [discriminate|]. intros Hf. now apply IH in Hf.
  - destruct ((97 <=? lower (byte c)) && (lower (byte c) <=? 122)) eqn:El;
      [|discriminate].
    apply andb_true_iff in El as [El _]. apply Z.leb_le in El.
    destruct (lower (byte c) - 97 + 10 >=? 10) eqn:Eg; [discriminate|].
    rewrite Z.geb_leb in Eg. apply Z.leb_gt in Eg. lia.
Qed.

Lemma uint_digits_range (s : string) (n un : Z) :
  uint_digits s n = inr (un, ErrRange) -> un = maxUint64.
Proof.
  revert n. induction s as [|c s IH]; intros n; [discriminate|].
  cbn [uint_digits]. cbv zeta.
  repeat match goal with
         | |- context [if ?b then _ else _] => destruct b
         end; try discriminate; try (now intros [= <-]); apply IH.
Qed.

(** What [Atoi] accepts is an optional sign and decimal digits. *)
Lemma Atoi_decimal (s : string) :
  snd (Atoi s) = None -> decimal s = true.
Proof.
  unfold Atoi.
  destruct ((0 <? String.length s)%nat && (String.length s <? 19)%nat).
  - destruct s as [|c t]; [discriminate|]. unfold decimal.
    destruct (Ascii.eqb c "-" || Ascii.eqb c "+") eqn:Es.
    + cbn [andb]. destruct t as [|c' t']; [discriminate|].
      cbn [String.length Nat.ltb Nat.leb andb].
      destruct (fast_digits (String c' t') 0) eqn:Ef; [|discriminate].
      intros _. now rewrite (fast_digits_all _ _ _ Ef).
    + cbn [andb]. destruct (fast_digits (String c t) 0) eqn:Ef; [|discriminate].
      intros _. exact (fast_digits_all _ _ _ Ef).
  - destruct (ParseInt s) as [i64 err] eqn:EP. destruct err; [discriminate|].
    intros _. unfold ParseInt in EP. destruct s as [|c t]; [discriminate|].
    unfold decimal. rewrite (orb_comm (Ascii.eqb c "-")).
    destruct (Ascii.eqb c "+" || Ascii.eqb c "-") eqn:Es.
    + unfold ParseUint in EP. destruct t as [|c' t']; [discriminate|].
      destruct (uint_digits (String c' t') 0) as [un|[un []]] eqn:Eu.
      * now rewrite (uint_digits_all _ _ _ Eu).
      * discriminate.
      * exfalso. revert EP.
        apply uint_digits_range in Eu. subst un. destruct (Ascii.eqb c "-"); vm_compute; discriminate.
    + unfold ParseUint in EP.
      destruct (uint_digits (String c t) 0) as [un|[un []]] eqn:Eu.
      * exact (uint_digits_all _ _ _ Eu).
      * discriminate.
      * exfalso. revert EP.
        apply uint_digits_range in Eu. subst un. destruct (Ascii.eqb c "-"); vm_compute; discriminate.
Qed.

End AtoiFacts.

Section DurationFacts.

Import team.

Lemma policies_loop_bad (pols : list rawPolicy) (st : State) :
  match find bad_duration pols with
  | Some pol =>
      exists ne,
        snd (strconv.Atoi (Duration pol)) = Some ne
        /\ fst (policies_loop pols st)
           = inr (Errorf "failed to parse policy duration %q: %w"
                         [Duration pol] (NumError ne))
  | None => exists accounts, fst (policies_loop pols st) = inl accounts
  end.
Proof.
  revert st. induction pols as [|pol pols IH]; intros st.
  - simpl. eauto.
  - cbn [find policies_loop]. unfold bad_duration at 1.
    destruct (strconv.Atoi (Duration pol)) as [d [ne|]] eqn:EA; cbn [snd].
    + exists ne. rewrite EA. split; reflexivity.
    + apply IH.
Qed.

(** X10: a duration that is not a number fails the whole fetch.  The loop
    over the policies returns the error of the first policy whose duration
    [Atoi] rejects, with that duration quoted, and no accounts at all, also
    when the policy lists no account and when the policies before it were
    fine; without such a policy it returns accounts.  What [Atoi] accepts is
    an optional sign followed by decimal digits: so one policy with a
    missing duration, a fraction or a space around the number is enough. *)
Theorem bad_duration_fails_the_fetch
  (pols : list rawPolicy) (log : list slog.Record_) :
  match find bad_duration pols with
  | Some pol =>
      exists ne,
        snd (strconv.Atoi (Duration pol)) = Some ne
        /\ fst (accounts_of pols log)
           = inr (Errorf "failed to parse policy duration %q: %w"
                         [Duration pol] (NumError ne))
  | None => exists accounts, fst (accounts_of pols log) = inl accounts
  end
  /\ (forall pol, In pol pols -> strconv.decimal (Duration pol) = false ->
                  exists e, fst (accounts_of pols log) = inr e)
  /\ strconv.decimal EmptyString = false
  /\ strconv.decimal "1.5" = false
  /\ strconv.decimal " 8" = false.
Proof.
  pose proof (policies_loop_bad pols ([], log)) as P.
  fold (accounts_of pols log) in P.
  split; [exact P|]. split; [|repeat split].
  intros pol Hin Hd.
  destruct (find bad_duration pols) as [bad|] eqn:Ef.
  - destruct P as (ne & _ & ->). eauto.
  - exfalso. pose proof (find_none _ _ Ef pol Hin) as Hb.
    unfold bad_duration in Hb.
    destruct (snd (strconv.Atoi (Duration pol))) eqn:Es; [discriminate|].
    apply Atoi_decimal in Es. congruence.
Qed.

End DurationFacts.

(** ** The accounts of two policies *)

Example Atoi_examples :
  strconv.Atoi "8" = (8, None)
  /\ strconv.Atoi "-5" = (-5, None)
  /\ strconv.Atoi "+007" = (7, None)
  /\ strconv.Atoi "9223372036854775807" = (9223372036854775807, None)
  /\ strconv.Atoi "-9223372036854775808" = (-9223372036854775808, None)
  /\ strconv.Atoi "9223372036854775808"
     = (9223372036854775807,
        Some (strconv.mkNumError "Atoi" "9223372036854775808" strconv.ErrRange))
  /\ strconv.Atoi "99999999999999999999x"
     = (9223372036854775807,
        Some (strconv.mkNumError "Atoi" "99999999999999999999x" strconv.ErrRange))
  /\ strconv.Atoi EmptyString
     = (0, Some (strconv.mkNumError "Atoi" EmptyString strconv.ErrSyntax))
  /\ strconv.Atoi "-"
     = (0, Some (strconv.mkNumError "Atoi" "-" strconv.ErrSyntax))
  /\ strconv.Atoi "1.5"
     = (0, Some (strconv.mkNumError "Atoi" "1.5" strconv.ErrSyntax))
  /\ strconv.Atoi "1_000"
     = (0, Some (strconv.mkNumError "Atoi" "1_000" strconv.ErrSyntax)).
Proof. vm_compute. repeat split. Qed.

Example demo_accounts_computed :
  fst (team.accounts_of demo_policies []) = inl demo_accounts
  /\ List.length (snd (team.accounts_of demo_policies [])) = 10%nat.
Proof. vm_compute. split; reflexivity. Qed.

(** X8 at the two policies: the development account may take the read-only
    role for 4 hours without approval and for 8 hours with it. *)
Lemma role_limits_witness :
  let r := team.Role.mk "p-read" "ReadOnly" 4 8 in
  team.durations false "222" "p-read" demo_policies = [8; 4]
  /\ team.durations true "222" "p-read" demo_policies = [4]
  /\ team.Role.MaxDurApproval r
     = fold_right Z.max 0 (team.durations false "222" "p-read" demo_policies)
  /\ team.Role.MaxDurNoApproval r
     = fold_right Z.max 0 (team.durations true "222" "p-read" demo_policies)
  /\ 0 <= team.Role.MaxDurNoApproval r <= team.Role.MaxDurApproval r.
Proof.
  cbv zeta. split; [reflexivity|]. split; [reflexivity|].
  exact (role_limits_are_the_largest_durations
           demo_policies [] (snd (team.accounts_of demo_policies []))
           demo_accounts "222" "p-read"
           (team.Account.mk "222" "development"
              [("p-admin", team.Role.mk "p-admin" "Admin" 0 8);
               ("p-read", team.Role.mk "p-read" "ReadOnly" 4 8)])
           (team.Role.mk "p-read" "ReadOnly" 4 8)
           eq_refl eq_refl eq_refl).
Defined.

(** X9 at the two policies: the development account keeps its first name. *)
Lemma accounts_listed_witness :
  fst (team.accounts_of demo_policies []) = inl demo_accounts
  /\ match gomap.get demo_accounts "222" with
     | None => False
     | Some acc =>
         team.Account.ID acc = "222"
         /\ team.Account.Name acc = "development"
         /\ option_map team.Name
              (team.first_with "222" (flat_map team.Accounts demo_policies))
            = Some (team.Account.Name acc)
     end
  /\ match gomap.get demo_accounts "333" with
     | None =>
         forallb (fun pol => negb (team.listed "333" (team.Accounts pol)))
                 demo_policies = true
     | Some _ => False
     end.
Proof.
  split; [reflexivity|].
  pose proof (accounts_are_the_listed_ones
                demo_policies [] (snd (team.accounts_of demo_policies []))
                demo_accounts "222" eq_refl) as W2.
  pose proof (accounts_are_the_listed_ones
                demo_policies [] (snd (team.accounts_of demo_policies []))
                demo_accounts "333" eq_refl) as W3.
  split; [|exact W3].
  cbn [gomap.get demo_accounts String.eqb Ascii.eqb Bool.eqb] in W2 |- *.
  exact (conj (proj1 W2) (conj eq_refl (proj1 (proj2 W2)))).
Defined.

(* ====================================================================== *)
(** * Part VI: requests and their callers *)

Section ExecuteFacts.

Variable Marshal_gqlRequest : gqlRequest -> string + error.

Variable Unmarshal_Payload : string -> option Payload + error.

Local Abbreviation execute := (Execute Marshal_gqlRequest Unmarshal_Payload).

(** The cases of [Execute]. *)
Lemma Execute_cases (w : HttpWorld) (endpoint accessToken : string)
  (req : gqlRequest) :
  let sent enc := HvDo "POST" endpoint
                    [("Content-Type", "application/json");
                     ("Authorization", accessToken)] enc in
  (exists e, execute w endpoint accessToken req
             = (None, Some e, [HvCancelTimeout])
             /\ ((exists e', Marshal_gqlRequest req = inr e')
                 \/ newRequest_error w <> None)
             \/ exists enc,
                 Marshal_gqlRequest req = inl enc
                 /\ newRequest_error w = None
                 /\ do_result w = inr e
                 /\ execute w endpoint accessToken req
                    = (None, Some (Errorf "failed to send request: %w" e),
                       [sent enc; HvCancelTimeout]))
  \/ exists enc resp,
      Marshal_gqlRequest req = inl enc
      /\ newRequest_error w = None
      /\ do_result w = inl resp
      /\ snd (execute w endpoint accessToken req)
         = [sent enc; HvBodyClose; HvCancelTimeout]
      /\ match ReadAll resp with
         | inr e =>
             fst (execute w endpoint accessToken req)
             = (None, Some (Errorf "failed to read body: %w" e))
         | inl body =>
             if StatusCode resp =? StatusOK then
               match Unmarshal_Payload body with
               | inr e =>
                   fst (execute w endpoint accessToken req)
                   = (None,
                      Some (Errorf "failed to unmarshal payload body: %w" e))
               | inl payload =>
                   fst (execute w endpoint accessToken req) = (payload, None)
               end
             else
               fst (execute w endpoint accessToken req)
               = (None, Some (Errorf "%w: unexpected status code: %d %q"
                                     ErrUnexpected))
         end.
Proof.
  cbv zeta. unfold Execute.
  destruct (Marshal_gqlRequest req) as [enc|e].
  2:{ left. eexists. left. split; [reflexivity | left; eauto]. }
  destruct (newRequest_error w) as [e|].
  { left. eexists. left. split; [reflexivity | right; discriminate]. }
  destruct (do_result w) as [resp|e].
  2:{ left. exists e. right. exists enc. auto. }
  right. exists enc, resp. repeat split; auto.
  - destruct (ReadAll resp); [|reflexivity].
    destruct (StatusCode resp =? StatusOK); [|reflexivity].
    destruct (Unmarshal_Payload s); reflexivity.
  - destruct (ReadAll resp) as [body|e]; [|reflexivity].
    destruct (StatusCode resp =? StatusOK); [|reflexivity].
    destruct (Unmarshal_Payload body); reflexivity.
Qed.

(** X11: what [Execute] opens it closes, on every path.  The timeout is
    cancelled once, as the last action; at most one request is sent; and
    the body of the response is closed exactly once whenever the client has
    returned a response, also when the status is not 200 or when reading or
    decoding the body fails, and not otherwise.  A payload is returned only
    without error, and an answer with another status than 200 is the error
    of the package. *)
Theorem Execute_closes_what_it_opens
  (w : HttpWorld) (endpoint accessToken : string) (req : gqlRequest) :
  let r := execute w endpoint accessToken req in
  let evs := snd r in
  count is_cancel_timeout evs = 1%nat
  /\ last evs HvBodyClose = HvCancelTimeout
  /\ (count is_do evs <= 1)%nat
  /\ count is_body_close evs
     = match Marshal_gqlRequest req, newRequest_error w, do_result w with
       | inl _, None, inl _ => 1%nat
       | _, _, _ => O
       end
  /\ (count is_body_close evs <= count is_do evs)%nat
  /\ (snd (fst r) <> None -> fst (fst r) = None)
  /\ (forall enc resp body,
         Marshal_gqlRequest req = inl enc -> newRequest_error w = None ->
         do_result w = inl resp -> ReadAll resp = inl body ->
         StatusCode resp <> StatusOK ->
         exists e, snd (fst r) = Some e /\ Is_ErrUnexpected e = true).
Proof.
  cbv zeta.
  destruct (Execute_cases w endpoint accessToken req)
    as [(e & [(E & Hc) | (enc & HM & HN & HD & E)])
       | (enc & resp & HM & HN & HD & Ev & Er)]; cbv zeta in *.
  - rewrite E. cbn.
    assert (Hm : match Marshal_gqlRequest req, newRequest_error w, do_result w with
                 | inl _, None, inl _ => 1%nat
                 | _, _, _ => O
                 end = O).
    { destruct Hc as [(e' & ->) | Hc]; [reflexivity|].
      destruct (Marshal_gqlRequest req); [|reflexivity].
      destruct (newRequest_error w); [reflexivity | contradiction]. }
    rewrite Hm. repeat split; auto.
    intros enc resp body HM HN HD HR HS.
    exfalso. destruct Hc as [(e' & Hc) | Hc]; congruence.
  - rewrite E, HM, HN, HD. cbn. repeat split; auto.
    intros enc' resp body _ _ HD'. congruence.
  - rewrite Ev, HM, HN, HD. cbn. repeat split; auto.
    + intros Herr. destruct (ReadAll resp) as [body|e]; [|now rewrite Er].
      destruct (StatusCode resp =? StatusOK); [|now rewrite Er].
      destruct (Unmarshal_Payload body); rewrite Er in *; [|reflexivity].
      simpl in Herr. contradiction.
    + intros enc' resp' body _ _ [= <-] HR HS. rewrite HR in Er.
      apply Z.eqb_neq in HS. rewrite HS in Er. rewrite Er.
      eexists. split; reflexivity.
Qed.

End ExecuteFacts.

Section RequestFacts.

Import team.

Variable Marshal_gqlRequest : gqlRequest -> string + error.

Variable Unmarshal_Payload : string -> option Payload + error.

Variable Format_RFC3339 : Z -> string.

Variable Unmarshal_id : string -> string + error.

Local Abbreviation execute := (Execute Marshal_gqlRequest Unmarshal_Payload).

Local Abbreviation request :=
  (Request Marshal_gqlRequest Unmarshal_Payload Format_RFC3339 Unmarshal_id).

(** [Request] after [Execute]. *)
Lemma Request_after_Execute (now : Z) (w : HttpWorld)
  (endpoint accessToken : string) (req : AccessRequest.t) :
  let x := execute w endpoint accessToken
                   (create_request Format_RFC3339 now req) in
  let info := slog.mkRecord slog.Info "Requesting access" [] in
  snd (request now w endpoint accessToken req) = snd x
  /\ fst (request now w endpoint accessToken req)
     = match snd (fst x), fst (fst x) with
       | Some e, _ =>
           (Returns (EmptyString,
                     Some (Errorf "failed to execute: %w" [] (GqlError e))),
            [info])
       | None, None => (Panics nil_dereference, [info])
       | None, Some p =>
           match Errors p with
           | _ :: _ =>
               (Returns (EmptyString,
                         Some (Errorf "%w: server returned an error" []
                                      ErrUnexpected)),
                info :: map (fun e => slog.mkRecord slog.Error
                                        "Received error from server"
                                        [("error", slog.ErrorValue e)])
                            (Errors p))
           | [] =>
               match Unmarshal_id (Data p) with
               | inr e =>
                   (Returns (EmptyString,
                             Some (Errorf "failed to unmarshal payload: %w" []
                                          (GqlError e))), [info])
               | inl id => (Returns (id, None), [info])
               end
           end
       end.
Proof.
  cbv zeta. unfold Request.
  destruct (execute w endpoint accessToken
              (create_request Format_RFC3339 now req)) as [[resp err] evs].
  cbn [fst snd]. destruct err as [e|]; [split; reflexivity|].
  destruct resp as [p|]; [|split; reflexivity].
  destruct (Errors p) as [|e0 es]; cbn [List.length Nat.ltb Nat.leb].
  - destruct (Unmarshal_id (Data p)); split; reflexivity.
  - split; reflexivity.
Qed.

(** X12: [Request] returns an id only from a clean answer, and panics on an
    empty one.  When it returns an id without error, the server has answered
    200 with a body that decodes to a payload without errors, and the id is
    what the data of that payload decodes to; every error comes with the
    empty id.  When the server answers 200 with the JSON text [null], the
    payload pointer stays nil, [Execute] returns it without error, and
    [Request] panics on [resp.Errors]. *)
Theorem Request_returns_an_id_only_from_a_clean_answer
  (now : Z) (w : HttpWorld) (endpoint accessToken : string)
  (req : AccessRequest.t) :
  let r := request now w endpoint accessToken req in
  let ended := fst (fst r) in
  (forall id, ended = Returns (id, None) ->
     exists enc resp body p,
       Marshal_gqlRequest (create_request Format_RFC3339 now req) = inl enc
       /\ do_result w = inl resp /\ StatusCode resp = StatusOK
       /\ ReadAll resp = inl body
       /\ Unmarshal_Payload body = inl (Some p)
       /\ Errors p = [] /\ Unmarshal_id (Data p) = inl id
       /\ snd r = [HvDo "POST" endpoint
                     [("Content-Type", "application/json");
                      ("Authorization", accessToken)] enc;
                   HvBodyClose; HvCancelTimeout])
  /\ (forall id e, ended = Returns (id, Some e) -> id = EmptyString)
  /\ (forall enc resp body,
        Marshal_gqlRequest (create_request Format_RFC3339 now req) = inl enc ->
        newRequest_error w = None -> do_result w = inl resp ->
        ReadAll resp = inl body -> StatusCode resp = StatusOK ->
        Unmarshal_Payload body = inl None ->
        ended = Panics nil_dereference)
  /\ (forall m, ended = Panics m ->
        exists resp body,
          do_result w = inl resp /\ ReadAll resp = inl body
          /\ StatusCode resp = StatusOK /\ Unmarshal_Payload body = inl None).
Proof.
  cbv zeta.
  destruct (Request_after_Execute now w endpoint accessToken req) as (Ev & Er).
  cbv zeta in Ev, Er. rewrite Ev, Er. clear Ev Er.
  destruct (Execute_cases Marshal_gqlRequest Unmarshal_Payload w endpoint
              accessToken (create_request Format_RFC3339 now req))
    as [(e & [(E & Hc) | (enc & HM & HN & HD & E)])
       | (enc & resp & HM & HN & HD & Ev & Er)]; cbv zeta in *.
  - rewrite E. cbn. repeat split; try discriminate.
    + now intros id e0 [= <-].
    + intros enc resp body HM HN. destruct Hc as [(e' & Hc) | Hc]; congruence.
  - rewrite E. cbn. repeat split; try discriminate.
    + now intros id e0 [= <-].
    + intros enc' resp body _ _ HD'. congruence.
  - rewrite Ev.
    destruct (ReadAll resp) as [body|e] eqn:HR.
    2:{ rewrite Er. cbn. repeat split; try discriminate.
        - now intros id e0 [= <-].
        - intros enc' resp' body' _ _ HD'; rewrite HD in HD'; injection HD' as <-; congruence. }
    destruct (StatusCode resp =? StatusOK) eqn:HS.
    2:{ rewrite Er. cbn. repeat split; try discriminate.
        - now intros id e0 [= <-].
        - intros enc' resp' body' _ _ HD' _ HS'. rewrite HD in HD'.
          injection HD' as <-. apply Z.eqb_neq in HS. contradiction. }
    apply Z.eqb_eq in HS.
    destruct (Unmarshal_Payload body) as [[p|]|e] eqn:HU; rewrite Er; cbn.
    + destruct (Errors p) as [|e0 es] eqn:HE.
      * destruct (Unmarshal_id (Data p)) as [id|e] eqn:HI; cbn.
        { repeat split; try discriminate.
          - intros id' [= <-]. exists enc, resp, body, p. repeat split; auto.
          - intros enc' resp' body' _ _ HD'; rewrite HD in HD'; injection HD' as <-; congruence. }
        { repeat split; try discriminate.
          - now intros id e0 [= <-].
          - intros enc' resp' body' _ _ HD'; rewrite HD in HD'; injection HD' as <-; congruence. }
      * cbn. repeat split; try discriminate.
        { now intros id e1 [= <-]. }
        { intros enc' resp' body' _ _ HD'; rewrite HD in HD'; injection HD' as <-; congruence. }
    + repeat split; try discriminate.
      intros m _. exists resp, body. auto.
    + repeat split; try discriminate.
      * now intros id e0 [= <-].
      * intros enc' resp' body' _ _ HD'; rewrite HD in HD'; injection HD' as <-; congruence.
Qed.

(** X13: the two sentinels.  The error that [Request] returns wraps the
    sentinel of package [team] exactly when the server has answered with a
    payload that lists errors, and then one record is logged for each of
    them.  An answer with another status than 200 is reported with the
    sentinel of package [gql], which has the same text and is another
    error: [errors.Is] with the sentinel of [team] does not find it. *)
Theorem Request_sentinels
  (now : Z) (w : HttpWorld) (endpoint accessToken : string)
  (req : AccessRequest.t) :
  let r := request now w endpoint accessToken req in
  let x := execute w endpoint accessToken
                   (create_request Format_RFC3339 now req) in
  (forall id e,
      fst (fst r) = Returns (id, Some e) ->
      (Is_team_ErrUnexpected e = true
       <-> exists p, fst x = (Some p, None) /\ Errors p <> [])
      /\ (Is_team_ErrUnexpected e = true -> Is_gql_ErrUnexpected e = false))
  /\ (forall p, fst x = (Some p, None) -> Errors p <> [] ->
        List.length (snd (fst r)) = S (List.length (Errors p)))
  /\ (forall enc resp body,
        Marshal_gqlRequest (create_request Format_RFC3339 now req) = inl enc ->
        newRequest_error w = None -> do_result w = inl resp ->
        ReadAll resp = inl body -> StatusCode resp <> StatusOK ->
        exists e, fst (fst r) = Returns (EmptyString, Some e)
                  /\ Is_gql_ErrUnexpected e = true
                  /\ Is_team_ErrUnexpected e = false).
Proof.
  cbv zeta.
  destruct (Request_after_Execute now w endpoint accessToken req) as (_ & Er).
  cbv zeta in Er. rewrite Er. clear Er.
  split; [|split].
  - intros id e.
    destruct (execute w endpoint accessToken
                (create_request Format_RFC3339 now req)) as [[resp err] evs].
    cbn [fst snd]. destruct err as [e0|].
    { intros [= <- <-]. cbn. split; [|discriminate].
      split; [discriminate|]. intros (p & [=] & _). }
    destruct resp as [p|]; [|discriminate].
    destruct (Errors p) as [|e0 es] eqn:HE.
    + destruct (Unmarshal_id (Data p)); [discriminate|].
      intros [= <- <-]. cbn. split; [|discriminate].
      split; [discriminate|]. intros (q & [= <-] & Hq). congruence.
    + intros [= <- <-]. cbn. split; [|reflexivity].
      split; [|reflexivity]. intros _. exists p. split; [reflexivity|].
      congruence.
  - intros p Hx Hp. rewrite Hx. cbn.
    destruct (Errors p); [contradiction|]. cbn. now rewrite length_map.
  - intros enc resp body HM HN HD HR HS.
    destruct (Execute_cases Marshal_gqlRequest Unmarshal_Payload w endpoint
                accessToken (create_request Format_RFC3339 now req))
      as [(e & [(E & Hc) | (enc' & _ & _ & HD' & _)])
         | (enc' & resp' & _ & _ & HD' & _ & Er)]; cbv zeta in *.
    + destruct Hc as [(e' & Hc) | Hc]; congruence.
    + congruence.
    + rewrite HD in HD'. injection HD' as <-. rewrite HR in Er.
      apply Z.eqb_neq in HS. rewrite HS in Er. rewrite Er. cbn.
      eexists. split; [reflexivity|]. split; reflexivity.
Qed.

End RequestFacts.

Section FetchFacts.

Import team.

Variable Marshal_gqlRequest : gqlRequest -> string + error.

Variable Unmarshal_Payload : string -> option Payload + error.

Variable Unmarshal_policy : string -> rawPolicyData -> option error * rawPolicyData.

Local Abbreviation onData := (fetch_onData Unmarshal_policy).

Local Abbreviation onReady :=
  (fetch_onReady Marshal_gqlRequest Unmarshal_Payload).

Lemma fetch_onData_stops (c : Context) (p : Payload) (h : Shared) :
  fst (fst (onData c p h)) = false /\ snd (snd (onData c p h)) = snd h.
Proof.
  unfold fetch_onData. destruct (Unmarshal_policy (Data p) (fst h)).
  split; reflexivity.
Qed.

Lemma fetch_replay_requests (calls : list (Context * Payload)) (h : Shared) :
  snd (replay onData calls h) = snd h.
Proof.
  revert h. induction calls as [|[c p] calls IH]; intros h; [reflexivity|].
  cbn [replay]. rewrite IH. apply fetch_onData_stops.
Qed.

Lemma fetch_answers_stop (calls : list (Context * Payload)) (h : Shared) :
  Forall (fun x => fst x = false) (answers onData calls h)
  /\ List.length (answers onData calls h) = List.length calls.
Proof.
  revert h. induction calls as [|[c p] calls IH]; intros h.
  - split; [constructor | reflexivity].
  - cbn [answers]. destruct (IH (snd (onData c p h))) as [I1 I2]. split.
    + constructor; [apply fetch_onData_stops | exact I1].
    + simpl. now rewrite I2.
Qed.

Lemma stops_at_once (l : list (bool * option error)) :
  Forall (fun x => x = (true, None)) (removelast l) ->
  Forall (fun x => fst x = false) l ->
  (List.length l <= 1)%nat.
Proof.
  destruct l as [|a [|b l]]; simpl; try lia.
  intros Hc Hs. exfalso. inversion Hc as [|? ? Ha _]; subst.
  inversion Hs as [|? ? Hf _]; subst. discriminate Hf.
Qed.

Lemma fetch_onReady_requests (w : FetchWorld) (endpoint accessToken : string)
  (idTok : IDToken) (c : Context) (h : Shared) :
  fst (snd (onReady w endpoint accessToken idTok c h)) = fst h
  /\ exists evs,
      snd (snd (onReady w endpoint accessToken idTok c h)) = snd h ++ evs
      /\ (count is_do evs <= 1)%nat
      /\ (fst (onReady w endpoint accessToken idTok c h) = None ->
          count is_do evs = 1%nat).
Proof.
  unfold fetch_onReady.
  set (req := mkRequest policyRequest _).
  destruct (Execute_cases Marshal_gqlRequest Unmarshal_Payload (trigger w)
              endpoint accessToken req)
    as [(e & [(E & Hc) | (enc & HM & HN & HD & E)])
       | (enc & resp & HM & HN & HD & Ev & Er)]; cbv zeta in *.
  - rewrite E. cbn. split; [reflexivity|]. eexists. split; [reflexivity|].
    split; [cbn; lia | discriminate].
  - rewrite E. cbn. split; [reflexivity|]. eexists. split; [reflexivity|].
    split; [cbn; lia | discriminate].
  - destruct (Execute Marshal_gqlRequest Unmarshal_Payload (trigger w)
                endpoint accessToken req) as [[pl err] evs].
    cbn [fst snd] in *. subst evs. split; [reflexivity|].
    eexists. split; [reflexivity|]. split; [cbn; lia | reflexivity].
Qed.

(** X14: [FetchAccounts] reads one payload.  Its data callback never asks to
    go on, so it is called at most once, and its trigger sends at most one
    request.  When [FetchAccounts] returns accounts, the trigger has sent
    its request, exactly one payload has reached the data callback, with the
    background context, the data of that payload has been decoded into the
    empty policy variable without error, and the accounts are those of the
    policies decoded.  When the ID token cannot be parsed, nothing is
    dialled and nothing is sent. *)
Theorem FetchAccounts_reads_one_payload
  (w : FetchWorld) (ctx : Context) (endpoint accessToken : string) :
  let f := FetchAccounts Marshal_gqlRequest Unmarshal_Payload Unmarshal_policy
                         w ctx endpoint accessToken in
  let info := slog.mkRecord slog.Info "Fetching AWS accounts" [] in
  (List.length (delivered (team.events f)) <= 1)%nat
  /\ (count is_do (requests f) <= 1)%nat
  /\ (forall accounts,
        fetched f = Returns (inl accounts) ->
        exists p raw,
          delivered (team.events f) = [(Background, p)]
          /\ Unmarshal_policy (Data p) zero_policy = (None, raw)
          /\ fst (accounts_of (Policy raw) [info]) = inl accounts
          /\ count is_do (requests f) = 1%nat)
  /\ (forall e,
        id_token w = inr e ->
        team.events f = [] /\ requests f = []
        /\ fetched f
           = Returns (inr (Errorf "failed to parse ID token: %w" [] e))).
Proof.
  cbv zeta. unfold FetchAccounts.
  destruct (id_token w) as [idTok|e0].
  2:{ cbn. split; [lia|]. split; [lia|]. split; [discriminate|].
      intros e1 He1. injection He1 as <-. repeat split. }
  set (ctx' := WithCancel ctx (timeout_scope w)).
  set (sub := mkRequest policySubscription []).
  set (h0 := (zero_policy, @nil HttpEvent)).
  destruct (Subscribe_replay gqlRequest Marshal_gqlRequest Shared
              (subscription w) ctx' endpoint accessToken sub
              (onReady w endpoint accessToken idTok) onData h0)
    as (R & F & V & O & _).
  destruct (Subscribe_delivered gqlRequest Marshal_gqlRequest Shared
              (subscription w) ctx' endpoint accessToken sub
              (onReady w endpoint accessToken idTok) onData h0)
    as (earlier & ps & HD & _).
  cbv zeta in R, F, V, O, HD.
  set (o := Subscribe gqlRequest Marshal_gqlRequest Shared (subscription w)
              ctx' endpoint accessToken sub
              (onReady w endpoint accessToken idTok) onData h0) in *.
  set (c1 := WithCancel ctx' (scope_id (subscription w))) in *.
  destruct (fetch_onReady_requests w endpoint accessToken idTok c1 h0)
    as (Hfst & evs & Hsnd & Hle & Hone).
  set (h1 := snd (onReady w endpoint accessToken idTok c1 h0)) in *.
  destruct (fetch_answers_stop (delivered (trace o)) h1) as (As & Al).
  pose proof (stops_at_once _ F As) as Hlen. rewrite Al in Hlen.
  assert (Hreq : snd (final o)
                 = snd (if existsb is_onReady (trace o) then h1 else h0)).
  { rewrite R. apply fetch_replay_requests. }
  assert (Hdo : (count is_do (snd (final o)) <= 1)%nat).
  { rewrite Hreq. destruct (existsb is_onReady (trace o)).
    - rewrite Hsnd. exact Hle.
    - cbn. lia. }
  assert (Hdel : delivered (trace o ++ [EvCancel]) = delivered (trace o)).
  { rewrite delivered_app. apply app_nil_r. }
  assert (G : forall x, team.events x = trace o ++ [EvCancel] ->
                        requests x = snd (final o) ->
                        (List.length (delivered (team.events x)) <= 1)%nat
                        /\ (count is_do (requests x) <= 1)%nat).
  { intros x -> ->. rewrite Hdel. auto. }
  destruct (outcome o) as [[e|]|m] eqn:Ho.
  - split; [apply G; reflexivity|]. split; [apply G; reflexivity|].
    split; [discriminate|]. discriminate.
  - destruct (accounts_of (Policy (fst (final o)))
                [slog.mkRecord slog.Info "Fetching AWS accounts" []])
      as [res log'] eqn:EA.
    split; [apply G; reflexivity|]. split; [apply G; reflexivity|].
    split; [|discriminate].
    intros accounts [= ->]. cbn [team.events requests].
    destruct (O eq_refl) as (Hcalled & Hready).
    rewrite Hdel.
    destruct (delivered (trace o)) as [|[c p] [|cp calls]] eqn:Ed.
    + exfalso. cbn in V. apply V. reflexivity.
    + destruct ps as [|q [|q' ps]]; try discriminate.
      cbn in HD. injection HD as -> ->.
      cbn [answers last] in V.
      unfold fetch_onData in V, R. cbn [replay] in R.
      rewrite Hcalled in R, Hreq.
      destruct (Unmarshal_policy (Data q) (fst h1)) as [err raw] eqn:EU.
      cbn [fst snd] in V, R. rewrite Hfst in EU.
      destruct err as [e|]; [cbn in V; discriminate|].
      exists q, raw. split; [reflexivity|]. split; [exact EU|].
      rewrite R in EA. cbn [fst] in EA. rewrite EA.
      split; [reflexivity|].
      rewrite Hreq, Hsnd. cbn. exact (Hone Hready).
    + exfalso. cbn in Hlen. lia.
  - split; [apply G; reflexivity|]. split; [apply G; reflexivity|].
    split; discriminate.
Qed.

End FetchFacts.

(* ====================================================================== *)
(** * Part VII: the prompts *)

Example TrimSpace_examples :
  TrimSpace (" 5 " ++ String (chr 10) EmptyString)%string = "5"
  /\ TrimSpace (String (chr 9) "yes"
                ++ String (chr 13) (String (chr 10) EmptyString))%string = "yes"
  /\ TrimSpace "   " = EmptyString
  /\ TrimSpace "a b" = "a b"
  /\ TrimSpace (String (chr 0xC2) (String (chr 0xA0) "x")) = "x"
  /\ TrimSpace ("x " ++ String (chr 0xE2)
                          (String (chr 0x80) (String (chr 0x83) " ")))%string
     = "x"
  /\ TrimSpace ("x" ++ String (chr 0xC3) (String (chr 0xA9) " "))%string
     = ("x" ++ String (chr 0xC3) (String (chr 0xA9) EmptyString))%string
  /\ TrimSpace (" " ++ String (chr 0xFF) " ")%string
     = String (chr 0xFF) EmptyString.
Proof. vm_compute. repeat split. Qed.

Section PromptFacts.

Import cli.

(** Each loop is [prompt], then the test of the line. *)
Lemma loops_call_prompt (msg : string) (min max : Z) (t : Terminal) :
  let '(line, err, t') := prompt msg t in
  promptBool msg t
  = match err with
    | Some e => (false, Some e, t')
    | None =>
        if is_word yes_words line then (true, None, t')
        else if is_word no_words line then (false, None, t')
        else promptBool msg t'
    end
  /\ promptSelection msg min max t
     = match err with
       | Some e => (0, Some e, t')
       | None =>
           match strconv.Atoi line with
           | (_, Some _) => promptSelection msg min max t'
           | (val, None) =>
               if (val <? min) || (val >? max)
               then promptSelection msg min max t'
               else (val, None, t')
           end
       end
  /\ promptString msg t
     = match err with
       | Some e => (EmptyString, Some e, t')
       | None =>
           if String.eqb line EmptyString then promptString msg t'
           else (line, None, t')
       end.
Proof.
  unfold prompt, promptBool, promptSelection, promptString.
  destruct t as [[|raw rest] e out]; simpl; auto.
Qed.

Lemma promptSelection_loop_spec (msg : string) (min max : Z)
  (lines : list string) (e : error) (out : list string) :
  match promptSelection_loop msg min max lines e out with
  | (val, None, t') =>
      min <= val <= max
      /\ exists skipped raw,
          lines = skipped ++ raw :: stdin t'
          /\ forallb (rejected min max) skipped = true
          /\ strconv.Atoi (line_of raw) = (val, None)
          /\ stdout t' = out ++ repeat msg (S (List.length skipped))
  | (val, Some e', t') =>
      val = 0 /\ e' = e /\ stdin t' = []
      /\ forallb (rejected min max) lines = true
      /\ stdout t' = out ++ repeat msg (S (List.length lines))
  end.
Proof.
  revert out. induction lines as [|raw rest IH]; intros out.
  - simpl. auto.
  - cbn [promptSelection_loop]. fold (line_of raw).
    assert (Skip : rejected min max raw = true ->
              match promptSelection_loop msg min max rest e (out ++ [msg]) with
              | (val, None, t') =>
                  min <= val <= max
                  /\ exists skipped raw0,
                      raw :: rest = skipped ++ raw0 :: stdin t'
                      /\ forallb (rejected min max) skipped = true
                      /\ strconv.Atoi (line_of raw0) = (val, None)
                      /\ stdout t' = out ++ repeat msg (S (List.length skipped))
              | (val, Some e', t') =>
                  val = 0 /\ e' = e /\ stdin t' = []
                  /\ forallb (rejected min max) (raw :: rest) = true
                  /\ stdout t'
                     = out ++ repeat msg (S (List.length (raw :: rest)))
              end).
    { intros Hrej. specialize (IH (out ++ [msg])).
      destruct (promptSelection_loop msg min max rest e (out ++ [msg]))
        as [[val [e'|]] t'].
      - destruct IH as (H1 & H2 & H3 & H4 & H5).
        repeat split; auto.
        + simpl. now rewrite Hrej.
        + rewrite H5, <- app_assoc. reflexivity.
      - destruct IH as (H1 & skipped & raw0 & H2 & H3 & H4 & H5).
        split; [exact H1|]. exists (raw :: skipped), raw0.
        repeat split; auto.
        + simpl. now rewrite H2.
        + simpl. now rewrite Hrej.
        + rewrite H5, <- app_assoc. reflexivity. }
    unfold rejected in Skip.
    destruct (strconv.Atoi (line_of raw)) as [val [ne|]] eqn:EA;
      [apply Skip; reflexivity|].
    destruct ((val <? min) || (val >? max)) eqn:ER; [apply Skip; reflexivity|].
    apply orb_false_iff in ER as [E1 E2].
    apply Z.ltb_ge in E1. rewrite Z.gtb_ltb in E2. apply Z.ltb_ge in E2.
    split; [lia|]. exists [], raw. repeat split; auto.
Qed.

(** X15: [promptSelection] returns a number only between the bounds.  When
    it returns without error, the number is at least [min] and at most
    [max], it is what [Atoi] reads in the first line that holds such a
    number, blanks around it removed, and every line before that one has
    been asked again for; the message has been printed once per line read.
    When the lines run out it returns zero and the error of the input.  So
    with [max] below [min] it never returns a number. *)
Theorem promptSelection_returns_a_number_in_range
  (msg : string) (min max : Z) (t : Terminal) :
  match promptSelection msg min max t with
  | (val, None, t') =>
      min <= val <= max
      /\ exists skipped raw,
          stdin t = skipped ++ raw :: stdin t'
          /\ forallb (rejected min max) skipped = true
          /\ strconv.Atoi (line_of raw) = (val, None)
          /\ stdout t' = stdout t ++ repeat msg (S (List.length skipped))
  | (val, Some e, t') =>
      val = 0 /\ e = eof t /\ stdin t' = []
      /\ forallb (rejected min max) (stdin t) = true
      /\ stdout t' = stdout t ++ repeat msg (S (List.length (stdin t)))
  end
  /\ (max < min -> snd (fst (promptSelection msg min max t)) = Some (eof t)).
Proof.
  unfold promptSelection.
  pose proof (promptSelection_loop_spec msg min max (stdin t) (eof t)
                (stdout t)) as S.
  split; [exact S|].
  intros Hlt.
  destruct (promptSelection_loop msg min max (stdin t) (eof t) (stdout t))
    as [[val [e'|]] t']; cbn [fst snd].
  - destruct S as (_ & -> & _). reflexivity.
  - destruct S as (Hr & _). lia.
Qed.

Lemma promptBool_loop_spec (msg : string) (lines : list string) (e : error)
  (out : list string) :
  match promptBool_loop msg lines e out with
  | (b, None, t') =>
      exists skipped raw,
        lines = skipped ++ raw :: stdin t'
        /\ forallb unclear skipped = true
        /\ is_word (if b then yes_words else no_words) (line_of raw) = true
        /\ stdout t' = out ++ repeat msg (S (List.length skipped))
  | (b, Some e', t') =>
      b = false /\ e' = e /\ stdin t' = []
      /\ forallb unclear lines = true
      /\ stdout t' = out ++ repeat msg (S (List.length lines))
  end.
Proof.
  revert out. induction lines as [|raw rest IH]; intros out.
  - simpl. auto.
  - cbn [promptBool_loop]. fold (line_of raw).
    destruct (is_word yes_words (line_of raw)) eqn:Ey.
    { exists [], raw. repeat split; auto. }
    destruct (is_word no_words (line_of raw)) eqn:En.
    { exists [], raw. repeat split; auto. }
    assert (Hu : unclear raw = true) by (unfold unclear; now rewrite Ey, En).
    specialize (IH (out ++ [msg])).
    destruct (promptBool_loop msg rest e (out ++ [msg])) as [[b [e'|]] t'].
    + destruct IH as (H1 & H2 & H3 & H4 & H5). repeat split; auto.
      * simpl. now rewrite Hu.
      * rewrite H5, <- app_assoc. reflexivity.
    + destruct IH as (skipped & raw0 & H2 & H3 & H4 & H5).
      exists (raw :: skipped), raw0. repeat split; auto.
      * simpl. now rewrite H2.
      * simpl. now rewrite Hu.
      * rewrite H5, <- app_assoc. reflexivity.
Qed.

(** X16: [promptBool] answers with the first line it knows.  When it returns
    without error, the line that decided is, blanks around it removed, one
    of the words for yes when the answer is true and one of the words for no
    when it is false; every line before it is neither, and has been asked
    again for.  The words are compared as they are written: a line in
    capitals is asked again for, and the words for stopping and leaving
    answer no.  When the lines run out the answer is false, with the error
    of the input. *)
Theorem promptBool_answers_with_the_first_known_word
  (msg : string) (t : Terminal) :
  match promptBool msg t with
  | (b, None, t') =>
      exists skipped raw,
        stdin t = skipped ++ raw :: stdin t'
        /\ forallb unclear skipped = true
        /\ is_word (if b then yes_words else no_words) (line_of raw) = true
        /\ stdout t' = stdout t ++ repeat msg (S (List.length skipped))
  | (b, Some e, t') =>
      b = false /\ e = eof t /\ stdin t' = []
      /\ forallb unclear (stdin t) = true
      /\ stdout t' = stdout t ++ repeat msg (S (List.length (stdin t)))
  end
  /\ forallb unclear ["YES"; "Y"; "No"; "true"; "false"; "1"; "0"; EmptyString]
     = true
  /\ forallb (fun w => is_word no_words (line_of w)) ["s"; "stop"; "e"; "exit"]
     = true.
Proof.
  split; [apply promptBool_loop_spec|]. split; reflexivity.
Qed.

Lemma promptString_loop_spec (msg : string) (lines : list string) (e : error)
  (out : list string) :
  match promptString_loop msg lines e out with
  | (line, None, t') =>
      line <> EmptyString
      /\ exists skipped raw,
          lines = skipped ++ raw :: stdin t'
          /\ forallb (fun r => String.eqb (line_of r) EmptyString) skipped = true
          /\ line = line_of raw
          /\ stdout t' = out ++ repeat msg (S (List.length skipped))
  | (line, Some e', t') =>
      line = EmptyString /\ e' = e /\ stdin t' = []
      /\ forallb (fun r => String.eqb (line_of r) EmptyString) lines = true
      /\ stdout t' = out ++ repeat msg (S (List.length lines))
  end.
Proof.
  revert out. induction lines as [|raw rest IH]; intros out.
  - simpl. auto.
  - cbn [promptString_loop]. fold (line_of raw).
    destruct (String.eqb (line_of raw) EmptyString) eqn:Ee.
    + specialize (IH (out ++ [msg])).
      destruct (promptString_loop msg rest e (out ++ [msg]))
        as [[line [e'|]] t'].
      * destruct IH as (H1 & H2 & H3 & H4 & H5). repeat split; auto.
        { simpl. now rewrite Ee. }
        { rewrite H5, <- app_assoc. reflexivity. }
      * destruct IH as (H1 & skipped & raw0 & H2 & H3 & H4 & H5).
        split; [exact H1|]. exists (raw :: skipped), raw0.
        repeat split; auto.
        { simpl. now rewrite H2. }
        { simpl. now rewrite Ee. }
        { rewrite H5, <- app_assoc. reflexivity. }
    + apply String.eqb_neq in Ee. split; [exact Ee|].
      exists [], raw. repeat split; auto.
Qed.

(** X17: [promptString] never returns an empty line.  When it returns without
    error, the result is the first line that is not blank, with the blanks
    around it removed, and is not empty; the blank lines before it have been
    asked again for.  When the lines run out it returns the empty string
    with the error of the input. *)
Theorem promptString_returns_the_first_line_that_is_not_blank
  (msg : string) (t : Terminal) :
  match promptString msg t with
  | (line, None, t') =>
      line <> EmptyString
      /\ exists skipped raw,
          stdin t = skipped ++ raw :: stdin t'
          /\ forallb (fun r => String.eqb (line_of r) EmptyString) skipped = true
          /\ line = line_of raw
          /\ stdout t' = stdout t ++ repeat msg (S (List.length skipped))
  | (line, Some e, t') =>
      line = EmptyString /\ e = eof t /\ stdin t' = []
      /\ forallb (fun r => String.eqb (line_of r) EmptyString) (stdin t) = true
      /\ stdout t' = stdout t ++ repeat msg (S (List.length (stdin t)))
  end.
Proof. apply promptString_loop_spec. Qed.

End PromptFacts.

(** The prompts at a terminal. *)
Example prompts_at_a_terminal :
  let t := cli.mkTerminal ["seven"; "12"; " 3 "; "4"] (LibError "EOF") [] in
  cli.promptSelection "Selection: " 1 5 t
  = (3, None, cli.mkTerminal ["4"] (LibError "EOF")
                ["Selection: "; "Selection: "; "Selection: "])
  /\ fst (cli.promptBool "Sure? " (cli.mkTerminal ["maybe"; "Y"; " yes"]
                                     (LibError "EOF") []))
     = (true, None)
  /\ fst (cli.promptBool "Sure? " (cli.mkTerminal ["maybe"] (LibError "EOF") []))
     = (false, Some (LibError "EOF"))
  /\ fst (cli.promptString "Why? " (cli.mkTerminal [EmptyString; "  "; " because "]
                                      (LibError "EOF") []))
     = ("because", None).
Proof. vm_compute. repeat split. Qed.

(* ====================================================================== *)
(** * Part VIII: the configuration of the server *)

Section PlainHosts.

Import team.

Lemma plain_byte_facts (c : ascii) :
  plain_byte c = true ->
  ((nat_of_ascii c <? 32) || (nat_of_ascii c =? 127))%nat = false
  /\ (forall sep, In sep ["#"; "?"; "/"; ":"; "%"; "*"]%char ->
                  Ascii.eqb c sep = false)
  /\ url.shouldEscape c url.encodePath = false
  /\ (url_parse.is_alpha c = true
      \/ (url_parse.is_alpha c = false
          /\ (url.is_digit c || url.mem_ascii c "+-.") = true)
      \/ (url_parse.is_alpha c = false
          /\ (url.is_digit c || url.mem_ascii c "+-.") = false
          /\ Ascii.eqb c ":" = false)).
Proof.
  destruct c as [[] [] [] [] [] [] [] []]; intros Hp;
    try discriminate Hp; clear Hp;
    (split; [reflexivity|]);
    (split; [intros sep Hs; simpl in Hs;
             repeat (destruct Hs as [<- | Hs]; [reflexivity|]);
             contradiction|]);
    (split; [reflexivity|]);
    first [left; reflexivity
          | right; left; split; reflexivity
          | right; right; repeat split; reflexivity].
Qed.

Lemma plain_no_ctl (s : string) :
  all_plain s = true -> url_parse.stringContainsCTLByte s = false.
Proof.
  induction s as [|c s IH]; simpl; [reflexivity|].
  intros Hp. apply andb_true_iff in Hp as [Hc Hs].
  destruct (plain_byte_facts c Hc) as (H1 & _). now rewrite H1, IH.
Qed.

Lemma plain_Cut (s : string) (sep : ascii) :
  In sep ["#"; "?"; "/"; ":"; "%"; "*"]%char -> all_plain s = true ->
  strings.Cut s sep = (s, EmptyString, false) /\ strings.Count s sep = O.
Proof.
  intros Hsep. induction s as [|c s IH]; simpl; [auto|].
  intros Hp. apply andb_true_iff in Hp as [Hc Hs].
  destruct (plain_byte_facts c Hc) as (_ & H2 & _).
  rewrite (H2 sep Hsep). destruct (IH Hs) as [-> ->]. auto.
Qed.

Lemma plain_no_suffix (s : string) (sep : ascii) :
  In sep ["#"; "?"; "/"; ":"; "%"; "*"]%char -> all_plain s = true ->
  strings.HasSuffix1 s sep = false.
Proof.
  intros Hsep. induction s as [|c s IH]; simpl; [reflexivity|].
  intros Hp. apply andb_true_iff in Hp as [Hc Hs].
  destruct (plain_byte_facts c Hc) as (_ & H2 & _).
  destruct s; [apply H2, Hsep | now apply IH].
Qed.

Lemma plain_getScheme (raw s : string) (i : nat) (acc : string) :
  all_plain s = true ->
  url_parse.getScheme_from raw i acc s = Some (EmptyString, raw).
Proof.
  revert i acc. induction s as [|c s IH]; intros i acc; simpl; [reflexivity|].
  intros Hp. apply andb_true_iff in Hp as [Hc Hs].
  destruct (plain_byte_facts c Hc)
    as (_ & _ & _ & [Ha | [(Ha & Hd) | (Ha & Hd & Hn)]]); rewrite Ha.
  - now apply IH.
  - rewrite Hd. destruct (i =? 0)%nat; [reflexivity | now apply IH].
  - rewrite Hd, Hn. reflexivity.
Qed.

Lemma plain_no_colon (s : string) :
  all_plain s = true -> strings.Contains s ":" = false.
Proof.
  induction s as [|c s IH]; [reflexivity|].
  intros Hp. pose proof Hp as Hp'. simpl in Hp.
  apply andb_true_iff in Hp as [Hc Hs].
  destruct (plain_byte_facts c Hc) as (_ & H2 & _).
  rewrite Contains_cons, (IH Hs), orb_false_r, HasPrefix_one.
  rewrite Ascii.eqb_sym. apply H2. simpl. auto 10.
Qed.

Lemma plain_escape (s : string) :
  all_plain s = true -> url.escape s url.encodePath = s.
Proof.
  induction s as [|c s IH]; simpl; [reflexivity|].
  intros Hp. apply andb_true_iff in Hp as [Hc Hs].
  destruct (plain_byte_facts c Hc) as (_ & _ & H3 & _).
  now rewrite H3, IH.
Qed.

Lemma plain_head (s : string) (c : ascii) :
  In c ["#"; "?"; "/"; ":"; "%"; "*"]%char -> all_plain s = true ->
  url.first_byte_is s c = false /\ String.eqb s (String c EmptyString) = false.
Proof.
  intros Hc. destruct s as [|a s]; simpl; [auto|].
  intros Hp. apply andb_true_iff in Hp as [Ha _].
  destruct (plain_byte_facts a Ha) as (_ & H2 & _).
  rewrite (H2 c Hc). auto.
Qed.

(** A plain host name parses as a path. *)
Lemma Parse_plain_host (s : string) :
  plain_host s = true ->
  url_parse.Parse s
  = Some (url.mkURL EmptyString EmptyString EmptyString s false false
                    EmptyString EmptyString).
Proof.
  intros Hh. apply andb_true_iff in Hh as [Hne Hp].
  assert (Hin : forall c, In c ["#"; "?"; "/"; ":"; "%"; "*"]%char ->
                          In c ["#"; "?"; "/"; ":"; "%"; "*"]%char) by auto.
  unfold url_parse.Parse.
  destruct (plain_Cut s "#" ltac:(simpl; auto 10) Hp) as [-> _].
  unfold url_parse.parse.
  rewrite (plain_no_ctl s Hp).
  destruct (plain_head s "*" ltac:(simpl; auto 10) Hp) as [_ ->].
  unfold url_parse.getScheme. rewrite (plain_getScheme s s O EmptyString Hp).
  rewrite (plain_no_suffix s "?" ltac:(simpl; auto 10) Hp). cbn [andb].
  destruct (plain_Cut s "?" ltac:(simpl; auto 10) Hp) as [-> _].
  destruct (plain_head s "/" ltac:(simpl; auto 10) Hp) as [-> _].
  cbn [strings.ToLower url.nonempty String.eqb negb andb].
  destruct (plain_Cut s "/" ltac:(simpl; auto 10) Hp) as [-> _].
  cbn [fst]. rewrite (plain_no_colon s Hp).
  assert (Hpre : strings.HasPrefix s "//" = false).
  { destruct (plain_head s "/" ltac:(simpl; auto 10) Hp) as [Hf _].
    destruct (strings.HasPrefix s "//") eqn:E; [|reflexivity].
    apply HasPrefix_split in E as [t ->]. discriminate Hf. }
  rewrite Hpre, andb_false_r.
  unfold url.mem_ascii.
  destruct (plain_Cut s "%" ltac:(simpl; auto 10) Hp) as [_ ->].
  rewrite (plain_escape s Hp), String.eqb_refl. reflexivity.
Qed.

(** The address that is asked for a plain host name. *)
Lemma server_of_plain_host (s : string) :
  plain_host s = true ->
  url.String_ (server_of (url.mkURL EmptyString EmptyString EmptyString s
                             false false EmptyString EmptyString))
  = ("http://" ++ s)%string.
Proof.
  intros Hh. apply andb_true_iff in Hh as [Hne Hp].
  unfold server_of, url.String_, url.EscapedPath. simpl.
  destruct (plain_head s "*" ltac:(simpl; auto 10) Hp) as [_ ->].
  rewrite (plain_escape s Hp). unfold url.nonempty in *.
  destruct s as [|a s']; [discriminate Hne|]. simpl.
  rewrite andb_false_r. simpl. clear. do 8 f_equal.
  induction s' as [|c s IH]; simpl; [reflexivity | now rewrite IH].
Qed.

End PlainHosts.

Section ExtractFacts.

Import team.

Variable jsRegex : string -> list (string * string).

Variable configExtractors : string -> string -> list (string * string).

Variable scopeRegex : string -> list (string * string).

Variable JoinPath : string -> string -> string + error.

Local Abbreviation extract := (extract_loop configExtractors).

Local Abbreviation extractConfig :=
  (ExtractConfig jsRegex configExtractors scopeRegex JoinPath).

(** The group of the one match of an extractor. *)
Local Abbreviation group_of name body :=
  (match configExtractors name body with
   | [m] => snd m
   | _ => EmptyString
   end).

Lemma extract_loop_spec (body : string) (names : list string)
  (raw : gomap.t string) (log : list slog.Record_) :
  match fst (extract body names raw log) with
  | inl raw' =>
      Forall (fun n => exists m, configExtractors n body = [m]) names
      /\ forall k, gomap.get raw' k
                   = if existsb (String.eqb k) names
                     then Some (group_of k body) else gomap.get raw k
  | inr e =>
      exists n, In n names
                /\ List.length (configExtractors n body) <> 1%nat
                /\ e = Errorf "%w: could find extract %q (count=%v)"
                         [n; strconv.Itoa
                               (Z.of_nat (List.length (configExtractors n body)))]
                         ErrUnexpected
  end.
Proof.
  revert raw log. induction names as [|name rest IH]; intros raw log.
  - simpl. split; [constructor | reflexivity].
  - cbn [extract_loop].
    destruct (configExtractors name body) as [|m [|m' ms]] eqn:Em.
    + simpl. exists name. rewrite Em. repeat split; auto; simpl; lia.
    + specialize (IH (gomap.set raw name (snd m))
                     (debug "Found matches"
                        [("name", slog.StringValue name);
                         ("matches", slog.MatchesValue (map submatch [m]))]
                        log)).
      destruct (fst (extract body rest _ _)) as [raw'|e].
      * destruct IH as (IF & IG). split.
        { constructor; [eauto | exact IF]. }
        intros k. rewrite IG. cbn [existsb].
        destruct (String.eqb k name) eqn:Ek.
        { apply String.eqb_eq in Ek. subst k. cbn [orb].
          destruct (existsb (String.eqb name) rest); [reflexivity|].
          rewrite get_set_eq, Em. reflexivity. }
        { cbn [orb]. rewrite get_set_neq by exact Ek. reflexivity. }
      * destruct IH as (n & Hin & Hlen & He). exists n.
        split; [now right | auto].
    + simpl. exists name. rewrite Em. repeat split; auto; simpl; lia.
Qed.

Lemma extract_loop_total (body : string) (names : list string)
  (raw : gomap.t string) (log : list slog.Record_) :
  Forall (fun n => exists m, configExtractors n body = [m]) names ->
  exists raw', fst (extract body names raw log) = inl raw'.
Proof.
  revert raw log. induction names as [|name rest IH]; intros raw log Hf.
  - simpl. eauto.
  - inversion Hf as [|? ? (m & Hm) Hr]; subst. cbn [extract_loop].
    rewrite Hm. apply IH, Hr.
Qed.

(** The loop over the extractors under two orders with the same names. *)
Lemma extract_loop_orders (body : string) (o1 o2 : list string)
  (log1 log2 : list slog.Record_) :
  (forall k, In k o1 <-> In k o2) ->
  match fst (extract body o1 [] log1), fst (extract body o2 [] log2) with
  | inl raw1, inl raw2 => forall k, gomap.get raw1 k = gomap.get raw2 k
  | inr e1, inr e2 =>
      Is_team_ErrUnexpected e1 = true /\ Is_team_ErrUnexpected e2 = true
  | _, _ => False
  end.
Proof.
  intros Hsame.
  pose proof (extract_loop_spec body o1 [] log1) as S1.
  pose proof (extract_loop_spec body o2 [] log2) as S2.
  assert (Hex : forall k, existsb (String.eqb k) o1 = existsb (String.eqb k) o2).
  { intros k. apply eq_true_iff_eq. rewrite !existsb_exists.
    split; intros (x & Hin & Hx); exists x; split; auto; now apply Hsame. }
  destruct (fst (extract body o1 [] log1)) as [raw1|e1] eqn:E1;
    destruct (fst (extract body o2 [] log2)) as [raw2|e2] eqn:E2.
  - destruct S1 as (_ & G1). destruct S2 as (_ & G2).
    intros k. now rewrite G1, G2, Hex.
  - destruct S1 as (F1 & _).
    assert (F2 : Forall (fun n => exists m, configExtractors n body = [m]) o2).
    { apply Forall_forall. intros n Hn. apply Hsame in Hn.
      exact (proj1 (Forall_forall _ _) F1 n Hn). }
    destruct (extract_loop_total body o2 [] log2 F2) as (r & Hr). congruence.
  - destruct S2 as (F2 & _).
    assert (F1 : Forall (fun n => exists m, configExtractors n body = [m]) o1).
    { apply Forall_forall. intros n Hn. apply Hsame in Hn.
      exact (proj1 (Forall_forall _ _) F2 n Hn). }
    destruct (extract_loop_total body o1 [] log1 F1) as (r & Hr). congruence.
  - destruct S1 as (n1 & _ & _ & ->). destruct S2 as (n2 & _ & _ & ->).
    split; reflexivity.
Qed.

Lemma raw_value_ext (raw1 raw2 : gomap.t string) :
  (forall k, gomap.get raw1 k = gomap.get raw2 k) ->
  forall k, raw_value raw1 k = raw_value raw2 k.
Proof. intros He k. unfold raw_value. now rewrite He. Qed.

Lemma extract_loop_log (body : string) (names : list string)
  (raw : gomap.t string) (log : list slog.Record_) :
  exists extra, snd (extract body names raw log) = log ++ extra.
Proof.
  revert raw log. induction names as [|name rest IH]; intros raw log.
  - exists []. simpl. now rewrite app_nil_r.
  - cbn [extract_loop]. unfold debug.
    destruct (configExtractors name body) as [|m [|m' ms]]; cbn [snd];
      try (eexists; reflexivity).
    destruct (IH (gomap.set raw name (snd m))
                 (log ++ [slog.mkRecord slog.Debug "Found matches"
                            [("name", slog.StringValue name);
                             ("matches",
                              slog.MatchesValue (map submatch [m]))]]))
      as (extra & ->).
    eexists. rewrite <- app_assoc. reflexivity.
Qed.

(** X18: a plain host name is asked over [http].  When the address is made
    of letters, digits, dots, hyphens and underscores only, as in
    [team-cli configure team.you-company.com], it parses as a path without
    scheme, the scheme becomes [http], and the homepage that [ExtractConfig]
    asks for is [http://] followed by the address: the first record logged
    names that server, and the first request, if it can be created, is a GET
    of that address. *)
Theorem ExtractConfig_asks_a_plain_host_over_http
  (w : ConfigWorld) (addr : string)
  (Hplain : plain_host addr = true) :
  let r := extractConfig w addr in
  url_parse.Parse addr
  = Some (url.mkURL EmptyString EmptyString EmptyString addr false false
                    EmptyString EmptyString)
  /\ hd_error (snd (fst r))
     = Some (slog.mkRecord slog.Info "Fetching homepage"
               [("server", slog.StringValue ("http://" ++ addr)%string)])
  /\ (newRequest_error (homepage w) = None ->
      hd_error (snd r) = Some (GET ("http://" ++ addr)%string)).
Proof.
  cbv zeta. split; [now apply Parse_plain_host|].
  unfold ExtractConfig.
  rewrite (Parse_plain_host addr Hplain), (server_of_plain_host addr Hplain).
  cbv zeta. unfold debug.
  destruct (newRequest_error (homepage w)) as [e|];
    [split; [reflexivity | discriminate]|].
  destruct (do_result (homepage w)) as [resp|e]; [|split; reflexivity].
  destruct (negb (StatusCode resp =? StatusOK)); [split; reflexivity|].
  destruct (ReadAll resp) as [body|e]; [|split; reflexivity].
  destruct (map snd (jsRegex body)) as [|path [|p ps]];
    [split; reflexivity | | split; reflexivity].
  destruct (JoinPath ("http://" ++ addr) path) as [jsURL|e];
    [|split; reflexivity].
  destruct (newRequest_error (script w)) as [e|]; [split; reflexivity|].
  destruct (do_result (script w)) as [resp2|e]; [|split; reflexivity].
  destruct (negb (StatusCode resp2 =? StatusOK)); [split; reflexivity|].
  destruct (ReadAll resp2) as [body2|e]; [|split; reflexivity].
  match goal with
  | |- context [extract_loop configExtractors body2 (order w) [] ?l] =>
      destruct (extract_loop_log body2 (order w) [] l) as (extra & Hl);
      destruct (extract_loop configExtractors body2 (order w) [] l)
        as [[raw|e] lg]
  end; cbn [snd] in Hl; subst lg; split; reflexivity.
Qed.

(** X19: [ExtractConfig] closes the body of a response only after it has
    accepted its status.  On every path the timeout is cancelled once, as
    the last action, at most two requests are sent, and no more bodies are
    closed than requests were sent.  When the homepage is answered with
    another status than 200, the function returns the sentinel of the
    package, with the status line, and the body of that response is not
    closed: the request and the cancel are all that happens. *)
Theorem ExtractConfig_closes_only_accepted_bodies
  (w : ConfigWorld) (addr : string) :
  let r := extractConfig w addr in
  let evs := snd r in
  last evs HvBodyClose = HvCancelTimeout
  /\ count is_cancel_timeout evs = 1%nat
  /\ (count is_body_close evs <= count is_do evs)%nat
  /\ (count is_do evs <= 2)%nat
  /\ (forall parsed resp,
         url_parse.Parse addr = Some parsed ->
         newRequest_error (homepage w) = None ->
         do_result (homepage w) = inl resp ->
         StatusCode resp <> StatusOK ->
         evs = [GET (url.String_ (server_of parsed)); HvCancelTimeout]
         /\ fst (fst r)
            = inr (Errorf "%w: could not fetch homepage: %v" [Status resp]
                          ErrUnexpected)
         /\ Is_team_ErrUnexpected
              (Errorf "%w: could not fetch homepage: %v" [Status resp]
                      ErrUnexpected) = true).
Proof.
  cbv zeta. unfold ExtractConfig.
  destruct (url_parse.Parse addr) as [parsed|];
    [|cbn; repeat split; auto; discriminate].
  cbv zeta.
  destruct (newRequest_error (homepage w)) as [e|];
    [cbn; repeat split; auto; discriminate|].
  destruct (do_result (homepage w)) as [resp|e];
    [|cbn; repeat split; auto; discriminate].
  destruct (StatusCode resp =? StatusOK) eqn:HS; cbn [negb].
  2:{ cbn. repeat split; auto; congruence. }
  apply Z.eqb_eq in HS.
  assert (Hno : forall (p : url.URL) (r0 : Response),
             Some parsed = Some p -> @None error = None ->
             @inl Response error resp = inl r0 -> StatusCode r0 <> StatusOK ->
             False).
  { intros p r0 _ _ [= <-] Hn. contradiction. }
  destruct (ReadAll resp) as [body|e];
    [|cbn; repeat split; auto; intros; exfalso; eapply Hno; eauto].
  destruct (map snd (jsRegex body)) as [|path [|p ps]];
    [cbn; repeat split; auto; intros; exfalso; eapply Hno; eauto
    | | cbn; repeat split; auto; intros; exfalso; eapply Hno; eauto].
  destruct (JoinPath (url.String_ (server_of parsed)) path) as [jsURL|e];
    [|cbn; repeat split; auto; intros; exfalso; eapply Hno; eauto].
  destruct (newRequest_error (script w)) as [e|];
    [cbn; repeat split; auto; intros; exfalso; eapply Hno; eauto|].
  destruct (do_result (script w)) as [resp2|e];
    [|cbn; repeat split; auto; intros; exfalso; eapply Hno; eauto].
  destruct (negb (StatusCode resp2 =? StatusOK));
    [cbn; repeat split; auto; intros; exfalso; eapply Hno; eauto|].
  destruct (ReadAll resp2) as [body2|e];
    [|cbn; repeat split; auto; intros; exfalso; eapply Hno; eauto].
  match goal with
  | |- context [extract_loop configExtractors body2 (order w) [] ?l] =>
      destruct (extract_loop configExtractors body2 (order w) [] l)
        as [[raw|e] lg]
  end; cbn; repeat split; auto; intros; exfalso; eapply Hno; eauto.
Qed.

(** X20: the order of the extractors chooses the error only.  The loop
    ranges over a map, in an order that changes from run to run.  Two runs
    that differ in that order alone do the same requests and closes; both
    return a configuration, and then the same one, or both fail, and then
    with the same error or each with the sentinel of the package, for an
    extractor that has not matched exactly once. *)
Theorem ExtractConfig_order_only_chooses_the_error
  (w1 w2 : ConfigWorld) (addr : string)
  (Hhome : homepage w1 = homepage w2)
  (Hscript : script w1 = script w2)
  (Hnames : forall k, In k (order w1) <-> In k (order w2)) :
  let r1 := extractConfig w1 addr in
  let r2 := extractConfig w2 addr in
  snd r1 = snd r2
  /\ match fst (fst r1), fst (fst r2) with
     | inl c1, inl c2 => c1 = c2
     | inr e1, inr e2 =>
         e1 = e2
         \/ (Is_team_ErrUnexpected e1 = true /\ Is_team_ErrUnexpected e2 = true)
     | _, _ => False
     end.
Proof.
  cbv zeta. unfold ExtractConfig. rewrite <- Hhome, <- Hscript.
  destruct (url_parse.Parse addr) as [parsed|]; [|cbn; auto].
  cbv zeta.
  destruct (newRequest_error (homepage w1)) as [e|]; [cbn; auto|].
  destruct (do_result (homepage w1)) as [resp|e]; [|cbn; auto].
  destruct (negb (StatusCode resp =? StatusOK)); [cbn; auto|].
  destruct (ReadAll resp) as [body|e]; [|cbn; auto].
  destruct (map snd (jsRegex body)) as [|path [|p ps]];
    [cbn; auto | | cbn; auto].
  destruct (JoinPath (url.String_ (server_of parsed)) path) as [jsURL|e];
    [|cbn; auto].
  destruct (newRequest_error (script w1)) as [e|]; [cbn; auto|].
  destruct (do_result (script w1)) as [resp2|e]; [|cbn; auto].
  destruct (negb (StatusCode resp2 =? StatusOK)); [cbn; auto|].
  destruct (ReadAll resp2) as [body2|e]; [|cbn; auto].
  match goal with
  | |- context [extract_loop configExtractors body2 (order w1) [] ?l] =>
      pose proof (extract_loop_orders body2 (order w1) (order w2) l l Hnames)
        as HO;
      destruct (extract_loop configExtractors body2 (order w1) [] l)
        as [[raw1|e1] lg1];
      destruct (extract_loop configExtractors body2 (order w2) [] l)
        as [[raw2|e2] lg2]
  end; cbn [fst snd] in HO |- *; try contradiction.
  - split; [reflexivity|].
    pose proof (raw_value_ext raw1 raw2 HO) as HV.
    now rewrite !HV.
  - split; [reflexivity | right; exact HO].
Qed.

(** X21: what a configuration is made of.  When [ExtractConfig] returns a
    configuration, both requests were answered with status 200, the
    homepage has exactly one match of the script pattern, and every
    extractor ranged over has exactly one match in the script.  With all
    five extractors ranged over, the four text fields are the groups of
    their matches and the scopes are the groups of the matches of the scope
    pattern in the group of the scope extractor, in order; both bodies are
    closed, the second first, before the timeout is cancelled. *)
Theorem ExtractConfig_returns_the_groups_of_single_matches
  (w : ConfigWorld) (addr : string) (c : RemoteConfig)
  (Hall : forall k, In k extractor_names -> In k (order w))
  (Hok : fst (fst (extractConfig w addr)) = inl c) :
  exists parsed resp body whole path jsURL resp2 body2,
    url_parse.Parse addr = Some parsed
    /\ do_result (homepage w) = inl resp /\ StatusCode resp = StatusOK
    /\ ReadAll resp = inl body
    /\ jsRegex body = [(whole, path)]
    /\ JoinPath (url.String_ (server_of parsed)) path = inl jsURL
    /\ do_result (script w) = inl resp2 /\ StatusCode resp2 = StatusOK
    /\ ReadAll resp2 = inl body2
    /\ Forall (fun n => exists m, configExtractors n body2 = [m]) (order w)
    /\ c = mkRemoteConfig
             (group_of "aws_appsync_graphqlEndpoint" body2)
             (group_of "aws_user_pools_web_client_id" body2)
             (group_of "oauth_domain" body2)
             (group_of "oauth_responseType" body2)
             (map snd (scopeRegex (group_of "oauth_scope" body2)))
    /\ snd (extractConfig w addr)
       = [GET (url.String_ (server_of parsed)); GET jsURL;
          HvBodyClose; HvBodyClose; HvCancelTimeout].
Proof.
  revert Hok. unfold ExtractConfig.
  destruct (url_parse.Parse addr) as [parsed|]; [|discriminate].
  cbv zeta.
  destruct (newRequest_error (homepage w)) as [e|]; [discriminate|].
  destruct (do_result (homepage w)) as [resp|e]; [|discriminate].
  destruct (StatusCode resp =? StatusOK) eqn:HS1; [|discriminate].
  cbn [negb].
  destruct (ReadAll resp) as [body|e] eqn:ER1; [|discriminate].
  destruct (jsRegex body) as [|[whole path] [|p ps]] eqn:Ejs;
    [discriminate | | discriminate].
  cbn [map snd].
  destruct (JoinPath (url.String_ (server_of parsed)) path) as [jsURL|e]
    eqn:EJ; [|discriminate].
  destruct (newRequest_error (script w)) as [e|]; [discriminate|].
  destruct (do_result (script w)) as [resp2|e]; [|discriminate].
  destruct (StatusCode resp2 =? StatusOK) eqn:HS2; [|discriminate].
  cbn [negb].
  destruct (ReadAll resp2) as [body2|e] eqn:ER2; [|discriminate].
  match goal with
  | |- context [extract_loop configExtractors body2 (order w) [] ?l] =>
      pose proof (extract_loop_spec body2 (order w) [] l) as HS;
      destruct (extract_loop configExtractors body2 (order w) [] l)
        as [[raw|e] lg]
  end; [|discriminate].
  cbn [fst snd] in HS |- *. destruct HS as (HF & HG).
  intros [= <-].
  assert (HV : forall k, In k extractor_names ->
                         raw_value raw k = group_of k body2).
  { intros k Hk. unfold raw_value. rewrite HG.
    assert (Hex : existsb (String.eqb k) (order w) = true).
    { apply existsb_exists. exists k. split; [now apply Hall|].
      apply String.eqb_refl. }
    now rewrite Hex. }
  exists parsed, resp, body, whole, path, jsURL, resp2, body2.
  apply Z.eqb_eq in HS1, HS2.
  repeat split; auto.
  rewrite !HV by (simpl; auto 10). reflexivity.
Qed.

End ExtractFacts.

(** ** The configuration of a server *)

Example demo_extract_computed :
  fst (fst (demo_extract team.extractor_names))
  = inl (team.mkRemoteConfig "aws_appsync_graphqlEndpoint-value"
           "aws_user_pools_web_client_id-value" "oauth_domain-value"
           "oauth_responseType-value" ["openid"; "email"])
  /\ snd (demo_extract team.extractor_names)
     = [team.GET "http://team.you-company.com";
        team.GET "http://team.you-company.com/main.js";
        HvBodyClose; HvBodyClose; HvCancelTimeout].
Proof. vm_compute. split; reflexivity. Qed.

(** X18 at the address of the documentation. *)
Lemma plain_host_witness :
  team.plain_host "team.you-company.com" = true
  /\ hd_error (snd (demo_extract team.extractor_names))
     = Some (team.GET "http://team.you-company.com").
Proof.
  split; [reflexivity|].
  exact (proj2 (proj2 (ExtractConfig_asks_a_plain_host_over_http
                         demo_jsRegex demo_extractors demo_scopeRegex
                         demo_JoinPath
                         (demo_config_world team.extractor_names)
                         "team.you-company.com" eq_refl)) eq_refl).
Defined.

(** X20 at two orders of the extractors. *)
Lemma extractor_order_witness :
  let r1 := demo_extract team.extractor_names in
  let r2 := demo_extract (rev team.extractor_names) in
  (forall k, In k team.extractor_names <-> In k (rev team.extractor_names))
  /\ snd r1 = snd r2
  /\ match fst (fst r1), fst (fst r2) with
     | inl c1, inl c2 => c1 = c2
     | inr e1, inr e2 =>
         e1 = e2
         \/ (team.Is_team_ErrUnexpected e1 = true
             /\ team.Is_team_ErrUnexpected e2 = true)
     | _, _ => False
     end.
Proof.
  cbv zeta. split; [intros k; apply in_rev|].
  exact (ExtractConfig_order_only_chooses_the_error
           demo_jsRegex demo_extractors demo_scopeRegex demo_JoinPath
           (demo_config_world team.extractor_names)
           (demo_config_world (rev team.extractor_names))
           "team.you-company.com" eq_refl eq_refl
           (fun k => in_rev team.extractor_names k)).
Defined.

(** X21 at the same server. *)
Lemma extracted_groups_witness :
  let c := team.mkRemoteConfig "aws_appsync_graphqlEndpoint-value"
             "aws_user_pools_web_client_id-value" "oauth_domain-value"
             "oauth_responseType-value" ["openid"; "email"] in
  fst (fst (demo_extract team.extractor_names)) = inl c
  /\ exists parsed resp body whole path jsURL resp2 body2,
      url_parse.Parse "team.you-company.com" = Some parsed
      /\ do_result (demo_answer "homepage") = inl resp
      /\ StatusCode resp = StatusOK
      /\ ReadAll resp = inl body
      /\ demo_jsRegex body = [(whole, path)]
      /\ demo_JoinPath (url.String_ (team.server_of parsed)) path = inl jsURL
      /\ do_result (demo_answer "script") = inl resp2
      /\ StatusCode resp2 = StatusOK
      /\ ReadAll resp2 = inl body2
      /\ Forall (fun n => exists m, demo_extractors n body2 = [m])
                team.extractor_names
      /\ c = team.mkRemoteConfig
               (match demo_extractors "aws_appsync_graphqlEndpoint" body2 with
                | [m] => snd m | _ => EmptyString end)
               (match demo_extractors "aws_user_pools_web_client_id" body2 with
                | [m] => snd m | _ => EmptyString end)
               (match demo_extractors "oauth_domain" body2 with
                | [m] => snd m | _ => EmptyString end)
               (match demo_extractors "oauth_responseType" body2 with
                | [m] => snd m | _ => EmptyString end)
               (map snd (demo_scopeRegex
                           (match demo_extractors "oauth_scope" body2 with
                            | [m] => snd m | _ => EmptyString end)))
      /\ snd (demo_extract team.extractor_names)
         = [team.GET (url.String_ (team.server_of parsed)); team.GET jsURL;
            HvBodyClose; HvBodyClose; HvCancelTimeout].
Proof.
  cbv zeta. split; [reflexivity|].
  exact (ExtractConfig_returns_the_groups_of_single_matches
           demo_jsRegex demo_extractors demo_scopeRegex demo_JoinPath
           (demo_config_world team.extractor_names) "team.you-company.com"
           (team.mkRemoteConfig "aws_appsync_graphqlEndpoint-value"
              "aws_user_pools_web_client_id-value" "oauth_domain-value"
              "oauth_responseType-value" ["openid"; "email"])
           (fun k H => H) eq_refl).
Defined.

(* ====================================================================== *)
(** * Part IX: the pattern of the ticket numbers *)

Section TicketFacts.

Import regexp.

Lemma ends_plus_class (ranges : list (ascii * ascii)) (fuel : nat)
  (text : string) (pos : nat) :
  ends (Plus (CharClass ranges)) fuel text pos
  = class_run ranges fuel text pos.
Proof.
  cbn [ends]. generalize fuel. intros n. revert pos.
  induction n as [|n IH]; intros pos.
  - simpl. destruct (String.get pos text) as [c|]; [|reflexivity].
    destruct (in_class c ranges); reflexivity.
  - cbn [class_run]. destruct (String.get pos text) as [c|]; [|reflexivity].
    destruct (in_class c ranges); [|reflexivity].
    cbn [app flat_map].
    assert (Hlt : (pos <? S pos)%nat = true) by (apply Nat.ltb_lt; lia).
    rewrite Hlt, app_nil_r. f_equal. apply IH.
Qed.

Lemma get_past_end (s : string) (pos : nat) :
  (String.length s <= pos)%nat -> String.get pos s = None.
Proof.
  revert pos. induction s as [|c s IH]; intros pos Hl; [reflexivity|].
  destruct pos; simpl in *; [lia|]. apply IH. lia.
Qed.

Lemma class_from_step (ranges : list (ascii * ascii)) (s : string) (pos : nat) :
  (pos < String.length s)%nat ->
  class_from ranges s pos
  = match String.get pos s with
    | Some c => in_class c ranges && class_from ranges s (S pos)
    | None => false
    end.
Proof.
  revert pos. induction s as [|c s IH]; intros pos Hl; [simpl in Hl; lia|].
  destruct pos as [|pos].
  - simpl. destruct s; reflexivity.
  - simpl in Hl. cbn [class_from String.get]. rewrite IH by lia.
    destruct s; reflexivity.
Qed.

Lemma class_from_end (ranges : list (ascii * ascii)) (s : string) (pos : nat) :
  (String.length s <= pos)%nat -> class_from ranges s pos = true.
Proof.
  revert pos. induction s as [|c s IH]; intros pos Hl; [reflexivity|].
  destruct pos; simpl in *; [lia|]. apply IH. lia.
Qed.

(** The end of the text is among the ends of the repetition exactly when
    at least one byte is left and all that are left belong to the class. *)
Lemma class_run_reaches_end (ranges : list (ascii * ascii)) (s : string)
  (n pos : nat) :
  (String.length s <= pos + S n)%nat ->
  existsb (Nat.eqb (String.length s)) (class_run ranges n s pos)
  = (pos <? String.length s)%nat && class_from ranges s pos.
Proof.
  revert pos. induction n as [|n IH]; intros pos Hl.
  - cbn [class_run].
    destruct (Nat.ltb_spec pos (String.length s)) as [Hlt|Hge].
    + rewrite (class_from_step ranges s pos Hlt).
      destruct (String.get pos s) as [c|]; [|reflexivity].
      destruct (in_class c ranges); [|reflexivity].
      cbn [existsb andb]. rewrite class_from_end by lia.
      replace (String.length s) with (S pos) by lia.
      now rewrite Nat.eqb_refl.
    + now rewrite (get_past_end s pos Hge).
  - cbn [class_run].
    destruct (Nat.ltb_spec pos (String.length s)) as [Hlt|Hge].
    + rewrite (class_from_step ranges s pos Hlt).
      destruct (String.get pos s) as [c|]; [|reflexivity].
      destruct (in_class c ranges); [|reflexivity].
      cbn [existsb andb]. rewrite IH by lia.
      destruct (Nat.eqb_spec (String.length s) (S pos)) as [E|NE].
      * rewrite class_from_end by lia. reflexivity.
      * cbn [orb].
        destruct (Nat.ltb_spec (S pos) (String.length s)); [reflexivity|lia].
    + now rewrite (get_past_end s pos Hge).
Qed.

Lemma no_match_after_start (s : string) (fuel : nat) (starts : list nat) :
  Forall (fun p => p <> O) starts ->
  existsb (fun start => match ends TicketRegex fuel s start with
                        | [] => false
                        | _ => true
                        end) starts = false.
Proof.
  induction 1 as [|p starts Hp _ IH]; [reflexivity|].
  cbn [existsb]. rewrite IH, orb_false_r.
  unfold TicketRegex. cbn [ends]. destruct p; [contradiction|]. reflexivity.
Qed.

Lemma class_from_all (s : string) :
  class_from ticket_ranges s O = all_ticket_bytes s.
Proof. induction s as [|c s IH]; simpl; [reflexivity | now rewrite IH]. Qed.

(** X22: the ticket pattern accepts exactly the strings that are not empty
    and are made of ASCII letters, digits, underscores and hyphens: nothing
    may stand before or after them, not even a blank.  The strings of the
    test of the package are accepted and refused as the test requires. *)
Theorem TicketRegex_accepts_words_only (s : string) :
  MatchString TicketRegex s
  = negb (String.eqb s EmptyString) && all_ticket_bytes s
  /\ forallb (MatchString TicketRegex)
             ["123"; "ticket123"; "ticket-123"; "ticket_123"] = true
  /\ forallb (fun t => negb (MatchString TicketRegex t))
             [" 123 "; "  "; "|||||"] = true.
Proof.
  split; [|split; reflexivity].
  unfold MatchString. cbn [seq existsb].
  rewrite no_match_after_start, orb_false_r.
  2:{ apply Forall_forall. intros p Hp. apply in_seq in Hp. lia. }
  unfold TicketRegex.
  change (ends (Concat BeginText
                  (Concat (Plus (CharClass ticket_ranges)) EndText))
               (String.length s) s 0)
    with (flat_map (ends (Concat (Plus (CharClass ticket_ranges)) EndText)
                         (String.length s) s) [O]).
  cbn [flat_map]. rewrite app_nil_r.
  change (ends (Concat (Plus (CharClass ticket_ranges)) EndText)
               (String.length s) s 0)
    with (flat_map (ends EndText (String.length s) s)
                   (ends (Plus (CharClass ticket_ranges))
                         (String.length s) s 0)).
  rewrite ends_plus_class.
  pose proof (class_run_reaches_end ticket_ranges s (String.length s) O
                ltac:(lia)) as R.
  rewrite class_from_all in R.
  assert (Hne : (0 <? String.length s)%nat = negb (String.eqb s EmptyString)).
  { destruct s; reflexivity. }
  rewrite Hne in R. rewrite <- R. clear R Hne.
  induction (class_run ticket_ranges (String.length s) s 0) as [|p l IH];
    [reflexivity|].
  cbn [flat_map existsb ends].
  rewrite (Nat.eqb_sym (String.length s) p).
  destruct (p =? String.length s)%nat; [reflexivity|].
  cbn [app orb]. exact IH.
Qed.

End TicketFacts.

(* ====================================================================== *)
(** * Part X: what the requests carry *)

Lemma Split_facts (s : string) (sep : ascii) :
  Split s sep <> []
  /\ List.length (Split s sep) = S (strings.Count s sep)
  /\ Join (Split s sep) sep = s.
Proof.
  induction s as [|c s (IH1 & IH2 & IH3)]; [repeat split; discriminate|].
  cbn [Split strings.Count].
  destruct (Ascii.eqb_spec c sep) as [->|Hne].
  - split; [discriminate|]. split; [simpl; now rewrite IH2|].
    cbn [Join]. destruct (Split s sep) as [|e rest] eqn:E; [contradiction|].
    rewrite IH3. reflexivity.
  - destruct (Split s sep) as [|e rest] eqn:E; [contradiction|].
    split; [discriminate|]. split; [simpl in *; lia|].
    destruct rest as [|e' rest']; cbn [Join] in *; now rewrite <- IH3.
Qed.

Section Carried.

Import team.

Variable Marshal_gqlRequest : gqlRequest -> string + error.

Variable Unmarshal_Payload : string -> option Payload + error.

Variable Format_RFC3339 : Z -> string.

(** X23: the group ids of the trigger.  The request that the ready callback
    of [FetchAccounts] sends is the marshalled policy query with the user id
    and the group ids of the token, where the group ids are the pieces of
    the claim between its commas: one more than there are commas, and so
    never none.  A token without groups asks for one group, with the empty
    id.  Joined with commas, the pieces give the claim back. *)
Theorem trigger_asks_for_the_groups_between_the_commas
  (w : FetchWorld) (endpoint accessToken : string) (idTok : IDToken)
  (c : Context) (h : Shared) :
  let groups := Split (GroupIDs idTok) "," in
  let asked := mkRequest policyRequest
                 [entry "userId" (AnyString (UserID idTok));
                  entry "groupIds" (AnyStrings groups)] in
  let h' := snd (fetch_onReady Marshal_gqlRequest Unmarshal_Payload w endpoint
                               accessToken idTok c h) in
  groups <> []
  /\ List.length groups = S (strings.Count (GroupIDs idTok) ",")
  /\ Join groups "," = GroupIDs idTok
  /\ (GroupIDs idTok = EmptyString -> groups = [EmptyString])
  /\ exists evs,
      snd h' = snd h ++ evs
      /\ forall method target header body,
          In (HvDo method target header body) evs ->
          Marshal_gqlRequest asked = inl body
          /\ method = "POST" /\ target = endpoint
          /\ header = [("Content-Type", "application/json");
                       ("Authorization", accessToken)].
Proof.
  cbv zeta.
  destruct (Split_facts (GroupIDs idTok) ",") as (S1 & S2 & S3).
  split; [exact S1|]. split; [exact S2|]. split; [exact S3|].
  split; [intros ->; reflexivity|].
  unfold fetch_onReady.
  set (asked := mkRequest policyRequest _).
  destruct (Execute_cases Marshal_gqlRequest Unmarshal_Payload (trigger w)
              endpoint accessToken asked)
    as [(e & [(E & Hc) | (enc & HM & HN & HD & E)])
       | (enc & resp & HM & HN & HD & Ev & Er)]; cbv zeta in *.
  - rewrite E. cbn. eexists. split; [reflexivity|].
    intros m t hd b [F | []]. discriminate F.
  - rewrite E. cbn. eexists. split; [reflexivity|].
    intros m t hd b [F | [F | []]]; [|discriminate F].
    injection F as <- <- <- <-. auto.
  - destruct (Execute Marshal_gqlRequest Unmarshal_Payload (trigger w)
                endpoint accessToken asked) as [[pl err] evs].
    cbn [fst snd] in *. subst evs. eexists. split; [reflexivity|].
    intros m t hd b [F | [F | [F | []]]]; try discriminate F.
    injection F as <- <- <- <-. auto.
Qed.

(** X24: the start time of a request.  [Request] sends the start time of the
    access request, or the current time when that is the zero time, rounded
    down to the minute: a whole number of minutes since the zero time, not
    after the time chosen and less than a minute before it.  The request it
    hands to [Execute] carries that time, formatted, and the duration in
    decimal digits. *)
Theorem Request_starts_on_the_minute
  (now : Z) (req : AccessRequest.t) :
  let chosen := if AccessRequest.StartTime req =? 0 then now
                else AccessRequest.StartTime req in
  let sent := start_time now req in
  sent mod Minute = 0
  /\ sent <= chosen < sent + Minute
  /\ (AccessRequest.StartTime req = 0 -> sent = now - now mod Minute)
  /\ exists before after_,
      Variables (create_request Format_RFC3339 now req)
      = [entry "input"
           (AnyMap (before
                    ++ [entry "duration"
                              (AnyString (strconv.Itoa
                                            (AccessRequest.Duration req)));
                        entry "startTime" (AnyString (Format_RFC3339 sent))]
                    ++ after_))]
      /\ List.length before = 4%nat /\ List.length after_ = 2%nat.
Proof.
  cbv zeta. unfold start_time, Truncate. cbv zeta.
  change (Minute <=? 0) with false. cbv iota.
  set (t := if AccessRequest.StartTime req =? 0 then now
            else AccessRequest.StartTime req).
  assert (HM : 0 < Minute) by reflexivity.
  pose proof (Z.mod_pos_bound t Minute HM) as Hb.
  split.
  { rewrite Zminus_mod, Z.mod_mod, Z.sub_diag by lia. reflexivity. }
  split; [lia|]. split.
  { intros E. unfold t. rewrite E. reflexivity. }
  unfold create_request. cbn [Variables].
  eexists [_; _; _; _], [_; _]. split; [reflexivity | split; reflexivity].
Qed.

End Carried.

Example Split_examples :
  Split EmptyString "," = [EmptyString]
  /\ Split "admins" "," = ["admins"]
  /\ Split "admins,dev,,ops," "," = ["admins"; "dev"; EmptyString; "ops"; EmptyString]
  /\ strconv.Itoa 0 = "0" /\ strconv.Itoa 8 = "8" /\ strconv.Itoa (-15) = "-15"
  /\ strconv.Itoa 9223372036854775807 = "9223372036854775807"
  /\ strconv.Itoa (-9223372036854775808) = "-9223372036854775808".
Proof. vm_compute. repeat split. Qed.
